(** * OSDRP link-state routing simulation: model and verified properties

    Shallow embedding of [src/python/osdrp_simulation.py] (class [Router]:
    [process_lsu], [calculate_routes], [calculate_link_cost]) and of the
    static cost override in [src/python/performance_comparison.py]
    ([OSPFRouter.calculate_link_cost]), together with the parts of the
    [networkx] graph API those methods call ([Graph.add_node], [add_edge],
    [remove_edges_from], [edges], [copy], [dijkstra_path],
    [dijkstra_path_length]).

    Python dictionaries keep insertion order, and the order of the adjacency
    dictionaries decides which of several equal-cost paths Dijkstra's
    algorithm returns, so every dictionary is an association list in
    insertion order.  Python floats are IEEE 754 binary64 numbers: they are
    the primitive floats of the prover, whose operations round as the
    hardware does. *)

From Stdlib Require Import Floats.
From Stdlib Require Uint63.
From Stdlib Require Import List String ZArith QArith Qround Bool Arith Lia Lqa.
Import ListNotations.

Local Open Scope string_scope.
Local Open Scope nat_scope.
Local Open Scope list_scope.

#[local] Set Warnings "-inexact-float".

(* ================================================================== *)
(** * Part I: definitions *)
(* ================================================================== *)

(** ** Python dictionaries with string keys *)

Section Dict.
Context {V : Type}.

(** [d.get(k)] *)
Fixpoint dict_get (k : string) (d : list (string * V)) : option V :=
  match d with
  | [] => None
  | (k', v) :: d' => if String.eqb k k' then Some v else dict_get k d'
  end.

(** [k in d] *)
Definition dict_mem (k : string) (d : list (string * V)) : bool :=
  match dict_get k d with Some _ => true | None => false end.

(** [d[k] = v]: an existing key keeps its position, a new key goes last. *)
Fixpoint dict_set (k : string) (v : V) (d : list (string * V))
  : list (string * V) :=
  match d with
  | [] => [(k, v)]
  | (k', v') :: d' =>
      if String.eqb k k' then (k, v) :: d' else (k', v') :: dict_set k v d'
  end.

(** [del d[k]] (keys of a dictionary are unique). *)
Fixpoint dict_del (k : string) (d : list (string * V)) : list (string * V) :=
  match d with
  | [] => []
  | (k', v') :: d' =>
      if String.eqb k k' then dict_del k d' else (k', v') :: dict_del k d'
  end.

Definition dict_keys (d : list (string * V)) : list string := map fst d.
End Dict.

Definition dict (V : Type) : Type := list (string * V).

(** [e] is the edge between [u] and [v], in either direction. *)
Definition same_edge (u v : string) (e : string * string) : bool :=
  (String.eqb u (fst e) && String.eqb v (snd e))
  || (String.eqb u (snd e) && String.eqb v (fst e)).

(** [list(zip(path, path[1:]))] *)
Definition path_edges (path : list string) : list (string * string) :=
  combine path (tl path).

(** ** Numbers and clocks

    Link costs are Python numbers: [int] for the static cost model, [float]
    for the dynamic one.  The routing code only adds them, compares them,
    tests them for truth and rounds them to two decimals, so it is modelled
    over any type with these operations. *)

Class PyNum (C : Type) := {
  py_zero : C;                     (* the literal 0 *)
  py_add : C -> C -> C;            (* x + y *)
  py_ltb : C -> C -> bool;         (* x < y *)
  py_eqb : C -> C -> bool;         (* x == y *)
  py_round2 : C -> C               (* round(x, 2) *)
}.

(** Truth value of a number in a conditional: [bool(x)] is [x != 0]. *)
Definition py_truthy {C} `{PyNum C} (x : C) : bool := negb (py_eqb x py_zero).

(** [time.time()] values; [age_le now t w] is [now - t <= w]. *)
Class PyClock (T : Type) := {
  age_le : T -> T -> T -> bool;
  one_second : T                   (* the literal 1 of [lsu_window] *)
}.

#[export] Instance PyNum_Z : PyNum Z := {|
  py_zero := 0%Z;
  py_add := Z.add;
  py_ltb := Z.ltb;
  py_eqb := Z.eqb;
  py_round2 := fun x => x          (* round(n, 2) of an int is n *)
|}.

#[export] Instance PyClock_Z : PyClock Z := {|
  age_le := fun now t w => (now - t <=? w)%Z;
  one_second := 1%Z
|}.

(** The clock of the program: [time.time()] returns a float, and
    [current_time - t <= self.lsu_window] is a float subtraction followed
    by a comparison with the integer 1, that is with 1.0. *)
#[export] Instance PyClock_float : PyClock PrimFloat.float := {|
  age_le := fun now t w => PrimFloat.leb (PrimFloat.sub now t) w;
  one_second := 1%float
|}.

(** ** Exceptions *)

Inductive exn : Type :=
| NetworkXNoPath
| NodeNotFound
| ValueError      (* "Contradictory paths found: negative weights?" *)
| KeyError
| IndexError
| ZeroDivisionError
| OverflowError.  (* "cannot convert float infinity to integer" *)

Inductive result (A : Type) : Type :=
| Ok (a : A)
| Raised (e : exn).
Arguments Ok {A} a.
Arguments Raised {A} e.

(** ** networkx.Graph *)

Section GraphModel.
Context {Cost : Type} `{PyNum Cost}.

(** [_node] maps a node to its attributes (here only the optional [seq]),
    [_adj] maps a node to its neighbours and the [cost] of the edge. *)
Record Graph : Type := {
  g_node : dict (option Z);
  g_adj : dict (dict Cost)
}.

(** [nx.Graph()] *)
Definition empty_graph : Graph := {| g_node := []; g_adj := [] |}.

(** [n in G] *)
Definition has_node (G : Graph) (n : string) : bool := dict_mem n (g_node G).

(** [G.nodes[n].get('seq', 0)], for [n in G] *)
Definition node_seq (G : Graph) (n : string) : Z :=
  match dict_get n (g_node G) with
  | Some (Some s) => s
  | _ => 0%Z
  end.

(** [adj[n]], empty for a node without adjacency entry *)
Definition adj_nbrs (adj : dict (dict Cost)) (n : string) : dict Cost :=
  match dict_get n adj with Some nb => nb | None => [] end.

(** [G._adj[n]] *)
Definition neighbors (G : Graph) (n : string) : dict Cost :=
  adj_nbrs (g_adj G) n.

(** [G.has_edge(u, v)] *)
Definition has_edge (G : Graph) (u v : string) : bool :=
  dict_mem v (neighbors G u).

(** [G.edges[u, v]['cost']] *)
Definition edge_cost (G : Graph) (u v : string) : option Cost :=
  dict_get v (neighbors G u).

(** Node creation shared by [add_node] and [add_edge]:
    [if n not in self._node: self._adj[n] = {}; self._node[n] = {}] *)
Definition touch_node (G : Graph) (n : string) : Graph :=
  if dict_mem n (g_node G) then G
  else {| g_node := dict_set n None (g_node G);
          g_adj := dict_set n [] (g_adj G) |}.

(** [attr_dict.update(attr)] on the one attribute [seq] *)
Definition update_attr (old new : option Z) : option Z :=
  match new with Some s => Some s | None => old end.

(** [G.add_node(n, **attr)] with [attr] either [{}] or [{'seq': s}] *)
Definition add_node (G : Graph) (n : string) (attr : option Z) : Graph :=
  let G1 := touch_node G n in
  let old := match dict_get n (g_node G1) with Some a => a | None => None end in
  {| g_node := dict_set n (update_attr old attr) (g_node G1);
     g_adj := g_adj G1 |}.

(** [self._adj[u][v] = datadict] *)
Definition set_adj (adj : dict (dict Cost)) (u v : string) (c : Cost)
  : dict (dict Cost) :=
  dict_set u (dict_set v c (adj_nbrs adj u)) adj.

(** [G.add_edge(u, v, cost=c)] *)
Definition add_edge (G : Graph) (u v : string) (c : Cost) : Graph :=
  let G1 := touch_node (touch_node G u) v in
  {| g_node := g_node G1;
     g_adj := set_adj (set_adj (g_adj G1) u v c) v u c |}.

(** [del self._adj[u][v]] *)
Definition del_adj (adj : dict (dict Cost)) (u v : string)
  : dict (dict Cost) :=
  match dict_get u adj with
  | Some nb => dict_set u (dict_del v nb) adj
  | None => adj
  end.

(** One step of [G.remove_edges_from]: an edge that is not in the graph is
    skipped silently.
    [if u in adj and v in adj[u]: del adj[u][v]; if u != v: del adj[v][u]]
    The second [del] finds its key in every graph built through this API,
    where [adj[u][v]] and [adj[v][u]] exist together ([graph_ok] below). *)
Definition remove_edge (G : Graph) (e : string * string) : Graph :=
  let '(u, v) := e in
  match dict_get u (g_adj G) with
  | Some nb =>
      if dict_mem v nb then
        let adj1 := del_adj (g_adj G) u v in
        {| g_node := g_node G;
           g_adj := if String.eqb u v then adj1 else del_adj adj1 v u |}
      else G
  | None => G
  end.

(** [G.remove_edges_from(ebunch)] *)
Definition remove_edges_from (G : Graph) (ebunch : list (string * string))
  : Graph :=
  fold_left remove_edge ebunch G.

(** [list(G.edges(n))] for a node [n] of [G] *)
Definition edges_of (G : Graph) (n : string) : list (string * string) :=
  map (fun kv => (n, fst kv)) (neighbors G n).

(** [G.copy()]: a new graph receives the nodes in order, then every
    adjacency entry through [add_edge]. *)
Definition copy_nodes (nodes : dict (option Z)) (G : Graph) : Graph :=
  fold_left (fun G' na => add_node G' (fst na) (snd na)) nodes G.

Definition copy_edges_of (u : string) (nbrs : dict Cost) (G : Graph) : Graph :=
  fold_left (fun G' vc => add_edge G' u (fst vc) (snd vc)) nbrs G.

Definition copy_edges (adj : dict (dict Cost)) (G : Graph) : Graph :=
  fold_left (fun G' un => copy_edges_of (fst un) (snd un) G') adj G.

Definition copy (G : Graph) : Graph :=
  copy_edges (g_adj G) (copy_nodes (g_node G) empty_graph).

(** Every node with an adjacency entry is a node of the graph, and an edge
    is stored with the same cost at both of its ends: the two invariants of
    [networkx.Graph]. *)
Definition graph_ok (G : Graph) : Prop :=
  (forall n, dict_get n (g_node G) = None -> dict_get n (g_adj G) = None) /\
  (forall u v, edge_cost G u v = edge_cost G v u).

End GraphModel.

Arguments Graph Cost : clear implicits.


(** ** networkx shortest paths
    ([networkx/algorithms/shortest_paths/weighted.py])

    [_dijkstra_multisource] with the single source and the target that
    [dijkstra_path] and [dijkstra_path_length] pass, and [weight='cost'].
    The fringe is a [heapq] of triples [(distance, counter, node)]; the
    counter is unique, so the least triple is unique and [heappop] returns
    it whatever the layout of the heap (for a total order on distances,
    as on ints and on floats that are not NaN). *)

Section ShortestPaths.
Context {Cost : Type} `{PyNum Cost}.

Definition entry : Type := (Cost * nat * string)%type.

(** Tuple comparison [(d1, c1, _) < (d2, c2, _)]: the first components that
    differ decide. *)
Definition entry_ltb (a b : entry) : bool :=
  let '(d1, c1, _) := a in
  let '(d2, c2, _) := b in
  if py_eqb d1 d2 then c1 <? c2 else py_ltb d1 d2.

(** [heappop(fringe)]: the least entry and the remaining entries. *)
Fixpoint heappop (fringe : list entry) : option (entry * list entry) :=
  match fringe with
  | [] => None
  | x :: t =>
      match heappop t with
      | None => Some (x, [])
      | Some (m, rest) =>
          if entry_ltb m x then Some (m, x :: rest) else Some (x, t)
      end
  end.

(** [heappush(fringe, e)] *)
Definition heappush (fringe : list entry) (e : entry) : list entry :=
  fringe ++ [e].

Record dstate : Type := {
  dist : dict Cost;              (* final distances *)
  seen : dict Cost;              (* best distance seen so far *)
  paths : dict (list string);    (* paths[u] = paths[v] + [u] *)
  fringe : list entry;
  counter : nat                  (* c = count() *)
}.

(** The loop [for u, e in G_succ[v].items()] for a node [v] that was just
    given its final distance [d]. *)
Fixpoint relax (v : string) (d : Cost) (nbrs : dict Cost) (st : dstate)
  : result dstate :=
  match nbrs with
  | [] => Ok st
  | (u, cost) :: rest =>
      let vu_dist := py_add d cost in
      match dict_get u (dist st) with
      | Some u_dist =>
          if py_ltb vu_dist u_dist then Raised ValueError
          else relax v d rest st
      | None =>
          let better :=
            match dict_get u (seen st) with
            | None => true
            | Some s => py_ltb vu_dist s
            end in
          if better then
            match dict_get v (paths st) with
            | None => Raised KeyError
            | Some pv =>
                relax v d rest
                  {| dist := dist st;
                     seen := dict_set u vu_dist (seen st);
                     paths := dict_set u (pv ++ [u]) (paths st);
                     fringe := heappush (fringe st) (vu_dist, counter st, u);
                     counter := S (counter st) |}
            end
          else relax v d rest st
      end
  end.

(** The loop [while fringe].  Every iteration pops one entry, and entries
    are pushed only while a node receives its final distance, so the loop
    ends within [dijkstra_fuel] iterations ([dijkstra_loop_fuel_enough]
    below). *)
Fixpoint dijkstra_loop (fuel : nat) (G_succ : dict (dict Cost))
  (target : string) (st : dstate) : result dstate :=
  match fuel with
  | O => Ok st
  | S fuel' =>
      match heappop (fringe st) with
      | None => Ok st
      | Some ((d, _, v), rest) =>
          let st1 := {| dist := dist st; seen := seen st; paths := paths st;
                        fringe := rest; counter := counter st |} in
          if dict_mem v (dist st1) then dijkstra_loop fuel' G_succ target st1
          else
            let st2 := {| dist := dict_set v d (dist st1); seen := seen st1;
                          paths := paths st1; fringe := fringe st1;
                          counter := counter st1 |} in
            if String.eqb v target then Ok st2
            else
              match dict_get v G_succ with
              | None => Raised KeyError
              | Some nbrs =>
                  match relax v d nbrs st2 with
                  | Ok st3 => dijkstra_loop fuel' G_succ target st3
                  | Raised e => Raised e
                  end
              end
      end
  end.

(** Number of adjacency entries of nodes without final distance, plus the
    size of the fringe: it decreases with every iteration. *)
Fixpoint pending (G_succ : dict (dict Cost)) (done : dict Cost) : nat :=
  match G_succ with
  | [] => 0
  | (v, nbrs) :: rest =>
      (if dict_mem v done then 0 else List.length nbrs) + pending rest done
  end.

Definition dijkstra_fuel (G_succ : dict (dict Cost)) : nat :=
  S (pending G_succ []).

(** State after [seen[source] = 0; push(fringe, (0, next(c), source))] with
    [paths = {source: [source]}]. *)
Definition dijkstra_init (source : string) : dstate :=
  {| dist := [];
     seen := [(source, py_zero)];
     paths := [(source, [source])];
     fringe := [(py_zero, 0, source)];
     counter := 1 |}.

Definition _dijkstra_multisource (G : Graph Cost) (source target : string)
  : result dstate :=
  dijkstra_loop (dijkstra_fuel (g_adj G)) (g_adj G) target
    (dijkstra_init source).

(** [single_source_dijkstra(G, source, target, weight='cost')] *)
Definition single_source_dijkstra (G : Graph Cost) (source target : string)
  : result (Cost * list string) :=
  if negb (has_node G source) then Raised NodeNotFound
  else if String.eqb target source then Ok (py_zero, [target])
  else
    match _dijkstra_multisource G source target with
    | Raised e => Raised e
    | Ok st =>
        match dict_get target (dist st), dict_get target (paths st) with
        | Some d, Some p => Ok (d, p)
        | _, _ => Raised NetworkXNoPath
        end
    end.

(** [nx.dijkstra_path(G, source, target, weight='cost')] *)
Definition dijkstra_path (G : Graph Cost) (source target : string)
  : result (list string) :=
  match single_source_dijkstra G source target with
  | Ok (_, p) => Ok p
  | Raised e => Raised e
  end.

(** [nx.dijkstra_path_length(G, source, target, weight='cost')]: the same
    search run without the path bookkeeping, which has no influence on
    [dist]. *)
Definition dijkstra_path_length (G : Graph Cost) (source target : string)
  : result Cost :=
  if negb (has_node G source) then Raised NodeNotFound
  else if String.eqb source target then Ok py_zero
  else
    match _dijkstra_multisource G source target with
    | Raised e => Raised e
    | Ok st =>
        match dict_get target (dist st) with
        | Some d => Ok d
        | None => Raised NetworkXNoPath
        end
    end.

(** [p] follows edges of [G]. *)
Definition is_walk (G : Graph Cost) (p : list string) : Prop :=
  forall a b, In (a, b) (path_edges p) -> has_edge G a b = true.

(** Every recorded path [paths[u]] follows edges of [G] from [source] to
    [u]. *)
Definition paths_ok (G : Graph Cost) (source : string) (st : dstate) : Prop :=
  forall u p, dict_get u (paths st) = Some p ->
    is_walk G p /\ (exists q, p = q ++ [u]) /\ (exists q, p = source :: q).

End ShortestPaths.


(** ** Advertisements (LSUs) and their simulated signature *)

Section Protocol.
Context {Cost : Type} `{PyNum Cost} {Time : Type} `{PyClock Time}.

(** [lsu['data']]: [{"source_id": .., "sequence_number": .., "links": ..}],
    where [links] maps a neighbour to [{'cost': cost}]. *)
Record LsuData : Type := {
  source_id : string;
  data_sequence_number : Z;
  links : dict Cost
}.

(** [{"data": lsu_data, "signature": signature}] *)
Record Lsu : Type := {
  data : LsuData;
  signature : Z
}.

(** The configuration value [PUBLIC_KEYS] and the builtins [hash] and [str]
    that the signature is made of. *)
Variable PUBLIC_KEYS : dict string.
Variable py_hash : string -> Z.
Variable py_str : LsuData -> string.

(** [hash(str(message) + PUBLIC_KEYS[source_id])] *)
Definition sign_message (message : LsuData) (sid : string) : result Z :=
  match dict_get sid PUBLIC_KEYS with
  | Some key => Ok (py_hash (py_str message ++ key))
  | None => Raised KeyError
  end.

(** [signature == sign_message(message, source_id)] *)
Definition verify_signature (message : LsuData) (sig : Z) (sid : string)
  : result bool :=
  match sign_message message sid with
  | Ok s => Ok (Z.eqb sig s)
  | Raised e => Raised e
  end.

(** ** The router *)

Record RouteEntry : Type := {
  next_hop : string;
  total_cost : Cost;
  path : list string;
  backup_path : option (list string);
  backup_cost : option Cost
}.

(** The fields of [Router] that [process_lsu] and [calculate_routes] use;
    [graph], [w1] and [w2] belong to the cost model below. *)
Record Router : Type := {
  id : string;
  topology : Graph Cost;
  sequence_number : Z;
  routing_table : dict RouteEntry;
  lsu_timestamps : list Time;
  lsu_rate_limit : nat;
  lsu_window : Time
}.

(** [Router.__init__] *)
Definition new_router (router_id : string) : Router :=
  {| id := router_id;
     topology := empty_graph;
     sequence_number := 0;
     routing_table := [];
     lsu_timestamps := [];
     lsu_rate_limit := 10;
     lsu_window := one_second |}.

Definition set_lsu_timestamps (r : Router) (ts : list Time) : Router :=
  {| id := id r; topology := topology r;
     sequence_number := sequence_number r;
     routing_table := routing_table r;
     lsu_timestamps := ts;
     lsu_rate_limit := lsu_rate_limit r; lsu_window := lsu_window r |}.

Definition set_topology (r : Router) (g : Graph Cost) : Router :=
  {| id := id r; topology := g;
     sequence_number := sequence_number r;
     routing_table := routing_table r;
     lsu_timestamps := lsu_timestamps r;
     lsu_rate_limit := lsu_rate_limit r; lsu_window := lsu_window r |}.

Definition set_routing_table (r : Router) (t : dict RouteEntry) : Router :=
  {| id := id r; topology := topology r;
     sequence_number := sequence_number r;
     routing_table := t;
     lsu_timestamps := lsu_timestamps r;
     lsu_rate_limit := lsu_rate_limit r; lsu_window := lsu_window r |}.

Definition set_sequence_number (r : Router) (n : Z) : Router :=
  {| id := id r; topology := topology r;
     sequence_number := n;
     routing_table := routing_table r;
     lsu_timestamps := lsu_timestamps r;
     lsu_rate_limit := lsu_rate_limit r; lsu_window := lsu_window r |}.

(** [create_lsu], given the [links_data] that its loop over the neighbours
    collects from [calculate_link_cost]. *)
Definition create_lsu (r : Router) (links_data : dict Cost)
  : Router * result Lsu :=
  let r1 := set_sequence_number r (sequence_number r + 1) in
  let lsu_data := {| source_id := id r1;
                     data_sequence_number := sequence_number r1;
                     links := links_data |} in
  match sign_message lsu_data (id r1) with
  | Ok s => (r1, Ok {| data := lsu_data; signature := s |})
  | Raised e => (r1, Raised e)
  end.

(** [process_lsu] returns [True] at one place and [False] at three; the
    outcome names the place. *)
Inductive Outcome : Type :=
| Accepted       (* return True *)
| RateLimited    (* return False, "Rate limit exceeded" *)
| InvalidTag     (* return False, "Invalid signature" *)
| Stale.         (* return False, sequence number not new *)

Definition returned (o : Outcome) : bool :=
  match o with Accepted => true | _ => false end.

(** The loop [for neighbor, props in data['links'].items()] *)
Definition add_links (G : Graph Cost) (sid : string) (lk : dict Cost)
  : Graph Cost :=
  fold_left (fun G' nc => add_edge G' sid (fst nc) (snd nc)) lk G.

(** [[t for t in self.lsu_timestamps if current_time - t <= self.lsu_window]] *)
Definition evict (r : Router) (current_time : Time) : list Time :=
  filter (fun t => age_le current_time t (lsu_window r)) (lsu_timestamps r).

(** [Router.process_lsu], with the value of [time.time()] as an argument. *)
Definition process_lsu (r : Router) (current_time : Time) (lsu : Lsu)
  : Router * result Outcome :=
  let r1 := set_lsu_timestamps r (evict r current_time) in
  if lsu_rate_limit r1 <=? List.length (lsu_timestamps r1) then
    (r1, Ok RateLimited)
  else
    let d := data lsu in
    let sid := source_id d in
    match verify_signature d (signature lsu) sid with
    | Raised e => (r1, Raised e)
    | Ok false => (r1, Ok InvalidTag)
    | Ok true =>
        if has_node (topology r1) sid
           && (data_sequence_number d <=? node_seq (topology r1) sid)%Z
        then (r1, Ok Stale)
        else
          let r2 := set_lsu_timestamps r1
                      (lsu_timestamps r1 ++ [current_time]) in
          let topo1 := add_node (topology r2) sid
                         (Some (data_sequence_number d)) in
          let old_edges := edges_of topo1 sid in
          let topo2 := remove_edges_from topo1 old_edges in
          let topo3 := add_links topo2 sid (links d) in
          (set_topology r2 topo3, Ok Accepted)
    end.

(** The body of the [for target_node] loop of [calculate_routes] up to the
    table entry; [Raised NetworkXNoPath] is what the outer [except] catches. *)
Definition route_entry (topo : Graph Cost) (self_id target_node : string)
  : result RouteEntry :=
  match dijkstra_path topo self_id target_node with
  | Raised e => Raised e
  | Ok primary_path =>
  match dijkstra_path_length topo self_id target_node with
  | Raised e => Raised e
  | Ok primary_cost =>
      let topology_copy := copy topo in
      let topology_copy :=
        remove_edges_from topology_copy (path_edges primary_path) in
      let backup :=
        match dijkstra_path topology_copy self_id target_node with
        | Raised NetworkXNoPath => Ok (None, None)
        | Raised e => Raised e
        | Ok backup_path =>
            match dijkstra_path_length topology_copy self_id target_node with
            | Raised NetworkXNoPath => Ok (None, None)
            | Raised e => Raised e
            | Ok backup_cost => Ok (Some backup_path, Some backup_cost)
            end
        end in
      match backup with
      | Raised e => Raised e
      | Ok (backup_path, backup_cost) =>
          match primary_path with
          | _ :: hop :: _ =>
              Ok {| next_hop := hop;
                    total_cost := py_round2 primary_cost;
                    path := primary_path;
                    backup_path := backup_path;
                    backup_cost :=
                      match backup_cost with
                      | Some c =>
                          if py_truthy c then Some (py_round2 c) else None
                      | None => None
                      end |}
          | _ => Raised IndexError
          end
      end
  end
  end.

(** The loop [for target_node in self.topology.nodes].  An exception other
    than [NetworkXNoPath] leaves the loop with the table built so far. *)
Fixpoint routes_loop (topo : Graph Cost) (self_id : string)
  (targets : list string) (table : dict RouteEntry)
  : dict RouteEntry * option exn :=
  match targets with
  | [] => (table, None)
  | target_node :: rest =>
      if String.eqb target_node self_id then
        routes_loop topo self_id rest table
      else
        match route_entry topo self_id target_node with
        | Ok e => routes_loop topo self_id rest (dict_set target_node e table)
        | Raised NetworkXNoPath => routes_loop topo self_id rest table
        | Raised e => (table, Some e)
        end
  end.

(** [Router.calculate_routes]; the second component is the exception that
    escapes, if any. *)
Definition calculate_routes (r : Router) : Router * option exn :=
  if negb (has_node (topology r) (id r)) then (r, None)
  else
    let '(table, e) :=
      routes_loop (topology r) (id r) (dict_keys (g_node (topology r))) [] in
    (set_routing_table r table, e).

(** A router lives through a sequence of method calls. *)
Inductive Call : Type :=
| CallProcessLsu (current_time : Time) (lsu : Lsu)
| CallCalculateRoutes
| CallCreateLsu (links_data : dict Cost).

Definition call (r : Router) (c : Call) : Router :=
  match c with
  | CallProcessLsu current_time lsu => fst (process_lsu r current_time lsu)
  | CallCalculateRoutes => fst (calculate_routes r)
  | CallCreateLsu links_data => fst (create_lsu r links_data)
  end.

Definition run (r : Router) (calls : list Call) : Router :=
  fold_left call calls r.

(** The edges an advertisement announces, as [G.edges(source)] lists them. *)
Definition link_edges (d : LsuData) : list (string * string) :=
  map (fun nc => (source_id d, fst nc)) (links d).

End Protocol.


(** ** Runs of [process_lsu] calls and their clock *)

Section ReceiveRuns.
Context {Cost : Type} {Time : Type} `{PyClock Time}.
Variable PUBLIC_KEYS : dict string.
Variable py_hash : string -> Z.
Variable py_str : LsuData (Cost := Cost) -> string.

(** The router after the calls [process_lsu(lsu)] of [events], each made
    at the time paired with its advertisement. *)
Definition receive_events (r : Router (Cost := Cost) (Time := Time))
  (events : list (Time * Lsu)) : Router :=
  fold_left (fun r' e => fst (process_lsu PUBLIC_KEYS py_hash py_str r'
                                (fst e) (snd e))) events r.

(** The times at which the advertisements of a run are accepted: the run
    delivers each advertisement of [events] at the time paired with it. *)
Fixpoint accepted_times (r : Router (Cost := Cost) (Time := Time))
  (events : list (Time * Lsu)) : list Time :=
  match events with
  | [] => []
  | (now, lsu) :: rest =>
      let '(r', o) := process_lsu PUBLIC_KEYS py_hash py_str r now lsu in
      match o with
      | Ok Accepted => now :: accepted_times r' rest
      | _ => accepted_times r' rest
      end
  end.

End ReceiveRuns.

(** A timestamp [t] that the test [now - t <= w] of a call finds too old is
    found too old by the test of every later call: [later] lists the times
    of the calls made after [t] was taken, in the order of the calls. *)
Fixpoint stays_old {Time : Type} `{PyClock Time} (w t : Time)
  (later : list Time) : bool :=
  match later with
  | [] => true
  | now :: rest =>
      (age_le now t w || forallb (fun now' => negb (age_le now' t w)) rest)
      && stays_old w t rest
  end.

(** Timestamps only age along the calls made at [times]: none of these
    times, once too old for the window [w], is young again at a later
    call.  This is what a clock that is set back breaks. *)
Fixpoint ages_grow {Time : Type} `{PyClock Time} (w : Time)
  (times : list Time) : bool :=
  match times with
  | [] => true
  | t :: later => stays_old w t later && ages_grow w later
  end.

(** ** Runs on an integer clock *)

Section IntegerClock.
Context {Cost : Type}.

(** [t] lies in the interval from [a] to [a + w]. *)
Definition in_window (a w t : Z) : bool := ((a <=? t) && (t <=? a + w))%Z.

(** The clock does not run backwards: the times of [events] do not
    decrease, starting from [t0]. *)
Fixpoint clock_ordered (t0 : Z) (events : list (Z * Lsu (Cost := Cost)))
  : Prop :=
  match events with
  | [] => True
  | (now, _) :: rest => (t0 <= now)%Z /\ clock_ordered now rest
  end.

End IntegerClock.

(** ** Link cost models

    [Router.calculate_link_cost] (dynamic) and
    [OSPFRouter.calculate_link_cost] (static) compute on Python floats.
    The attributes of a link and the weights are floats; a whole number of
    the JSON files enters as the float of the same value, which is what
    Python's [int / int], [int * float] and [int + float] compute from it
    (exactly so for integers below 2^53).  The value drawn by
    [random.uniform(-2, 2)] is the argument [jitter]. *)

Module LinkCost.
Local Open Scope Z_scope.

(** [self.graph.edges[self.id, neighbor_id]] *)
Record LinkData : Type := {
  base_latency : float;
  bandwidth : float
}.

(** The integer nearest to [m * 2^e], a tie going to the even one, for
    [m] that is not negative. *)
Definition nearest_even (m e : Z) : Z :=
  match e with
  | Zneg p =>
      let d := Z.pow_pos 2 p in
      let q := m / d in
      match 2 * (m mod d) ?= d with
      | Lt => q
      | Gt => q + 1
      | Eq => if Z.even q then q else q + 1
      end
  | _ => m * 2 ^ e
  end.

(** [round(x)] of a float: the nearest integer, a tie to the even one;
    [OverflowError] for an infinity and [ValueError] for a NaN. *)
Definition py_round (x : float) : result Z :=
  match Prim2SF x with
  | S754_zero _ => Ok 0
  | S754_finite s m e => Ok (cond_Zopp s (nearest_even (Zpos m) e))
  | S754_infinity _ => Raised OverflowError
  | S754_nan => Raised ValueError
  end.

(** [round(x, 2)] of a float: the float nearest to the two-decimal number
    nearest to [x] (a tie to the even last digit).  With [n] the nearest
    integer to [100 * |x|], that is [n / 100] correctly rounded, which the
    float division gives when [n] is below 2^53; from there on the floats
    are more than 0.01 apart and the result is [x].  Zeros, infinities and
    NaN round to themselves, and the sign is kept. *)
Definition py_round_2 (x : float) : float :=
  match Prim2SF x with
  | S754_finite s m e =>
      let n := nearest_even (Zpos m * 100) e in
      if n <? 2 ^ 53 then
        let y := (of_uint63 (Uint63.of_Z n) / 100)%float in
        if s then (- y)%float else y
      else x
  | _ => x
  end.

(** [x / y] *)
Definition py_div (x y : float) : result float :=
  if (y =? 0)%float then Raised ZeroDivisionError else Ok (x / y)%float.

(** [Router.calculate_link_cost] *)
Definition calculate_link_cost (w1 w2 : float) (link_data : LinkData)
  (jitter : float) : result float :=
  let latency := (base_latency link_data + jitter)%float in
  let normalized_latency := (latency / 50)%float in
  let normalized_bandwidth := (bandwidth link_data / 200)%float in
  match py_div 1 (normalized_bandwidth + 0.01)%float with
  | Ok inv =>
      let cost := (w1 * normalized_latency + w2 * inv)%float in
      Ok (py_round_2 cost)
  | Raised e => Raised e
  end.

(** [OSPFRouter.calculate_link_cost] *)
Definition ospf_calculate_link_cost (link_data : LinkData) : result Z :=
  let reference_bandwidth := 1000%float in
  match py_div reference_bandwidth (bandwidth link_data) with
  | Ok cost =>
      match py_round cost with
      | Ok n => Ok (Z.max 1 n)
      | Raised e => Raised e
      end
  | Raised e => Raised e
  end.

(** The static cost is computed without exception: the bandwidth is not 0
    and the quotient is neither an infinity nor a NaN. *)
Definition static_cost_defined (link_data : LinkData) : bool :=
  negb (bandwidth link_data =? 0)%float
  && is_finite (1000 / bandwidth link_data)%float.

(** [x < 0] is false: [x] is zero, positive or a NaN. *)
Definition not_negative (x : float) : Prop := (x <? 0)%float = false.

(** The same on the sign, mantissa and exponent of a float, and the test
    for a zero of either sign. *)
Definition sf_not_negative (x : spec_float) : bool :=
  match x with
  | S754_infinity s | S754_finite s _ _ => negb s
  | _ => true
  end.

Definition sf_is_zero (x : spec_float) : bool :=
  match x with S754_zero _ => true | _ => false end.

(** A 1 ms link of 200 Gbit/s, and a 2 ms link of the same bandwidth. *)
Definition fast_short_link : LinkData :=
  {| base_latency := 1; bandwidth := 200000 |}.
Definition fast_link : LinkData :=
  {| base_latency := 2; bandwidth := 200000 |}.
Definition plain_link : LinkData :=
  {| base_latency := 10; bandwidth := 100 |}.
(** A link whose bandwidth is positive and so small that the quotient
    [1000 / bandwidth] overflows. *)
Definition faint_link : LinkData :=
  {| base_latency := 10; bandwidth := 1e-306 |}.
(** Links without bandwidth, with a negative bandwidth, with the negative
    bandwidth nearest to 0, and with a NaN for bandwidth. *)
Definition dead_link : LinkData :=
  {| base_latency := 10; bandwidth := 0 |}.
Definition negative_link : LinkData :=
  {| base_latency := 10; bandwidth := -5 |}.
Definition faint_negative_link : LinkData :=
  {| base_latency := 10; bandwidth := -0x1p-1074 |}.
Definition nan_link : LinkData :=
  {| base_latency := 10; bandwidth := nan |}.

End LinkCost.

(** ** The cost formula in exact arithmetic

    The formula of [Router.calculate_link_cost] read over the rational
    numbers, without rounding error or overflow.  It is not the float
    program, which is [LinkCost.calculate_link_cost] above; it locates the
    bandwidth at which the divisor [normalized_bandwidth + 0.01]
    vanishes. *)

Module ExactCost.
Local Open Scope Q_scope.

(** [self.graph.edges[self.id, neighbor_id]] *)
Record LinkData : Type := {
  base_latency : Q;
  bandwidth : Q
}.

(** [round(x)] of a rational: the nearest integer, a tie to the even
    one. *)
Definition py_round (x : Q) : Z :=
  let f := Qfloor x in
  match Qcompare (x - inject_Z f) (1 # 2) with
  | Lt => f
  | Gt => (f + 1)%Z
  | Eq => if Z.even f then f else (f + 1)%Z
  end.

(** [round(x, 2)] of a rational *)
Definition py_round_2 (x : Q) : Q := inject_Z (py_round (x * 100)) / 100.

(** [x / y] of rationals *)
Definition py_div (x y : Q) : result Q :=
  if Qeq_bool y 0 then Raised ZeroDivisionError else Ok (x / y).

(** The value of [cost] before [round(cost, 2)]. *)
Definition dynamic_cost (w1 w2 : Q) (link_data : LinkData) (jitter : Q)
  : result Q :=
  let latency := base_latency link_data + jitter in
  let normalized_latency := latency / 50 in
  let normalized_bandwidth := bandwidth link_data / 200 in
  match py_div 1 (normalized_bandwidth + (1 # 100)) with
  | Ok inv => Ok (w1 * normalized_latency + w2 * inv)
  | Raised e => Raised e
  end.

(** The formula of [Router.calculate_link_cost] on rationals *)
Definition calculate_link_cost (w1 w2 : Q) (link_data : LinkData) (jitter : Q)
  : result Q :=
  match dynamic_cost w1 w2 link_data jitter with
  | Ok cost => Ok (py_round_2 cost)
  | Raised e => Raised e
  end.

End ExactCost.

(** ** Concrete runs: integer costs and times, a fixed key table *)

Module Scenario.
Local Open Scope Z_scope.

Definition keys : dict string :=
  [("R0", "secret_key_0"); ("R1", "secret_key_1");
   ("R2", "secret_key_2"); ("R3", "secret_key_3")].

(** Stand-ins for the builtins [str] and [hash]: any two functions do, the
    protocol only compares a recomputed tag with the one in the message. *)
Definition str_of (d : LsuData (Cost := Z)) : string :=
  source_id d ++ String.concat "," (map fst (links d)).
Definition hash_of (s : string) : Z := Z.of_nat (String.length s).

Definition originate (r : Router (Cost := Z) (Time := Z)) (lk : dict Z) :=
  create_lsu keys hash_of str_of r lk.
Definition receive (r : Router (Cost := Z) (Time := Z)) (now : Z) (l : Lsu) :=
  process_lsu keys hash_of str_of r now l.

(** The advertisement a fresh router [rid] originates for the links [lk]. *)
Definition first_lsu (rid : string) (lk : dict Z) : Lsu (Cost := Z) :=
  match snd (originate (new_router rid) lk) with
  | Ok l => l
  | Raised _ => {| data := {| source_id := rid; data_sequence_number := 1;
                              links := lk |};
                   signature := 0 |}
  end.

(** Delivery of a list of advertisements, all at time [now]. *)
Definition receive_all (r : Router (Cost := Z) (Time := Z)) (now : Z)
  (ls : list Lsu) : Router :=
  fold_left (fun r' l => fst (receive r' now l)) ls r.

(** Scenario A: the path R0 - R1 - R2 with costs 1 and 1. *)
Definition lsuA_R0 := first_lsu "R0" [("R1", 1)].
Definition lsuA_R1 := first_lsu "R1" [("R0", 1); ("R2", 1)].
Definition lsuA_R2 := first_lsu "R2" [("R1", 1)].

(** A triangle R0, R1, R2 whose three links cost 0. *)
Definition lsuZ_R1 := first_lsu "R1" [("R0", 0); ("R2", 0)].
Definition lsuZ_R2 := first_lsu "R2" [("R0", 0); ("R1", 0)].

(** R1 advertises its link to R2; R2 then advertises a link to R0 only. *)
Definition lsuM_R1 := first_lsu "R1" [("R2", 5)].
Definition lsuM_R2 := first_lsu "R2" [("R0", 2)].

(** Scenario B: the square R0 - R1 - R2, R0 - R3 - R2. *)
Definition lsuB_R1 := first_lsu "R1" [("R0", 1); ("R2", 1)].
Definition lsuB_R3 := first_lsu "R3" [("R0", 2); ("R2", 2)].

(** R0 after the advertisements of scenario A, B and of the zero-cost
    triangle. *)
Definition routerA : Router :=
  receive_all (new_router "R0") 0 [lsuA_R1; lsuA_R2].
Definition routerB : Router :=
  receive_all (new_router "R0") 0 [lsuB_R1; lsuB_R3].
Definition routerZ : Router :=
  receive_all (new_router "R0") 0 [lsuZ_R1; lsuZ_R2].


(** The router after [n] calls of [create_lsu], and the advertisement its
    next call returns (sequence number [n + 1]). *)
Fixpoint originate_n (r : Router (Cost := Z) (Time := Z)) (n : nat)
  (lk : dict Z) : Router :=
  match n with
  | O => r
  | S n' => fst (originate (originate_n r n' lk) lk)
  end.

Definition nth_lsu (rid : string) (n : nat) (lk : dict Z) : Lsu (Cost := Z) :=
  match snd (originate (originate_n (new_router rid) n lk) lk) with
  | Ok l => l
  | Raised _ => {| data := {| source_id := rid; data_sequence_number := 0;
                              links := lk |};
                   signature := 0 |}
  end.

(** R1 announces two links, then supersedes them with one. *)
Definition lsuS_v1 := nth_lsu "R1" 0 [("R0", 1); ("R2", 5)].
Definition lsuS_v2 := nth_lsu "R1" 1 [("R0", 3)].
Definition routerS1 : Router := fst (receive (new_router "R0") 0 lsuS_v1).
Definition routerS2 : Router := fst (receive routerS1 1 lsuS_v2).

Definition routerM1 : Router := fst (receive (new_router "R0") 0 lsuM_R1).
Definition routerM2 : Router := fst (receive routerM1 0 lsuM_R2).

(** Ten advertisements of R1 accepted at time 0 fill the rate limiter. *)
Definition burst : list Lsu :=
  map (fun n => nth_lsu "R1" n [("R0", 1)]) (seq 0 10).
Definition routerFull : Router := receive_all (new_router "R0") 0 burst.

(** An advertisement of R2 with a tag that does not verify. *)
Definition lsu_forged : Lsu (Cost := Z) :=
  {| data := data lsuA_R2; signature := signature lsuA_R2 + 1 |}.

(** A router that is not in its own database but has a routing table. *)
Definition router_detached : Router (Cost := Z) (Time := Z) :=
  set_routing_table (fst (receive (new_router "R0") 0 lsuM_R1))
    [("R1", {| next_hop := "R1"; total_cost := 1; path := ["R0"; "R1"];
               backup_path := None; backup_cost := None |})].

(** Instants of the window [[0, 1]]. *)
Definition in_unit_window (t : Z) : bool := (0 <=? t) && (t <=? 1).

End Scenario.

(** ** Further notions used in Part III *)

Section MoreNotions.
Context {Cost : Type}.

(** Every recorded path [paths[u]] ends at [u], visits no node twice, and
    all its nodes before [u] have their final distance. *)
Definition paths_simple (st : dstate (Cost := Cost)) : Prop :=
  forall u p, dict_get u (paths st) = Some p ->
    NoDup p /\
    exists q, p = q ++ [u] /\
              forall x, In x q -> dict_mem x (dist st) = true.

(** Keys are unique in the adjacency dictionaries, as in every Python
    dictionary. *)
Definition adj_nodup (adj : dict (dict Cost)) : Prop :=
  NoDup (dict_keys adj) /\
  forall u nbrs, In (u, nbrs) adj -> NoDup (dict_keys nbrs).

Definition graph_nodup (G : Graph Cost) : Prop := adj_nodup (g_adj G).

(** A well-formed [networkx.Graph]. *)
Definition graph_wf (G : Graph Cost) : Prop := graph_ok G /\ graph_nodup G.

(** The edges of [G] are edges of the cost function [f]. *)
Definition agrees (f : string -> string -> option Cost) (G : Graph Cost)
  : Prop :=
  graph_ok G /\
  forall a b, edge_cost G a b = None \/ edge_cost G a b = f a b.

End MoreNotions.

(** Sum of the edge costs along a path, for integer costs. *)
Fixpoint walk_cost (G : Graph Z) (p : list string) : option Z :=
  match p with
  | a :: ((b :: _) as q) =>
      match edge_cost G a b, walk_cost G q with
      | Some c, Some s => Some (c + s)%Z
      | _, _ => None
      end
  | _ => Some 0%Z
  end.

(** What the search knows at each turn of its loop, for integer costs:
    [seen[u]] is the cost of the recorded path [paths[u]]; a node without
    final distance has its best distance waiting in the fringe; no entry of
    the fringe is better than [seen]; a final distance is the value of
    [seen] at the time it was fixed. *)
Definition cost_inv (G : Graph Z) (st : dstate (Cost := Z)) : Prop :=
  (forall u s, dict_get u (seen st) = Some s ->
     exists p, dict_get u (paths st) = Some p /\
               walk_cost G p = Some s /\ exists q, p = q ++ [u]) /\
  (forall u s, dict_get u (seen st) = Some s ->
     dict_get u (dist st) = None ->
     exists c, In (s, c, u) (fringe st)) /\
  (forall d c u, In (d, c, u) (fringe st) ->
     exists s, dict_get u (seen st) = Some s /\ (s <= d)%Z) /\
  (forall u d, dict_get u (dist st) = Some d ->
     dict_get u (seen st) = Some d).

(** ** The physical topology, failure injection and the links of an
    advertisement

    The module-level graph [G] carries the [base_latency] and [bandwidth] of
    each link. *)

Section Physical.
Context {Data : Type}.

(** [G = nx.Graph(); G.add_nodes_from(nodes);
     for edge in edges: G.add_edge(source, target, **attributes)] *)
Definition build_topology (nodes : list string)
  (edges : list (string * string * Data)) : Graph Data :=
  fold_left (fun g e => add_edge g (fst (fst e)) (snd (fst e)) (snd e)) edges
    (fold_left (fun g n => add_node g n None) nodes empty_graph).

(** [list(G.edges())]: each node lists its neighbours that were not nodes
    of an earlier turn. *)
Fixpoint edges_from (adj : dict (dict Data)) (seen : list string)
  : list (string * string) :=
  match adj with
  | [] => []
  | (n, nbrs) :: rest =>
      map (fun kv => (n, fst kv))
        (filter (fun kv => negb (existsb (String.eqb (fst kv)) seen)) nbrs)
      ++ edges_from rest (n :: seen)
  end.

Definition all_edges (G : Graph Data) : list (string * string) :=
  edges_from (g_adj G) [].

(** [G.remove_edge(u, v)]; [None] stands for the [NetworkXError] it raises
    when a key is missing. *)
Definition remove_edge_strict (G : Graph Data) (e : string * string)
  : option (Graph Data) :=
  let '(u, v) := e in
  match dict_get u (g_adj G) with
  | None => None
  | Some nb =>
      if dict_mem v nb then
        let adj1 := del_adj (g_adj G) u v in
        if String.eqb u v then Some {| g_node := g_node G; g_adj := adj1 |}
        else
          match dict_get v adj1 with
          | Some nbv =>
              if dict_mem u nbv
              then Some {| g_node := g_node G; g_adj := del_adj adj1 v u |}
              else None
          | None => None
          end
      else None
  end.

(** The loop over [links_to_remove] that calls [graph.remove_edge] on each
    of its pairs. *)
Definition remove_all_strict (G : Graph Data) (es : list (string * string))
  : option (Graph Data) :=
  fold_left (fun g e => match g with
                        | Some g' => remove_edge_strict g' e
                        | None => None
                        end) es (Some G).

(** [break_n_random_links(graph, n)], with [random.sample] as the argument
    [sample]; the result is the graph after the removals and the list that
    the function returns. *)
Definition break_n_random_links
  (sample : list (string * string) -> nat -> list (string * string))
  (graph : Graph Data) (n : nat)
  : option (Graph Data * list (string * string)) :=
  let edges := all_edges graph in
  let n := if List.length edges <? n then List.length edges else n in
  let links_to_remove := sample edges n in
  match remove_all_strict graph links_to_remove with
  | Some g => Some (g, links_to_remove)
  | None => None
  end.

(** The loop of [create_lsu] over [self.graph.neighbors(self.id)], for the
    adjacency [nbrs] of the router in the physical graph and the cost
    [cost_of neighbor link_data] that [calculate_link_cost] computes. *)
Fixpoint collect_links {C : Type} (cost_of : string -> Data -> result C)
  (nbrs : dict Data) (links_data : dict C) : result (dict C) :=
  match nbrs with
  | [] => Ok links_data
  | (neighbor, link_data) :: rest =>
      match cost_of neighbor link_data with
      | Ok cost => collect_links cost_of rest (dict_set neighbor cost links_data)
      | Raised e => Raised e
      end
  end.

(** The last listing of the link between [u] and [v] in a topology file. *)
Definition last_link (u v : string) (edges : list (string * string * Data))
  : option Data :=
  match find (fun e => same_edge u v (fst e)) (rev edges) with
  | Some e => Some (snd e)
  | None => None
  end.

End Physical.

(** ** Concrete runs for Part III *)

Module Runs.
Import Scenario.
Local Open Scope Z_scope.

(** The third advertisement of R1, after the one for [("R0", 1)] and an
    empty one in between. *)
Definition r1_after_two : Router (Cost := Z) (Time := Z) :=
  run keys hash_of str_of (fst (originate (new_router "R1") [("R0", 1)]))
    [CallCreateLsu []].
Definition lsu_first : Lsu (Cost := Z) := nth_lsu "R1" 0 [("R0", 1)].
Definition lsu_third : Lsu (Cost := Z) :=
  match snd (originate r1_after_two []) with
  | Ok l => l
  | Raised _ => lsu_first
  end.

(** An advertisement that names a source without key. *)
Definition lsu_stranger : Lsu (Cost := Z) :=
  {| data := {| source_id := "R9"; data_sequence_number := 1;
                links := [("R0", 1)] |};
     signature := 0 |}.

(** Scenario B as a sequence of calls. *)
Definition callsB : list (Call (Cost := Z) (Time := Z)) :=
  [CallProcessLsu 0 lsuB_R1; CallProcessLsu 0 lsuB_R3].

(** R0 knows R1, R2 and a node R3 that announced no link. *)
Definition lsu_lonely := first_lsu "R3" [].
Definition router_lonely : Router :=
  receive_all (new_router "R0") 0 [lsuA_R1; lsuA_R2; lsu_lonely].

(** A physical topology file with three nodes and two links. *)
Definition phys_nodes : list string := ["R0"; "R1"; "R2"].
Definition phys_edges : list (string * string * LinkCost.LinkData) :=
  [("R0", "R1", {| LinkCost.base_latency := 10%float;
                   LinkCost.bandwidth := 100%float |});
   ("R1", "R2", {| LinkCost.base_latency := 5%float;
                   LinkCost.bandwidth := 1000%float |})].
Definition phys : Graph LinkCost.LinkData :=
  build_topology phys_nodes phys_edges.

(** A sample that takes the first [n] links. *)
Definition sample_first (l : list (string * string)) (n : nat)
  : list (string * string) := firstn n l.

(** The static cost as the cost function of [create_lsu]. *)
Definition static_cost (neighbor : string) (d : LinkCost.LinkData)
  : result Z := LinkCost.ospf_calculate_link_cost d.

End Runs.

(** ** Runs on the float clock *)

Module ClockRuns.
Import Scenario.

Definition fresh_router : Router (Cost := Z) (Time := float) :=
  new_router "R0".

(** Twenty advertisements of R1, with the sequence numbers 1 to 20. *)
Definition adverts : list (Lsu (Cost := Z)) :=
  map (fun n => nth_lsu "R1" n [("R0", 1%Z)]) (seq 0 20).

(** A steady clock: ten calls a tenth of a second apart, a call at 0.95
    and a call at 1.05. *)
Definition steady_events : list (float * Lsu (Cost := Z)) :=
  combine [0; 0.1; 0.2; 0.3; 0.4; 0.5; 0.6; 0.7; 0.8; 0.9; 0.95; 1.05]%float
    adverts.

(** A clock that is set back: ten calls at 0.0, one at 5.0, then nine
    calls at 0.5. *)
Definition set_back_events : list (float * Lsu (Cost := Z)) :=
  combine (repeat 0%float 10 ++ [5%float] ++ repeat 0.5%float 9) adverts.

(** The router after the first ten calls on the steady clock: its list of
    timestamps is full. *)
Definition full_router : Router (Cost := Z) (Time := float) :=
  receive_events keys hash_of str_of fresh_router (firstn 10 steady_events).

(** Instants of the interval from 0 to 1, as long as [lsu_window]. *)
Definition in_unit_interval (t : float) : bool :=
  (0 <=? t)%float && (t <=? 0 + 1)%float.

End ClockRuns.

(** ** The states of the search, and shortest walks *)

Section SearchStates.
Context {Cost : Type} `{PyNum Cost}.

(** The state after [pop(fringe)]. *)
Definition popped (st : dstate (Cost := Cost)) (rest : list entry) : dstate :=
  {| dist := dist st; seen := seen st; paths := paths st;
     fringe := rest; counter := counter st |}.

(** The state after [dist[v] = d]. *)
Definition settled (st : dstate (Cost := Cost)) (v : string) (d : Cost)
  (rest : list entry) : dstate :=
  {| dist := dict_set v d (dist (popped st rest));
     seen := seen (popped st rest);
     paths := paths (popped st rest);
     fringe := fringe (popped st rest);
     counter := counter (popped st rest) |}.

(** The states in which the loop [while fringe] tests its condition. *)
Inductive loop_head (G_succ : dict (dict Cost)) (source target : string)
  : dstate (Cost := Cost) -> Prop :=
| head_init : loop_head G_succ source target (dijkstra_init source)
| head_stale st d c v rest :
    loop_head G_succ source target st ->
    heappop (fringe st) = Some ((d, c, v), rest) ->
    dict_mem v (dist st) = true ->
    loop_head G_succ source target (popped st rest)
| head_relaxed st d c v rest nbrs st' :
    loop_head G_succ source target st ->
    heappop (fringe st) = Some ((d, c, v), rest) ->
    dict_mem v (dist st) = false ->
    String.eqb v target = false ->
    dict_get v G_succ = Some nbrs ->
    relax v d nbrs (settled st v d rest) = Ok st' ->
    loop_head G_succ source target st'.

(** The state in which the loop is left by [break]. *)
Definition at_break (G_succ : dict (dict Cost)) (source target : string)
  (st' : dstate (Cost := Cost)) : Prop :=
  exists st d c rest,
    loop_head G_succ source target st /\
    heappop (fringe st) = Some ((d, c, target), rest) /\
    dict_mem target (dist st) = false /\
    st' = settled st target d rest.

(** Every node of the graph has an adjacency dictionary, as
    [networkx.Graph] keeps it. *)
Definition nodes_have_adj (G : Graph Cost) : Prop :=
  forall n, dict_get n (g_node G) <> None -> dict_get n (g_adj G) <> None.

End SearchStates.

(** No link has a negative cost. *)
Definition nonneg_costs (G : Graph Z) : Prop :=
  forall u v c, edge_cost G u v = Some c -> (0 <= c)%Z.

(** The advertisements among the calls announce no negative cost. *)
Definition calls_nonneg {Time : Type}
  (calls : list (Call (Cost := Z) (Time := Time))) : Prop :=
  forall t lsu n c, In (CallProcessLsu t lsu) calls ->
    In (n, c) (links (data lsu)) -> (0 <= c)%Z.

(** [p] runs from [a] to [b] along edges of [G], at the cost [w]. *)
Definition walk_from_to (G : Graph Z) (a b : string) (p : list string)
  (w : Z) : Prop :=
  (exists q, p = a :: q) /\ (exists q, p = q ++ [b]) /\
  walk_cost G p = Some w.

(** What the search knows about shortest walks at each turn of its loop:
    before the source has its distance, nothing but the source was seen; a
    final distance is at most the cost of any walk from the source; every
    edge that leaves a node with final distance has been relaxed; the source
    was seen; every node that was seen has an adjacency dictionary. *)
Definition opt_inv (G : Graph Z) (source : string) (st : dstate (Cost := Z))
  : Prop :=
  (dict_get source (dist st) = None ->
   forall u x, dict_get u (seen st) = Some x -> u = source /\ x = 0%Z) /\
  (forall u du, dict_get u (dist st) = Some du ->
   forall p w, walk_from_to G source u p w -> (du <= w)%Z) /\
  (forall x dx, dict_get x (dist st) = Some dx ->
   forall y c, edge_cost G x y = Some c ->
     dict_get y (dist st) <> None \/
     exists sy, dict_get y (seen st) = Some sy /\ (sy <= dx + c)%Z) /\
  dict_get source (seen st) <> None /\
  (forall u x, dict_get u (seen st) = Some x ->
     dict_get u (g_adj G) <> None).

(** The walk [p] uses no link of the path [q], in either direction. *)
Definition avoids_links (p q : list string) : Prop :=
  forall a b, In (a, b) (path_edges p) ->
    existsb (same_edge a b) (path_edges q) = false.

(** Checks of [nonneg_costs] and [nodes_have_adj] by computation. *)
Definition nonneg_costsb (G : Graph Z) : bool :=
  forallb (fun un => forallb (fun vc => (0 <=? snd vc)%Z) (snd un)) (g_adj G).

Definition nodes_have_adjb {Cost} (G : Graph Cost) : bool :=
  forallb (fun na => dict_mem (fst na) (g_adj G)) (g_node G).

(** ** The convergence phase of [run_protocol_simulation]

    [performance_comparison.py] runs the routers of a protocol class on a
    copy of the physical graph.  The static cost of [OSPFRouter] is a
    function of the link data; the clock is the sequence of values that the
    calls of [time.time()] return. *)

(** How a run of the simulation ends: with a value, with one of the
    exceptions above, or with the [NetworkXError] of [graph.neighbors]. *)
Inductive sim_result (A : Type) : Type :=
| Done (a : A)
| Failed (e : exn)
| FailedNetworkXError.
Arguments Done {A} a.
Arguments Failed {A} e.
Arguments FailedNetworkXError {A}.

Section Simulation.
Context {Data : Type} {Time : Type} `{PyClock Time}.
Variable PUBLIC_KEYS : dict string.
Variable py_hash : string -> Z.
Variable py_str : LsuData (Cost := Z) -> string.

(** [calculate_link_cost] of the protocol class, from the neighbour and the
    data of the link to it. *)
Variable cost_of : string -> Data -> result Z.

(** [clock n] is the value of the call number [n] of [time.time()]. *)
Variable clock : nat -> Time.

(** [router.create_lsu()] on the physical graph [graph]. *)
Definition router_create_lsu (graph : Graph Data)
  (r : Router (Cost := Z) (Time := Time)) : sim_result (Router * Lsu) :=
  match dict_get (id r) (g_adj graph) with
  | None => FailedNetworkXError
  | Some nbrs =>
      match collect_links cost_of nbrs [] with
      | Raised e => Failed e
      | Ok links_data =>
          match create_lsu PUBLIC_KEYS py_hash py_str r links_data with
          | (r1, Ok lsu) => Done (r1, lsu)
          | (_, Raised e) => Failed e
          end
      end
  end.

(** [lsus = [router.create_lsu() for router in routers.values()]] *)
Fixpoint create_all (graph : Graph Data)
  (routers : list (Router (Cost := Z) (Time := Time)))
  : sim_result (list Router * list Lsu) :=
  match routers with
  | [] => Done ([], [])
  | r :: rest =>
      match router_create_lsu graph r with
      | Done (r1, lsu) =>
          match create_all graph rest with
          | Done (rs, lsus) => Done (r1 :: rs, lsu :: lsus)
          | Failed e => Failed e
          | FailedNetworkXError => FailedNetworkXError
          end
      | Failed e => Failed e
      | FailedNetworkXError => FailedNetworkXError
      end
  end.

(** [for lsu in lsus: if router.process_lsu(lsu): router.calculate_routes()],
    from the call number [tick] of the clock on. *)
Fixpoint deliver (r : Router (Cost := Z) (Time := Time)) (tick : nat)
  (lsus : list Lsu) : sim_result (Router * nat) :=
  match lsus with
  | [] => Done (r, tick)
  | lsu :: rest =>
      match process_lsu PUBLIC_KEYS py_hash py_str r (clock tick) lsu with
      | (r1, Ok o) =>
          if returned o then
            match calculate_routes r1 with
            | (r2, None) => deliver r2 (S tick) rest
            | (_, Some e) => Failed e
            end
          else deliver r1 (S tick) rest
      | (_, Raised e) => Failed e
      end
  end.

(** [for router in routers.values(): for lsu in lsus: ...] *)
Fixpoint deliver_all (routers : list (Router (Cost := Z) (Time := Time)))
  (tick : nat) (lsus : list Lsu) : sim_result (list Router * nat) :=
  match routers with
  | [] => Done ([], tick)
  | r :: rest =>
      match deliver r tick lsus with
      | Done (r', tick') =>
          match deliver_all rest tick' lsus with
          | Done (rs, tick'') => Done (r' :: rs, tick'')
          | Failed e => Failed e
          | FailedNetworkXError => FailedNetworkXError
          end
      | Failed e => Failed e
      | FailedNetworkXError => FailedNetworkXError
      end
  end.

(** One turn of [for _ in range(len(routers))]. *)
Definition convergence_round (graph : Graph Data)
  (st : list (Router (Cost := Z) (Time := Time)) * nat)
  : sim_result (list Router * nat) :=
  match create_all graph (fst st) with
  | Done (routers, lsus) => deliver_all routers (snd st) lsus
  | Failed e => Failed e
  | FailedNetworkXError => FailedNetworkXError
  end.

Fixpoint convergence_rounds (n : nat) (graph : Graph Data)
  (st : list (Router (Cost := Z) (Time := Time)) * nat)
  : sim_result (list Router * nat) :=
  match n with
  | O => Done st
  | S n' =>
      match convergence_round graph st with
      | Done st' => convergence_rounds n' graph st'
      | Failed e => Failed e
      | FailedNetworkXError => FailedNetworkXError
      end
  end.

(** [sim_graph = graph.copy()], one router per node in the order of
    [sim_graph.nodes()], whose names are the keys of a dictionary and so
    differ from each other, then the rounds of "1. Initial Convergence". *)
Definition initial_convergence (graph : Graph Data)
  : sim_result (list (Router (Cost := Z) (Time := Time)) * nat) :=
  let sim_graph := copy graph in
  let routers := map new_router (dict_keys (g_node sim_graph)) in
  convergence_rounds (List.length routers) sim_graph (routers, 0).

(** [routers['R0'].routing_table.get('R5', {}).get('total_cost',
    float('inf'))]; [None] stands for [inf]. *)
Definition path_cost_R0_R5 (routers : list (Router (Cost := Z) (Time := Time)))
  : sim_result (option Z) :=
  match find (fun r => String.eqb (id r) "R0") routers with
  | None => Failed KeyError
  | Some r0 =>
      Done match dict_get "R5" (routing_table r0) with
           | Some e => Some (total_cost e)
           | None => None
           end
  end.

(** [run_protocol_simulation(protocol_class, graph)] without
    [failure_edge]: the value of ['initial_path_cost']. *)
Definition run_protocol_simulation (graph : Graph Data)
  : sim_result (option Z) :=
  match initial_convergence graph with
  | Done (routers, _) => path_cost_R0_R5 routers
  | Failed e => Failed e
  | FailedNetworkXError => FailedNetworkXError
  end.

(** The cost that the protocol class gives the link between [u] and [v] of
    the physical graph, seen from [u]. *)
Definition link_cost_in (graph : Graph Data) (u v : string) : option Z :=
  match edge_cost graph u v with
  | Some d => match cost_of v d with Ok c => Some c | Raised _ => None end
  | None => None
  end.

(** The routing table of [r] is the one that [calculate_routes] computes
    from the database of [r]. *)
Definition table_current (r : Router (Cost := Z) (Time := Time)) : Prop :=
  routing_table (fst (calculate_routes r)) = routing_table r.

(** What a router of the simulation has learned once the advertisements of
    the sources [known] are in its database: the links at these sources, at
    the cost of the protocol class, and nothing else. *)
Definition learned (graph : Graph Data) (known : list string)
  (r : Router (Cost := Z) (Time := Time)) : Prop :=
  graph_wf (topology r) /\ nonneg_costs (topology r) /\
  nodes_have_adj (topology r) /\
  (forall u v, edge_cost (topology r) u v =
     if existsb (String.eqb u) known || existsb (String.eqb v) known
     then link_cost_in graph u v else None) /\
  (forall s, existsb (String.eqb s) known = false ->
     node_seq (topology r) s = 0%Z) /\
  (forall s, existsb (String.eqb s) known = true ->
     has_node (topology r) s = true) /\
  table_current r /\ lsu_rate_limit r = 10.

(** An advertisement of the source [s] as the routers of the simulation
    create it. *)
Definition lsu_of (graph : Graph Data) (s : string) (lsu : Lsu (Cost := Z))
  : Prop :=
  source_id (data lsu) = s /\
  verify_signature PUBLIC_KEYS py_hash py_str (data lsu) (signature lsu) s
  = Ok true /\
  (1 <= data_sequence_number (data lsu))%Z /\
  NoDup (dict_keys (links (data lsu))) /\
  forall v, dict_get v (links (data lsu)) = link_cost_in graph s v.

(** An advertisement of the source [s] with the sequence number [k] and a
    tag that verifies. *)
Definition lsu_at (k : Z) (s : string) (lsu : Lsu (Cost := Z)) : Prop :=
  source_id (data lsu) = s /\ data_sequence_number (data lsu) = k /\
  verify_signature PUBLIC_KEYS py_hash py_str (data lsu) (signature lsu) s
  = Ok true.

End Simulation.

(** The whole run falls into one window of the rate limiter: no value of
    the clock is older than [lsu_window] at any later call. *)
Definition fast_clock {Time : Type} `{PyClock Time} (clock : nat -> Time)
  : Prop :=
  forall i j, j <= i -> age_le (clock i) (clock j) one_second = true.

(** The rate limiter of a router of the simulation to which [m]
    advertisements were delivered before the call number [tick] of the
    clock: it holds the times of the first ten of them. *)
Definition limiter_after {Time : Type} `{PyClock Time} (clock : nat -> Time)
  (tick m : nat) (r : Router (Cost := Z) (Time := Time)) : Prop :=
  lsu_rate_limit r = 10 /\ lsu_window r = one_second /\
  (forall t, In t (lsu_timestamps r) -> exists j, j < tick /\ t = clock j) /\
  List.length (lsu_timestamps r) = Nat.min 10 m.

(** The class [OSPFRouter]: the cost of a link does not depend on the
    neighbour's name. *)
Definition ospf_cost_of (neighbor : string) (d : LinkCost.LinkData)
  : result Z := LinkCost.ospf_calculate_link_cost d.

(** Networks for the runs of the simulation. *)
Module SimRuns.

(** A ring of four routers. *)
Definition ring_nodes : list string := ["R0"; "R1"; "R2"; "R3"].
Definition ring_edges : list (string * string * LinkCost.LinkData) :=
  [("R0", "R1", {| LinkCost.base_latency := 10%float;
                   LinkCost.bandwidth := 100%float |});
   ("R1", "R2", {| LinkCost.base_latency := 5%float;
                   LinkCost.bandwidth := 1000%float |});
   ("R2", "R3", {| LinkCost.base_latency := 5%float;
                   LinkCost.bandwidth := 500%float |});
   ("R3", "R0", {| LinkCost.base_latency := 20%float;
                   LinkCost.bandwidth := 250%float |})].
Definition ring : Graph LinkCost.LinkData :=
  build_topology ring_nodes ring_edges.

(** A clock that does not advance during the run. *)
Definition still_clock (n : nat) : Z := 0%Z.

(** The routers and the number of clock calls at the end of the initial
    convergence on the ring. *)
Definition ring_run : list (Router (Cost := Z) (Time := Z)) * nat :=
  match initial_convergence Scenario.keys Scenario.hash_of Scenario.str_of
          ospf_cost_of still_clock ring with
  | Done x => x
  | _ => ([], 0)
  end.

(** Six routers R0 to R5: two ways lead from R0 to R5, over R1 and R2 on
    fast links and over R3 and R4 on slower ones; the bandwidth of the link
    between R1 and R2 makes the quotient 1000 / bandwidth the float 3.5. *)
Definition mesh_keys : dict string :=
  [("R0", "secret_key_0"); ("R1", "secret_key_1"); ("R2", "secret_key_2");
   ("R3", "secret_key_3"); ("R4", "secret_key_4"); ("R5", "secret_key_5")].
Definition mesh_nodes : list string := ["R0"; "R1"; "R2"; "R3"; "R4"; "R5"].
Definition mesh_edges : list (string * string * LinkCost.LinkData) :=
  [("R0", "R1", {| LinkCost.base_latency := 5%float;
                   LinkCost.bandwidth := 1000%float |});
   ("R1", "R2", {| LinkCost.base_latency := 5%float;
                   LinkCost.bandwidth := 285.7142857142857%float |});
   ("R2", "R5", {| LinkCost.base_latency := 5%float;
                   LinkCost.bandwidth := 500%float |});
   ("R0", "R3", {| LinkCost.base_latency := 10%float;
                   LinkCost.bandwidth := 100%float |});
   ("R3", "R4", {| LinkCost.base_latency := 10%float;
                   LinkCost.bandwidth := 250%float |});
   ("R4", "R5", {| LinkCost.base_latency := 10%float;
                   LinkCost.bandwidth := 100%float |})].
Definition mesh : Graph LinkCost.LinkData :=
  build_topology mesh_nodes mesh_edges.

(** A float clock that advances by a quarter of a second at each call. *)
Definition quarter_clock (n : nat) : float :=
  (PrimFloat.of_uint63 (Uint63.of_Z (Z.of_nat n)) / 4)%float.

End SimRuns.

(* ================================================================== *)
(** * Part II: properties *)
(* ================================================================== *)

Ltac str_case :=
  match goal with
  | |- context [String.eqb ?a ?b] =>
      destruct (String.eqb_spec a b); subst; simpl; try congruence
  end.

(** ** Dictionaries *)

Section DictFacts.
Context {V : Type}.
Implicit Types (d : list (string * V)) (k : string) (v : V).

Lemma dict_get_set_eq k v d : dict_get k (dict_set k v d) = Some v.
Proof.
  induction d as [|[k' v'] d IH]; simpl.
  - now rewrite String.eqb_refl.
  - destruct (String.eqb_spec k k'); simpl.
    + now rewrite String.eqb_refl.
    + destruct (String.eqb_spec k k'); congruence.
Qed.

Lemma dict_get_set_ne k k' v d :
  k' <> k -> dict_get k' (dict_set k v d) = dict_get k' d.
Proof.
  intros Hne. induction d as [|[k0 v0] d IH]; simpl.
  - destruct (String.eqb_spec k' k); congruence.
  - destruct (String.eqb_spec k k0); simpl; subst.
    + destruct (String.eqb_spec k' k0); congruence.
    + destruct (String.eqb_spec k' k0); congruence.
Qed.

Lemma dict_get_set k k' v d :
  dict_get k' (dict_set k v d) =
  if String.eqb k' k then Some v else dict_get k' d.
Proof.
  destruct (String.eqb_spec k' k); subst.
  - apply dict_get_set_eq.
  - now apply dict_get_set_ne.
Qed.

Lemma dict_get_del k k' d :
  dict_get k' (dict_del k d) = if String.eqb k' k then None else dict_get k' d.
Proof.
  induction d as [|[k0 v0] d IH]; simpl.
  - now destruct (String.eqb k' k).
  - destruct (String.eqb_spec k k0); simpl; subst.
    + rewrite IH. destruct (String.eqb_spec k' k0); congruence.
    + rewrite IH.
      destruct (String.eqb_spec k' k0); destruct (String.eqb_spec k' k);
        congruence.
Qed.

Lemma dict_mem_set k k' v d :
  dict_mem k' (dict_set k v d) = String.eqb k' k || dict_mem k' d.
Proof.
  unfold dict_mem. rewrite dict_get_set.
  now destruct (String.eqb k' k).
Qed.

Lemma dict_get_In k v d : dict_get k d = Some v -> In (k, v) d.
Proof.
  induction d as [|[k0 v0] d IH]; simpl; [discriminate|].
  destruct (String.eqb_spec k k0); subst.
  - intros [= ->]. now left.
  - intros Hg. right. auto.
Qed.

Lemma In_dict_mem k v d : In (k, v) d -> dict_mem k d = true.
Proof.
  unfold dict_mem. induction d as [|[k0 v0] d IH]; simpl; [tauto|].
  intros [[= -> ->]|Hin].
  - now rewrite String.eqb_refl.
  - destruct (String.eqb k k0); auto.
Qed.

Lemma dict_get_None_keys k d :
  dict_get k d = None <-> ~ In k (dict_keys d).
Proof.
  induction d as [|[k0 v0] d IH]; simpl; [tauto|].
  destruct (String.eqb_spec k k0); subst.
  - split; [discriminate | intros Hn; exfalso; apply Hn; now left].
  - rewrite IH. split; [intros Hn [->|Hi]; tauto | tauto].
Qed.

End DictFacts.

(** ** Graphs: what each operation does to the edges *)

Section GraphFacts.
Context {Cost : Type}.
Implicit Types (G : Graph Cost) (adj : dict (dict Cost)) (u v w : string).

Lemma adj_nbrs_dict_set adj u w (x : dict Cost) :
  adj_nbrs (dict_set u x adj) w = if String.eqb w u then x else adj_nbrs adj w.
Proof.
  unfold adj_nbrs. rewrite dict_get_set. now destruct (String.eqb w u).
Qed.

Lemma adj_nbrs_set_adj adj u v (c : Cost) w :
  adj_nbrs (set_adj adj u v c) w =
  if String.eqb w u then dict_set v c (adj_nbrs adj u) else adj_nbrs adj w.
Proof. unfold set_adj. apply adj_nbrs_dict_set. Qed.

Lemma adj_nbrs_del_adj adj u v w :
  adj_nbrs (del_adj adj u v) w =
  if String.eqb w u then dict_del v (adj_nbrs adj u) else adj_nbrs adj w.
Proof.
  unfold del_adj. destruct (dict_get u adj) as [nb|] eqn:E.
  - rewrite adj_nbrs_dict_set. unfold adj_nbrs at 2. now rewrite E.
  - destruct (String.eqb_spec w u); subst; auto.
    unfold adj_nbrs. now rewrite E.
Qed.

Lemma graph_ok_empty : graph_ok (@empty_graph Cost).
Proof. split; intros; reflexivity. Qed.

Lemma touch_node_nbrs G n w :
  graph_ok G -> neighbors (touch_node G n) w = neighbors G w.
Proof.
  intros [Hwf _]. unfold touch_node, dict_mem, neighbors.
  destruct (dict_get n (g_node G)) eqn:E; auto. simpl.
  rewrite adj_nbrs_dict_set. destruct (String.eqb_spec w n); subst; auto.
  unfold adj_nbrs. now rewrite (Hwf _ E).
Qed.

Lemma touch_node_ok G n : graph_ok G -> graph_ok (touch_node G n).
Proof.
  intros HG. split.
  - destruct HG as [Hwf _]. unfold touch_node, dict_mem.
    destruct (dict_get n (g_node G)) eqn:E; auto. simpl. intros m.
    rewrite !dict_get_set. destruct (String.eqb m n); auto; discriminate.
  - intros u v. unfold edge_cost. rewrite !touch_node_nbrs by assumption.
    apply HG.
Qed.

Lemma touch_node_has_node G n m :
  has_node (touch_node G n) m = String.eqb m n || has_node G m.
Proof.
  unfold touch_node, has_node. destruct (dict_mem n (g_node G)) eqn:E.
  - destruct (String.eqb_spec m n); subst; auto.
  - simpl. apply dict_mem_set.
Qed.

Lemma add_node_edge_cost G n a u v :
  graph_ok G -> edge_cost (add_node G n a) u v = edge_cost G u v.
Proof.
  intros HG. unfold edge_cost.
  change (neighbors (add_node G n a) u) with (neighbors (touch_node G n) u).
  now rewrite touch_node_nbrs.
Qed.

Lemma add_node_ok G n a : graph_ok G -> graph_ok (add_node G n a).
Proof.
  intros HG. split.
  - destruct (touch_node_ok G n HG) as [Hwf _]. unfold add_node. simpl.
    intros m. rewrite dict_get_set.
    destruct (String.eqb m n); [discriminate|]. apply Hwf.
  - intros u v. rewrite !add_node_edge_cost by assumption. apply HG.
Qed.

Lemma add_node_has_node G n a m :
  has_node (add_node G n a) m = String.eqb m n || has_node G m.
Proof.
  unfold add_node, has_node. simpl. rewrite dict_mem_set.
  fold (has_node (touch_node G n) m). rewrite touch_node_has_node.
  now destruct (String.eqb m n).
Qed.

Lemma add_node_seq G n s : node_seq (add_node G n (Some s)) n = s.
Proof. unfold node_seq, add_node. simpl. now rewrite dict_get_set_eq. Qed.

(** [add_edge] sets the cost at both ends and leaves the other edges. *)
Lemma add_edge_edge_cost G x y (c : Cost) u v :
  graph_ok G ->
  edge_cost (add_edge G x y c) u v =
  if (String.eqb u x && String.eqb v y) || (String.eqb u y && String.eqb v x)
  then Some c else edge_cost G u v.
Proof.
  intros HG.
  assert (H2 : forall w, neighbors (touch_node (touch_node G x) y) w
                         = neighbors G w).
  { intros w. rewrite touch_node_nbrs by now apply touch_node_ok.
    now apply touch_node_nbrs. }
  unfold edge_cost, add_edge, neighbors in *. simpl.
  rewrite !adj_nbrs_set_adj.
  repeat (str_case || rewrite dict_get_set || rewrite H2
          || rewrite adj_nbrs_set_adj); auto.
Qed.

Lemma add_edge_ok G x y (c : Cost) : graph_ok G -> graph_ok (add_edge G x y c).
Proof.
  intros HG. split.
  - assert (Hwf : graph_ok (touch_node (touch_node G x) y))
      by now do 2 apply touch_node_ok.
    destruct Hwf as [Hwf _]. unfold add_edge. simpl. intros m Hm.
    specialize (Hwf m Hm). unfold set_adj. rewrite !dict_get_set.
    assert (Hy : has_node (touch_node (touch_node G x) y) y = true).
    { rewrite touch_node_has_node, String.eqb_refl. reflexivity. }
    assert (Hx : has_node (touch_node (touch_node G x) y) x = true).
    { rewrite !touch_node_has_node, String.eqb_refl.
      now rewrite Bool.orb_true_r. }
    unfold has_node, dict_mem in Hx, Hy.
    destruct (String.eqb_spec m y); subst; [now rewrite Hm in Hy|].
    destruct (String.eqb_spec m x); subst; [now rewrite Hm in Hx|].
    exact Hwf.
  - intros u v. rewrite !add_edge_edge_cost by assumption.
    destruct HG as [_ Hs]. rewrite (Hs u v).
    destruct (String.eqb u x), (String.eqb v y), (String.eqb u y),
      (String.eqb v x); reflexivity.
Qed.

Lemma add_edge_has_node G x y (c : Cost) m :
  has_node (add_edge G x y c) m =
  String.eqb m x || String.eqb m y || has_node G m.
Proof.
  unfold add_edge, has_node. simpl.
  fold (has_node (touch_node (touch_node G x) y) m).
  rewrite !touch_node_has_node.
  destruct (String.eqb m x), (String.eqb m y); reflexivity.
Qed.

(** [remove_edge] deletes the edge at both ends, if it is there, and leaves
    the other edges. *)
Lemma remove_edge_edge_cost G x y u v :
  graph_ok G ->
  edge_cost (remove_edge G (x, y)) u v =
  if (String.eqb u x && String.eqb v y) || (String.eqb u y && String.eqb v x)
  then None else edge_cost G u v.
Proof.
  intros [_ Hs].
  assert (Hnone : dict_mem y (adj_nbrs (g_adj G) x) = false ->
          edge_cost G u v =
          if (String.eqb u x && String.eqb v y)
             || (String.eqb u y && String.eqb v x)
          then None else edge_cost G u v).
  { intros Hm.
    assert (E1 : edge_cost G x y = None).
    { unfold edge_cost, neighbors, dict_mem in *.
      now destruct (dict_get y (adj_nbrs (g_adj G) x)). }
    assert (E2 : edge_cost G y x = None) by now rewrite <- Hs.
    repeat str_case; auto. }
  unfold remove_edge.
  destruct (dict_get x (g_adj G)) as [nb|] eqn:E.
  - assert (Enb : adj_nbrs (g_adj G) x = nb) by (unfold adj_nbrs; now rewrite E).
    destruct (dict_mem y nb) eqn:Em.
    + unfold edge_cost, neighbors. simpl.
      destruct (String.eqb_spec x y); subst;
        repeat (str_case || rewrite dict_get_del
                || rewrite adj_nbrs_del_adj); auto.
    + apply Hnone. now rewrite Enb.
  - apply Hnone. unfold adj_nbrs. now rewrite E.
Qed.

Lemma remove_edge_ok G e : graph_ok G -> graph_ok (remove_edge G e).
Proof.
  intros HG. destruct e as [x y]. split.
  - destruct HG as [Hwf _]. unfold remove_edge.
    destruct (dict_get x (g_adj G)) as [nb|] eqn:E; auto.
    destruct (dict_mem y nb); auto. simpl. intros m Hm.
    specialize (Hwf m Hm).
    assert (Hd : forall adj a b, dict_get m adj = None ->
                 dict_get m (del_adj adj a b) = None).
    { intros adj a b Hg. unfold del_adj.
      destruct (dict_get a adj) eqn:Ea; auto.
      rewrite dict_get_set. destruct (String.eqb_spec m a); subst; congruence. }
    destruct (String.eqb x y); auto.
  - intros u v. rewrite !remove_edge_edge_cost by assumption.
    destruct HG as [_ Hs]. rewrite (Hs u v).
    destruct (String.eqb u x), (String.eqb v y), (String.eqb u y),
      (String.eqb v x); reflexivity.
Qed.

Lemma remove_edge_has_node G e m :
  has_node (remove_edge G e) m = has_node G m.
Proof.
  destruct e as [x y]. unfold remove_edge.
  destruct (dict_get x (g_adj G)); auto. now destruct (dict_mem y d).
Qed.

Lemma remove_edge_g_node G e : g_node (remove_edge G e) = g_node G.
Proof.
  destruct e as [x y]. unfold remove_edge.
  destruct (dict_get x (g_adj G)); auto. now destruct (dict_mem y d).
Qed.

End GraphFacts.

Section GraphFolds.
Context {Cost : Type}.
Implicit Types (G : Graph Cost) (u v w : string).

Lemma remove_edges_from_cons G e es :
  remove_edges_from G (e :: es) = remove_edges_from (remove_edge G e) es.
Proof. reflexivity. Qed.

Lemma add_links_cons G s n (c : Cost) lk :
  add_links G s ((n, c) :: lk) = add_links (add_edge G s n c) s lk.
Proof. reflexivity. Qed.

Lemma remove_edges_from_ok G es :
  graph_ok G -> graph_ok (remove_edges_from G es).
Proof.
  revert G. induction es as [|e es IH]; intros G HG; auto.
  rewrite remove_edges_from_cons. apply IH. now apply remove_edge_ok.
Qed.

Lemma remove_edges_from_edge_cost G es u v :
  graph_ok G ->
  edge_cost (remove_edges_from G es) u v =
  if existsb (same_edge u v) es then None else edge_cost G u v.
Proof.
  revert G. induction es as [|[x y] es IH]; intros G HG; auto.
  rewrite remove_edges_from_cons, IH by now apply remove_edge_ok.
  rewrite remove_edge_edge_cost by assumption.
  cbn [existsb].
  change (same_edge u v (x, y))
    with ((String.eqb u x && String.eqb v y)
          || (String.eqb u y && String.eqb v x)).
  destruct (existsb (same_edge u v) es).
  - now rewrite Bool.orb_true_r.
  - now rewrite Bool.orb_false_r.
Qed.

Lemma remove_edges_from_has_node G es m :
  has_node (remove_edges_from G es) m = has_node G m.
Proof.
  revert G. induction es as [|e es IH]; intros G; auto.
  now rewrite remove_edges_from_cons, IH, remove_edge_has_node.
Qed.

Lemma remove_edges_from_g_node G es :
  g_node (remove_edges_from G es) = g_node G.
Proof.
  revert G. induction es as [|e es IH]; intros G; auto.
  now rewrite remove_edges_from_cons, IH, remove_edge_g_node.
Qed.

(** Removing [G.edges(s)] removes exactly the edges that touch [s]. *)
Lemma remove_incident_edge_cost G s u v :
  graph_ok G ->
  edge_cost (remove_edges_from G (edges_of G s)) u v =
  if String.eqb u s || String.eqb v s then None else edge_cost G u v.
Proof.
  intros HG. rewrite remove_edges_from_edge_cost by assumption.
  destruct (existsb (same_edge u v) (edges_of G s)) eqn:Ex.
  - apply existsb_exists in Ex. destruct Ex as [[a b] [Hin Hse]].
    unfold edges_of in Hin. apply in_map_iff in Hin.
    destruct Hin as [[n c] [[= <- <-] _]]. unfold same_edge in Hse.
    simpl in Hse.
    destruct (String.eqb u s), (String.eqb v s); simpl in *; auto.
    now rewrite !Bool.andb_false_r in Hse.
  - destruct (String.eqb_spec u s); subst; simpl.
    + destruct (edge_cost G s v) as [c|] eqn:Ec; auto. exfalso.
      assert (Hf : existsb (same_edge s v) (edges_of G s) = true).
      { apply existsb_exists. exists (s, v). split.
        - unfold edges_of. apply in_map_iff. exists (v, c). split; auto.
          now apply dict_get_In.
        - unfold same_edge. simpl. now rewrite !String.eqb_refl. }
      congruence.
    + destruct (String.eqb_spec v s); subst; simpl; auto.
      destruct (edge_cost G u s) as [c|] eqn:Ec; auto. exfalso.
      destruct HG as [_ Hs]. rewrite Hs in Ec.
      assert (Hf : existsb (same_edge u s) (edges_of G s) = true).
      { apply existsb_exists. exists (s, u). split.
        - unfold edges_of. apply in_map_iff. exists (u, c). split; auto.
          now apply dict_get_In.
        - unfold same_edge. simpl. rewrite !String.eqb_refl.
          now rewrite Bool.orb_true_r. }
      congruence.
Qed.

Lemma add_links_ok G s lk : graph_ok G -> graph_ok (add_links G s lk).
Proof.
  revert G. induction lk as [|[n c] lk IH]; intros G HG; auto.
  rewrite add_links_cons. apply IH. now apply add_edge_ok.
Qed.

Lemma add_links_has_node G s lk m :
  has_node G m = true -> has_node (add_links G s lk) m = true.
Proof.
  revert G. induction lk as [|[n c] lk IH]; intros G HG; auto.
  rewrite add_links_cons.
  apply IH. rewrite add_edge_has_node, HG. now rewrite Bool.orb_true_r.
Qed.

Lemma add_links_node_seq G s lk :
  has_node G s = true -> node_seq (add_links G s lk) s = node_seq G s.
Proof.
  revert G. induction lk as [|[n c] lk IH]; intros G HG; auto.
  rewrite add_links_cons, IH.
  - unfold node_seq, add_edge. cbn [g_node].
    assert (Ht : forall G' a, has_node G' s = true ->
                 g_node (touch_node G' a) = g_node G' \/
                 (a <> s /\ g_node (touch_node G' a)
                            = dict_set a None (g_node G'))).
    { intros G' a Hs. unfold touch_node.
      destruct (dict_mem a (g_node G')) eqn:E; auto. right. split; auto.
      intros ->. unfold has_node in Hs. congruence. }
    assert (Hg : forall G' a, has_node G' s = true ->
                 dict_get s (g_node (touch_node G' a))
                 = dict_get s (g_node G')).
    { intros G' a Hs. destruct (Ht G' a Hs) as [->|[Hne ->]]; auto.
      now apply dict_get_set_ne. }
    rewrite Hg, Hg; auto.
    rewrite touch_node_has_node, HG. now rewrite Bool.orb_true_r.
  - rewrite add_edge_has_node, HG. now rewrite Bool.orb_true_r.
Qed.

(** The loop over the links of an advertisement from [s] sets the edges
    that touch [s] and leaves the others. *)
Lemma add_links_edge_cost G s (lk : dict Cost) u v :
  graph_ok G -> NoDup (dict_keys lk) ->
  edge_cost (add_links G s lk) u v =
  if String.eqb u s then
    match dict_get v lk with Some c => Some c | None => edge_cost G u v end
  else if String.eqb v s then
    match dict_get u lk with Some c => Some c | None => edge_cost G u v end
  else edge_cost G u v.
Proof.
  revert G. induction lk as [|[n c] lk IH]; intros G HG Hnd.
  - simpl. now destruct (String.eqb u s), (String.eqb v s).
  - inversion Hnd as [|? ? Hnin Hnd']; subst.
    apply dict_get_None_keys in Hnin.
    rewrite add_links_cons, IH by (auto using add_edge_ok).
    rewrite add_edge_edge_cost by assumption.
    cbn [dict_get].
    repeat str_case; try rewrite Hnin; auto;
      try (destruct (dict_get _ lk); auto; fail).
Qed.

Lemma copy_nodes_ok (nodes : dict (option Z)) G :
  graph_ok G -> graph_ok (copy_nodes nodes G).
Proof.
  revert G. induction nodes as [|[n a] nodes IH]; intros G HG; auto.
  apply IH. now apply add_node_ok.
Qed.

Lemma copy_edges_of_ok u (nbrs : dict Cost) G :
  graph_ok G -> graph_ok (copy_edges_of u nbrs G).
Proof.
  revert G. induction nbrs as [|[n c] nbrs IH]; intros G HG; auto.
  apply IH. now apply add_edge_ok.
Qed.

Lemma copy_edges_ok (adj : dict (dict Cost)) G :
  graph_ok G -> graph_ok (copy_edges adj G).
Proof.
  revert G. induction adj as [|[u nb] adj IH]; intros G HG; auto.
  apply IH. now apply copy_edges_of_ok.
Qed.

(** A copy is a well-formed graph, whatever it is a copy of. *)
Lemma copy_ok G : graph_ok (copy G).
Proof. apply copy_edges_ok, copy_nodes_ok, graph_ok_empty. Qed.

End GraphFolds.

(** ** The acceptance protocol *)

Section ProtocolFacts.
Context {Cost : Type} `{PyNum Cost} {Time : Type} `{PyClock Time}.
Variable PUBLIC_KEYS : dict string.
Variable py_hash : string -> Z.
Variable py_str : LsuData (Cost := Cost) -> string.

Local Abbreviation process := (process_lsu PUBLIC_KEYS py_hash py_str).
Local Abbreviation verify := (verify_signature PUBLIC_KEYS py_hash py_str).
Local Abbreviation originate := (create_lsu PUBLIC_KEYS py_hash py_str).
Local Abbreviation run_calls := (run PUBLIC_KEYS py_hash py_str).
Local Abbreviation do_call := (call PUBLIC_KEYS py_hash py_str).

Implicit Types (r : Router (Cost := Cost) (Time := Time)) (now : Time)
  (lsu : Lsu (Cost := Cost)).

(** The database an accepted advertisement leaves behind. *)
Lemma process_lsu_accepted r now lsu r' :
  process r now lsu = (r', Ok Accepted) ->
  let d := data lsu in
  let topo1 := add_node (topology r) (source_id d)
                 (Some (data_sequence_number d)) in
  topology r' =
    add_links (remove_edges_from topo1 (edges_of topo1 (source_id d)))
      (source_id d) (links d)
  /\ lsu_timestamps r' = evict r now ++ [now]
  /\ List.length (evict r now) < lsu_rate_limit r
  /\ routing_table r' = routing_table r
  /\ verify (data lsu) (signature lsu) (source_id (data lsu)) = Ok true.
Proof.
  unfold process_lsu. cbn [lsu_rate_limit lsu_timestamps set_lsu_timestamps].
  destruct (Nat.leb_spec (lsu_rate_limit r) (List.length (evict r now)));
    [discriminate|].
  destruct (verify (data lsu) (signature lsu) (source_id (data lsu)))
    as [[|]|e]; try discriminate.
  cbn [topology set_lsu_timestamps].
  destruct (has_node (topology r) (source_id (data lsu)) &&
            (data_sequence_number (data lsu)
             <=? node_seq (topology r) (source_id (data lsu)))%Z);
    [discriminate|].
  intros [= <-]. cbn. auto.
Qed.

Lemma process_lsu_rate_limited r now lsu :
  lsu_rate_limit r <= List.length (evict r now) ->
  process r now lsu = (set_lsu_timestamps r (evict r now), Ok RateLimited).
Proof.
  intros Hlim. unfold process_lsu.
  cbn [lsu_rate_limit lsu_timestamps set_lsu_timestamps].
  destruct (Nat.leb_spec (lsu_rate_limit r) (List.length (evict r now)));
    [reflexivity | lia].
Qed.

(** What a call of [process_lsu] does to the rate limiter. *)
Lemma process_lsu_timestamps r now lsu :
  let r' := fst (process r now lsu) in
  lsu_rate_limit r' = lsu_rate_limit r /\
  lsu_window r' = lsu_window r /\
  ((snd (process r now lsu) = Ok Accepted /\
    List.length (evict r now) < lsu_rate_limit r /\
    lsu_timestamps r' = evict r now ++ [now])
   \/
   (snd (process r now lsu) <> Ok Accepted /\
    lsu_timestamps r' = evict r now)).
Proof.
  unfold process_lsu. cbn [lsu_rate_limit lsu_timestamps set_lsu_timestamps].
  destruct (Nat.leb_spec (lsu_rate_limit r) (List.length (evict r now))).
  { cbn. repeat split; auto. right. split; [discriminate | reflexivity]. }
  destruct (verify (data lsu) (signature lsu) (source_id (data lsu)))
    as [[|]|e].
  - cbn [topology set_lsu_timestamps].
    destruct (has_node (topology r) (source_id (data lsu)) &&
              (data_sequence_number (data lsu)
               <=? node_seq (topology r) (source_id (data lsu)))%Z).
    + cbn. repeat split; auto. right. split; [discriminate | reflexivity].
    + cbn. repeat split; auto.
  - cbn. repeat split; auto. right. split; [discriminate | reflexivity].
  - cbn. repeat split; auto. right. split; [discriminate | reflexivity].
Qed.

Lemma evict_length r now :
  List.length (evict r now) <= List.length (lsu_timestamps r).
Proof. unfold evict. apply filter_length_le. Qed.

Lemma call_rate_limiter r c :
  List.length (lsu_timestamps r) <= lsu_rate_limit r ->
  lsu_rate_limit (do_call r c) = lsu_rate_limit r /\
  List.length (lsu_timestamps (do_call r c)) <= lsu_rate_limit r.
Proof.
  intros Hle. destruct c as [now lsu| |lk]; cbn [call].
  - destruct (process_lsu_timestamps r now lsu) as (Hl & _ & Hc).
    split; [exact Hl|].
    pose proof (evict_length r now).
    destruct Hc as [(_ & Hlt & ->)|(_ & ->)].
    + rewrite length_app. simpl. lia.
    + lia.
  - unfold calculate_routes.
    destruct (negb (has_node (topology r) (id r))); [auto|].
    destruct (routes_loop _ _ _ _). cbn. auto.
  - unfold create_lsu. destruct (sign_message _ _ _ _ _); cbn; auto.
Qed.

Lemma run_rate_limiter r calls :
  List.length (lsu_timestamps r) <= lsu_rate_limit r ->
  lsu_rate_limit (run_calls r calls) = lsu_rate_limit r /\
  List.length (lsu_timestamps (run_calls r calls)) <= lsu_rate_limit r.
Proof.
  revert r. induction calls as [|c calls IH]; intros r Hle; [cbn; auto|].
  change (run_calls r (c :: calls)) with (run_calls (do_call r c) calls).
  destruct (call_rate_limiter r c Hle) as [Hl Hb].
  destruct (IH (do_call r c)) as [Hl' Hb']; [lia|].
  split; lia.
Qed.

(** C1 (as the code has it): after an advertisement from [S] is accepted,
    the edges of the database that touch [S] are exactly the links of that
    advertisement, with their costs and seen from either end, so no edge of
    a superseded advertisement survives; every edge with neither end at [S]
    is left as it was, and [S] carries the advertised sequence number.  The
    database is one undirected graph: edges are not attributed to the source
    that announced them, so an edge between [S] and another source is
    replaced as well. *)
Theorem accepted_lsu_replaces_incident_edges r now lsu r' :
  graph_ok (topology r) ->
  NoDup (dict_keys (links (data lsu))) ->
  process r now lsu = (r', Ok Accepted) ->
  let S := source_id (data lsu) in
  (forall v, edge_cost (topology r') S v = dict_get v (links (data lsu))) /\
  (forall u, edge_cost (topology r') u S = dict_get u (links (data lsu))) /\
  (forall u v, u <> S -> v <> S ->
     edge_cost (topology r') u v = edge_cost (topology r) u v) /\
  has_node (topology r') S = true /\
  node_seq (topology r') S = data_sequence_number (data lsu) /\
  graph_ok (topology r').
Proof.
  intros HG Hnd Hacc S.
  destruct (process_lsu_accepted r now lsu r' Hacc) as (Ht & _).
  cbv zeta in Ht. fold S in Ht.
  set (topo1 := add_node (topology r) S
                  (Some (data_sequence_number (data lsu)))) in *.
  assert (H1 : graph_ok topo1) by now apply add_node_ok.
  assert (H2 : graph_ok (remove_edges_from topo1 (edges_of topo1 S)))
    by now apply remove_edges_from_ok.
  assert (Hn : has_node (remove_edges_from topo1 (edges_of topo1 S)) S = true).
  { rewrite remove_edges_from_has_node. unfold topo1.
    now rewrite add_node_has_node, String.eqb_refl. }
  assert (He : forall u v, edge_cost (topology r') u v =
            if String.eqb u S then dict_get v (links (data lsu))
            else if String.eqb v S then dict_get u (links (data lsu))
            else edge_cost (topology r) u v).
  { intros u v. rewrite Ht, add_links_edge_cost by assumption.
    rewrite remove_incident_edge_cost by assumption.
    unfold topo1. rewrite add_node_edge_cost by assumption.
    destruct (String.eqb u S); simpl.
    - now destruct (dict_get v (links (data lsu))).
    - destruct (String.eqb v S); auto.
      now destruct (dict_get u (links (data lsu))). }
  repeat split.
  - intros v. now rewrite He, String.eqb_refl.
  - intros u. rewrite He, String.eqb_refl.
    destruct (String.eqb_spec u S); subst; auto.
  - intros u v Hu Hv. rewrite He.
    destruct (String.eqb_spec u S); [congruence|].
    destruct (String.eqb_spec v S); [congruence|]. reflexivity.
  - rewrite Ht. now apply add_links_has_node.
  - rewrite Ht, add_links_node_seq by assumption.
    unfold node_seq. rewrite remove_edges_from_g_node.
    apply add_node_seq.
  - rewrite Ht. apply add_links_ok; assumption.
  - rewrite Ht. apply add_links_ok; assumption.
Qed.

(** C2: an advertisement from a source [S] of the database whose sequence
    number is not above the one stored for [S] is answered [Stale], that is
    [False], when the rate limiter is below its limit and the tag is valid;
    the database and the routing table stay as they are. *)
Theorem stale_lsu_rejected r now lsu :
  let S := source_id (data lsu) in
  has_node (topology r) S = true ->
  (data_sequence_number (data lsu) <= node_seq (topology r) S)%Z ->
  List.length (evict r now) < lsu_rate_limit r ->
  verify (data lsu) (signature lsu) S = Ok true ->
  snd (process r now lsu) = Ok Stale /\
  returned Stale = false /\
  topology (fst (process r now lsu)) = topology r /\
  routing_table (fst (process r now lsu)) = routing_table r.
Proof.
  intros S Hin Hseq Hlim Hsig. unfold process_lsu.
  cbn [lsu_rate_limit lsu_timestamps set_lsu_timestamps topology].
  destruct (Nat.leb_spec (lsu_rate_limit r) (List.length (evict r now)));
    [lia|].
  fold S. rewrite Hsig, Hin.
  destruct (Z.leb_spec (data_sequence_number (data lsu))
              (node_seq (topology r) S)); [|lia].
  cbn. auto.
Qed.

(** C3: when the evicted window still holds [lsu_rate_limit] timestamps or
    more, every advertisement is answered [RateLimited], that is [False],
    with the database and the routing table unchanged; the tag and the
    sequence number of the advertisement are not looked at. *)
Theorem rate_limit_checked_first r now lsu :
  lsu_rate_limit r <= List.length (evict r now) ->
  process r now lsu = (set_lsu_timestamps r (evict r now), Ok RateLimited) /\
  returned RateLimited = false /\
  topology (fst (process r now lsu)) = topology r /\
  routing_table (fst (process r now lsu)) = routing_table r.
Proof.
  intros Hlim. rewrite (process_lsu_rate_limited r now lsu Hlim).
  cbn. auto.
Qed.

(** C10: a router that is not a node of its own database returns from
    [calculate_routes] at once; the routing table, like the rest of its
    state, is what it was. *)
Theorem calculate_routes_uninitialized r :
  has_node (topology r) (id r) = false ->
  calculate_routes r = (r, None) /\
  routing_table (fst (calculate_routes r)) = routing_table r.
Proof.
  intros Hn. unfold calculate_routes. rewrite Hn. cbn. auto.
Qed.

End ProtocolFacts.

(** ** The rate limiter along a run of [process_lsu] calls *)

Section WindowFacts.
Context {Cost : Type} {Time : Type} `{PyClock Time}.
Variable PUBLIC_KEYS : dict string.
Variable py_hash : string -> Z.
Variable py_str : LsuData (Cost := Cost) -> string.

Local Abbreviation process := (process_lsu PUBLIC_KEYS py_hash py_str).
Local Abbreviation after := (receive_events PUBLIC_KEYS py_hash py_str).
Local Abbreviation accepted := (accepted_times PUBLIC_KEYS py_hash py_str).
Local Abbreviation young now w := (fun t => age_le now t w).

Implicit Types (r : Router (Cost := Cost) (Time := Time)) (now t w T : Time)
  (hist recent : list Time)
  (events pre post : list (Time * Lsu (Cost := Cost))).

Lemma receive_events_cons r now lsu events :
  after r ((now, lsu) :: events) = after (fst (process r now lsu)) events.
Proof. reflexivity. Qed.

Lemma receive_events_limiter events : forall r,
  List.length (lsu_timestamps r) <= lsu_rate_limit r ->
  lsu_rate_limit (after r events) = lsu_rate_limit r /\
  lsu_window (after r events) = lsu_window r /\
  List.length (lsu_timestamps (after r events)) <= lsu_rate_limit r.
Proof.
  induction events as [|[now lsu] events IH]; intros r Hle; [cbn; auto|].
  rewrite receive_events_cons.
  destruct (process_lsu_timestamps PUBLIC_KEYS py_hash py_str r now lsu)
    as (Hl & Hw & Hc).
  pose proof (evict_length r now) as He.
  destruct (IH (fst (process r now lsu))) as (Hl' & Hw' & Hb').
  { destruct Hc as [(_ & Hlt & ->)|(_ & ->)]; [|lia].
    rewrite length_app. simpl. lia. }
  repeat split; congruence || lia.
Qed.

Lemma stays_old_young w t T rest now :
  stays_old w t (T :: rest) = true -> In now rest ->
  age_le now t w = true -> age_le T t w = true.
Proof.
  cbn [stays_old]. intros Hs Hin Hy.
  apply andb_true_iff in Hs. destruct Hs as [Hs _].
  apply orb_true_iff in Hs. destruct Hs as [Hs|Hs]; [exact Hs|].
  rewrite forallb_forall in Hs. specialize (Hs now Hin).
  rewrite Hy in Hs. discriminate.
Qed.

Lemma stays_old_tail w t T rest :
  stays_old w t (T :: rest) = true -> stays_old w t rest = true.
Proof.
  cbn [stays_old]. intros Hs. apply andb_true_iff in Hs. apply Hs.
Qed.

(** What a later call evicts from the whole history is what it evicts
    from the list an earlier call left. *)
Lemma filter_young_twice w T now rest hist :
  (forall t, In t hist -> stays_old w t (T :: now :: rest) = true) ->
  filter (young now w) (filter (young T w) hist) = filter (young now w) hist.
Proof.
  induction hist as [|x hist IH]; intros Hs; [reflexivity|].
  assert (IH' : filter (young now w) (filter (young T w) hist)
                = filter (young now w) hist).
  { apply IH. intros t Ht. apply Hs. now right. }
  cbn [filter].
  destruct (age_le T x w) eqn:ET; cbn [filter]; rewrite IH'; [reflexivity|].
  destruct (age_le now x w) eqn:En; [|reflexivity].
  rewrite (stays_old_young w x T (now :: rest) now) in ET;
    [discriminate | apply Hs; now left | now left | exact En].
Qed.

Lemma evict_history r hist recent T now rest :
  lsu_timestamps r = filter (young T (lsu_window r)) hist ++ recent ->
  (forall t, In t hist ->
     stays_old (lsu_window r) t (T :: now :: rest) = true) ->
  evict r now = filter (young now (lsu_window r)) (hist ++ recent).
Proof.
  intros Hts Hs. unfold evict. rewrite Hts, !filter_app.
  now rewrite (filter_young_twice _ T now rest hist Hs).
Qed.

(** The list that the eviction of a call leaves holds the times of the
    advertisements accepted so far that are no older than the window. *)
Lemma evicted_window events : forall r hist recent T,
  lsu_timestamps r = filter (young T (lsu_window r)) hist ++ recent ->
  (forall t, In t hist ->
     stays_old (lsu_window r) t (T :: map fst events) = true) ->
  (forall t, In t recent ->
     stays_old (lsu_window r) t (map fst events) = true) ->
  ages_grow (lsu_window r) (map fst events) = true ->
  forall pre now lsu post, events = pre ++ (now, lsu) :: post ->
    evict (after r pre) now
    = filter (young now (lsu_window r)) (hist ++ recent ++ accepted r pre).
Proof.
  induction events as [|[t1 l1] events IH];
    intros r hist recent T Hts Hh Hr Hg pre now lsu post Hsplit.
  { now destruct pre. }
  cbn [map fst] in Hh, Hr, Hg. cbn [ages_grow] in Hg.
  apply andb_true_iff in Hg. destruct Hg as [Hg1 Hg].
  assert (He : evict r t1
               = filter (young t1 (lsu_window r)) (hist ++ recent))
    by (apply (evict_history r hist recent T t1 (map fst events) Hts Hh)).
  destruct pre as [|e pre].
  - injection Hsplit as -> -> ->. cbn [receive_events fold_left accepted_times].
    now rewrite app_nil_r.
  - injection Hsplit as <- Hsplit. rewrite receive_events_cons.
    destruct (process_lsu_timestamps PUBLIC_KEYS py_hash py_str r t1 l1)
      as (_ & Hw & Hc).
    cbn [accepted_times].
    destruct (process r t1 l1) as [r' o] eqn:E. cbn [fst snd] in Hw, Hc |- *.
    set (recent' := match o with Ok Accepted => [t1] | _ => [] end).
    assert (Hacc : match o with
                   | Ok Accepted => t1 :: accepted r' pre
                   | _ => accepted r' pre
                   end = recent' ++ accepted r' pre).
    { unfold recent'. now destruct o as [[]|]. }
    rewrite Hacc.
    assert (Hts' : lsu_timestamps r'
                   = filter (young t1 (lsu_window r')) (hist ++ recent)
                     ++ recent').
    { rewrite Hw, <- He. unfold recent'.
      destruct Hc as [(-> & _ & ->)|(Hno & ->)]; [reflexivity|].
      destruct o as [[]|]; try congruence; now rewrite app_nil_r. }
    rewrite <- Hw in *.
    rewrite (IH r' (hist ++ recent) recent' t1 Hts') with (post := post)
      (lsu := lsu); [now rewrite <- !app_assoc | | | exact Hg | exact Hsplit].
    + intros t Ht. apply in_app_or in Ht. destruct Ht as [Ht|Ht].
      * apply (stays_old_tail _ _ T). now apply Hh.
      * now apply Hr.
    + intros t Ht. unfold recent' in Ht.
      destruct o as [[]|]; try destruct Ht as [<-|[]]; try destruct Ht.
      exact Hg1.
Qed.

(** C5 (as the code has it): a router that starts without timestamps never
    holds more than [lsu_rate_limit] of them, whatever the clock.  On a
    clock on which timestamps only age, the list that the eviction of each
    call leaves is the list of all acceptance times so far that are no older
    than [lsu_window] at this call; it has at most [lsu_rate_limit]
    elements; the call records its time only when it accepts, which it does
    only while that list is below the limit, and it answers "rate limit
    exceeded" once the list holds [lsu_rate_limit] times. *)
Theorem accepted_per_window_bounded r events :
  lsu_timestamps r = [] ->
  (forall pre post, events = pre ++ post ->
     List.length (lsu_timestamps (after r pre)) <= lsu_rate_limit r) /\
  (ages_grow (lsu_window r) (map fst events) = true ->
   forall pre now lsu post, events = pre ++ (now, lsu) :: post ->
     let r1 := after r pre in
     let within := filter (young now (lsu_window r)) (accepted r pre) in
     evict r1 now = within /\
     List.length within <= lsu_rate_limit r /\
     (snd (process r1 now lsu) = Ok Accepted ->
        List.length within < lsu_rate_limit r /\
        lsu_timestamps (fst (process r1 now lsu)) = within ++ [now]) /\
     (snd (process r1 now lsu) <> Ok Accepted ->
        lsu_timestamps (fst (process r1 now lsu)) = within) /\
     (lsu_rate_limit r <= List.length within ->
        snd (process r1 now lsu) = Ok RateLimited)).
Proof.
  intros Hts.
  assert (Hle : List.length (lsu_timestamps r) <= lsu_rate_limit r)
    by (rewrite Hts; cbn; lia).
  split.
  { intros pre post _. now apply receive_events_limiter. }
  intros Hg pre now lsu post Hsplit r1 within.
  assert (He : evict r1 now = within).
  { unfold r1, within.
    rewrite (evicted_window events r [] [] now) with (post := post)
      (lsu := lsu); auto; try (now intros t []). }
  destruct (receive_events_limiter pre r Hle) as (Hl & Hw & Hb).
  fold r1 in Hl, Hw, Hb.
  destruct (process_lsu_timestamps PUBLIC_KEYS py_hash py_str r1 now lsu)
    as (_ & _ & Hc).
  pose proof (evict_length r1 now) as Hev.
  rewrite He in *.
  split; [reflexivity|]. split; [lia|]. repeat split.
  - destruct Hc as [(_ & Hlt & _)|(Hn & _)]; [lia | congruence].
  - destruct Hc as [(_ & _ & Hs)|(Hn & _)]; [exact Hs | congruence].
  - intros Hn. destruct Hc as [(Ha & _)|(_ & Hs)]; [congruence | exact Hs].
  - intros Hge. rewrite <- Hl, <- He in Hge.
    now rewrite (process_lsu_rate_limited PUBLIC_KEYS py_hash py_str
                   r1 now lsu Hge).
Qed.

End WindowFacts.

(** ** The rate limiter on a clock that does not run backwards *)

Section IntegerClockFacts.
Context {Cost : Type}.
Variable PUBLIC_KEYS : dict string.
Variable py_hash : string -> Z.
Variable py_str : LsuData (Cost := Cost) -> string.

Local Abbreviation processZ :=
  (process_lsu (Time := Z) PUBLIC_KEYS py_hash py_str).
Local Abbreviation accepted := (accepted_times PUBLIC_KEYS py_hash py_str).

Implicit Types (r : Router (Cost := Cost) (Time := Z)) (hist : list Z).

Local Open Scope Z_scope.

Lemma filter_age_twice (T now w : Z) hist :
  T <= now ->
  filter (fun t => now - t <=? w) (filter (fun t => T - t <=? w) hist)
  = filter (fun t => now - t <=? w) hist.
Proof.
  intros HT. induction hist as [|x hist IH]; simpl; [reflexivity|].
  destruct (Z.leb_spec (T - x) w), (Z.leb_spec (now - x) w); simpl;
    rewrite ?IH; try reflexivity.
  - destruct (Z.leb_spec (now - x) w); [reflexivity | lia].
  - destruct (Z.leb_spec (now - x) w); [lia | reflexivity].
  - lia.
Qed.

Lemma window_within_age (a w now : Z) hist :
  in_window a w now = true ->
  (List.length (filter (in_window a w) hist)
   <= List.length (filter (fun t => (now - t <=? w)%Z) hist))%nat.
Proof.
  unfold in_window. intros Hn. apply Bool.andb_true_iff in Hn.
  destruct Hn as [H1 H2]. apply Z.leb_le in H1, H2.
  induction hist as [|x hist IH]; simpl; [lia|].
  destruct (Z.leb_spec a x), (Z.leb_spec x (a + w)),
    (Z.leb_spec (now - x) w); simpl; lia.
Qed.

(** The stored timestamps are the accepted ones that are still young, and
    no window holds more accepted advertisements than the limit. *)
Lemma accepted_window_invariant (events : list (Z * Lsu)) :
  forall r hist T,
  0 <= lsu_window r ->
  lsu_timestamps r = filter (fun t => T - t <=? lsu_window r) hist ->
  (forall a, (List.length (filter (in_window a (lsu_window r)) hist)
              <= lsu_rate_limit r)%nat) ->
  clock_ordered T events ->
  forall a,
    (List.length
       (filter (in_window a (lsu_window r)) (hist ++ accepted r events))
     <= lsu_rate_limit r)%nat.
Proof.
  induction events as [|[now lsu] rest IH]; intros r hist T Hw Hts Hb Hc a.
  - simpl. rewrite app_nil_r. apply Hb.
  - destruct Hc as [HT Hc].
    assert (Hev : evict r now
                  = filter (fun t => now - t <=? lsu_window r) hist).
    { unfold evict. rewrite Hts. now apply filter_age_twice. }
    pose proof (process_lsu_timestamps PUBLIC_KEYS py_hash py_str r now lsu)
      as Hp.
    cbn [accepted_times].
    destruct (processZ r now lsu) as [r' o] eqn:E.
    cbn [fst snd] in Hp. destruct Hp as (Hl & Hw' & Hcase).
    destruct Hcase as [(-> & Hlt & Hts')|(Hno & Hts')].
    + change (hist ++ now :: accepted r' rest)
        with (hist ++ [now] ++ accepted r' rest).
      rewrite app_assoc, <- Hl, <- Hw'.
      apply (IH r' (hist ++ [now]) now); rewrite ?Hl, ?Hw'; auto.
      * rewrite Hts', Hev, filter_app. simpl.
        rewrite Z.sub_diag.
        destruct (Z.leb_spec 0 (lsu_window r)); [reflexivity | lia].
      * intros a'. rewrite filter_app, length_app. simpl.
        destruct (in_window a' (lsu_window r) now) eqn:Ein; simpl.
        -- pose proof (window_within_age a' (lsu_window r) now hist Ein).
           rewrite <- Hev in H. lia.
        -- specialize (Hb a'). lia.
    + assert (Hacc : accepted r' rest
                     = match o with
                       | Ok Accepted => now :: accepted r' rest
                       | _ => accepted r' rest
                       end).
      { destruct o as [[]|]; congruence. }
      rewrite <- Hacc, <- Hl, <- Hw'.
      apply (IH r' hist now); rewrite ?Hl, ?Hw'; auto.
      now rewrite Hts', Hev.
Qed.

(** On an integer clock that does not run backwards timestamps only age. *)
Lemma clock_ordered_later (events : list (Z * Lsu (Cost := Cost))) :
  forall t0, clock_ordered t0 events ->
  forall now, In now (map fst events) -> t0 <= now.
Proof.
  induction events as [|[t1 l1] events IH]; intros t0 Hc now Hin;
    [destruct Hin|].
  destruct Hc as [H1 Hc]. destruct Hin as [<-|Hin]; [exact H1|].
  specialize (IH t1 Hc now Hin). lia.
Qed.

Lemma clock_ordered_stays_old w t (events : list (Z * Lsu (Cost := Cost))) :
  forall t0, clock_ordered t0 events ->
  stays_old w t (map fst events) = true.
Proof.
  induction events as [|[t1 l1] events IH]; intros t0 Hc; [reflexivity|].
  destruct Hc as [H1 Hc]. cbn [map fst stays_old].
  rewrite (IH t1 Hc), andb_true_r.
  cbn [age_le PyClock_Z].
  destruct (Z.leb_spec (t1 - t) w) as [Hle|Hgt]; [reflexivity|].
  cbn [orb]. apply forallb_forall. intros now Hin.
  pose proof (clock_ordered_later events t1 Hc now Hin).
  apply negb_true_iff, Z.leb_gt. lia.
Qed.

Lemma clock_ordered_ages_grow w (events : list (Z * Lsu (Cost := Cost))) :
  forall t0, clock_ordered t0 events ->
  ages_grow w (map fst events) = true.
Proof.
  induction events as [|[t1 l1] events IH]; intros t0 Hc; [reflexivity|].
  destruct Hc as [H1 Hc]. cbn [map fst ages_grow].
  now rewrite (clock_ordered_stays_old w t1 events t1 Hc), (IH t1 Hc).
Qed.

(** Rate limiting over the whole life of a router with a window that is not
    negative, on an integer clock that does not run backwards: no interval
    as long as the window holds the acceptance times of more than
    [lsu_rate_limit] advertisements. *)
Lemma accepted_times_window_bounded r (events : list (Z * Lsu)) t0 a :
  lsu_timestamps r = [] ->
  0 <= lsu_window r ->
  clock_ordered t0 events ->
  (List.length (filter (in_window a (lsu_window r)) (accepted r events))
   <= lsu_rate_limit r)%nat.
Proof.
  intros Hts Hw Hc.
  apply (accepted_window_invariant events r [] t0 Hw); auto.
  intros a'. simpl. lia.
Qed.

End IntegerClockFacts.

(** ** Dijkstra's algorithm: termination and the shape of its paths *)

Section DijkstraFacts.
Context {Cost : Type} `{PyNum Cost}.
Implicit Types (G : Graph Cost) (st : dstate (Cost := Cost)).

Lemma heappop_length (h : list (entry (Cost := Cost))) e rest :
  heappop h = Some (e, rest) -> List.length h = S (List.length rest).
Proof.
  revert e rest. induction h as [|x t IH]; intros e rest; simpl.
  - discriminate.
  - destruct (heappop t) as [[m r]|] eqn:E.
    + specialize (IH _ _ eq_refl).
      destruct (entry_ltb m x); intros [= <- <-]; simpl; lia.
    + destruct t; [|simpl in E; destruct (heappop t) as [[? ?]|];
                     [destruct (entry_ltb _ _)|]; discriminate].
      now intros [= <- <-].
Qed.

Lemma heappop_None (h : list (entry (Cost := Cost))) :
  heappop h = None -> h = [].
Proof.
  destruct h as [|x t]; auto. simpl.
  destruct (heappop t) as [[m r]|]; [destruct (entry_ltb m x)|]; discriminate.
Qed.

Lemma relax_dist_fringe v d (nbrs : dict Cost) st st' :
  relax v d nbrs st = Ok st' ->
  dist st' = dist st /\
  List.length (fringe st') <= List.length (fringe st) + List.length nbrs.
Proof.
  revert st. induction nbrs as [|[u c] nbrs IH]; intros st; simpl.
  - intros [= <-]. split; [reflexivity | lia].
  - destruct (dict_get u (dist st)).
    + destruct (py_ltb (py_add d c) c0); [discriminate|].
      intros Hr. destruct (IH _ Hr). split; [assumption | lia].
    + destruct (match dict_get u (seen st) with
                | Some s => py_ltb (py_add d c) s
                | None => true
                end).
      * destruct (dict_get v (paths st)); [|discriminate].
        intros Hr. destruct (IH _ Hr) as [Hd Hf]. simpl in Hd, Hf.
        unfold heappush in Hf. rewrite length_app in Hf. simpl in Hf.
        split; [assumption | lia].
      * intros Hr. destruct (IH _ Hr). split; [assumption | lia].
Qed.

Lemma pending_settle (G_succ : dict (dict Cost)) (done : dict Cost) v d :
  pending G_succ (dict_set v d done) <= pending G_succ done.
Proof.
  induction G_succ as [|[k nb] G_succ IH]; simpl; [lia|].
  rewrite dict_mem_set.
  destruct (String.eqb k v), (dict_mem k done); simpl; lia.
Qed.

Lemma pending_settle_node (G_succ : dict (dict Cost)) (done : dict Cost)
  v d nbrs :
  dict_get v G_succ = Some nbrs -> dict_mem v done = false ->
  pending G_succ (dict_set v d done) + List.length nbrs
    <= pending G_succ done.
Proof.
  induction G_succ as [|[k nb] G_succ IH]; simpl; [discriminate|].
  intros Hg Hm. rewrite dict_mem_set.
  destruct (String.eqb_spec v k); subst.
  - injection Hg as ->. rewrite String.eqb_refl, Hm. simpl.
    pose proof (pending_settle G_succ done k d). lia.
  - specialize (IH Hg Hm).
    destruct (String.eqb_spec k v); [congruence|]. simpl. lia.
Qed.

Lemma dijkstra_loop_unfold fuel (G_succ : dict (dict Cost)) target st :
  dijkstra_loop (S fuel) G_succ target st =
  match heappop (fringe st) with
  | None => Ok st
  | Some ((d, _, v), rest) =>
      let st1 := {| dist := dist st; seen := seen st; paths := paths st;
                    fringe := rest; counter := counter st |} in
      if dict_mem v (dist st1) then dijkstra_loop fuel G_succ target st1
      else
        let st2 := {| dist := dict_set v d (dist st1); seen := seen st1;
                      paths := paths st1; fringe := fringe st1;
                      counter := counter st1 |} in
        if String.eqb v target then Ok st2
        else
          match dict_get v G_succ with
          | None => Raised KeyError
          | Some nbrs =>
              match relax v d nbrs st2 with
              | Ok st3 => dijkstra_loop fuel G_succ target st3
              | Raised e => Raised e
              end
          end
  end.
Proof. reflexivity. Qed.

(** Termination of the [while fringe] loop: once the fuel covers the
    fringe and the pending adjacency entries, one more unit of fuel does not
    change the result, so the loop has ended on its own. *)
Lemma dijkstra_loop_fuel_enough fuel (G_succ : dict (dict Cost)) target st :
  List.length (fringe st) + pending G_succ (dist st) <= fuel ->
  dijkstra_loop (S fuel) G_succ target st
  = dijkstra_loop fuel G_succ target st.
Proof.
  revert st. induction fuel as [|fuel IH]; intros st Hm.
  - rewrite dijkstra_loop_unfold.
    destruct (fringe st) as [|x t] eqn:Ef; [reflexivity | simpl in Hm; lia].
  - rewrite (dijkstra_loop_unfold (S fuel) G_succ target st).
    rewrite (dijkstra_loop_unfold fuel G_succ target st).
    destruct (heappop (fringe st)) as [[[[d c] v] rest]|] eqn:Ep;
      [|reflexivity].
    apply heappop_length in Ep. cbv zeta. cbn [dist fringe].
    destruct (dict_mem v (dist st)) eqn:Em.
    + apply IH. cbn [dist fringe]. lia.
    + destruct (String.eqb v target); [reflexivity|].
      destruct (dict_get v G_succ) as [nbrs|] eqn:Eg; [|reflexivity].
      destruct (relax v d nbrs _) as [st3|e] eqn:Er; [|reflexivity].
      apply relax_dist_fringe in Er. destruct Er as [Hd Hf].
      cbn [dist fringe] in Hd, Hf.
      apply IH. rewrite Hd.
      pose proof (pending_settle_node G_succ (dist st) v d nbrs Eg Em). lia.
Qed.

Lemma dijkstra_loop_more_fuel n fuel (G_succ : dict (dict Cost)) target st :
  List.length (fringe st) + pending G_succ (dist st) <= fuel ->
  dijkstra_loop (n + fuel) G_succ target st
  = dijkstra_loop fuel G_succ target st.
Proof.
  intros Hm. induction n as [|n IH]; [reflexivity|].
  cbn [Nat.add]. rewrite dijkstra_loop_fuel_enough by lia. exact IH.
Qed.

(** The search of [_dijkstra_multisource] runs to its end: any larger
    amount of fuel gives the same result. *)
Lemma dijkstra_terminates G source target n :
  dijkstra_loop (n + dijkstra_fuel (g_adj G)) (g_adj G) target
    (dijkstra_init source)
  = _dijkstra_multisource G source target.
Proof.
  unfold _dijkstra_multisource. apply dijkstra_loop_more_fuel.
  unfold dijkstra_fuel. simpl. lia.
Qed.

(** When the loop ends the fringe is empty or the target has its final
    distance: the two ways out of [while fringe]. *)
Lemma dijkstra_loop_exit fuel (G_succ : dict (dict Cost)) target st st' :
  List.length (fringe st) + pending G_succ (dist st) <= fuel ->
  dijkstra_loop fuel G_succ target st = Ok st' ->
  fringe st' = [] \/ dict_mem target (dist st') = true.
Proof.
  revert st. induction fuel as [|fuel IH]; intros st Hm.
  - simpl. intros [= <-]. left.
    destruct (fringe st); [reflexivity | simpl in Hm; lia].
  - rewrite dijkstra_loop_unfold.
    destruct (heappop (fringe st)) as [[[[d c] v] rest]|] eqn:Ep.
    + apply heappop_length in Ep. cbv zeta. cbn [dist fringe].
      destruct (dict_mem v (dist st)) eqn:Em.
      * apply IH. cbn [dist fringe]. lia.
      * destruct (String.eqb_spec v target); subst.
        -- intros [= <-]. right. cbn [dist].
           now rewrite dict_mem_set, String.eqb_refl.
        -- destruct (dict_get v G_succ) as [nbrs|] eqn:Eg; [|discriminate].
           destruct (relax v d nbrs _) as [st3|e] eqn:Er; [|discriminate].
           apply relax_dist_fringe in Er. destruct Er as [Hd Hf].
           cbn [dist fringe] in Hd, Hf.
           apply IH. rewrite Hd.
           pose proof (pending_settle_node G_succ (dist st) v d nbrs Eg Em).
           lia.
    + intros [= <-]. left. now apply heappop_None.
Qed.

Lemma path_edges_cons a (p : list string) :
  path_edges (a :: p) =
  match p with [] => [] | b :: _ => (a, b) :: path_edges p end.
Proof. destruct p; reflexivity. Qed.

Lemma path_edges_snoc (q : list string) u w :
  path_edges ((q ++ [u]) ++ [w]) = path_edges (q ++ [u]) ++ [(u, w)].
Proof.
  induction q as [|a q IH].
  - reflexivity.
  - change (((a :: q) ++ [u]) ++ [w]) with (a :: ((q ++ [u]) ++ [w])).
    change ((a :: q) ++ [u]) with (a :: (q ++ [u])).
    rewrite !path_edges_cons, IH.
    destruct q; reflexivity.
Qed.

Lemma paths_ok_init G source : paths_ok G source (dijkstra_init source).
Proof.
  intros u p. simpl. destruct (String.eqb_spec u source); [|discriminate].
  intros [= <-]. subst. repeat split.
  - intros a b [].
  - now exists [].
  - now exists [].
Qed.

Lemma relax_paths_ok G source v d (nbrs : dict Cost) st st' :
  (forall u c, In (u, c) nbrs -> has_edge G v u = true) ->
  paths_ok G source st ->
  relax v d nbrs st = Ok st' ->
  paths_ok G source st'.
Proof.
  revert st. induction nbrs as [|[u c] nbrs IH]; intros st Hn Hok; simpl.
  - now intros [= <-].
  - assert (Hn' : forall u' c', In (u', c') nbrs -> has_edge G v u' = true)
      by (intros u' c' Hi; apply (Hn u' c'); now right).
    destruct (dict_get u (dist st)).
    + destruct (py_ltb (py_add d c) c0); [discriminate|]. now apply IH.
    + destruct (match dict_get u (seen st) with
                | Some s => py_ltb (py_add d c) s
                | None => true
                end); [|now apply IH].
      destruct (dict_get v (paths st)) as [pv|] eqn:Ev; [|discriminate].
      apply IH; [assumption|].
      intros u' p. cbn [paths]. rewrite dict_get_set.
      destruct (String.eqb_spec u' u); subst; [|apply Hok].
      intros [= <-].
      destruct (Hok v pv Ev) as (Hw & [q ->] & [q' Hq']). repeat split.
      * intros a b. rewrite path_edges_snoc, in_app_iff.
        intros [Hi|[[= <- <-]|[]]]; [now apply Hw|].
        apply (Hn u c). now left.
      * now exists (q ++ [v]).
      * rewrite Hq'. now exists (q' ++ [u]).
Qed.

Lemma dijkstra_loop_paths_ok fuel G source target st st' :
  paths_ok G source st ->
  dijkstra_loop fuel (g_adj G) target st = Ok st' ->
  paths_ok G source st'.
Proof.
  revert st. induction fuel as [|fuel IH]; intros st Hok.
  - simpl. now intros [= <-].
  - rewrite dijkstra_loop_unfold.
    destruct (heappop (fringe st)) as [[[[d c] v] rest]|];
      [|now intros [= <-]].
    cbv zeta. cbn [dist fringe seen paths counter].
    destruct (dict_mem v (dist st)); [now apply IH|].
    destruct (String.eqb v target); [now intros [= <-]|].
    destruct (dict_get v (g_adj G)) as [nbrs|] eqn:Eg; [|discriminate].
    destruct (relax v d nbrs _) as [st3|e] eqn:Er; [|discriminate].
    apply IH. eapply relax_paths_ok; [| |exact Er]; [|exact Hok].
    intros u cu Hi. unfold has_edge, neighbors, adj_nbrs. rewrite Eg.
    eapply In_dict_mem; eassumption.
Qed.

(** A path returned by [dijkstra_path] follows edges of the graph, from the
    source to the target. *)
Lemma dijkstra_path_walk G source target p :
  dijkstra_path G source target = Ok p ->
  is_walk G p /\ (exists q, p = q ++ [target]) /\ (exists q, p = source :: q).
Proof.
  unfold dijkstra_path, single_source_dijkstra.
  destruct (negb (has_node G source)); [discriminate|].
  destruct (String.eqb_spec target source); subst.
  - intros [= <-]. repeat split; [intros a b [] | now exists [] ..].
  - destruct (_dijkstra_multisource G source target) as [st|e] eqn:Ed;
      [|discriminate].
    destruct (dict_get target (dist st)); [|discriminate].
    destruct (dict_get target (paths st)) as [p'|] eqn:Ep; [|discriminate].
    intros [= <-].
    eapply (dijkstra_loop_paths_ok _ G source target); [|exact Ed|exact Ep].
    apply paths_ok_init.
Qed.

End DijkstraFacts.

(** ** Route computation *)

Section RouteFacts.
Context {Cost : Type} `{PyNum Cost} {Time : Type} `{PyClock Time}.
Implicit Types (topo : Graph Cost) (e : RouteEntry (Cost := Cost))
  (r : Router (Cost := Cost) (Time := Time)).

(** Where the fields of a table entry come from. *)
Lemma route_entry_inv topo self_id target e :
  route_entry topo self_id target = Ok e ->
  dijkstra_path topo self_id target = Ok (path e) /\
  (forall bp, backup_path e = Some bp ->
     dijkstra_path
       (remove_edges_from (copy topo) (path_edges (path e))) self_id target
     = Ok bp) /\
  (forall c, backup_cost e = Some c -> exists bp, backup_path e = Some bp) /\
  (exists x rest, path e = x :: next_hop e :: rest).
Proof.
  unfold route_entry.
  destruct (dijkstra_path topo self_id target) as [pp|] eqn:Ep;
    [|discriminate].
  destruct (dijkstra_path_length topo self_id target) as [pc|];
    [|discriminate].
  set (tc := remove_edges_from (copy topo) (path_edges pp)).
  destruct (dijkstra_path tc self_id target) as [bp|ex] eqn:Eb.
  - destruct (dijkstra_path_length tc self_id target) as [bc|ex'].
    + destruct pp as [|x [|hop rest]]; try discriminate.
      intros [= <-]. cbn. repeat split; eauto.
      * intros bp' [= <-]. exact Eb.
    + destruct ex'; try discriminate.
      destruct pp as [|x [|hop rest]]; try discriminate.
      intros [= <-]. cbn. repeat split; eauto; discriminate.
  - destruct ex; try discriminate.
    destruct pp as [|x [|hop rest]]; try discriminate.
    intros [= <-]. cbn. repeat split; eauto; discriminate.
Qed.

(** The backup cost of an entry with a backup path is the rounded length of
    that path when the length counts as true, and is missing when it counts
    as false, that is when it is 0. *)
Lemma backup_cost_of_backup_path topo self_id target e bp :
  route_entry topo self_id target = Ok e ->
  backup_path e = Some bp ->
  exists c,
    dijkstra_path_length
      (remove_edges_from (copy topo) (path_edges (path e))) self_id target
    = Ok c /\
    backup_cost e = if py_truthy c then Some (py_round2 c) else None.
Proof.
  unfold route_entry.
  destruct (dijkstra_path topo self_id target) as [pp|]; [|discriminate].
  destruct (dijkstra_path_length topo self_id target) as [pc|];
    [|discriminate].
  set (tc := remove_edges_from (copy topo) (path_edges pp)).
  destruct (dijkstra_path tc self_id target) as [bp'|ex] eqn:Eb.
  - destruct (dijkstra_path_length tc self_id target) as [bc|ex'] eqn:El.
    + destruct pp as [|x [|hop rest]]; try discriminate.
      intros [= <-] _. cbn [path backup_cost]. fold tc. rewrite El.
      exists bc. split; reflexivity.
    + destruct ex'; try discriminate.
      destruct pp as [|x [|hop rest]]; try discriminate.
      intros [= <-]. discriminate.
  - destruct ex; try discriminate.
    destruct pp as [|x [|hop rest]]; try discriminate.
    intros [= <-]. discriminate.
Qed.

Lemma route_entry_backup_disjoint topo self_id target e bp a b :
  route_entry topo self_id target = Ok e ->
  backup_path e = Some bp ->
  In (a, b) (path_edges bp) ->
  existsb (same_edge a b) (path_edges (path e)) = false.
Proof.
  intros He Hb Hin.
  destruct (route_entry_inv topo self_id target e He) as (_ & Hbp & _).
  specialize (Hbp bp Hb).
  destruct (dijkstra_path_walk _ _ _ _ Hbp) as (Hw & _).
  specialize (Hw a b Hin). unfold has_edge, dict_mem in Hw.
  fold (edge_cost (remove_edges_from (copy topo) (path_edges (path e))) a b)
    in Hw.
  rewrite remove_edges_from_edge_cost in Hw by apply copy_ok.
  destruct (existsb (same_edge a b) (path_edges (path e)));
    [discriminate | reflexivity].
Qed.

(** Every entry of the table that the loop returns was in the table before
    or is the entry computed for its destination. *)
Lemma routes_loop_entries topo self_id targets table table' ex target e :
  routes_loop topo self_id targets table = (table', ex) ->
  dict_get target table' = Some e ->
  dict_get target table = Some e \/ route_entry topo self_id target = Ok e.
Proof.
  revert table. induction targets as [|t targets IH]; intros table; simpl.
  - intros [= <- <-]. auto.
  - destruct (String.eqb t self_id); [apply IH|].
    destruct (route_entry topo self_id t) as [e0|ex0] eqn:Er.
    + intros Hl Hg. destruct (IH _ Hl Hg) as [Hs|Hr]; [|auto].
      rewrite dict_get_set in Hs.
      destruct (String.eqb_spec target t); subst; [|auto].
      injection Hs as <-. auto.
    + destruct ex0; try apply IH; intros [= <- <-]; auto.
Qed.

Lemma calculate_routes_entries r target e :
  has_node (topology r) (id r) = true ->
  dict_get target (routing_table (fst (calculate_routes r))) = Some e ->
  route_entry (topology r) (id r) target = Ok e.
Proof.
  intros Hn. unfold calculate_routes. rewrite Hn. cbn [negb].
  destruct (routes_loop _ _ _ _) as [table ex] eqn:El. cbn.
  intros Hg. destruct (routes_loop_entries _ _ _ _ _ _ _ _ El Hg); auto.
  discriminate.
Qed.

(** C4: in the table that [calculate_routes] builds, a backup path is a
    shortest path of the copy of the database without the edges of the
    primary path, and no edge of it, in either direction, is an edge of the
    primary path. *)
Theorem backup_path_edge_disjoint r target e bp :
  has_node (topology r) (id r) = true ->
  dict_get target (routing_table (fst (calculate_routes r))) = Some e ->
  backup_path e = Some bp ->
  dijkstra_path
    (remove_edges_from (copy (topology r)) (path_edges (path e)))
    (id r) target = Ok bp /\
  (forall a b, In (a, b) (path_edges bp) ->
     ~ In (a, b) (path_edges (path e)) /\
     ~ In (b, a) (path_edges (path e))).
Proof.
  intros Hn Hg Hb.
  pose proof (calculate_routes_entries r target e Hn Hg) as He.
  split.
  - now apply (route_entry_inv _ _ _ _ He).
  - intros a b Hin.
    pose proof (route_entry_backup_disjoint _ _ _ _ _ _ _ He Hb Hin) as Hd.
    assert (Hall : forall x, In x (path_edges (path e)) ->
                   same_edge a b x = false).
    { intros x Hx. destruct (same_edge a b x) eqn:Ex; auto.
      assert (existsb (same_edge a b) (path_edges (path e)) = true)
        by (apply existsb_exists; eauto).
      congruence. }
    split; intros Hi; apply Hall in Hi; unfold same_edge in Hi; simpl in Hi;
      rewrite !String.eqb_refl in Hi; simpl in Hi;
      rewrite ?Bool.orb_true_r in Hi; discriminate.
Qed.

(** A backup cost is never stored without a backup path; the converse
    depends on the truth value of the cost ([zero_cost_backup_loses_cost]
    below). *)
Lemma backup_cost_needs_backup_path r target e c :
  has_node (topology r) (id r) = true ->
  dict_get target (routing_table (fst (calculate_routes r))) = Some e ->
  backup_cost e = Some c ->
  exists bp, backup_path e = Some bp.
Proof.
  intros Hn Hg Hc.
  pose proof (calculate_routes_entries r target e Hn Hg) as He.
  now apply (route_entry_inv _ _ _ _ He) in Hc.
Qed.

End RouteFacts.

(** ** Link costs *)

Module LinkCostFacts.
Import LinkCost.
Local Open Scope Z_scope.

(** *** Signs and zeros of the float operations

    The operations of the primitive floats are specified on [spec_float],
    the sign, mantissa and exponent of a binary64 number. *)

Lemma ltb_zero x : (x <? 0)%float = negb (sf_not_negative (Prim2SF x)).
Proof.
  rewrite FloatAxioms.ltb_spec. change (Prim2SF 0) with (S754_zero false).
  now destruct (Prim2SF x) as [s|[]| |[] m e].
Qed.

Lemma eqb_zero x : (x =? 0)%float = sf_is_zero (Prim2SF x).
Proof.
  rewrite FloatAxioms.eqb_spec. change (Prim2SF 0) with (S754_zero false).
  now destruct (Prim2SF x) as [s|[]| |[] m e].
Qed.

Lemma round_aux_sign s m e l :
  sf_not_negative (binary_round_aux prec emax s m e l) = negb s
  \/ sf_not_negative (binary_round_aux prec emax s m e l) = true.
Proof.
  unfold binary_round_aux.
  destruct (shr_fexp prec emax m e l) as [mrs' e'].
  destruct (shr_fexp prec emax _ e' loc_Exact) as [mrs'' e''].
  destruct (shr_m mrs''); [now right| |now right].
  destruct (e'' <=? emax - prec); now left.
Qed.

Lemma round_aux_not_negative m e l :
  sf_not_negative (binary_round_aux prec emax false m e l) = true.
Proof. now destruct (round_aux_sign false m e l). Qed.

Lemma binary_round_not_negative m e :
  sf_not_negative (binary_round prec emax false m e) = true.
Proof.
  unfold binary_round. destruct (shl_align _ _ _).
  apply round_aux_not_negative.
Qed.

Lemma SFadd_not_negative a b :
  sf_not_negative a = true -> sf_not_negative b = true ->
  sf_not_negative (SFadd prec emax a b) = true.
Proof.
  destruct a as [sa|[]| |[] ma ea]; destruct b as [sb|[]| |[] mb eb];
    try discriminate; try reflexivity; intros _ _.
  - now destruct sa, sb.
  - cbn [SFadd cond_Zopp]. apply binary_round_not_negative.
Qed.

Lemma SFmul_not_negative a b :
  sf_not_negative a = true -> sf_not_negative b = true ->
  sf_not_negative (SFmul prec emax a b) = true.
Proof.
  destruct a as [sa|[]| |[] ma ea]; destruct b as [sb|[]| |[] mb eb];
    try discriminate; try reflexivity; intros _ _.
  cbn [SFmul xorb]. apply round_aux_not_negative.
Qed.

Lemma SFdiv_not_negative a b :
  sf_not_negative a = true -> sf_not_negative b = true ->
  sf_is_zero b = false ->
  sf_not_negative (SFdiv prec emax a b) = true.
Proof.
  destruct a as [sa|[]| |[] ma ea]; destruct b as [sb|[]| |[] mb eb];
    try discriminate; try reflexivity; intros _ _ _.
  cbn [SFdiv xorb].
  destruct (SFdiv_core_binary _ _ _ _ _ _) as [[mz ez] lz].
  apply round_aux_not_negative.
Qed.

(** ** Sums of positive numbers are not zero *)

Lemma digits2_pos_bound m : 2 ^ (Zpos (digits2_pos m) - 1) <= Zpos m.
Proof.
  induction m as [m IH|m IH|]; cbn [digits2_pos]; [| |now cbn].
  - rewrite Pos2Z.inj_succ.
    replace (Z.succ (Zpos (digits2_pos m)) - 1)
      with (Z.succ (Zpos (digits2_pos m) - 1)) by lia.
    rewrite Z.pow_succ_r by lia. lia.
  - rewrite Pos2Z.inj_succ.
    replace (Z.succ (Zpos (digits2_pos m)) - 1)
      with (Z.succ (Zpos (digits2_pos m) - 1)) by lia.
    rewrite Z.pow_succ_r by lia. lia.
Qed.

Lemma shr_1_m mrs : 0 <= shr_m mrs -> shr_m (shr_1 mrs) = shr_m mrs / 2.
Proof.
  destruct mrs as [m r s]. cbn [shr_m shr_1]. intros Hm.
  destruct m as [|[p|p|]|p]; cbn [shr_m]; try lia.
  - reflexivity.
  - apply Z.div_unique with 1; lia.
  - apply Z.div_unique with 0; lia.
  - reflexivity.
Qed.

Lemma iter_shr_m p : forall mrs,
  0 <= shr_m mrs ->
  shr_m (SpecFloat.iter_pos shr_1 p mrs) = shr_m mrs / 2 ^ Zpos p.
Proof.
  induction p as [p IH|p IH|]; intros mrs Hm; cbn [SpecFloat.iter_pos].
  - assert (H1 : 0 <= shr_m (shr_1 mrs)).
    { rewrite shr_1_m by assumption. apply Z.div_pos; lia. }
    assert (H2 : 0 <= shr_m (SpecFloat.iter_pos shr_1 p (shr_1 mrs))).
    { rewrite IH by assumption. apply Z.div_pos; [assumption|].
      apply Z.pow_pos_nonneg; lia. }
    rewrite IH, IH, shr_1_m by assumption.
    rewrite !Z.div_div by (try apply Z.pow_pos_nonneg; lia).
    f_equal.
    assert (E : Zpos p~1 = 1 + Zpos p + Zpos p) by lia.
    rewrite E, !Z.pow_add_r, Z.pow_1_r by lia. lia.
  - assert (H2 : 0 <= shr_m (SpecFloat.iter_pos shr_1 p mrs)).
    { rewrite IH by assumption. apply Z.div_pos; [assumption|].
      apply Z.pow_pos_nonneg; lia. }
    rewrite IH, IH by assumption.
    rewrite !Z.div_div by (try apply Z.pow_pos_nonneg; lia).
    f_equal.
    assert (E : Zpos p~0 = Zpos p + Zpos p) by lia.
    rewrite E, !Z.pow_add_r by lia. lia.
  - now rewrite shr_1_m.
Qed.

Lemma shr_record_of_loc_m m l : shr_m (shr_record_of_loc m l) = m.
Proof. now destruct l as [|[]]. Qed.

Lemma shr_fexp_pos m e l :
  0 < m -> emin <= e ->
  0 < shr_m (fst (shr_fexp prec emax m e l)) /\
  emin <= snd (shr_fexp prec emax m e l).
Proof.
  intros Hm He. unfold shr_fexp, shr.
  destruct (fexp prec emax (Zdigits2 m + e) - e) as [|p|p] eqn:En;
    cbn [fst snd]; rewrite ?shr_record_of_loc_m; try (split; lia).
  split; [|lia].
  rewrite iter_shr_m by (rewrite shr_record_of_loc_m; lia).
  rewrite shr_record_of_loc_m.
  destruct m as [|m|m]; try lia. cbn [Zdigits2] in En.
  pose proof (digits2_pos_bound m) as Hd.
  unfold fexp in En. change (SpecFloat.emin prec emax) with emin in En.
  assert (Ep : Zpos p = Zpos (digits2_pos m) - prec) by lia.
  apply Z.div_str_pos. split; [apply Z.pow_pos_nonneg; lia|].
  etransitivity; [|exact Hd]. apply Z.pow_le_mono_r; [lia|].
  rewrite Ep. unfold prec. lia.
Qed.

Lemma round_nearest_even_pos m l : 0 < m -> 0 < round_nearest_even m l.
Proof.
  intros Hm. destruct l as [|[]]; cbn [round_nearest_even]; try lia.
  destruct (Z.even m); lia.
Qed.

Lemma round_aux_not_zero s m e l :
  0 < m -> emin <= e ->
  sf_is_zero (binary_round_aux prec emax s m e l) = false.
Proof.
  intros Hm He. unfold binary_round_aux.
  destruct (shr_fexp_pos m e l Hm He) as [H1 H2].
  destruct (shr_fexp prec emax m e l) as [mrs' e']. cbn [fst snd] in H1, H2.
  pose proof (round_nearest_even_pos _ (loc_of_shr_record mrs') H1) as H3.
  destruct (shr_fexp_pos _ e' loc_Exact H3 H2) as [H4 _].
  destruct (shr_fexp prec emax _ e' loc_Exact) as [mrs'' e''].
  cbn [fst] in H4.
  destruct (shr_m mrs''); try lia.
  now destruct (e'' <=? emax - prec).
Qed.

Lemma binary_round_not_zero s m e :
  emin <= e -> sf_is_zero (binary_round prec emax s m e) = false.
Proof.
  intros He. unfold binary_round, shl_align.
  destruct (fexp prec emax (Zpos (digits2_pos m) + e) - e) eqn:En;
    apply round_aux_not_zero; try lia.
  unfold fexp. change (SpecFloat.emin prec emax) with emin. lia.
Qed.

Lemma valid_exponent s m e :
  valid_binary (S754_finite s m e) = true -> emin <= e.
Proof.
  cbn [SpecFloat.valid_binary]. unfold bounded, canonical_mantissa.
  intros H. apply andb_true_iff in H. destruct H as [H _].
  apply Z.eqb_eq in H. unfold fexp in H.
  change (SpecFloat.emin prec emax) with emin in H. lia.
Qed.

Lemma SFadd_not_zero a b :
  valid_binary a = true -> valid_binary b = true ->
  sf_not_negative a = true -> sf_not_negative b = true ->
  sf_is_zero b = false ->
  sf_is_zero (SFadd prec emax a b) = false.
Proof.
  destruct a as [sa|[]| |[] ma ea]; destruct b as [sb|[]| |[] mb eb];
    try discriminate; try reflexivity; intros Va Vb _ _ _.
  cbn [SFadd cond_Zopp].
  apply valid_exponent in Va, Vb.
  match goal with |- context [binary_normalize _ _ ?m _ _] =>
    assert (Hm : 0 < m) by lia; destruct m; try lia end.
  cbn [binary_normalize]. apply binary_round_not_zero. lia.
Qed.

Lemma not_negative_spec x :
  not_negative x <-> sf_not_negative (Prim2SF x) = true.
Proof.
  unfold not_negative. rewrite ltb_zero.
  destruct (sf_not_negative (Prim2SF x)); cbn; intuition congruence.
Qed.

Lemma add_not_negative x y :
  not_negative x -> not_negative y -> not_negative (x + y)%float.
Proof.
  rewrite !not_negative_spec, FloatAxioms.add_spec.
  apply SFadd_not_negative.
Qed.

Lemma mul_not_negative x y :
  not_negative x -> not_negative y -> not_negative (x * y)%float.
Proof.
  rewrite !not_negative_spec, FloatAxioms.mul_spec.
  apply SFmul_not_negative.
Qed.

Lemma div_not_negative x y :
  not_negative x -> not_negative y -> (y =? 0)%float = false ->
  not_negative (x / y)%float.
Proof.
  rewrite !not_negative_spec, FloatAxioms.div_spec, eqb_zero.
  apply SFdiv_not_negative.
Qed.

Lemma add_not_zero x y :
  not_negative x -> not_negative y -> (y =? 0)%float = false ->
  (x + y =? 0)%float = false.
Proof.
  rewrite !not_negative_spec, !eqb_zero, FloatAxioms.add_spec.
  apply SFadd_not_zero; apply Prim2SF_valid.
Qed.

Lemma of_uint63_not_negative i : not_negative (of_uint63 i).
Proof.
  rewrite not_negative_spec, FloatAxioms.of_uint63_spec.
  pose proof (Uint63.to_Z_bounded i) as [Hi _].
  destruct (Uint63.to_Z i); try lia; [reflexivity|].
  apply binary_round_not_negative.
Qed.

Lemma py_round_2_not_negative x : not_negative x -> not_negative (py_round_2 x).
Proof.
  intros Hx. unfold py_round_2.
  destruct (Prim2SF x) as [s|s| |s m e] eqn:E; try exact Hx.
  destruct (nearest_even (Zpos m * 100) e <? 2 ^ 53); [|exact Hx].
  apply not_negative_spec in Hx. rewrite E in Hx. destruct s; [discriminate|].
  apply div_not_negative; [apply of_uint63_not_negative| |]; reflexivity.
Qed.

(** A float is finite when its specification is a zero or a finite
    number. *)
Lemma is_finite_spec x :
  is_finite x = match Prim2SF x with
                | S754_zero _ | S754_finite _ _ _ => true
                | _ => false
                end.
Proof.
  unfold is_finite, is_nan, is_infinity.
  rewrite !FloatAxioms.eqb_spec, FloatAxioms.abs_spec.
  change (Prim2SF infinity) with (S754_infinity false).
  destruct (Prim2SF x) as [s|s| |s m e]; try reflexivity.
  - now destruct s.
  - unfold SFeqb. cbn [SFabs SFcompare].
    rewrite Z.compare_refl.
    replace (Pos.compare_cont Eq m m) with Eq
      by (symmetry; apply Pos.compare_cont_refl).
    now destruct s.
Qed.

Lemma is_infinity_spec x :
  is_infinity x = match Prim2SF x with
                  | S754_infinity _ => true
                  | _ => false
                  end.
Proof.
  unfold is_infinity. rewrite FloatAxioms.eqb_spec, FloatAxioms.abs_spec.
  change (Prim2SF infinity) with (S754_infinity false).
  now destruct (Prim2SF x) as [s|s| |s m e].
Qed.

Lemma static_cost_at_least_one link_data :
  static_cost_defined link_data = true ->
  exists c, ospf_calculate_link_cost link_data = Ok c /\ 1 <= c.
Proof.
  unfold static_cost_defined, ospf_calculate_link_cost, py_div, py_round.
  intros Hd. apply andb_true_iff in Hd. destruct Hd as [Hb Hf].
  apply negb_true_iff in Hb. rewrite Hb. rewrite is_finite_spec in Hf.
  destruct (Prim2SF (1000 / bandwidth link_data)); try discriminate;
    eexists; (split; [reflexivity | apply Z.le_max_l]).
Qed.

Lemma static_cost_returned link_data c :
  ospf_calculate_link_cost link_data = Ok c ->
  1 <= c /\ static_cost_defined link_data = true.
Proof.
  unfold static_cost_defined, ospf_calculate_link_cost, py_div, py_round.
  rewrite is_finite_spec.
  destruct (bandwidth link_data =? 0)%float; [discriminate|].
  destruct (Prim2SF (1000 / bandwidth link_data)); try discriminate;
    intros [= <-]; (split; [apply Z.le_max_l | reflexivity]).
Qed.

Lemma dynamic_cost_not_negative w1 w2 link_data jitter :
  not_negative w1 -> not_negative w2 ->
  not_negative (base_latency link_data + jitter)%float ->
  not_negative (bandwidth link_data) ->
  exists cost,
    calculate_link_cost w1 w2 link_data jitter = Ok cost /\
    not_negative cost.
Proof.
  intros Hw1 Hw2 Hl Hb. unfold calculate_link_cost, py_div.
  assert (Hnb : not_negative (bandwidth link_data / 200)%float)
    by (apply div_not_negative; [exact Hb| |]; reflexivity).
  rewrite (add_not_zero _ 0.01%float Hnb) by reflexivity.
  eexists. split; [reflexivity|].
  apply py_round_2_not_negative, add_not_negative; apply mul_not_negative;
    try assumption.
  - apply div_not_negative; [exact Hl| |]; reflexivity.
  - apply div_not_negative; [reflexivity| |].
    + apply add_not_negative; [exact Hnb | reflexivity].
    + apply add_not_zero; [exact Hnb | |]; reflexivity.
Qed.

(** C6 (as the code has it): the static cost is returned exactly when the
    bandwidth is not 0 and the quotient 1000 / bandwidth is finite, and is
    then an integer that is at least 1; a bandwidth of 0 raises
    [ZeroDivisionError], and a bandwidth for which the quotient is an
    infinity raises [OverflowError].  The dynamic cost of a link is returned
    and is not negative when neither weight, nor the bandwidth, nor the base
    latency with its jitter is negative. *)
Theorem link_cost_bounds w1 w2 link_data jitter :
  (static_cost_defined link_data = true <->
   exists c, ospf_calculate_link_cost link_data = Ok c) /\
  (forall c, ospf_calculate_link_cost link_data = Ok c -> 1 <= c) /\
  ((bandwidth link_data =? 0)%float = true ->
   ospf_calculate_link_cost link_data = Raised ZeroDivisionError) /\
  ((bandwidth link_data =? 0)%float = false ->
   is_infinity (1000 / bandwidth link_data)%float = true ->
   ospf_calculate_link_cost link_data = Raised OverflowError) /\
  (not_negative w1 -> not_negative w2 ->
   not_negative (base_latency link_data + jitter)%float ->
   not_negative (bandwidth link_data) ->
   exists cost,
     calculate_link_cost w1 w2 link_data jitter = Ok cost /\
     not_negative cost).
Proof.
  split; [split|split; [|split; [|split]]].
  - intros Hd. destruct (static_cost_at_least_one link_data Hd) as (c & Hc & _).
    now exists c.
  - intros [c Hc]. now apply static_cost_returned in Hc.
  - intros c Hc. now apply static_cost_returned in Hc.
  - intros Hz. unfold ospf_calculate_link_cost, py_div. now rewrite Hz.
  - intros Hz Hi. unfold ospf_calculate_link_cost, py_div, py_round.
    rewrite Hz. rewrite is_infinity_spec in Hi.
    now destruct (Prim2SF (1000 / bandwidth link_data)).
  - apply dynamic_cost_not_negative.
Qed.

End LinkCostFacts.

(** ** Concrete runs *)

Module ScenarioFacts.
Import Scenario.
Local Open Scope Z_scope.

(** C8: on the path R0 - R1 - R2 with costs 1 and 1, once R0 has accepted
    the advertisements of R1 and R2 (in either order, with or without its
    own), its database holds both links and its entry for R2 has the primary
    path R0, R1, R2 of cost 2 through next hop R1, and neither a backup path
    nor a backup cost. *)
Theorem scenario_A_route_to_R2 :
  let entry := {| next_hop := "R1"; total_cost := 2;
                  path := ["R0"; "R1"; "R2"];
                  backup_path := None; backup_cost := None |} in
  edge_cost (topology routerA) "R0" "R1" = Some 1 /\
  edge_cost (topology routerA) "R1" "R2" = Some 1 /\
  edge_cost (topology routerA) "R0" "R2" = None /\
  calculate_routes routerA
    = (set_routing_table routerA
         [("R1", {| next_hop := "R1"; total_cost := 1; path := ["R0"; "R1"];
                    backup_path := None; backup_cost := None |});
          ("R2", entry)], None) /\
  dict_get "R2" (routing_table (fst (calculate_routes routerA)))
    = Some entry /\
  dict_get "R2"
    (routing_table
       (fst (calculate_routes
               (receive_all (new_router "R0") 0 [lsuA_R2; lsuA_R1]))))
    = Some entry /\
  dict_get "R2"
    (routing_table
       (fst (calculate_routes
               (receive_all (new_router "R0") 0
                  [lsuA_R0; lsuA_R1; lsuA_R2]))))
    = Some entry.
Proof. vm_compute. repeat split. Qed.

(** C9, the failing run: on the triangle R0, R1, R2 with three links of
    cost 0, the entry of R0 for R1 has the backup path R0, R2, R1 and no
    backup cost, because the cost 0 of that path counts as false in
    [round(backup_cost, 2) if backup_cost else None]. *)
Theorem zero_cost_backup_loses_cost :
  snd (calculate_routes routerZ) = None /\
  dict_get "R1" (routing_table (fst (calculate_routes routerZ)))
    = Some {| next_hop := "R1"; total_cost := 0; path := ["R0"; "R1"];
              backup_path := Some ["R0"; "R2"; "R1"];
              backup_cost := None |} /\
  dijkstra_path_length
    (remove_edges_from (copy (topology routerZ)) (path_edges ["R0"; "R1"]))
    "R0" "R1" = Ok 0.
Proof. vm_compute. repeat split. Qed.

(** C1, the claim as stated fails: R0 accepts an advertisement of R1 with a
    link to R2, then one of R2 that does not list R1.  The second one
    removes the edge that R1 announced, so the edges at R1 are no longer the
    links of the advertisement of R1 that R0 accepted last. *)
Lemma other_source_edges_replaced :
  snd (receive (new_router "R0") 0 lsuM_R1) = Ok Accepted /\
  snd (receive routerM1 0 lsuM_R2) = Ok Accepted /\
  source_id (data lsuM_R2) <> source_id (data lsuM_R1) /\
  edges_of (topology routerM1) "R1" = link_edges (data lsuM_R1) /\
  edges_of (topology routerM2) "R1" = [] /\
  edges_of (topology routerM2) "R1" <> link_edges (data lsuM_R1).
Proof. vm_compute. repeat split; discriminate. Qed.

Lemma accepted_lsu_replaces_incident_edges_witness :
  graph_ok (topology routerS1) /\
  NoDup (dict_keys (links (data lsuS_v2))) /\
  receive routerS1 1 lsuS_v2 = (routerS2, Ok Accepted) /\
  (forall v, edge_cost (topology routerS2) "R1" v
             = dict_get v (links (data lsuS_v2))) /\
  edge_cost (topology routerS1) "R1" "R2" = Some 5 /\
  edge_cost (topology routerS2) "R1" "R2" = None.
Proof.
  assert (H0 : graph_ok (topology routerS1)).
  { apply (accepted_lsu_replaces_incident_edges keys hash_of str_of
             (new_router "R0") 0 lsuS_v1 routerS1).
    - apply graph_ok_empty.
    - vm_compute. repeat constructor; simpl; intuition discriminate.
    - vm_compute. reflexivity. }
  assert (H1 : NoDup (dict_keys (links (data lsuS_v2)))).
  { vm_compute. repeat constructor; simpl; intuition discriminate. }
  assert (H2 : receive routerS1 1 lsuS_v2 = (routerS2, Ok Accepted)).
  { vm_compute. reflexivity. }
  pose proof (accepted_lsu_replaces_incident_edges keys hash_of str_of
                routerS1 1 lsuS_v2 routerS2 H0 H1 H2) as Hthm.
  refine (conj H0 (conj H1 (conj H2 (conj _ (conj _ _))))).
  - apply Hthm.
  - vm_compute. reflexivity.
  - vm_compute. reflexivity.
Defined.

Lemma stale_lsu_rejected_witness :
  has_node (topology routerA) "R1" = true /\
  (data_sequence_number (data lsuA_R1) <= node_seq (topology routerA) "R1") /\
  (List.length (evict routerA 5%Z) < lsu_rate_limit routerA)%nat /\
  verify_signature keys hash_of str_of (data lsuA_R1) (signature lsuA_R1) "R1"
    = Ok true /\
  snd (receive routerA 5 lsuA_R1) = Ok Stale /\
  topology (fst (receive routerA 5 lsuA_R1)) = topology routerA.
Proof.
  assert (H0 : has_node (topology routerA) "R1" = true) by reflexivity.
  assert (H1 : data_sequence_number (data lsuA_R1)
               <= node_seq (topology routerA) "R1")
    by (apply Z.leb_le; vm_compute; reflexivity).
  assert (H2 : (List.length (evict routerA 5%Z) < lsu_rate_limit routerA)%nat)
    by (vm_compute; lia).
  assert (H3 : verify_signature keys hash_of str_of (data lsuA_R1)
                 (signature lsuA_R1) "R1" = Ok true) by reflexivity.
  pose proof (stale_lsu_rejected keys hash_of str_of routerA 5 lsuA_R1
                H0 H1 H2 H3) as Hthm.
  refine (conj H0 (conj H1 (conj H2 (conj H3 (conj _ _))))); apply Hthm.
Defined.

Lemma rate_limit_checked_first_witness :
  (lsu_rate_limit routerFull <= List.length (evict routerFull 1%Z))%nat /\
  snd (receive routerFull 1 lsuA_R2) = Ok RateLimited /\
  snd (receive routerFull 1 lsu_forged) = Ok RateLimited /\
  topology (fst (receive routerFull 1 lsu_forged)) = topology routerFull.
Proof.
  assert (H0 : (lsu_rate_limit routerFull
                <= List.length (evict routerFull 1%Z))%nat)
    by (vm_compute; lia).
  pose proof (rate_limit_checked_first keys hash_of str_of routerFull 1
                lsuA_R2 H0) as (Ha & _).
  pose proof (rate_limit_checked_first keys hash_of str_of routerFull 1
                lsu_forged H0) as (Hb & _ & Hc & _).
  refine (conj H0 (conj _ (conj _ Hc))).
  - unfold receive. now rewrite Ha.
  - unfold receive. now rewrite Hb.
Defined.

Lemma backup_path_edge_disjoint_witness :
  has_node (topology routerB) (id routerB) = true /\
  dict_get "R2" (routing_table (fst (calculate_routes routerB)))
    = Some {| next_hop := "R1"; total_cost := 2;
              path := ["R0"; "R1"; "R2"];
              backup_path := Some ["R0"; "R3"; "R2"];
              backup_cost := Some 4 |} /\
  (forall a b, In (a, b) (path_edges ["R0"; "R3"; "R2"]) ->
     ~ In (a, b) (path_edges ["R0"; "R1"; "R2"]) /\
     ~ In (b, a) (path_edges ["R0"; "R1"; "R2"])).
Proof.
  assert (H0 : has_node (topology routerB) (id routerB) = true)
    by reflexivity.
  assert (H1 : dict_get "R2" (routing_table (fst (calculate_routes routerB)))
    = Some {| next_hop := "R1"; total_cost := 2;
              path := ["R0"; "R1"; "R2"];
              backup_path := Some ["R0"; "R3"; "R2"];
              backup_cost := Some 4 |}) by (vm_compute; reflexivity).
  refine (conj H0 (conj H1 _)).
  apply (backup_path_edge_disjoint routerB "R2" _ _ H0 H1 eq_refl).
Defined.

Lemma calculate_routes_uninitialized_witness :
  has_node (topology router_detached) (id router_detached) = false /\
  routing_table router_detached <> [] /\
  calculate_routes router_detached = (router_detached, None).
Proof.
  assert (H0 : has_node (topology router_detached) (id router_detached)
               = false) by reflexivity.
  refine (conj H0 (conj _ _)).
  - discriminate.
  - apply (calculate_routes_uninitialized router_detached H0).
Defined.

End ScenarioFacts.

Module ClockRunFacts.
Import Scenario ClockRuns.

(** C5, the claim as stated fails on a clock that is set back.  Ten
    advertisements are accepted at 0.0 and fill the list; the call at 5.0
    evicts them all and accepts; after the clock is set back to 0.5 the
    timestamp 5.0 is the only one stored, and nine more advertisements are
    accepted.  Nineteen acceptance timestamps were stored within the
    interval from 0 to 1, which is as long as [lsu_window], although
    [lsu_rate_limit] is 10. *)
Lemma set_back_clock_exceeds_window :
  lsu_timestamps fresh_router = [] /\
  lsu_rate_limit fresh_router = 10 /\
  lsu_window fresh_router = 1%float /\
  ages_grow 1%float (map fst set_back_events) = false /\
  accepted_times keys hash_of str_of fresh_router set_back_events
  = repeat 0%float 10 ++ [5%float] ++ repeat 0.5%float 9 /\
  List.length
    (filter in_unit_interval
       (accepted_times keys hash_of str_of fresh_router set_back_events))
  = 19 /\
  ~ (List.length
       (filter in_unit_interval
          (accepted_times keys hash_of str_of fresh_router set_back_events))
     <= lsu_rate_limit fresh_router).
Proof.
  repeat split; try (vm_compute; reflexivity).
  vm_compute. lia.
Qed.

Lemma accepted_per_window_bounded_witness :
  lsu_timestamps fresh_router = [] /\
  ages_grow (lsu_window fresh_router) (map fst steady_events) = true /\
  (forall lsu,
     nth_error adverts 11 = Some lsu ->
     let r1 := receive_events keys hash_of str_of fresh_router
                 (firstn 11 steady_events) in
     let within :=
       filter (fun t => age_le 1.05%float t (lsu_window fresh_router))
         (accepted_times keys hash_of str_of fresh_router
            (firstn 11 steady_events)) in
     List.length within = 9 /\
     evict r1 1.05%float = within /\
     snd (process_lsu keys hash_of str_of r1 1.05%float lsu) = Ok Accepted /\
     lsu_timestamps (fst (process_lsu keys hash_of str_of r1 1.05%float lsu))
     = within ++ [1.05%float]).
Proof.
  assert (H1 : lsu_timestamps fresh_router = []) by reflexivity.
  assert (H2 : ages_grow (lsu_window fresh_router) (map fst steady_events)
               = true) by (vm_compute; reflexivity).
  refine (conj H1 (conj H2 _)). intros lsu Hl r1 within.
  assert (Hs : steady_events
               = firstn 11 steady_events ++ (1.05%float, lsu) :: []).
  { vm_compute in Hl. injection Hl as <-. vm_compute. reflexivity. }
  destruct (proj2 (accepted_per_window_bounded keys hash_of str_of
                     fresh_router steady_events H1)
              H2 _ _ _ _ Hs) as (He & _ & Ha & _).
  assert (Hacc : snd (process_lsu keys hash_of str_of r1 1.05%float lsu)
                 = Ok Accepted).
  { vm_compute in Hl. injection Hl as <-. vm_compute. reflexivity. }
  split; [vm_compute; reflexivity|]. split; [exact He|].
  split; [exact Hacc|]. exact (proj2 (Ha Hacc)).
Defined.

End ClockRunFacts.

Module LinkCostRuns.
Import LinkCost.

(** C6, the claim as stated fails.  With both weights 1, a link of base
    latency 1 and bandwidth 200000 costs -0.01 when the jitter is -1.5, and
    a link of base latency 2 and the same bandwidth costs 0.0 when the
    jitter is -2.  A link of the positive bandwidth 1e-306 has no static
    cost: the quotient is an infinity, and [round] raises
    [OverflowError]. *)
Lemma dynamic_cost_not_positive :
  (0 <? base_latency fast_short_link)%float = true /\
  (0 <? bandwidth fast_short_link)%float = true /\
  (-2 <=? -1.5)%float = true /\ (-1.5 <=? 2)%float = true /\
  calculate_link_cost 1 1 fast_short_link (-1.5) = Ok (-0.01)%float /\
  (0 <? -0.01)%float = false /\
  calculate_link_cost 1 1 fast_link (-2) = Ok 0%float /\
  (0 <? 0)%float = false /\
  (0 <? bandwidth faint_link)%float = true /\
  ospf_calculate_link_cost faint_link = Raised OverflowError.
Proof.
  repeat split; vm_compute; reflexivity.
Qed.

Lemma link_cost_bounds_witness :
  static_cost_defined plain_link = true /\
  ospf_calculate_link_cost plain_link = Ok 10%Z /\
  not_negative 0.6 /\ not_negative 0.4 /\
  not_negative (base_latency plain_link + -2)%float /\
  not_negative (bandwidth plain_link) /\
  calculate_link_cost 0.6 0.4 plain_link (-2) = Ok 0.88%float /\
  exists cost,
    calculate_link_cost 0.6 0.4 plain_link (-2) = Ok cost /\
    not_negative cost.
Proof.
  assert (H0 : static_cost_defined plain_link = true) by reflexivity.
  assert (H1 : not_negative 0.6) by reflexivity.
  assert (H2 : not_negative 0.4) by reflexivity.
  assert (H3 : not_negative (base_latency plain_link + -2)%float)
    by reflexivity.
  assert (H4 : not_negative (bandwidth plain_link)) by reflexivity.
  refine (conj H0 (conj _ (conj H1 (conj H2 (conj H3 (conj H4 (conj _ _))))))).
  - vm_compute. reflexivity.
  - vm_compute. reflexivity.
  - exact (proj2 (proj2 (proj2 (proj2 (LinkCostFacts.link_cost_bounds
                                         0.6 0.4 plain_link (-2)))))
             H1 H2 H3 H4).
Defined.

End LinkCostRuns.

(* ================================================================== *)
(** * Part III: further properties of the protocol engine *)
(* ================================================================== *)

(** ** Node attributes under the graph operations *)

Section GraphNodeFacts.
Context {Cost : Type}.
Implicit Types (G : Graph Cost) (n : string).

Lemma touch_node_g_node_get G a n :
  has_node G n = true ->
  dict_get n (g_node (touch_node G a)) = dict_get n (g_node G).
Proof.
  intros Hn. unfold touch_node.
  destruct (dict_mem a (g_node G)) eqn:E; [reflexivity|]. simpl.
  apply dict_get_set_ne. intros ->. unfold has_node in Hn. congruence.
Qed.

Lemma add_edge_g_node_get G x y (c : Cost) n :
  has_node G n = true ->
  dict_get n (g_node (add_edge G x y c)) = dict_get n (g_node G).
Proof.
  intros Hn. unfold add_edge. cbn [g_node].
  rewrite touch_node_g_node_get.
  - now apply touch_node_g_node_get.
  - rewrite touch_node_has_node, Hn. apply Bool.orb_true_r.
Qed.

Lemma add_links_g_node_get G s (lk : dict Cost) n :
  has_node G n = true ->
  dict_get n (g_node (add_links G s lk)) = dict_get n (g_node G).
Proof.
  revert G. induction lk as [|[m c] lk IH]; intros G Hn; [reflexivity|].
  rewrite add_links_cons, IH.
  - now apply add_edge_g_node_get.
  - rewrite add_edge_has_node, Hn. apply Bool.orb_true_r.
Qed.

Lemma add_node_g_node_get_ne G a attr n :
  n <> a ->
  dict_get n (g_node (add_node G a attr)) = dict_get n (g_node G).
Proof.
  intros Hne. unfold add_node. cbn [g_node].
  rewrite dict_get_set_ne by assumption.
  unfold touch_node. destruct (dict_mem a (g_node G)); [reflexivity|].
  simpl. now apply dict_get_set_ne.
Qed.

End GraphNodeFacts.

(** ** Origination, tags and rejection *)

Section ProtocolExtras.
Context {Cost : Type} `{PyNum Cost} {Time : Type} `{PyClock Time}.
Variable PUBLIC_KEYS : dict string.
Variable py_hash : string -> Z.
Variable py_str : LsuData (Cost := Cost) -> string.

Local Abbreviation process := (process_lsu PUBLIC_KEYS py_hash py_str).
Local Abbreviation verify := (verify_signature PUBLIC_KEYS py_hash py_str).
Local Abbreviation sign := (sign_message PUBLIC_KEYS py_hash py_str).
Local Abbreviation originate := (create_lsu PUBLIC_KEYS py_hash py_str).
Local Abbreviation run_calls := (run PUBLIC_KEYS py_hash py_str).
Local Abbreviation do_call := (call PUBLIC_KEYS py_hash py_str).

Implicit Types (r : Router (Cost := Cost) (Time := Time)) (now : Time)
  (lsu : Lsu (Cost := Cost)).

Lemma verify_own_signature (d : LsuData) sid s :
  sign d sid = Ok s -> verify d s sid = Ok true.
Proof.
  unfold verify_signature. intros ->. now rewrite Z.eqb_refl.
Qed.

Lemma create_lsu_sequence r lk :
  sequence_number (fst (originate r lk)) = (sequence_number r + 1)%Z /\
  id (fst (originate r lk)) = id r /\
  topology (fst (originate r lk)) = topology r /\
  routing_table (fst (originate r lk)) = routing_table r /\
  lsu_timestamps (fst (originate r lk)) = lsu_timestamps r.
Proof.
  unfold create_lsu. destruct (sign_message _ _ _ _ _); cbn; auto.
Qed.

Lemma create_lsu_ok_sequence r lk lsu :
  snd (originate r lk) = Ok lsu ->
  data_sequence_number (data lsu) = (sequence_number r + 1)%Z.
Proof.
  unfold create_lsu. destruct (sign_message _ _ _ _ _); [|discriminate].
  cbn. now intros [= <-].
Qed.

(** [create_lsu] always uses up a sequence number.  For a router with a
    registered key it returns an advertisement that carries the router's
    name, the new sequence number and the given links, with a tag that
    [verify_signature] accepts; for a router without key the signing raises
    [KeyError] after the sequence number is already incremented. *)
Theorem create_lsu_signed_or_key_error r lk :
  sequence_number (fst (originate r lk)) = (sequence_number r + 1)%Z /\
  match dict_get (id r) PUBLIC_KEYS with
  | Some _ =>
      exists lsu,
        snd (originate r lk) = Ok lsu /\
        source_id (data lsu) = id r /\
        data_sequence_number (data lsu) = (sequence_number r + 1)%Z /\
        links (data lsu) = lk /\
        verify (data lsu) (signature lsu) (source_id (data lsu)) = Ok true
  | None => snd (originate r lk) = Raised KeyError
  end.
Proof.
  split; [apply create_lsu_sequence|].
  unfold create_lsu.
  cbn [id sequence_number set_sequence_number].
  destruct (sign_message PUBLIC_KEYS py_hash py_str _ (id r)) as [s|e] eqn:Es.
  - pose proof (verify_own_signature _ _ _ Es) as Hv.
    unfold sign_message in Es.
    destruct (dict_get (id r) PUBLIC_KEYS); [|discriminate].
    eexists. cbn. repeat split. exact Hv.
  - unfold sign_message in Es.
    destruct (dict_get (id r) PUBLIC_KEYS); [discriminate|].
    now injection Es as <-.
Qed.

Lemma process_lsu_frame r now lsu :
  id (fst (process r now lsu)) = id r /\
  sequence_number (fst (process r now lsu)) = sequence_number r /\
  routing_table (fst (process r now lsu)) = routing_table r.
Proof.
  unfold process_lsu.
  destruct (_ <=? _); [cbn; auto|].
  destruct (verify_signature _ _ _ _ _ _) as [[|]|]; try (cbn; auto).
  destruct (_ && _); cbn; auto.
Qed.

Lemma calculate_routes_frame r :
  id (fst (calculate_routes r)) = id r /\
  sequence_number (fst (calculate_routes r)) = sequence_number r /\
  topology (fst (calculate_routes r)) = topology r /\
  lsu_timestamps (fst (calculate_routes r)) = lsu_timestamps r.
Proof.
  unfold calculate_routes. destruct (negb _); [cbn; auto|].
  destruct (routes_loop _ _ _ _). cbn. auto.
Qed.

Lemma call_sequence_number r c :
  (sequence_number r <= sequence_number (do_call r c))%Z.
Proof.
  destruct c as [now lsu| |lk]; cbn [call].
  - destruct (process_lsu_frame r now lsu) as (_ & -> & _). lia.
  - destruct (calculate_routes_frame r) as (_ & -> & _). lia.
  - destruct (create_lsu_sequence r lk) as [-> _]. lia.
Qed.

Lemma run_sequence_number r calls :
  (sequence_number r <= sequence_number (run_calls r calls))%Z.
Proof.
  revert r. induction calls as [|c calls IH]; intros r; [cbn; lia|].
  change (run_calls r (c :: calls)) with (run_calls (do_call r c) calls).
  pose proof (call_sequence_number r c). specialize (IH (do_call r c)). lia.
Qed.

(** Sequence numbers grow strictly along the life of a router: whatever
    happens between two originations, the later advertisement has the
    larger sequence number. *)
Theorem create_lsu_sequence_increases r lk calls lk' lsu lsu' :
  snd (originate r lk) = Ok lsu ->
  snd (originate (run_calls (fst (originate r lk)) calls) lk') = Ok lsu' ->
  (data_sequence_number (data lsu) < data_sequence_number (data lsu'))%Z.
Proof.
  intros H1 H2.
  pose proof (run_sequence_number (fst (originate r lk)) calls) as Hrun.
  destruct (create_lsu_sequence r lk) as [Hs _]. rewrite Hs in Hrun.
  apply create_lsu_ok_sequence in H1, H2. lia.
Qed.

Lemma process_lsu_not_accepted r now lsu :
  snd (process r now lsu) <> Ok Accepted ->
  fst (process r now lsu) = set_lsu_timestamps r (evict r now).
Proof.
  unfold process_lsu.
  destruct (_ <=? _); [reflexivity|].
  destruct (verify_signature _ _ _ _ _ _) as [[|]|]; try reflexivity.
  destruct (_ && _); [reflexivity|]. cbn. congruence.
Qed.

(** Whatever [process_lsu] answers other than [Accepted], an exception
    included, the router is as it was but for the eviction of old
    timestamps: nothing is recorded in the rate limiter, and the database,
    the routing table and the sequence counter are untouched. *)
Theorem rejected_lsu_only_evicts r now lsu :
  snd (process r now lsu) <> Ok Accepted ->
  fst (process r now lsu) = set_lsu_timestamps r (evict r now) /\
  topology (fst (process r now lsu)) = topology r /\
  routing_table (fst (process r now lsu)) = routing_table r /\
  sequence_number (fst (process r now lsu)) = sequence_number r.
Proof.
  intros Hn. rewrite (process_lsu_not_accepted r now lsu Hn). cbn. auto.
Qed.

(** An advertisement whose tag was changed is answered [InvalidTag] when
    the rate limiter is below its limit, whatever its sequence number. *)
Theorem altered_tag_rejected r now (d : LsuData) s s' :
  verify d s (source_id d) = Ok true ->
  s' <> s ->
  List.length (evict r now) < lsu_rate_limit r ->
  process r now {| data := d; signature := s' |}
  = (set_lsu_timestamps r (evict r now), Ok InvalidTag).
Proof.
  intros Hv Hne Hlim. unfold process_lsu.
  cbn [lsu_rate_limit lsu_timestamps set_lsu_timestamps data signature].
  destruct (Nat.leb_spec (lsu_rate_limit r) (List.length (evict r now)));
    [lia|].
  unfold verify_signature in *.
  destruct (sign_message _ _ _ d (source_id d)) as [s0|]; [|discriminate].
  injection Hv as Hv. apply Z.eqb_eq in Hv. subst s0.
  destruct (Z.eqb_spec s' s); [contradiction | reflexivity].
Qed.

(** An advertisement that names a source without registered key makes
    [process_lsu] raise [KeyError], after the eviction and the rate-limit
    test and before anything else. *)
Theorem unknown_source_key_error r now lsu :
  dict_get (source_id (data lsu)) PUBLIC_KEYS = None ->
  List.length (evict r now) < lsu_rate_limit r ->
  process r now lsu = (set_lsu_timestamps r (evict r now), Raised KeyError).
Proof.
  intros Hk Hlim. unfold process_lsu.
  cbn [lsu_rate_limit lsu_timestamps set_lsu_timestamps].
  destruct (Nat.leb_spec (lsu_rate_limit r) (List.length (evict r now)));
    [lia|].
  unfold verify_signature, sign_message. now rewrite Hk.
Qed.

(** The freshness test that an accepted advertisement has passed. *)
Lemma process_lsu_accepted_fresh r now lsu r' :
  process r now lsu = (r', Ok Accepted) ->
  has_node (topology r) (source_id (data lsu))
  && (data_sequence_number (data lsu)
      <=? node_seq (topology r) (source_id (data lsu)))%Z = false.
Proof.
  unfold process_lsu.
  destruct (_ <=? _); [discriminate|].
  destruct (verify_signature _ _ _ _ _ _) as [[|]|]; try discriminate.
  cbn [topology set_lsu_timestamps].
  destruct (_ && _); [discriminate | reflexivity].
Qed.

Lemma process_lsu_fresh_valid r now lsu :
  let S := source_id (data lsu) in
  List.length (evict r now) < lsu_rate_limit r ->
  verify (data lsu) (signature lsu) S = Ok true ->
  (has_node (topology r) S = false \/
   (node_seq (topology r) S < data_sequence_number (data lsu))%Z) ->
  snd (process r now lsu) = Ok Accepted /\
  lsu_timestamps (fst (process r now lsu)) = evict r now ++ [now] /\
  has_node (topology (fst (process r now lsu))) S = true /\
  node_seq (topology (fst (process r now lsu))) S
    = data_sequence_number (data lsu).
Proof.
  intros S Hlim Hv Hfresh. unfold process_lsu.
  cbn [lsu_rate_limit lsu_timestamps set_lsu_timestamps topology].
  destruct (Nat.leb_spec (lsu_rate_limit r) (List.length (evict r now)));
    [lia|].
  fold S. rewrite Hv.
  assert (Hf : has_node (topology r) S
               && (data_sequence_number (data lsu)
                   <=? node_seq (topology r) S)%Z = false).
  { destruct Hfresh as [->|Hlt]; [reflexivity|].
    destruct (Z.leb_spec (data_sequence_number (data lsu))
                (node_seq (topology r) S)); [lia|].
    apply Bool.andb_false_r. }
  rewrite Hf. cbn. repeat split.
  - apply add_links_has_node. rewrite remove_edges_from_has_node.
    now rewrite add_node_has_node, String.eqb_refl.
  - rewrite add_links_node_seq.
    + unfold node_seq. rewrite remove_edges_from_g_node. apply add_node_seq.
    + rewrite remove_edges_from_has_node.
      now rewrite add_node_has_node, String.eqb_refl.
Qed.

(** A valid advertisement with a new sequence number is accepted whenever
    the rate limiter is below its limit: its time is recorded, and its
    source is a node of the database with the advertised sequence number. *)
Theorem fresh_valid_lsu_accepted r now lsu :
  let S := source_id (data lsu) in
  List.length (evict r now) < lsu_rate_limit r ->
  verify (data lsu) (signature lsu) S = Ok true ->
  (has_node (topology r) S = false \/
   (node_seq (topology r) S < data_sequence_number (data lsu))%Z) ->
  snd (process r now lsu) = Ok Accepted /\
  lsu_timestamps (fst (process r now lsu)) = evict r now ++ [now] /\
  has_node (topology (fst (process r now lsu))) S = true /\
  node_seq (topology (fst (process r now lsu))) S
    = data_sequence_number (data lsu).
Proof. exact (process_lsu_fresh_valid r now lsu). Qed.

(** The database after an accepted advertisement, edge by edge. *)
Lemma accepted_edge_cost r now lsu r' u v :
  graph_ok (topology r) ->
  NoDup (dict_keys (links (data lsu))) ->
  process r now lsu = (r', Ok Accepted) ->
  edge_cost (topology r') u v =
  if String.eqb u (source_id (data lsu)) then dict_get v (links (data lsu))
  else if String.eqb v (source_id (data lsu))
       then dict_get u (links (data lsu))
       else edge_cost (topology r) u v.
Proof.
  intros HG Hnd Hacc.
  destruct (process_lsu_accepted _ _ _ r now lsu r' Hacc) as (Ht & _).
  cbv zeta in Ht. rewrite Ht.
  set (S := source_id (data lsu)).
  set (topo1 := add_node (topology r) S
                  (Some (data_sequence_number (data lsu)))).
  assert (H1 : graph_ok topo1) by now apply add_node_ok.
  rewrite add_links_edge_cost
    by (try assumption; now apply remove_edges_from_ok).
  rewrite remove_incident_edge_cost by assumption.
  unfold topo1. rewrite add_node_edge_cost by assumption.
  destruct (String.eqb u S); simpl.
  - now destruct (dict_get v (links (data lsu))).
  - destruct (String.eqb v S); auto.
    now destruct (dict_get u (links (data lsu))).
Qed.

Lemma accepted_graph_ok r now lsu r' :
  graph_ok (topology r) ->
  process r now lsu = (r', Ok Accepted) ->
  graph_ok (topology r').
Proof.
  intros HG Hacc.
  destruct (process_lsu_accepted _ _ _ r now lsu r' Hacc) as (Ht & _).
  cbv zeta in Ht. rewrite Ht.
  apply add_links_ok, remove_edges_from_ok, add_node_ok, HG.
Qed.

Lemma outcome_accepted_dec (o : result Outcome) :
  o = Ok Accepted \/ o <> Ok Accepted.
Proof. destruct o as [[| | |]|e]; auto; right; discriminate. Qed.

Lemma process_lsu_graph_ok r now lsu :
  graph_ok (topology r) -> graph_ok (topology (fst (process r now lsu))).
Proof.
  intros HG.
  destruct (outcome_accepted_dec (snd (process r now lsu))) as [Ha|Hn].
  - apply (accepted_graph_ok r now lsu _ HG).
    rewrite <- Ha. now destruct (process r now lsu).
  - now rewrite process_lsu_not_accepted.
Qed.

Lemma call_graph_ok r c :
  graph_ok (topology r) -> graph_ok (topology (do_call r c)).
Proof.
  intros HG. destruct c as [now lsu| |lk]; cbn [call].
  - now apply process_lsu_graph_ok.
  - now destruct (calculate_routes_frame r) as (_ & _ & -> & _).
  - now destruct (create_lsu_sequence r lk) as (_ & _ & -> & _).
Qed.

(** A node of the database stays a node, and its stored sequence number
    does not decrease. *)
Lemma process_lsu_node_seq r now lsu n :
  has_node (topology r) n = true ->
  has_node (topology (fst (process r now lsu))) n = true /\
  (node_seq (topology r) n
   <= node_seq (topology (fst (process r now lsu))) n)%Z.
Proof.
  intros Hn.
  destruct (outcome_accepted_dec (snd (process r now lsu))) as [Ha|Hrej];
    [|rewrite process_lsu_not_accepted by exact Hrej;
      split; [exact Hn | cbn; lia]].
  set (r' := fst (process r now lsu)).
  assert (E : process r now lsu = (r', Ok Accepted)).
  { unfold r'. rewrite <- Ha. now destruct (process r now lsu). }
  pose proof (process_lsu_accepted_fresh r now lsu r' E) as Hf.
  destruct (process_lsu_accepted _ _ _ r now lsu r' E) as (Ht & _).
  cbv zeta in Ht. rewrite Ht.
  set (S := source_id (data lsu)) in *.
  set (topo1 := add_node (topology r) S
                  (Some (data_sequence_number (data lsu)))).
  assert (H1 : has_node (remove_edges_from topo1 (edges_of topo1 S)) n
               = true).
  { rewrite remove_edges_from_has_node. unfold topo1.
    rewrite add_node_has_node, Hn. apply Bool.orb_true_r. }
  split; [now apply add_links_has_node|].
  unfold node_seq at 2. rewrite add_links_g_node_get by exact H1.
  rewrite remove_edges_from_g_node.
  destruct (String.eqb_spec n S) as [->|Hne].
  - fold (node_seq topo1 S). unfold topo1. rewrite add_node_seq.
    rewrite Hn in Hf. cbn [andb] in Hf.
    destruct (Z.leb_spec (data_sequence_number (data lsu))
                (node_seq (topology r) S)); [discriminate | lia].
  - unfold topo1. rewrite add_node_g_node_get_ne by assumption.
    fold (node_seq (topology r) n). lia.
Qed.

Lemma call_node_seq r c n :
  has_node (topology r) n = true ->
  has_node (topology (do_call r c)) n = true /\
  (node_seq (topology r) n <= node_seq (topology (do_call r c)) n)%Z.
Proof.
  intros Hn. destruct c as [now lsu| |lk]; cbn [call].
  - now apply process_lsu_node_seq.
  - destruct (calculate_routes_frame r) as (_ & _ & -> & _).
    split; [exact Hn | lia].
  - destruct (create_lsu_sequence r lk) as (_ & _ & -> & _).
    split; [exact Hn | lia].
Qed.

Lemma run_node_seq r calls n :
  has_node (topology r) n = true ->
  has_node (topology (run_calls r calls)) n = true /\
  (node_seq (topology r) n <= node_seq (topology (run_calls r calls)) n)%Z.
Proof.
  revert r. induction calls as [|c calls IH]; intros r Hn.
  - split; [exact Hn | cbn; lia].
  - change (run_calls r (c :: calls)) with (run_calls (do_call r c) calls).
    destruct (call_node_seq r c n Hn) as [Hn' Hle].
    destruct (IH (do_call r c) Hn') as [Hn'' Hle']. split; [exact Hn''|lia].
Qed.

(** The database never forgets a node, and the sequence number it stores
    for a node never decreases, whatever calls follow. *)
Theorem stored_sequence_never_decreases r calls n :
  has_node (topology r) n = true ->
  has_node (topology (run_calls r calls)) n = true /\
  (node_seq (topology r) n <= node_seq (topology (run_calls r calls)) n)%Z.
Proof. apply run_node_seq. Qed.

(** No replay: an advertisement that a router has accepted is never
    accepted by that router again, whatever happens in between and
    whenever it comes back. *)
Theorem accepted_lsu_not_accepted_again r now lsu r1 calls now' :
  process_lsu PUBLIC_KEYS py_hash py_str r now lsu = (r1, Ok Accepted) ->
  snd (process_lsu PUBLIC_KEYS py_hash py_str
         (run PUBLIC_KEYS py_hash py_str r1 calls) now' lsu)
  <> Ok Accepted.
Proof.
  intros Hacc Hagain.
  set (S := source_id (data lsu)).
  assert (H1 : has_node (topology r1) S = true /\
               node_seq (topology r1) S = data_sequence_number (data lsu)).
  { destruct (process_lsu_accepted _ _ _ r now lsu r1 Hacc) as (Ht & _).
    cbv zeta in Ht. rewrite Ht. fold S.
    assert (Hn : has_node
                   (remove_edges_from
                      (add_node (topology r) S
                         (Some (data_sequence_number (data lsu))))
                      (edges_of
                         (add_node (topology r) S
                            (Some (data_sequence_number (data lsu)))) S))
                   S = true).
    { rewrite remove_edges_from_has_node.
      now rewrite add_node_has_node, String.eqb_refl. }
    split; [now apply add_links_has_node|].
    rewrite add_links_node_seq by exact Hn.
    unfold node_seq. rewrite remove_edges_from_g_node. apply add_node_seq. }
  destruct H1 as [Hn Hs].
  destruct (run_node_seq r1 calls S Hn) as [Hn2 Hle].
  destruct (process (run_calls r1 calls) now' lsu) as [r3 o] eqn:E.
  cbn [snd] in Hagain. subst o.
  pose proof (process_lsu_accepted_fresh _ _ _ _ E) as Hf.
  fold S in Hf. rewrite Hn2 in Hf. cbn [andb] in Hf.
  destruct (Z.leb_spec (data_sequence_number (data lsu))
              (node_seq (topology (run_calls r1 calls)) S));
    [discriminate | lia].
Qed.

(** From origination to the database: the advertisement that a router [s]
    with a registered key originates is accepted by every router whose rate
    limiter is below its limit and that has stored no sequence number of
    [s] above the counter of [s]; afterwards the edges at [s] in the
    receiver's database are exactly the originated links, at both ends. *)
Theorem originated_lsu_installs_links
  (s : Router (Cost := Cost) (Time := Time)) lk lsu r now :
  snd (originate s lk) = Ok lsu ->
  NoDup (dict_keys lk) ->
  graph_ok (topology r) ->
  List.length (evict r now) < lsu_rate_limit r ->
  (has_node (topology r) (id s) = false \/
   (node_seq (topology r) (id s) <= sequence_number s)%Z) ->
  snd (process r now lsu) = Ok Accepted /\
  (forall v, edge_cost (topology (fst (process r now lsu))) (id s) v
             = dict_get v lk) /\
  (forall v, edge_cost (topology (fst (process r now lsu))) v (id s)
             = dict_get v lk) /\
  node_seq (topology (fst (process r now lsu))) (id s)
    = (sequence_number s + 1)%Z.
Proof.
  intros Ho Hnd HG Hlim Hfresh.
  assert (Hl : source_id (data lsu) = id s /\ links (data lsu) = lk /\
               data_sequence_number (data lsu) = (sequence_number s + 1)%Z /\
               verify (data lsu) (signature lsu) (source_id (data lsu))
               = Ok true).
  { unfold create_lsu in Ho.
    destruct (sign_message _ _ _ _ _) as [sg|] eqn:Es; [|discriminate].
    cbn in Ho. injection Ho as <-. cbn. repeat split.
    now apply verify_own_signature. }
  destruct Hl as (Hsrc & Hlk & Hseq & Hv).
  assert (Hacc : snd (process r now lsu) = Ok Accepted /\
                 node_seq (topology (fst (process r now lsu)))
                   (source_id (data lsu))
                 = data_sequence_number (data lsu)).
  { unfold process_lsu.
    cbn [lsu_rate_limit lsu_timestamps set_lsu_timestamps topology].
    destruct (Nat.leb_spec (lsu_rate_limit r) (List.length (evict r now)));
      [lia|].
    rewrite Hv.
    assert (Hf : has_node (topology r) (source_id (data lsu))
                 && (data_sequence_number (data lsu)
                     <=? node_seq (topology r) (source_id (data lsu)))%Z
                 = false).
    { rewrite Hsrc, Hseq. destruct Hfresh as [->|Hle]; [reflexivity|].
      destruct (Z.leb_spec (sequence_number s + 1)
                  (node_seq (topology r) (id s))); [lia|].
      apply Bool.andb_false_r. }
    rewrite Hf. cbn. split; [reflexivity|].
    rewrite add_links_node_seq.
    - unfold node_seq. rewrite remove_edges_from_g_node. apply add_node_seq.
    - rewrite remove_edges_from_has_node.
      now rewrite add_node_has_node, String.eqb_refl. }
  destruct Hacc as [Hacc Hns].
  assert (E : process r now lsu = (fst (process r now lsu), Ok Accepted)).
  { rewrite <- Hacc. now destruct (process r now lsu). }
  rewrite <- Hlk in Hnd.
  split; [exact Hacc|]. rewrite <- Hsrc, <- Hlk, <- Hseq.
  split; [|split; [|exact Hns]].
  - intros v. rewrite (accepted_edge_cost r now lsu _ _ _ HG Hnd E).
    now rewrite String.eqb_refl.
  - intros v. rewrite (accepted_edge_cost r now lsu _ _ _ HG Hnd E).
    destruct (String.eqb_spec v (source_id (data lsu))) as [->|];
      [reflexivity|]. now rewrite String.eqb_refl.
Qed.

End ProtocolExtras.

(** ** Loop-free paths and the shape of the routing table *)

Section PathShape.
Context {Cost : Type} `{PyNum Cost} {Time : Type} `{PyClock Time}.
Implicit Types (G : Graph Cost) (st : dstate (Cost := Cost))
  (r : Router (Cost := Cost) (Time := Time)).

Lemma paths_simple_init source :
  paths_simple (dijkstra_init (Cost := Cost) source).
Proof.
  intros u p. simpl. destruct (String.eqb_spec u source); [|discriminate].
  intros [= <-]. subst. split.
  - repeat constructor. intros [].
  - exists []. split; [reflexivity | intros x []].
Qed.

Lemma relax_paths_simple v d (nbrs : dict Cost) st st' :
  dict_mem v (dist st) = true ->
  paths_simple st ->
  relax v d nbrs st = Ok st' ->
  paths_simple st'.
Proof.
  revert st. induction nbrs as [|[u c] nbrs IH]; intros st Hv Hok; simpl.
  - now intros [= <-].
  - destruct (dict_get u (dist st)) eqn:Eu.
    + destruct (py_ltb (py_add d c) c0); [discriminate|]. now apply IH.
    + destruct (match dict_get u (seen st) with
                | Some s => py_ltb (py_add d c) s
                | None => true
                end); [|now apply IH].
      destruct (dict_get v (paths st)) as [pv|] eqn:Ev; [|discriminate].
      apply IH; [exact Hv|].
      intros u' p. cbn [paths dist]. rewrite dict_get_set.
      destruct (String.eqb_spec u' u); subst; [|apply Hok].
      intros [= <-].
      destruct (Hok v pv Ev) as (Hnd & q & -> & Hq).
      assert (Hall : forall x, In x (q ++ [v]) ->
                     dict_mem x (dist st) = true).
      { intros x Hx. apply in_app_iff in Hx.
        destruct Hx as [Hx|[<-|[]]]; auto. }
      split.
      * apply NoDup_app; [exact Hnd | repeat constructor; intros [] |].
        intros x Hx [<-|[]]. apply Hall in Hx.
        unfold dict_mem in Hx. now rewrite Eu in Hx.
      * exists (q ++ [v]). split; [reflexivity | exact Hall].
Qed.

Lemma dijkstra_loop_paths_simple fuel (G_succ : dict (dict Cost)) target
  st st' :
  paths_simple st ->
  dijkstra_loop fuel G_succ target st = Ok st' ->
  paths_simple st'.
Proof.
  revert st. induction fuel as [|fuel IH]; intros st Hok.
  - simpl. now intros [= <-].
  - rewrite dijkstra_loop_unfold.
    destruct (heappop (fringe st)) as [[[[d c] v] rest]|];
      [|now intros [= <-]].
    cbv zeta. cbn [dist fringe seen paths counter].
    destruct (dict_mem v (dist st)); [now apply IH|].
    assert (Hok2 : paths_simple
                     {| dist := dict_set v d (dist st); seen := seen st;
                        paths := paths st; fringe := rest;
                        counter := counter st |}).
    { intros u p Hp. destruct (Hok u p Hp) as (Hnd & q & -> & Hq).
      split; [exact Hnd|]. exists q. split; [reflexivity|].
      intros x Hx. cbn [dist]. rewrite dict_mem_set, (Hq x Hx).
      apply Bool.orb_true_r. }
    destruct (String.eqb v target); [now intros [= <-]|].
    destruct (dict_get v G_succ) as [nbrs|]; [|discriminate].
    destruct (relax v d nbrs _) as [st3|e] eqn:Er; [|discriminate].
    apply IH. eapply relax_paths_simple; [|exact Hok2|exact Er].
    cbn [dist]. now rewrite dict_mem_set, String.eqb_refl.
Qed.

Lemma dijkstra_path_simple G source target p :
  dijkstra_path G source target = Ok p -> NoDup p.
Proof.
  unfold dijkstra_path, single_source_dijkstra.
  destruct (negb (has_node G source)); [discriminate|].
  destruct (String.eqb_spec target source); subst.
  - intros [= <-]. repeat constructor. intros [].
  - destruct (_dijkstra_multisource G source target) as [st|e] eqn:Ed;
      [|discriminate].
    destruct (dict_get target (dist st)); [|discriminate].
    destruct (dict_get target (paths st)) as [p'|] eqn:Ep; [|discriminate].
    intros [= <-].
    eapply (dijkstra_loop_paths_simple _ (g_adj G) target); [|exact Ed|exact Ep].
    apply paths_simple_init.
Qed.

Lemma In_keys_dict_mem {V} (k : string) (d : list (string * V)) :
  In k (dict_keys d) -> dict_mem k d = true.
Proof.
  intros Hin. unfold dict_mem.
  destruct (dict_get k d) eqn:E; [reflexivity|].
  now apply dict_get_None_keys in E.
Qed.

(** Every entry of the table that the loop returns was in the table before
    or belongs to a destination of the list other than the router. *)
Lemma routes_loop_new_entries (topo : Graph Cost) self_id targets table
  table' ex target e :
  routes_loop topo self_id targets table = (table', ex) ->
  dict_get target table' = Some e ->
  dict_get target table = Some e \/
  (In target targets /\ target <> self_id /\
   route_entry topo self_id target = Ok e).
Proof.
  revert table. induction targets as [|t targets IH]; intros table; simpl.
  - intros [= <- <-]. auto.
  - destruct (String.eqb_spec t self_id).
    + intros Hl Hg. destruct (IH _ Hl Hg) as [|(? & ? & ?)]; auto.
    + destruct (route_entry topo self_id t) as [e0|ex0] eqn:Er.
      * intros Hl Hg. destruct (IH _ Hl Hg) as [Hs|(? & ? & ?)]; [|auto].
        rewrite dict_get_set in Hs.
        destruct (String.eqb_spec target t); subst; [|auto].
        injection Hs as <-. auto.
      * destruct ex0;
          try (intros Hl Hg;
               destruct (IH _ Hl Hg) as [|(? & ? & ?)]; now auto);
          intros [= <- <-]; auto.
Qed.

Lemma calculate_routes_new_entries r target e :
  has_node (topology r) (id r) = true ->
  dict_get target (routing_table (fst (calculate_routes r))) = Some e ->
  has_node (topology r) target = true /\ target <> id r /\
  route_entry (topology r) (id r) target = Ok e.
Proof.
  intros Hn. unfold calculate_routes. rewrite Hn. cbn [negb].
  destruct (routes_loop _ _ _ _) as [table ex] eqn:El. cbn.
  intros Hg.
  destruct (routes_loop_new_entries _ _ _ _ _ _ _ _ El Hg)
    as [Hd|(Hin & Hne & He)]; [discriminate|].
  repeat split; auto. now apply In_keys_dict_mem.
Qed.

(** The routing table that [calculate_routes] builds holds no entry for the
    router itself, and only entries for nodes of the database.  The path
    of an entry runs from the router to the destination along edges of the
    database, visits no node twice, and its second node is the next hop,
    which is a neighbour of the router. *)
Theorem routing_table_entry_shape r target e :
  has_node (topology r) (id r) = true ->
  dict_get target (routing_table (fst (calculate_routes r))) = Some e ->
  target <> id r /\
  has_node (topology r) target = true /\
  (exists rest, path e = id r :: next_hop e :: rest) /\
  (exists q, path e = q ++ [target]) /\
  NoDup (path e) /\
  is_walk (topology r) (path e) /\
  has_edge (topology r) (id r) (next_hop e) = true.
Proof.
  intros Hn Hg.
  destruct (calculate_routes_new_entries r target e Hn Hg)
    as (Ht & Hne & He).
  destruct (route_entry_inv _ _ _ _ He) as (Hp & _ & _ & x & rest & Hx).
  destruct (dijkstra_path_walk _ _ _ _ Hp) as (Hw & Hq & q' & Hq').
  assert (Hx' : path e = id r :: next_hop e :: rest).
  { rewrite Hx in Hq'. injection Hq' as -> _. exact Hx. }
  repeat split; auto.
  - now exists rest.
  - now apply (dijkstra_path_simple _ _ _ _ Hp).
  - apply Hw. rewrite Hx'. now left.
Qed.

End PathShape.

(** ** Unique keys, and what [copy] keeps *)

Section DictNoDup.
Context {V : Type}.
Implicit Types (d : list (string * V)) (k : string) (v : V).

Lemma dict_keys_set k v d :
  dict_keys (dict_set k v d) =
  if dict_mem k d then dict_keys d else dict_keys d ++ [k].
Proof.
  unfold dict_mem. induction d as [|[k0 v0] d IH]; simpl; [reflexivity|].
  destruct (String.eqb_spec k k0); subst; simpl; [reflexivity|].
  rewrite IH. now destruct (dict_get k d).
Qed.

Lemma dict_set_nodup k v d :
  NoDup (dict_keys d) -> NoDup (dict_keys (dict_set k v d)).
Proof.
  intros Hnd. rewrite dict_keys_set.
  destruct (dict_mem k d) eqn:E; [exact Hnd|].
  apply NoDup_app; [exact Hnd | repeat constructor; intros [] |].
  intros x Hx [<-|[]]. apply In_keys_dict_mem in Hx. congruence.
Qed.

Lemma dict_del_In k d x : In x (dict_del k d) -> In x d.
Proof.
  induction d as [|[k0 v0] d IH]; simpl; [tauto|].
  destruct (String.eqb k k0); simpl; intuition.
Qed.

Lemma dict_del_nodup k d :
  NoDup (dict_keys d) -> NoDup (dict_keys (dict_del k d)).
Proof.
  induction d as [|[k0 v0] d IH]; simpl; [auto|].
  intros Hnd. inversion Hnd as [|? ? Hnin Hnd']; subst.
  destruct (String.eqb k k0); simpl; [auto|].
  constructor; [|auto]. intros Hin. apply Hnin.
  unfold dict_keys in *. apply in_map_iff in Hin.
  destruct Hin as [[a b] [Ha Hb]]. apply in_map_iff.
  exists (a, b). split; [exact Ha|]. eapply dict_del_In; eassumption.
Qed.

Lemma dict_set_In k v d x y :
  In (x, y) (dict_set k v d) -> (x = k /\ y = v) \/ In (x, y) d.
Proof.
  induction d as [|[k0 v0] d IH]; simpl.
  - intros [[= <- <-]|[]]. auto.
  - destruct (String.eqb_spec k k0); subst; simpl.
    + intros [[= <- <-]|Hi]; auto.
    + intros [Hi|Hi]; auto. destruct (IH Hi); auto.
Qed.

Lemma nodup_In_dict_get k v d :
  NoDup (dict_keys d) -> In (k, v) d -> dict_get k d = Some v.
Proof.
  induction d as [|[k0 v0] d IH]; simpl; [tauto|].
  intros Hnd. inversion Hnd as [|? ? Hnin Hnd']; subst.
  intros [[= -> ->]|Hin].
  - now rewrite String.eqb_refl.
  - destruct (String.eqb_spec k k0); subst; [|auto].
    exfalso. apply Hnin. unfold dict_keys. apply in_map_iff.
    now exists (k0, v).
Qed.

End DictNoDup.

Section GraphNoDup.
Context {Cost : Type}.
Implicit Types (G : Graph Cost) (adj : dict (dict Cost)).

Lemma adj_nbrs_nodup adj u : adj_nodup adj -> NoDup (dict_keys (adj_nbrs adj u)).
Proof.
  intros [_ Hn]. unfold adj_nbrs.
  destruct (dict_get u adj) eqn:E; [|constructor].
  apply (Hn u). now apply dict_get_In.
Qed.

Lemma dict_set_adj_nodup adj u (x : dict Cost) :
  adj_nodup adj -> NoDup (dict_keys x) -> adj_nodup (dict_set u x adj).
Proof.
  intros [H1 H2] Hx. split; [now apply dict_set_nodup|].
  intros a nb Hin. apply dict_set_In in Hin.
  destruct Hin as [[-> ->]|Hin]; [exact Hx | eauto].
Qed.

Lemma set_adj_nodup adj u v (c : Cost) :
  adj_nodup adj -> adj_nodup (set_adj adj u v c).
Proof.
  intros Ha. unfold set_adj. apply dict_set_adj_nodup; [exact Ha|].
  apply dict_set_nodup. now apply adj_nbrs_nodup.
Qed.

Lemma del_adj_nodup adj u v : adj_nodup adj -> adj_nodup (del_adj adj u v).
Proof.
  intros Ha. unfold del_adj. destruct (dict_get u adj) as [nb|] eqn:E; auto.
  apply dict_set_adj_nodup; [exact Ha|]. apply dict_del_nodup.
  destruct Ha as [_ Hn]. apply (Hn u). now apply dict_get_In.
Qed.

Lemma graph_nodup_empty : graph_nodup (@empty_graph Cost).
Proof. split; [constructor | intros u nb []]. Qed.

Lemma touch_node_nodup G n : graph_nodup G -> graph_nodup (touch_node G n).
Proof.
  intros HG. unfold touch_node. destruct (dict_mem n (g_node G)); [exact HG|].
  unfold graph_nodup. simpl. apply dict_set_adj_nodup; [exact HG|constructor].
Qed.

Lemma add_node_nodup G n a : graph_nodup G -> graph_nodup (add_node G n a).
Proof. intros HG. unfold add_node, graph_nodup. simpl. now apply touch_node_nodup. Qed.

Lemma add_edge_nodup G x y (c : Cost) :
  graph_nodup G -> graph_nodup (add_edge G x y c).
Proof.
  intros HG. unfold add_edge, graph_nodup. simpl.
  do 2 apply set_adj_nodup. now do 2 apply touch_node_nodup.
Qed.

Lemma remove_edge_nodup G e : graph_nodup G -> graph_nodup (remove_edge G e).
Proof.
  intros HG. destruct e as [x y]. unfold remove_edge.
  destruct (dict_get x (g_adj G)); [|exact HG].
  destruct (dict_mem y d); [|exact HG]. unfold graph_nodup. simpl.
  destruct (String.eqb x y); repeat apply del_adj_nodup; exact HG.
Qed.

Lemma remove_edges_from_nodup G es :
  graph_nodup G -> graph_nodup (remove_edges_from G es).
Proof.
  revert G. induction es as [|e es IH]; intros G HG; auto.
  rewrite remove_edges_from_cons. apply IH. now apply remove_edge_nodup.
Qed.

Lemma add_links_nodup G s (lk : dict Cost) :
  graph_nodup G -> graph_nodup (add_links G s lk).
Proof.
  revert G. induction lk as [|[n c] lk IH]; intros G HG; auto.
  rewrite add_links_cons. apply IH. now apply add_edge_nodup.
Qed.

Lemma copy_nodes_nodup (nodes : dict (option Z)) G :
  graph_nodup G -> graph_nodup (copy_nodes nodes G).
Proof.
  revert G. induction nodes as [|[n a] nodes IH]; intros G HG; auto.
  apply IH. now apply add_node_nodup.
Qed.

Lemma copy_edges_nodup adj G :
  graph_nodup G -> graph_nodup (copy_edges adj G).
Proof.
  revert G. induction adj as [|[u nb] adj IH]; intros G HG; auto.
  apply IH. now apply (add_links_nodup G u nb).
Qed.

Lemma copy_wf G : graph_wf (copy G).
Proof.
  split; [apply copy_ok|].
  apply copy_edges_nodup, copy_nodes_nodup, graph_nodup_empty.
Qed.

(** In a well-formed graph an adjacency entry is what the lookups find. *)
Lemma wf_entry_edge_cost G u nbrs v (c : Cost) :
  graph_nodup G -> In (u, nbrs) (g_adj G) -> In (v, c) nbrs ->
  edge_cost G u v = Some c.
Proof.
  intros [H1 H2] Hu Hv. unfold edge_cost, neighbors, adj_nbrs.
  rewrite (nodup_In_dict_get _ _ _ H1 Hu).
  apply nodup_In_dict_get; [eauto | exact Hv].
Qed.

Lemma edge_cost_entry G u v (c : Cost) :
  edge_cost G u v = Some c ->
  exists nbrs, In (u, nbrs) (g_adj G) /\ In (v, c) nbrs.
Proof.
  unfold edge_cost, neighbors, adj_nbrs.
  destruct (dict_get u (g_adj G)) as [nbrs|] eqn:E; [|discriminate].
  intros Hc. exists nbrs. split; now apply dict_get_In.
Qed.

Lemma add_edge_agrees f G u v (c : Cost) :
  agrees f G -> f u v = Some c -> f v u = Some c ->
  agrees f (add_edge G u v c) /\
  edge_cost (add_edge G u v c) u v <> None /\
  (forall a b, edge_cost G a b <> None ->
               edge_cost (add_edge G u v c) a b <> None).
Proof.
  intros [HG Hf] Huv Hvu. split; [split|split].
  - now apply add_edge_ok.
  - intros a b. rewrite add_edge_edge_cost by exact HG.
    destruct ((String.eqb a u && String.eqb b v)
              || (String.eqb a v && String.eqb b u)) eqn:E; [|apply Hf].
    right. apply Bool.orb_true_iff in E.
    destruct E as [E|E]; apply Bool.andb_true_iff in E; destruct E as [E1 E2];
      apply String.eqb_eq in E1, E2; subst; congruence.
  - rewrite add_edge_edge_cost by exact HG.
    rewrite !String.eqb_refl. simpl. discriminate.
  - intros a b Hab. rewrite add_edge_edge_cost by exact HG.
    destruct (_ || _); [discriminate | exact Hab].
Qed.

Lemma add_links_agrees f G u (nbrs : dict Cost) :
  agrees f G ->
  (forall v c, In (v, c) nbrs -> f u v = Some c /\ f v u = Some c) ->
  agrees f (add_links G u nbrs) /\
  (forall v c, In (v, c) nbrs -> edge_cost (add_links G u nbrs) u v <> None) /\
  (forall a b, edge_cost G a b <> None ->
               edge_cost (add_links G u nbrs) a b <> None).
Proof.
  revert G. induction nbrs as [|[v c] nbrs IH]; intros G Ha Hn.
  - split; [exact Ha|split]; [intros v c [] | auto].
  - rewrite add_links_cons.
    destruct (Hn v c (or_introl eq_refl)) as [H1 H2].
    destruct (add_edge_agrees f G u v c Ha H1 H2) as (Ha' & Hnew & Hkeep).
    destruct (IH (add_edge G u v c) Ha') as (Ha'' & Hnew' & Hkeep').
    { intros v' c' Hi. apply Hn. now right. }
    split; [exact Ha''|split]; [|auto].
    intros v' c' [[= <- <-]|Hi]; [now apply Hkeep' | eauto].
Qed.

Lemma copy_edges_agrees f adj G :
  agrees f G ->
  (forall u nbrs v c, In (u, nbrs) adj -> In (v, c) nbrs ->
     f u v = Some c /\ f v u = Some c) ->
  agrees f (copy_edges adj G) /\
  (forall u nbrs v c, In (u, nbrs) adj -> In (v, c) nbrs ->
     edge_cost (copy_edges adj G) u v <> None) /\
  (forall a b, edge_cost G a b <> None ->
               edge_cost (copy_edges adj G) a b <> None).
Proof.
  revert G. induction adj as [|[u nbrs] adj IH]; intros G Ha Hn.
  - split; [exact Ha|split]; [intros u nbrs v c [] | auto].
  - change (copy_edges ((u, nbrs) :: adj) G)
      with (copy_edges adj (add_links G u nbrs)).
    destruct (add_links_agrees f G u nbrs Ha) as (Ha' & Hnew & Hkeep).
    { intros v c Hi. apply (Hn u nbrs); [now left | exact Hi]. }
    destruct (IH (add_links G u nbrs) Ha') as (Ha'' & Hnew' & Hkeep').
    { intros u' nbrs' v c Hu Hv. apply (Hn u' nbrs'); [now right|exact Hv]. }
    split; [exact Ha''|split]; [|auto].
    intros u' nbrs' v c [[= <- <-]|Hu] Hv; [apply Hkeep'; eauto | eauto].
Qed.

Lemma copy_nodes_edge_cost (nodes : dict (option Z)) G u v :
  graph_ok G -> edge_cost (copy_nodes nodes G) u v = edge_cost G u v.
Proof.
  revert G. induction nodes as [|[n a] nodes IH]; intros G HG; auto.
  change (copy_nodes ((n, a) :: nodes) G)
    with (copy_nodes nodes (add_node G n a)).
  rewrite IH by now apply add_node_ok. now apply add_node_edge_cost.
Qed.

(** The copy of a well-formed graph has the same edges with the same
    costs. *)
Lemma copy_edge_cost G u v :
  graph_wf G -> edge_cost (copy G) u v = edge_cost G u v.
Proof.
  intros [HG Hnd]. unfold copy.
  set (G0 := copy_nodes (g_node G) empty_graph).
  assert (H0 : agrees (edge_cost G) G0).
  { split; [apply copy_nodes_ok, graph_ok_empty|].
    intros a b. left. unfold G0.
    now rewrite copy_nodes_edge_cost by apply graph_ok_empty. }
  destruct (copy_edges_agrees (edge_cost G) (g_adj G) G0 H0)
    as ([_ Hag] & Hnew & _).
  { intros a nbrs b c Ha Hb.
    pose proof (wf_entry_edge_cost G a nbrs b c Hnd Ha Hb) as E.
    split; [exact E|]. destruct HG as [_ Hs]. now rewrite <- Hs. }
  destruct (edge_cost G u v) as [c|] eqn:E.
  - destruct (edge_cost_entry G u v c E) as (nbrs & Hu & Hv).
    specialize (Hnew u nbrs v c Hu Hv).
    destruct (Hag u v) as [Hx|Hx]; congruence.
  - destruct (Hag u v) as [Hx|Hx]; congruence.
Qed.

End GraphNoDup.

(** ** The database along a run, backup paths, destinations without link *)

Section RunShape.
Context {Cost : Type} `{PyNum Cost} {Time : Type} `{PyClock Time}.
Variable PUBLIC_KEYS : dict string.
Variable py_hash : string -> Z.
Variable py_str : LsuData (Cost := Cost) -> string.

Local Abbreviation process := (process_lsu PUBLIC_KEYS py_hash py_str).
Local Abbreviation run_calls := (run PUBLIC_KEYS py_hash py_str).
Local Abbreviation do_call := (call PUBLIC_KEYS py_hash py_str).

Implicit Types (r : Router (Cost := Cost) (Time := Time)) (now : Time)
  (lsu : Lsu (Cost := Cost)).

Lemma process_lsu_graph_nodup r now lsu :
  graph_nodup (topology r) ->
  graph_nodup (topology (fst (process r now lsu))).
Proof.
  intros HG.
  destruct (outcome_accepted_dec (snd (process r now lsu))) as [Ha|Hn].
  - assert (E : process r now lsu = (fst (process r now lsu), Ok Accepted)).
    { rewrite <- Ha. now destruct (process r now lsu). }
    destruct (process_lsu_accepted _ _ _ r now lsu _ E) as (Ht & _).
    cbv zeta in Ht. rewrite Ht.
    apply add_links_nodup, remove_edges_from_nodup, add_node_nodup, HG.
  - now rewrite process_lsu_not_accepted.
Qed.

Lemma call_graph_wf r c :
  graph_wf (topology r) -> graph_wf (topology (do_call r c)).
Proof.
  intros [HG Hnd]. split; [now apply call_graph_ok|].
  destruct c as [now lsu| |lk]; cbn [call].
  - now apply process_lsu_graph_nodup.
  - now destruct (calculate_routes_frame r) as (_ & _ & -> & _).
  - now destruct (create_lsu_sequence PUBLIC_KEYS py_hash py_str r lk)
      as (_ & _ & -> & _).
Qed.

Lemma run_graph_wf r calls :
  graph_wf (topology r) -> graph_wf (topology (run_calls r calls)).
Proof.
  revert r. induction calls as [|c calls IH]; intros r HG; [exact HG|].
  change (run_calls r (c :: calls)) with (run_calls (do_call r c) calls).
  apply IH. now apply call_graph_wf.
Qed.

(** The database of a router is a well-formed undirected graph all along
    its life: keys are unique, every adjacency entry belongs to a node, and
    each edge is stored at both ends with one cost.  In particular the
    second [del] of [remove_edges_from] always finds its key. *)
Theorem database_stays_well_formed r calls :
  graph_wf (topology r) -> graph_wf (topology (run_calls r calls)).
Proof. exact (run_graph_wf r calls). Qed.

Lemma backup_walk_in_topology (topo : Graph Cost) pp bp :
  graph_wf topo ->
  is_walk (remove_edges_from (copy topo) (path_edges pp)) bp ->
  is_walk topo bp.
Proof.
  intros Hwf Hw a b Hin. specialize (Hw a b Hin).
  unfold has_edge, dict_mem in *.
  fold (edge_cost (remove_edges_from (copy topo) (path_edges pp)) a b) in Hw.
  fold (edge_cost topo a b).
  rewrite remove_edges_from_edge_cost in Hw by apply copy_ok.
  destruct (existsb _ _); [discriminate|].
  now rewrite copy_edge_cost in Hw.
Qed.

(** A backup path of the table runs from the router to the destination
    along edges of the database and visits no node twice; it leaves the
    router through a neighbour other than the primary next hop. *)
Theorem backup_path_shape r target e bp :
  graph_wf (topology r) ->
  has_node (topology r) (id r) = true ->
  dict_get target (routing_table (fst (calculate_routes r))) = Some e ->
  backup_path e = Some bp ->
  (exists hop rest,
      bp = id r :: hop :: rest /\ hop <> next_hop e /\
      has_edge (topology r) (id r) hop = true) /\
  (exists q, bp = q ++ [target]) /\
  NoDup bp /\
  is_walk (topology r) bp.
Proof.
  intros Hwf Hn Hg Hb.
  destruct (calculate_routes_new_entries r target e Hn Hg)
    as (Ht & Hne & He).
  destruct (route_entry_inv _ _ _ _ He) as (Hp & Hbp & _ & x & rest & Hx).
  specialize (Hbp bp Hb).
  destruct (dijkstra_path_walk _ _ _ _ Hp) as (_ & _ & q' & Hq').
  assert (Hx' : path e = id r :: next_hop e :: rest).
  { rewrite Hx in Hq'. injection Hq' as -> _. exact Hx. }
  destruct (dijkstra_path_walk _ _ _ _ Hbp) as (Hw & [q Hq] & [qs Hqs]).
  pose proof (backup_walk_in_topology _ _ _ Hwf Hw) as Hw'.
  assert (Hlen : exists hop rest', bp = id r :: hop :: rest').
  { destruct qs as [|hop rest']; [|eauto].
    exfalso. rewrite Hqs in Hq. destruct q as [|a [|b q]]; try discriminate.
    injection Hq as Hq. now apply Hne. }
  destruct Hlen as (hop & rest' & Hbp').
  repeat split.
  - exists hop, rest'. repeat split; [exact Hbp' | |].
    + intros ->.
      assert (Hin : In (id r, next_hop e) (path_edges bp))
        by (rewrite Hbp'; now left).
      pose proof (route_entry_backup_disjoint _ _ _ _ _ _ _ He Hb Hin) as Hd.
      assert (Ht' : existsb (same_edge (id r) (next_hop e))
                      (path_edges (path e)) = true).
      { apply existsb_exists. exists (id r, next_hop e). split.
        - rewrite Hx'. now left.
        - unfold same_edge. cbn [fst snd]. now rewrite !String.eqb_refl. }
      congruence.
    + apply Hw'. rewrite Hbp'. now left.
  - now exists q.
  - now apply (dijkstra_path_simple _ _ _ _ Hbp).
  - exact Hw'.
Qed.

Lemma walk_last_edge (topo : Graph Cost) a b rest q target :
  is_walk topo (a :: b :: rest) ->
  a :: b :: rest = q ++ [target] ->
  exists x, has_edge topo x target = true.
Proof.
  intros Hw Hq.
  destruct (exists_last (l := q)) as (q' & x & ->).
  { intros ->. discriminate. }
  exists x. apply Hw. rewrite Hq, path_edges_snoc.
  apply in_app_iff. right. now left.
Qed.

(** Destinations the router has no way to: a node of the database that no
    edge reaches gets no entry, and a router without neighbour in its
    database ends with an empty routing table. *)
Theorem no_route_without_links r :
  has_node (topology r) (id r) = true ->
  (forall target,
     (forall x, has_edge (topology r) x target = false) ->
     dict_get target (routing_table (fst (calculate_routes r))) = None) /\
  (neighbors (topology r) (id r) = [] ->
   routing_table (fst (calculate_routes r)) = []).
Proof.
  intros Hn.
  assert (Hshape : forall target e,
            dict_get target (routing_table (fst (calculate_routes r)))
            = Some e ->
            (exists x, has_edge (topology r) x target = true) /\
            has_edge (topology r) (id r) (next_hop e) = true).
  { intros target e Hg.
    destruct (calculate_routes_new_entries r target e Hn Hg)
      as (_ & _ & He).
    destruct (route_entry_inv _ _ _ _ He) as (Hp & _ & _ & x & rest & Hx).
    destruct (dijkstra_path_walk _ _ _ _ Hp) as (Hw & [q Hq] & [q' Hq']).
    split.
    - rewrite Hx in Hw, Hq. eapply walk_last_edge; eassumption.
    - apply Hw. rewrite Hx in Hq'. injection Hq' as -> _.
      rewrite Hx. now left. }
  split.
  - intros target Hiso.
    destruct (dict_get target _) as [e|] eqn:Eg; [|reflexivity].
    destruct (Hshape target e Eg) as [[x Hx] _]. now rewrite Hiso in Hx.
  - intros Hnb.
    destruct (routing_table (fst (calculate_routes r))) as [|[k e] tbl] eqn:Et;
      [reflexivity|].
    destruct (Hshape k e) as [_ Hh].
    { simpl. now rewrite String.eqb_refl. }
    unfold has_edge in Hh. now rewrite Hnb in Hh.
Qed.

End RunShape.

(** ** Integer costs: the cost of an entry is the cost of its path *)

Section IntegerCosts.
Implicit Types (G : Graph Z) (st : dstate (Cost := Z)).
Local Open Scope Z_scope.

Lemma entry_ltb_false (d1 d2 : Z) (c1 c2 : nat) (u1 u2 : string) :
  entry_ltb (d1, c1, u1) (d2, c2, u2) = false <->
  d2 < d1 \/ (d1 = d2 /\ (c2 <= c1)%nat).
Proof.
  unfold entry_ltb. cbn [py_eqb py_ltb PyNum_Z].
  destruct (Z.eqb_spec d1 d2).
  - rewrite Nat.ltb_ge. lia.
  - rewrite Z.ltb_ge. lia.
Qed.

Lemma heappop_spec (h : list (entry (Cost := Z))) m rest :
  heappop h = Some (m, rest) ->
  (forall e, In e h <-> e = m \/ In e rest) /\
  (forall e, In e rest -> entry_ltb e m = false).
Proof.
  revert m rest. induction h as [|x t IH]; intros m rest; simpl.
  - discriminate.
  - destruct (heappop t) as [[m' r']|] eqn:E.
    + destruct (IH _ _ eq_refl) as [Hin Hmin].
      destruct (entry_ltb m' x) eqn:El; intros [= <- <-].
      * split.
        -- intros e. simpl. rewrite Hin. tauto.
        -- intros e [<-|He]; [|auto].
           destruct x as [[dx cx] ux], m' as [[dm cm] um].
           apply entry_ltb_false. unfold entry_ltb in El.
           cbn [py_eqb py_ltb PyNum_Z] in El.
           destruct (Z.eqb_spec dm dx).
           ++ apply Nat.ltb_lt in El. lia.
           ++ apply Z.ltb_lt in El. lia.
      * split.
        -- intros e. simpl. split; intros [?|?]; subst; auto.
        -- intros e He. apply Hin in He. destruct He as [->|He]; [exact El|].
           specialize (Hmin e He).
           destruct x as [[dx cx] ux], m' as [[dm cm] um], e as [[de ce] ue].
           apply entry_ltb_false in El, Hmin. apply entry_ltb_false. lia.
    + apply heappop_None in E. subst t. intros [= <- <-]. split.
      * intros e. simpl. split; intros [?|?]; subst; auto.
      * intros e [].
Qed.

Lemma walk_cost_app_last G p u :
  p <> [] ->
  walk_cost G (p ++ [u]) =
  match walk_cost G p, edge_cost G (last p "") u with
  | Some s, Some c => Some (s + c)
  | _, _ => None
  end.
Proof.
  induction p as [|a [|b l] IH]; intros Hne; [congruence| |].
  - cbn. destruct (edge_cost G a u); [f_equal; lia | reflexivity].
  - change ((a :: b :: l) ++ [u]) with (a :: b :: (l ++ [u])).
    change (last (a :: b :: l) "") with (last (b :: l) "").
    change (walk_cost G (a :: b :: l ++ [u]))
      with (match edge_cost G a b, walk_cost G ((b :: l) ++ [u]) with
            | Some c, Some s => Some (c + s)
            | _, _ => None
            end).
    change (walk_cost G (a :: b :: l))
      with (match edge_cost G a b, walk_cost G (b :: l) with
            | Some c, Some s => Some (c + s)
            | _, _ => None
            end).
    rewrite IH by discriminate.
    destruct (edge_cost G a b); [|reflexivity].
    destruct (walk_cost G (b :: l)); [|reflexivity].
    destruct (edge_cost G (last (b :: l) "") u); [f_equal; lia | reflexivity].
Qed.

Lemma walk_cost_snoc G q v u s c :
  walk_cost G (q ++ [v]) = Some s ->
  edge_cost G v u = Some c ->
  walk_cost G ((q ++ [v]) ++ [u]) = Some (s + c).
Proof.
  intros Hw Hc. rewrite walk_cost_app_last by (destruct q; discriminate).
  now rewrite Hw, last_last, Hc.
Qed.

Lemma cost_inv_init G source : cost_inv G (dijkstra_init source).
Proof.
  unfold cost_inv, dijkstra_init. cbn [seen paths fringe dist dict_get].
  repeat split.
  - intros u s. destruct (String.eqb_spec u source); [|discriminate].
    intros [= <-]. subst. exists [source]. repeat split. now exists [].
  - intros u s. destruct (String.eqb_spec u source); [|discriminate].
    intros [= <-] _. subst. exists 0%nat. now left.
  - intros d c u [[= <- <- <-]|[]]. exists 0. rewrite String.eqb_refl.
    split; [reflexivity | cbn; lia].
  - discriminate.
Qed.

Lemma relax_cost_inv G v d (nbrs : dict Z) st st' :
  (forall u c, In (u, c) nbrs -> edge_cost G v u = Some c) ->
  dict_get v (dist st) = Some d ->
  cost_inv G st ->
  relax v d nbrs st = Ok st' ->
  cost_inv G st'.
Proof.
  revert st. induction nbrs as [|[u c] nbrs IH]; intros st Hn Hv Hinv;
    cbn [relax].
  - now intros [= <-].
  - assert (Hn' : forall u' c', In (u', c') nbrs -> edge_cost G v u' = Some c')
      by (intros u' c' Hi; apply Hn; now right).
    destruct (dict_get u (dist st)) as [du|] eqn:Eu.
    + destruct (py_ltb (py_add d c) du); [discriminate|]. now apply IH.
    + destruct (match dict_get u (seen st) with
                | Some s => py_ltb (py_add d c) s
                | None => true
                end) eqn:Eb; [|now apply IH].
      destruct Hinv as (I1 & I3 & I4 & I5).
      destruct (dict_get v (paths st)) as [pv|] eqn:Ev; [|discriminate].
      apply IH; [exact Hn' | exact Hv |].
      cbn [py_add PyNum_Z] in *.
      unfold cost_inv. cbn [seen paths fringe dist].
      split; [|split; [|split]].
      * intros u' s. rewrite !dict_get_set.
        destruct (String.eqb_spec u' u); subst; [|apply I1].
        intros [= <-]. exists (pv ++ [u]). split; [reflexivity|].
        destruct (I1 v d (I5 v d Hv)) as (p0 & Hp0 & Hw0 & q & ->).
        rewrite Ev in Hp0. injection Hp0 as ->.
        split; [|now exists (q ++ [v])].
        apply walk_cost_snoc; [exact Hw0|]. apply Hn. now left.
      * intros u' s. rewrite dict_get_set. unfold heappush.
        destruct (String.eqb_spec u' u); subst.
        -- intros [= <-] _. exists (counter st). apply in_app_iff.
           right. now left.
        -- intros Hs Hd. destruct (I3 u' s Hs Hd) as [c' Hc'].
           exists c'. apply in_app_iff. now left.
      * intros d' c' u' Hin. unfold heappush in Hin.
        apply in_app_iff in Hin. rewrite dict_get_set.
        destruct Hin as [Hin|[[= <- <- <-]|[]]].
        -- destruct (I4 d' c' u' Hin) as (s & Hs & Hle).
           destruct (String.eqb_spec u' u); subst; [|eauto].
           rewrite Hs in Eb. cbn [py_ltb PyNum_Z] in Eb.
           apply Z.ltb_lt in Eb. exists (d + c). split; [reflexivity | lia].
        -- rewrite String.eqb_refl. exists (d + c).
           split; [reflexivity | lia].
      * intros u' d' Hd'. rewrite dict_get_set.
        destruct (String.eqb_spec u' u); subst; [congruence | now apply I5].
Qed.

Lemma dijkstra_loop_cost_inv fuel G target st st' :
  graph_nodup G ->
  cost_inv G st ->
  dijkstra_loop fuel (g_adj G) target st = Ok st' ->
  cost_inv G st'.
Proof.
  intros Hnd. revert st. induction fuel as [|fuel IH]; intros st Hinv.
  - simpl. now intros [= <-].
  - rewrite dijkstra_loop_unfold.
    destruct (heappop (fringe st)) as [[[[d c] v] rest]|] eqn:Ep;
      [|now intros [= <-]].
    destruct (heappop_spec _ _ _ Ep) as [Hin Hmin].
    destruct Hinv as (I1 & I3 & I4 & I5).
    cbv zeta. cbn [dist fringe seen paths counter].
    assert (Hrest : forall s c' u, u <> v -> In (s, c', u) (fringe st) ->
                    In (s, c', u) rest).
    { intros s c' u Hne Hi. apply Hin in Hi.
      destruct Hi as [[= -> -> ->]|Hi]; [congruence | exact Hi]. }
    assert (I4' : forall d' c' u, In (d', c', u) rest ->
                  exists s, dict_get u (seen st) = Some s /\ s <= d').
    { intros d' c' u Hi. apply (I4 d' c' u). apply Hin. now right. }
    destruct (dict_mem v (dist st)) eqn:Em.
    + apply IH. unfold cost_inv. cbn [seen paths fringe dist].
      split; [exact I1|split; [|split; [exact I4'|exact I5]]].
      intros u s Hs Hd. destruct (I3 u s Hs Hd) as [c' Hc'].
      exists c'. apply Hrest; [|exact Hc'].
      intros ->. unfold dict_mem in Em. now rewrite Hd in Em.
    + assert (Hdv : dict_get v (dist st) = None).
      { unfold dict_mem in Em. now destruct (dict_get v (dist st)). }
      assert (Hseen : dict_get v (seen st) = Some d).
      { destruct (I4 d c v) as (s & Hs & Hle); [apply Hin; now left|].
        destruct (I3 v s Hs Hdv) as [c' Hc'].
        apply Hin in Hc'. destruct Hc' as [[= -> _]|Hc']; [exact Hs|].
        apply Hmin in Hc'. apply entry_ltb_false in Hc'.
        replace d with s by lia. exact Hs. }
      assert (Hinv2 : cost_inv G
                {| dist := dict_set v d (dist st); seen := seen st;
                   paths := paths st; fringe := rest;
                   counter := counter st |}).
      { unfold cost_inv. cbn [seen paths fringe dist].
        split; [exact I1|split; [|split; [exact I4'|]]].
        - intros u s Hs Hd. rewrite dict_get_set in Hd.
          destruct (String.eqb_spec u v); [discriminate|].
          destruct (I3 u s Hs Hd) as [c' Hc']. exists c'. now apply Hrest.
        - intros u d'. rewrite dict_get_set.
          destruct (String.eqb_spec u v); subst; [|apply I5].
          now intros [= <-]. }
      destruct (String.eqb v target); [now intros [= <-]|].
      destruct (dict_get v (g_adj G)) as [nbrs|] eqn:Eg; [|discriminate].
      destruct (relax v d nbrs _) as [st3|e] eqn:Er; [|discriminate].
      apply IH. eapply relax_cost_inv; [| |exact Hinv2|exact Er].
      * intros u cu Hi.
        apply (wf_entry_edge_cost G v nbrs u cu Hnd); [|exact Hi].
        now apply dict_get_In.
      * cbn [dist]. apply dict_get_set_eq.
Qed.

(** The length that [dijkstra_path_length] returns is the cost of the path
    that [dijkstra_path] returns. *)
Lemma dijkstra_length_is_walk_cost G source target p :
  graph_nodup G ->
  dijkstra_path G source target = Ok p ->
  exists d, dijkstra_path_length G source target = Ok d /\
            walk_cost G p = Some d.
Proof.
  intros Hnd. unfold dijkstra_path, dijkstra_path_length,
    single_source_dijkstra.
  destruct (negb (has_node G source)); [discriminate|].
  rewrite (String.eqb_sym source target).
  destruct (String.eqb_spec target source); subst.
  - intros [= <-]. exists 0. split; reflexivity.
  - destruct (_dijkstra_multisource G source target) as [st|e] eqn:Ed;
      [|discriminate].
    destruct (dict_get target (dist st)) as [d|] eqn:Edist; [|discriminate].
    destruct (dict_get target (paths st)) as [p'|] eqn:Ep; [|discriminate].
    intros [= <-]. exists d. split; [reflexivity|].
    pose proof (dijkstra_loop_cost_inv _ G target _ st Hnd
                  (cost_inv_init G source) Ed) as (I1 & _ & _ & I5).
    destruct (I1 target d (I5 target d Edist)) as (p0 & Hp0 & Hw & _).
    congruence.
Qed.

Lemma walk_cost_cons G a b l :
  walk_cost G (a :: b :: l) =
  match edge_cost G a b, walk_cost G (b :: l) with
  | Some c, Some s => Some (c + s)
  | _, _ => None
  end.
Proof. reflexivity. Qed.

Lemma walk_cost_ext G1 G2 p :
  (forall a b, In (a, b) (path_edges p) -> edge_cost G1 a b = edge_cost G2 a b) ->
  walk_cost G1 p = walk_cost G2 p.
Proof.
  induction p as [|a [|b l] IH]; intros Hext; try reflexivity.
  rewrite !walk_cost_cons. rewrite (Hext a b) by now left.
  rewrite IH; [reflexivity|].
  intros x y Hi. apply Hext. rewrite path_edges_cons. now right.
Qed.

Lemma route_entry_total_cost {Cost} `{PyNum Cost} (topo : Graph Cost)
  self_id target (e : RouteEntry (Cost := Cost)) :
  route_entry topo self_id target = Ok e ->
  exists pc, dijkstra_path_length topo self_id target = Ok pc /\
             total_cost e = py_round2 pc.
Proof.
  unfold route_entry.
  destruct (dijkstra_path topo self_id target) as [pp|]; [|discriminate].
  destruct (dijkstra_path_length topo self_id target) as [pc|];
    [|discriminate].
  intros He. exists pc. split; [reflexivity|].
  destruct (dijkstra_path _ self_id target) as [bp|ex].
  - destruct (dijkstra_path_length _ self_id target) as [bc|ex'].
    + destruct pp as [|x [|hop rest]]; try discriminate.
      now injection He as <-.
    + destruct ex'; try discriminate.
      destruct pp as [|x [|hop rest]]; try discriminate.
      now injection He as <-.
  - destruct ex; try discriminate.
    destruct pp as [|x [|hop rest]]; try discriminate.
    now injection He as <-.
Qed.

(** With integer costs on a well-formed database, the total cost of an
    entry is the sum of the costs of the links along its path, and a backup
    cost, where there is one, is the sum along the backup path. *)
Theorem entry_cost_is_path_cost {Time} `{PyClock Time}
  (r : Router (Cost := Z) (Time := Time)) target e :
  graph_wf (topology r) ->
  has_node (topology r) (id r) = true ->
  dict_get target (routing_table (fst (calculate_routes r))) = Some e ->
  walk_cost (topology r) (path e) = Some (total_cost e) /\
  (forall bp c, backup_path e = Some bp -> backup_cost e = Some c ->
     walk_cost (topology r) bp = Some c).
Proof.
  intros [Hok Hnd] Hn Hg.
  destruct (calculate_routes_new_entries r target e Hn Hg) as (_ & _ & He).
  destruct (route_entry_inv _ _ _ _ He) as (Hp & Hbp & _).
  split.
  - destruct (route_entry_total_cost _ _ _ _ He) as (pc & Hl & ->).
    destruct (dijkstra_length_is_walk_cost _ _ _ _ Hnd Hp) as (d & Hd & Hw).
    rewrite Hl in Hd. injection Hd as <-. exact Hw.
  - intros bp c Hb Hc. specialize (Hbp bp Hb).
    destruct (backup_cost_of_backup_path _ _ _ _ _ He Hb) as (bc & Hl & Hbc).
    set (tc := remove_edges_from (copy (topology r)) (path_edges (path e)))
      in *.
    assert (Htc : graph_nodup tc).
    { apply remove_edges_from_nodup. apply copy_wf. }
    destruct (dijkstra_length_is_walk_cost _ _ _ _ Htc Hbp) as (d & Hd & Hw).
    rewrite Hl in Hd. injection Hd as <-.
    rewrite Hbc in Hc. destruct (py_truthy bc); [|discriminate].
    injection Hc as <-. cbn [py_round2 PyNum_Z].
    rewrite <- Hw. apply walk_cost_ext. intros a b Hin.
    destruct (dijkstra_path_walk _ _ _ _ Hbp) as (Hwalk & _).
    specialize (Hwalk a b Hin). unfold has_edge, dict_mem in Hwalk.
    fold (edge_cost tc a b) in Hwalk. unfold tc in *.
    rewrite remove_edges_from_edge_cost in * by apply copy_ok.
    destruct (existsb _ _); [discriminate|].
    symmetry. apply copy_edge_cost. now split.
Qed.

End IntegerCosts.

(** ** Link costs: the division by zero of the dynamic cost *)

Module LinkCostExtras.
Import ExactCost.
Local Open Scope Q_scope.


End LinkCostExtras.

(** ** Link costs: edge cases of the static cost *)

Module StaticCostExtras.
Import LinkCost LinkCostFacts.
Local Open Scope Z_scope.

Lemma shr_fexp_nonneg m e l :
  0 <= m -> 0 <= shr_m (fst (shr_fexp prec emax m e l)).
Proof.
  intros Hm. unfold shr_fexp, shr.
  destruct (fexp prec emax (Zdigits2 m + e) - e) as [|p|p];
    cbn [fst]; rewrite ?shr_record_of_loc_m; try lia.
  rewrite iter_shr_m by (rewrite shr_record_of_loc_m; lia).
  rewrite shr_record_of_loc_m. apply Z.div_pos; [lia|].
  apply Z.pow_pos_nonneg; lia.
Qed.

Lemma round_nearest_even_nonneg m l : 0 <= m -> 0 <= round_nearest_even m l.
Proof.
  intros Hm. destruct l as [|[]]; cbn [round_nearest_even]; try lia.
  destruct (Z.even m); lia.
Qed.

(** Rounding a mantissa that is not negative gives a number of the sign
    asked for, never a NaN. *)
Lemma round_aux_signed s m e l :
  0 <= m ->
  match binary_round_aux prec emax s m e l with
  | S754_zero s' | S754_infinity s' | S754_finite s' _ _ => s' = s
  | S754_nan => False
  end.
Proof.
  intros Hm. unfold binary_round_aux.
  pose proof (shr_fexp_nonneg m e l Hm) as H1.
  destruct (shr_fexp prec emax m e l) as [mrs' e']. cbn [fst] in H1.
  pose proof (round_nearest_even_nonneg _ (loc_of_shr_record mrs') H1) as H2.
  pose proof (shr_fexp_nonneg _ e' loc_Exact H2) as H3.
  destruct (shr_fexp prec emax _ e' loc_Exact) as [mrs'' e''].
  cbn [fst] in H3.
  destruct (shr_m mrs''); try lia; [reflexivity|].
  now destruct (e'' <=? emax - prec).
Qed.

Lemma div_core_nonneg m1 e1 m2 e2 :
  0 <= fst (fst (SFdiv_core_binary prec emax (Zpos m1) e1 (Zpos m2) e2)).
Proof.
  unfold SFdiv_core_binary.
  set (s := e1 - e2 - _).
  set (m' := match s with Zpos _ => Z.shiftl (Zpos m1) s | Z0 => Zpos m1
             | Zneg _ => 0 end).
  assert (Hm : 0 <= m').
  { unfold m'. destruct s; try lia. apply Z.shiftl_nonneg. lia. }
  pose proof (Z.div_pos m' (Zpos m2) Hm ltac:(lia)) as Hq.
  unfold Z.div in Hq.
  destruct (Z.div_eucl m' (Zpos m2)) as [q r]. exact Hq.
Qed.

Lemma nearest_even_nonneg m e : 0 <= m -> 0 <= nearest_even m e.
Proof.
  intros Hm. unfold nearest_even. destruct e as [|p|p].
  - lia.
  - apply Z.mul_nonneg_nonneg; [exact Hm|]. apply Z.pow_nonneg. lia.
  - assert (Hd : 0 < Z.pow_pos 2 p).
    { rewrite Z.pow_pos_fold. apply Z.pow_pos_nonneg; lia. }
    pose proof (Z.div_pos m _ Hm Hd) as Hq.
    destruct (_ ?= _); [destruct (Z.even _)| |]; lia.
Qed.

Lemma is_nan_spec x :
  is_nan x = match Prim2SF x with S754_nan => true | _ => false end.
Proof.
  unfold is_nan. rewrite FloatAxioms.eqb_spec.
  destruct (Prim2SF x) as [s|s| |s m e]; try reflexivity.
  - now destruct s.
  - unfold SFeqb. cbn [SFcompare]. rewrite Z.compare_refl.
    replace (Pos.compare_cont Eq m m) with Eq
      by (symmetry; apply Pos.compare_cont_refl).
    now destruct s.
Qed.

(** Edge cases of the static cost: a bandwidth of 0, of either sign, raises
    [ZeroDivisionError]; a NaN raises [ValueError]; every negative
    bandwidth gets the least cost 1, so that the static metric does not
    tell such links apart, unless the quotient is an infinity, for which
    [round] raises [OverflowError]. *)
Theorem ospf_cost_edge_cases link_data :
  ((bandwidth link_data =? 0)%float = true ->
   ospf_calculate_link_cost link_data = Raised ZeroDivisionError) /\
  (is_nan (bandwidth link_data) = true ->
   ospf_calculate_link_cost link_data = Raised ValueError) /\
  ((bandwidth link_data <? 0)%float = true ->
   ospf_calculate_link_cost link_data
   = if is_infinity (1000 / bandwidth link_data)%float
     then Raised OverflowError else Ok 1).
Proof.
  unfold ospf_calculate_link_cost, py_div. cbv zeta.
  rewrite is_nan_spec, is_infinity_spec, eqb_zero, ltb_zero.
  destruct (Prim2SF (bandwidth link_data)) as [s|s| |s m e] eqn:E;
    cbn [sf_is_zero sf_not_negative negb]; unfold py_round;
    rewrite ?FloatAxioms.div_spec, ?E;
    change (Prim2SF 1000) with (S754_finite false 8796093022208000 (-43));
    unfold SF64div; cbn [SFdiv xorb];
    repeat split; try discriminate; try reflexivity; intros Hs.
  destruct s; [|discriminate].
    pose proof (div_core_nonneg 8796093022208000 (-43) m e) as Hq.
    destruct (SFdiv_core_binary prec emax _ _ _ _) as [[mz ez] lz].
    cbn [fst] in Hq.
    pose proof (round_aux_signed true mz ez lz Hq) as Hr.
    destruct (binary_round_aux prec emax true mz ez lz) as [s'|s'| |s' m' e'];
      try reflexivity; [destruct Hr|]. subst s'. cbn [cond_Zopp].
    f_equal. pose proof (nearest_even_nonneg (Zpos m') e' ltac:(lia)). lia.
Qed.

End StaticCostExtras.

(** ** The physical topology, failure injection and originated links *)

Section PhysicalFacts.
Context {Data : Type}.
Implicit Types (G : Graph Data) (u v : string).

Lemma graph_wf_empty : graph_wf (@empty_graph Data).
Proof. split; [apply graph_ok_empty | apply graph_nodup_empty]. Qed.

Lemma add_node_wf G n a : graph_wf G -> graph_wf (add_node G n a).
Proof. intros [? ?]. split; [now apply add_node_ok|now apply add_node_nodup]. Qed.

Lemma add_edge_wf G x y (d : Data) : graph_wf G -> graph_wf (add_edge G x y d).
Proof. intros [? ?]. split; [now apply add_edge_ok|now apply add_edge_nodup]. Qed.

Lemma remove_edge_wf G e : graph_wf G -> graph_wf (remove_edge G e).
Proof.
  intros [? ?]. split; [now apply remove_edge_ok|now apply remove_edge_nodup].
Qed.

Lemma find_app_first {A} (f : A -> bool) l1 l2 :
  find f (l1 ++ l2) =
  match find f l1 with Some x => Some x | None => find f l2 end.
Proof.
  induction l1 as [|a l1 IH]; simpl; [reflexivity|].
  now destruct (f a).
Qed.

Lemma last_link_cons u v (e : string * string * Data) edges :
  last_link u v (e :: edges) =
  match last_link u v edges with
  | Some d => Some d
  | None => if same_edge u v (fst e) then Some (snd e) else None
  end.
Proof.
  unfold last_link. simpl rev. rewrite find_app_first.
  destruct (find _ (rev edges)); [reflexivity|]. simpl.
  now destruct (same_edge u v (fst e)).
Qed.

Lemma add_edges_edge_cost (edges : list (string * string * Data)) G u v :
  graph_wf G ->
  graph_wf (fold_left
              (fun g e => add_edge g (fst (fst e)) (snd (fst e)) (snd e))
              edges G) /\
  edge_cost
    (fold_left (fun g e => add_edge g (fst (fst e)) (snd (fst e)) (snd e))
       edges G) u v
  = match last_link u v edges with
    | Some d => Some d
    | None => edge_cost G u v
    end.
Proof.
  revert G. induction edges as [|[[x y] d] edges IH]; intros G Hwf.
  - split; [exact Hwf | reflexivity].
  - cbn [fold_left fst snd].
    destruct (IH (add_edge G x y d) (add_edge_wf G x y d Hwf)) as [Hw He].
    split; [exact Hw|]. rewrite He, last_link_cons.
    destruct (last_link u v edges); [reflexivity|].
    rewrite add_edge_edge_cost by apply Hwf.
    unfold same_edge. cbn [fst snd].
    now destruct ((String.eqb u x && String.eqb v y)
                  || (String.eqb u y && String.eqb v x)).
Qed.

Lemma add_nodes_facts (nodes : list string) G :
  graph_wf G ->
  graph_wf (fold_left (fun g n => add_node g n None) nodes G) /\
  (forall u v,
     edge_cost (fold_left (fun g n => add_node g n None) nodes G) u v
     = edge_cost G u v) /\
  (forall n, In n nodes \/ has_node G n = true ->
     has_node (fold_left (fun g n => add_node g n None) nodes G) n = true).
Proof.
  revert G. induction nodes as [|m nodes IH]; intros G Hwf.
  - repeat split; try apply Hwf. intros n [[]|Hn]. exact Hn.
  - cbn [fold_left].
    destruct (IH (add_node G m None) (add_node_wf G m None Hwf))
      as (Hw & He & Hn).
    split; [exact Hw|]. split.
    + intros u v. rewrite He. apply add_node_edge_cost, Hwf.
    + intros n Hin. apply Hn. rewrite add_node_has_node.
      destruct Hin as [[->|Hin]|Hin]; auto.
      * right. now rewrite String.eqb_refl.
      * right. rewrite Hin. apply Bool.orb_true_r.
Qed.

Lemma add_edges_has_node (edges : list (string * string * Data)) G n :
  has_node G n = true ->
  has_node (fold_left
              (fun g e => add_edge g (fst (fst e)) (snd (fst e)) (snd e))
              edges G) n = true.
Proof.
  revert G. induction edges as [|e edges IH]; intros G Hn; [exact Hn|].
  cbn [fold_left]. apply IH. rewrite add_edge_has_node, Hn.
  apply Bool.orb_true_r.
Qed.

Lemma build_topology_wf (nodes : list string)
  (edges : list (string * string * Data)) :
  graph_wf (build_topology nodes edges).
Proof.
  unfold build_topology.
  destruct (add_nodes_facts nodes empty_graph graph_wf_empty) as (Hw & _).
  exact (proj1 (add_edges_edge_cost edges _ EmptyString EmptyString Hw)).
Qed.

(** The graph built from a topology file is well formed; the link between
    two nodes carries the attributes of its last listing, in either
    direction, and there is no link that was not listed; every listed node
    is a node of the graph. *)
Theorem build_topology_links (nodes : list string)
  (edges : list (string * string * Data)) :
  graph_wf (build_topology nodes edges) /\
  (forall u v,
     edge_cost (build_topology nodes edges) u v = last_link u v edges) /\
  (forall n, In n nodes -> has_node (build_topology nodes edges) n = true).
Proof.
  unfold build_topology.
  destruct (add_nodes_facts nodes empty_graph graph_wf_empty)
    as (Hw & He & Hn).
  split; [|split].
  - exact (proj1 (add_edges_edge_cost edges _ EmptyString EmptyString Hw)).
  - intros u v.
    destruct (add_edges_edge_cost edges
                (fold_left (fun g n => add_node g n None) nodes empty_graph)
                u v Hw) as [_ ->].
    rewrite He. now destruct (last_link u v edges).
  - intros n Hin. apply add_edges_has_node. apply Hn. now left.
Qed.

(** *** The links of an advertisement *)

Lemma collect_links_spec {C} (cost_of : string -> Data -> result C)
  (nbrs : dict Data) :
  forall (acc lk : dict C),
  NoDup (dict_keys acc ++ dict_keys nbrs) ->
  collect_links cost_of nbrs acc = Ok lk ->
  dict_keys lk = dict_keys acc ++ dict_keys nbrs /\
  (forall n, dict_get n lk =
     match dict_get n nbrs with
     | Some d => match cost_of n d with Ok c => Some c | Raised _ => None end
     | None => dict_get n acc
     end).
Proof.
  induction nbrs as [|[m d] nbrs IH]; intros acc lk Hnd; cbn [collect_links].
  - intros [= <-]. simpl. rewrite app_nil_r. auto.
  - destruct (cost_of m d) as [c|e] eqn:Ec; [|discriminate].
    intros Hc.
    assert (Hnin : ~ In m (dict_keys acc ++ dict_keys nbrs))
      by exact (NoDup_remove_2 _ _ _ Hnd).
    assert (Hm : dict_mem m acc = false).
    { destruct (dict_mem m acc) eqn:E; [|reflexivity]. exfalso.
      unfold dict_mem in E.
      destruct (dict_get m acc) eqn:Eg; [|discriminate].
      apply Hnin, in_app_iff. left.
      destruct (in_dec string_dec m (dict_keys acc)) as [|Hn]; auto.
      apply dict_get_None_keys in Hn. congruence. }
    assert (Hk : dict_keys (dict_set m c acc) = dict_keys acc ++ [m])
      by (rewrite dict_keys_set; now rewrite Hm).
    destruct (IH (dict_set m c acc) lk) as [Hkeys Hget].
    { rewrite Hk, <- app_assoc. exact Hnd. }
    { exact Hc. }
    split.
    + rewrite Hkeys, Hk, <- app_assoc. reflexivity.
    + intros n. rewrite Hget. cbn [dict_get].
      destruct (dict_get n nbrs) as [d'|] eqn:En.
      * destruct (String.eqb_spec n m); subst; [|reflexivity].
        exfalso. apply Hnin, in_app_iff. right.
        destruct (in_dec string_dec m (dict_keys nbrs)) as [|Hn]; auto.
        apply dict_get_None_keys in Hn. congruence.
      * rewrite dict_get_set.
        destruct (String.eqb_spec n m); subst; [now rewrite Ec | reflexivity].
Qed.

Lemma collect_links_total {C} (cost_of : string -> Data -> result C)
  (nbrs : dict Data) acc :
  (forall n d, In (n, d) nbrs -> exists c, cost_of n d = Ok c) ->
  exists lk, collect_links cost_of nbrs acc = Ok lk.
Proof.
  revert acc. induction nbrs as [|[m d] nbrs IH]; intros acc Hall;
    cbn [collect_links]; [eauto|].
  destruct (Hall m d (or_introl eq_refl)) as [c ->].
  apply IH. intros n d' Hi. apply Hall. now right.
Qed.

Lemma collect_links_raised {C} (cost_of : string -> Data -> result C)
  (nbrs : dict Data) acc e :
  collect_links cost_of nbrs acc = Raised e ->
  exists n d, In (n, d) nbrs /\ cost_of n d = Raised e.
Proof.
  revert acc. induction nbrs as [|[m d] nbrs IH]; intros acc;
    cbn [collect_links]; [discriminate|].
  destruct (cost_of m d) as [c|e'] eqn:Ec.
  - intros Hr. destruct (IH _ Hr) as (n & d' & Hi & Hc).
    exists n, d'. split; [now right | exact Hc].
  - intros [= <-]. exists m, d. split; [now left | exact Ec].
Qed.

(** The loop of [create_lsu] announces exactly the neighbours of the router
    in the physical graph, in their order and each with the cost computed
    for its link; it fails only with an exception of the cost computation
    for one of the neighbours. *)
Theorem collect_links_announces_neighbors {C}
  (cost_of : string -> Data -> result C) (nbrs : dict Data) :
  NoDup (dict_keys nbrs) ->
  match collect_links cost_of nbrs [] with
  | Ok lk =>
      dict_keys lk = dict_keys nbrs /\
      forall n d, dict_get n nbrs = Some d ->
        exists c, cost_of n d = Ok c /\ dict_get n lk = Some c
  | Raised e => exists n d, In (n, d) nbrs /\ cost_of n d = Raised e
  end.
Proof.
  intros Hnd. destruct (collect_links cost_of nbrs []) as [lk|e] eqn:E.
  - destruct (collect_links_spec cost_of nbrs [] lk Hnd E) as [Hk Hg].
    split; [exact Hk|]. intros n d Hd.
    specialize (Hg n). rewrite Hd in Hg.
    destruct (cost_of n d) as [c|e'] eqn:Ec; [eauto|].
    exfalso. apply dict_get_None_keys in Hg. apply Hg. rewrite Hk.
    destruct (in_dec string_dec n (dict_keys nbrs)) as [|Hn]; auto.
    apply dict_get_None_keys in Hn. congruence.
  - now apply collect_links_raised in E.
Qed.

End PhysicalFacts.

(** ** Failure injection *)

Section FailureFacts.
Context {Data : Type}.
Implicit Types (G : Graph Data) (adj : dict (dict Data)) (u v : string).

Lemma same_edge_sym u v x y : same_edge u v (x, y) = same_edge x y (u, v).
Proof.
  unfold same_edge. cbn [fst snd].
  rewrite (String.eqb_sym u x), (String.eqb_sym v y),
    (String.eqb_sym u y), (String.eqb_sym v x).
  destruct (String.eqb x u), (String.eqb y v), (String.eqb y u),
    (String.eqb x v); reflexivity.
Qed.

Lemma edges_from_In adj seen u v :
  In (u, v) (edges_from adj seen) ->
  (exists nbrs, In (u, nbrs) adj /\ In v (dict_keys nbrs)) /\ ~ In v seen.
Proof.
  revert seen. induction adj as [|[n nbrs] adj IH]; intros seen; simpl;
    [tauto|].
  rewrite in_app_iff. intros [Hin|Hin].
  - apply in_map_iff in Hin. destruct Hin as [[k x] [[= <- <-] Hf]].
    apply filter_In in Hf. destruct Hf as [Hk Hs]. cbn [fst] in Hs. split.
    + exists nbrs. split; [now left|].
      unfold dict_keys. apply in_map_iff. now exists (k, x).
    + intros Hseen. apply Bool.negb_true_iff in Hs.
      assert (existsb (String.eqb k) seen = true); [|congruence].
      apply existsb_exists. exists k. split; [exact Hseen|].
      apply String.eqb_refl.
  - destruct (IH _ Hin) as [(nb & H1 & H2) Hs]. split.
    + exists nb. split; [now right | exact H2].
    + intros Hseen. apply Hs. now right.
Qed.

Lemma edges_from_keys adj seen u v :
  In (u, v) (edges_from adj seen) -> In u (dict_keys adj).
Proof.
  intros Hin. destruct (edges_from_In _ _ _ _ Hin) as [(nb & H1 & _) _].
  unfold dict_keys. apply in_map_iff. now exists (u, nb).
Qed.

(** [G.edges()] lists no link twice, in either direction. *)
Lemma edges_from_distinct adj seen e1 e2 :
  adj_nodup adj ->
  In e1 (edges_from adj seen) -> In e2 (edges_from adj seen) ->
  same_edge (fst e1) (snd e1) e2 = true -> e1 = e2.
Proof.
  revert seen e1 e2.
  induction adj as [|[n nbrs] adj IH]; intros seen e1 e2 [Hk Hn]; simpl;
    [tauto|].
  inversion Hk as [|? ? Hnin Hk']; subst.
  assert (Hadj : adj_nodup adj).
  { split; [exact Hk'|]. intros a nb Hi. apply (Hn a). now right. }
  assert (Hcross : forall a b x, 
            In (n, a) (map (fun kv => (n, fst kv))
                         (filter (fun kv : string * Data =>
                            negb (existsb (String.eqb (fst kv)) seen)) nbrs))
            -> In (x, b) (edges_from adj (n :: seen)) ->
            same_edge n a (x, b) = false).
  { intros a b x _ Hx. unfold same_edge. cbn [fst snd].
    pose proof (edges_from_keys _ _ _ _ Hx) as Hxk.
    destruct (edges_from_In _ _ _ _ Hx) as [_ Hb].
    destruct (String.eqb_spec n x); [subst; contradiction|].
    destruct (String.eqb_spec n b); [subst; exfalso; apply Hb; now left|].
    reflexivity. }
  rewrite !in_app_iff. intros [H1|H1] [H2|H2] Hs.
  - apply in_map_iff in H1, H2.
    destruct H1 as [[k1 x1] [<- _]], H2 as [[k2 x2] [<- _]].
    unfold same_edge in Hs. cbn [fst snd] in *.
    apply Bool.orb_true_iff in Hs.
    destruct Hs as [Hs|Hs]; apply Bool.andb_true_iff in Hs;
      destruct Hs as [Ha Hb]; apply String.eqb_eq in Ha, Hb; congruence.
  - destruct e1 as [a1 b1], e2 as [a2 b2]. cbn [fst snd] in Hs.
    assert (a1 = n).
    { apply in_map_iff in H1. now destruct H1 as [? [[= <- _] _]]. }
    subst. rewrite (Hcross b1 b2 a2 H1 H2) in Hs. discriminate.
  - destruct e1 as [a1 b1], e2 as [a2 b2]. cbn [fst snd] in Hs.
    assert (a2 = n).
    { apply in_map_iff in H2. now destruct H2 as [? [[= <- _] _]]. }
    subst. rewrite same_edge_sym, (Hcross b2 b1 a1 H2 H1) in Hs.
    discriminate.
  - now apply (IH (n :: seen)).
Qed.

Lemma all_edges_has_edge G u v :
  graph_nodup G -> In (u, v) (all_edges G) -> has_edge G u v = true.
Proof.
  intros [Hk Hn] Hin.
  destruct (edges_from_In _ _ _ _ Hin) as [(nb & H1 & H2) _].
  unfold has_edge, neighbors, adj_nbrs.
  rewrite (nodup_In_dict_get _ _ _ Hk H1). now apply In_keys_dict_mem.
Qed.

Lemma has_edge_sym G u v :
  graph_ok G -> has_edge G u v = has_edge G v u.
Proof.
  intros [_ Hs]. unfold has_edge, dict_mem.
  fold (edge_cost G u v). fold (edge_cost G v u). now rewrite Hs.
Qed.

(** On a well-formed graph [remove_edge] raises nothing for a link that is
    there, and removes it as [remove_edges_from] does. *)
Lemma remove_edge_strict_present G u v :
  graph_wf G -> has_edge G u v = true ->
  remove_edge_strict G (u, v) = Some (remove_edge G (u, v)).
Proof.
  intros [Hok _] He.
  pose proof He as He'. rewrite (has_edge_sym G u v Hok) in He'.
  unfold has_edge, neighbors, adj_nbrs in He, He'.
  unfold remove_edge_strict, remove_edge.
  destruct (dict_get u (g_adj G)) as [nb|] eqn:Eu; [|discriminate].
  rewrite He.
  destruct (String.eqb_spec u v); [reflexivity|].
  assert (Hv : dict_get v (del_adj (g_adj G) u v) = dict_get v (g_adj G)).
  { unfold del_adj. rewrite Eu. apply dict_get_set_ne. congruence. }
  rewrite Hv.
  destruct (dict_get v (g_adj G)) as [nbv|]; [|discriminate].
  now rewrite He'.
Qed.

Lemma remove_all_strict_cons G e es :
  remove_all_strict G (e :: es) =
  match remove_edge_strict G e with
  | Some g => remove_all_strict g es
  | None => None
  end.
Proof.
  unfold remove_all_strict. cbn [fold_left].
  destruct (remove_edge_strict G e); [reflexivity|].
  induction es; [reflexivity | assumption].
Qed.

Lemma remove_all_strict_ok (es : list (string * string)) :
  forall G,
  graph_wf G ->
  (forall e, In e es -> has_edge G (fst e) (snd e) = true) ->
  NoDup es ->
  (forall e1 e2, In e1 es -> In e2 es ->
     same_edge (fst e1) (snd e1) e2 = true -> e1 = e2) ->
  remove_all_strict G es = Some (remove_edges_from G es).
Proof.
  induction es as [|[x y] es IH]; intros G Hwf Hpres Hnd Hdist;
    [reflexivity|].
  rewrite remove_all_strict_cons, remove_edges_from_cons.
  rewrite remove_edge_strict_present
    by (try assumption; apply (Hpres (x, y)); now left).
  inversion Hnd as [|? ? Hnin Hnd']; subst.
  apply IH; [now apply remove_edge_wf | | exact Hnd' |].
  - intros [a b] Hin. cbn [fst snd].
    assert (Hs : same_edge a b (x, y) = false).
    { destruct (same_edge a b (x, y)) eqn:Es; [|reflexivity].
      exfalso. apply Hnin.
      rewrite <- (Hdist (a, b) (x, y)); auto; [now right | now left]. }
    unfold has_edge, dict_mem. fold (edge_cost (remove_edge G (x, y)) a b).
    rewrite remove_edge_edge_cost by apply Hwf.
    unfold same_edge in Hs. cbn [fst snd] in Hs. rewrite Hs.
    apply (Hpres (a, b)). now right.
  - intros e1 e2 H1 H2. apply Hdist; now right.
Qed.

(** Failure injection removes exactly the sampled links.  On a well-formed
    graph, for a sample without repetition taken from [graph.edges()], no
    [remove_edge] raises; the function returns the sample; afterwards each
    sampled link is gone in both directions, every other link keeps its
    attributes, and the nodes are the same. *)
Theorem break_removes_sampled_links
  (sample : list (string * string) -> nat -> list (string * string))
  (graph : Graph Data) (n : nat) :
  let edges := all_edges graph in
  let links := sample edges (Nat.min n (List.length edges)) in
  graph_wf graph ->
  NoDup links ->
  incl links edges ->
  exists g,
    break_n_random_links sample graph n = Some (g, links) /\
    g_node g = g_node graph /\
    graph_wf g /\
    forall u v,
      edge_cost g u v =
      if existsb (same_edge u v) links then None else edge_cost graph u v.
Proof.
  intros edges links Hwf Hnd Hincl.
  exists (remove_edges_from graph links).
  assert (Hn : (if List.length edges <? n then List.length edges else n)
               = Nat.min n (List.length edges)).
  { destruct (Nat.ltb_spec (List.length edges) n); lia. }
  unfold break_n_random_links. fold edges. rewrite Hn. fold links.
  rewrite remove_all_strict_ok; try assumption.
  - split; [reflexivity|]. split; [apply remove_edges_from_g_node|]. split.
    + split; [apply remove_edges_from_ok, Hwf
             | apply remove_edges_from_nodup, Hwf].
    + intros u v. apply remove_edges_from_edge_cost, Hwf.
  - intros [a b] Hin. apply all_edges_has_edge; [apply Hwf|].
    now apply Hincl.
  - intros e1 e2 H1 H2. apply (edges_from_distinct (g_adj graph) []).
    + apply Hwf.
    + now apply Hincl.
    + now apply Hincl.
Qed.

End FailureFacts.

(** ** The rate limiter after a quiet window *)

Section Recovery.
Context {Cost : Type} {Time : Type} `{PyClock Time}.
Variable PUBLIC_KEYS : dict string.
Variable py_hash : string -> Z.
Variable py_str : LsuData (Cost := Cost) -> string.

Local Abbreviation process := (process_lsu PUBLIC_KEYS py_hash py_str).
Local Abbreviation verify := (verify_signature PUBLIC_KEYS py_hash py_str).

(** Once every stored timestamp is older than the window, that is once
    the test [now - t <= lsu_window] fails for each of them, the rate
    limiter is empty again: a valid advertisement with a new sequence
    number is accepted, however many were accepted before, and its time is
    the only one stored.  This holds on every clock. *)
Theorem rate_limiter_recovers (r : Router (Cost := Cost) (Time := Time))
  (now : Time) (lsu : Lsu) :
  (forall t, In t (lsu_timestamps r) ->
     age_le now t (lsu_window r) = false) ->
  0 < lsu_rate_limit r ->
  verify (data lsu) (signature lsu) (source_id (data lsu)) = Ok true ->
  (has_node (topology r) (source_id (data lsu)) = false \/
   (node_seq (topology r) (source_id (data lsu))
    < data_sequence_number (data lsu))%Z) ->
  evict r now = [] /\
  snd (process r now lsu) = Ok Accepted /\
  lsu_timestamps (fst (process r now lsu)) = [now].
Proof.
  intros Hold Hlim Hv Hfresh.
  assert (He : evict r now = []).
  { unfold evict.
    induction (lsu_timestamps r) as [|t ts IH]; [reflexivity|].
    cbn [filter]. rewrite (Hold t (or_introl eq_refl)).
    apply IH. intros t' Hi. apply Hold. now right. }
  split; [exact He|].
  destruct (process_lsu_fresh_valid PUBLIC_KEYS py_hash py_str r now lsu)
    as (Ha & Hts & _); try assumption.
  - rewrite He. exact Hlim.
  - split; [exact Ha|]. now rewrite Hts, He.
Qed.

End Recovery.

(** ** Concrete runs of Part III *)

(** ** Shortest paths

    The search of [dijkstra_path] followed through the states in which its
    loop tests [while fringe]. *)

Section SearchOutcome.
Context {Cost : Type} `{PyNum Cost}.
Implicit Types (G : Graph Cost) (st : dstate (Cost := Cost)).

(** With enough fuel the loop is left with an empty fringe or by
    [break]. *)
Lemma dijkstra_loop_outcome fuel (G_succ : dict (dict Cost)) source target
  st st' :
  loop_head G_succ source target st ->
  List.length (fringe st) + pending G_succ (dist st) <= fuel ->
  dijkstra_loop fuel G_succ target st = Ok st' ->
  (loop_head G_succ source target st' /\ fringe st' = []) \/
  at_break G_succ source target st'.
Proof.
  revert st. induction fuel as [|fuel IH]; intros st Hh Hm.
  - simpl. intros [= <-]. left. split; [exact Hh|].
    destruct (fringe st); [reflexivity | simpl in Hm; lia].
  - rewrite dijkstra_loop_unfold.
    destruct (heappop (fringe st)) as [[[[d c] v] rest]|] eqn:Ep.
    + pose proof (heappop_length _ _ _ Ep) as Hl. cbv zeta.
      cbn [dist fringe].
      destruct (dict_mem v (dist st)) eqn:Em.
      * apply (IH (popped st rest)); [eapply head_stale; eassumption|].
        cbn [popped dist fringe]. lia.
      * destruct (String.eqb_spec v target); subst.
        -- intros [= <-]. right. exists st, d, c, rest.
           split; [exact Hh|]. split; [exact Ep|]. split; [exact Em|].
           reflexivity.
        -- destruct (dict_get v G_succ) as [nbrs|] eqn:Eg; [|discriminate].
           destruct (relax v d nbrs _) as [st3|e] eqn:Er; [|discriminate].
           pose proof (relax_dist_fringe _ _ _ _ _ Er) as [Hd Hf].
           cbn [dist fringe] in Hd, Hf.
           apply IH.
           ++ eapply head_relaxed; try eassumption.
              now apply String.eqb_neq.
           ++ rewrite Hd.
              pose proof (pending_settle_node G_succ (dist st) v d nbrs Eg Em).
              lia.
    + intros [= <-]. left. split; [exact Hh | now apply heappop_None].
Qed.

Lemma head_paths_ok G source target st :
  loop_head (g_adj G) source target st -> paths_ok G source st.
Proof.
  induction 1 as [|st d c v rest Hh IH Ep Em
                  |st d c v rest nbrs st' Hh IH Ep Em Hne Eg Er].
  - apply paths_ok_init.
  - exact IH.
  - eapply relax_paths_ok; [| |exact Er]; [|exact IH].
    intros u cu Hi. unfold has_edge, neighbors, adj_nbrs. rewrite Eg.
    eapply In_dict_mem; eassumption.
Qed.

Lemma dict_mem_false_get {V} k (d : dict V) :
  dict_mem k d = false -> dict_get k d = None.
Proof. unfold dict_mem. now destruct (dict_get k d). Qed.

Lemma dict_mem_true_get {V} k (d : dict V) :
  dict_mem k d = true -> dict_get k d <> None.
Proof. unfold dict_mem. now destruct (dict_get k d). Qed.

End SearchOutcome.

Section ShortestWalks.
Implicit Types (G : Graph Z) (st : dstate (Cost := Z)).
Local Open Scope Z_scope.

(** The entry that [heappop] returns for a node without final distance
    carries the least distance seen among such nodes. *)
Lemma pop_least G st d c v rest :
  cost_inv G st ->
  heappop (fringe st) = Some ((d, c, v), rest) ->
  dict_get v (dist st) = None ->
  dict_get v (seen st) = Some d /\
  forall u su, dict_get u (seen st) = Some su ->
               dict_get u (dist st) = None -> d <= su.
Proof.
  intros (I1 & I3 & I4 & I5) Ep Hdv.
  destruct (heappop_spec _ _ _ Ep) as [Hin Hmin].
  assert (Hleast : forall s c' u, In (s, c', u) (fringe st) -> d <= s).
  { intros s c' u Hi. apply Hin in Hi.
    destruct Hi as [[= -> -> ->]|Hi]; [lia|].
    apply Hmin in Hi. apply entry_ltb_false in Hi. lia. }
  split.
  - destruct (I4 d c v) as (s & Hs & Hle); [apply Hin; now left|].
    destruct (I3 v s Hs Hdv) as [c' Hc']. apply Hleast in Hc'.
    replace d with s by lia. exact Hs.
  - intros u su Hs Hd. destruct (I3 u su Hs Hd) as [c' Hc'].
    eapply Hleast; eassumption.
Qed.

Lemma cost_inv_popped G st d c v rest :
  cost_inv G st ->
  heappop (fringe st) = Some ((d, c, v), rest) ->
  dict_mem v (dist st) = true ->
  cost_inv G (popped st rest).
Proof.
  intros (I1 & I3 & I4 & I5) Ep Em.
  destruct (heappop_spec _ _ _ Ep) as [Hin Hmin].
  unfold cost_inv, popped. cbn [seen paths fringe dist].
  split; [exact I1|split; [|split; [|exact I5]]].
  - intros u s Hs Hd. destruct (I3 u s Hs Hd) as [c' Hc'].
    exists c'. apply Hin in Hc'.
    destruct Hc' as [[= -> -> ->]|Hc']; [|exact Hc'].
    apply dict_mem_true_get in Em. congruence.
  - intros d' c' u Hi. apply (I4 d' c' u). apply Hin. now right.
Qed.

Lemma cost_inv_settled G st d c v rest :
  cost_inv G st ->
  heappop (fringe st) = Some ((d, c, v), rest) ->
  dict_mem v (dist st) = false ->
  cost_inv G (settled st v d rest).
Proof.
  intros Hinv Ep Em. apply dict_mem_false_get in Em.
  destruct (pop_least G st d c v rest Hinv Ep Em) as [Hseen _].
  destruct Hinv as (I1 & I3 & I4 & I5).
  destruct (heappop_spec _ _ _ Ep) as [Hin Hmin].
  unfold cost_inv, settled, popped. cbn [seen paths fringe dist].
  split; [exact I1|split; [|split]].
  - intros u s Hs Hd. rewrite dict_get_set in Hd.
    destruct (String.eqb_spec u v); [discriminate|].
    destruct (I3 u s Hs Hd) as [c' Hc']. exists c'. apply Hin in Hc'.
    destruct Hc' as [[= -> -> ->]|Hc']; [congruence | exact Hc'].
  - intros d' c' u Hi. apply (I4 d' c' u). apply Hin. now right.
  - intros u d'. rewrite dict_get_set.
    destruct (String.eqb_spec u v); subst; [|apply I5].
    now intros [= <-].
Qed.

Lemma head_cost_inv G source target st :
  graph_nodup G ->
  loop_head (g_adj G) source target st -> cost_inv G st.
Proof.
  intros Hnd.
  induction 1 as [|st d c v rest Hh IH Ep Em
                  |st d c v rest nbrs st' Hh IH Ep Em Hne Eg Er].
  - apply cost_inv_init.
  - eapply cost_inv_popped; eassumption.
  - eapply relax_cost_inv; [| |eapply cost_inv_settled; eassumption|exact Er].
    + intros u cu Hi.
      apply (wf_entry_edge_cost G v nbrs u cu Hnd); [|exact Hi].
      now apply dict_get_In.
    + cbn [settled dist]. apply dict_get_set_eq.
Qed.

Lemma walk_cost_nonneg G p w :
  nonneg_costs G -> walk_cost G p = Some w -> 0 <= w.
Proof.
  intros Hnn. revert w. induction p as [|a [|b l] IH]; intros w.
  - intros [= <-]. lia.
  - intros [= <-]. lia.
  - rewrite walk_cost_cons.
    destruct (edge_cost G a b) as [c|] eqn:Ec; [|discriminate].
    destruct (walk_cost G (b :: l)) as [s|]; [|discriminate].
    intros [= <-]. specialize (Hnn a b c Ec). specialize (IH s eq_refl). lia.
Qed.

(** A walk of several nodes is a walk to its last node but one, and the
    last edge. *)
Lemma walk_from_to_last G source u q w :
  q <> [] ->
  walk_from_to G source u (q ++ [u]) w ->
  exists w' c, walk_from_to G source (last q "") q w' /\
               edge_cost G (last q "") u = Some c /\ w = w' + c.
Proof.
  intros Hne ([q1 H1] & _ & Hw).
  rewrite walk_cost_app_last in Hw by exact Hne.
  destruct (walk_cost G q) as [w'|] eqn:Ew; [|discriminate].
  destruct (edge_cost G (last q "") u) as [c|] eqn:Ec; [|discriminate].
  injection Hw as <-. exists w', c. split; [|split; [reflexivity..]].
  split; [|split; [|exact Ew]].
  - destruct q as [|a q0]; [congruence|]. injection H1 as -> _.
    now exists q0.
  - exists (removelast q). now apply app_removelast_last.
Qed.

Lemma walk_from_to_snoc G source v pv d u c :
  walk_from_to G source v pv d ->
  edge_cost G v u = Some c ->
  walk_from_to G source u (pv ++ [u]) (d + c).
Proof.
  intros ([q1 ->] & [q2 H2] & Hw) Hc. split; [|split].
  - now exists (q1 ++ [u]).
  - now exists (source :: q1).
  - rewrite H2 in *. now apply walk_cost_snoc.
Qed.

(** Induction along walks from the source. *)
Lemma walk_from_source_ind G source (P : string -> Z -> Prop) :
  P source 0 ->
  (forall x u w c p, walk_from_to G source x p w ->
     P x w -> edge_cost G x u = Some c -> P u (w + c)) ->
  forall u p w, walk_from_to G source u p w -> P u w.
Proof.
  intros Hbase Hstep u p. revert u.
  induction p as [|x q IH] using rev_ind; intros u w Hwalk.
  - destruct Hwalk as ([? ?] & _); discriminate.
  - assert (x = u) as ->.
    { destruct Hwalk as (_ & [q2 H2] & _).
      now apply app_inj_tail in H2 as [_ ->]. }
    destruct q as [|a q0].
    + destruct Hwalk as ([q1 H1] & _ & Hw).
      injection H1 as -> _. injection Hw as <-. exact Hbase.
    + destruct (walk_from_to_last G source u (a :: q0) w) as
        (w' & c & Hq & Hc & ->); [discriminate | exact Hwalk|].
      eapply Hstep; [exact Hq | | exact Hc]. now apply IH.
Qed.

(** No walk from the source to the popped node is cheaper than the
    distance the node is popped with. *)
Lemma pop_lower_bound G source st d c v rest :
  nonneg_costs G ->
  cost_inv G st -> opt_inv G source st ->
  heappop (fringe st) = Some ((d, c, v), rest) ->
  dict_get v (dist st) = None ->
  forall p w, walk_from_to G source v p w -> d <= w.
Proof.
  intros Hnn Hinv (J0 & J1 & J2 & J4 & J3) Ep Hdv.
  destruct (pop_least G st d c v rest Hinv Ep Hdv) as [Hseen Hleast].
  assert (Hb : forall u p w, walk_from_to G source u p w ->
               0 <= w /\ (dict_get u (dist st) = None -> d <= w)).
  { apply (walk_from_source_ind G source
             (fun u w => 0 <= w /\ (dict_get u (dist st) = None -> d <= w))).
    - split; [lia|]. intros Hs.
      destruct (J0 Hs v d Hseen) as [_ ->]. lia.
    - intros x u w c' p Hp [Hw0 IH] Hc. pose proof (Hnn x u c' Hc) as Hc0.
      split; [lia|]. intros Hu.
      destruct (dict_get x (dist st)) as [dx|] eqn:Ex.
      + pose proof (J1 x dx Ex p w Hp) as Hdx.
        destruct (J2 x dx Ex u c' Hc) as [Hy|(sy & Hsy & Hle)];
          [congruence|].
        specialize (Hleast u sy Hsy Hu). lia.
      + specialize (IH eq_refl). lia. }
  intros p w Hp. now apply (Hb v p w Hp).
Qed.

(** What one run of the loop over the neighbours does to [seen]. *)
Lemma relax_seen v d (nbrs : dict Z) st st' :
  relax v d nbrs st = Ok st' ->
  dist st' = dist st /\
  (forall y sy, dict_get y (seen st) = Some sy ->
     exists sy', dict_get y (seen st') = Some sy' /\ sy' <= sy) /\
  (forall u c, In (u, c) nbrs ->
     dict_get u (dist st) <> None \/
     exists su, dict_get u (seen st') = Some su /\ su <= d + c) /\
  (forall y sy', dict_get y (seen st') = Some sy' ->
     dict_get y (seen st) = Some sy' \/ exists c, In (y, c) nbrs).
Proof.
  revert st. induction nbrs as [|[u c] nbrs IH]; intros st; cbn [relax].
  - intros [= <-]. split; [reflexivity|]. split; [eauto with zarith|].
    split; [intros ? ? []|]. now left.
  - destruct (dict_get u (dist st)) as [du|] eqn:Eu.
    + destruct (py_ltb (py_add d c) du); [discriminate|]. intros Hr.
      destruct (IH _ Hr) as (Hd & H2 & H3 & H4).
      split; [exact Hd|]. split; [exact H2|]. split.
      * intros u' c' [[= <- <-]|Hi]; [left; congruence | now apply H3].
      * intros y sy' Hy. destruct (H4 y sy' Hy) as [?|[c' ?]];
          [now left | right; exists c'; now right].
    + cbn [py_add PyNum_Z py_ltb].
      destruct (dict_get u (seen st)) as [s|] eqn:Es.
      * destruct (Z.ltb_spec (d + c) s) as [Hlt|Hge].
        -- destruct (dict_get v (paths st)) as [pv|]; [|discriminate].
           intros Hr. destruct (IH _ Hr) as (Hd & H2 & H3 & H4).
           cbn [dist seen] in Hd, H2, H3, H4.
           split; [exact Hd|]. split; [|split].
           ++ intros y sy Hy.
              destruct (String.eqb_spec y u); subst.
              ** destruct (H2 u (d + c)) as (sy' & Hs' & Hle);
                   [apply dict_get_set_eq|].
                 exists sy'. split; [exact Hs'|]. rewrite Es in Hy.
                 injection Hy as <-. lia.
              ** apply H2. now rewrite dict_get_set_ne.
           ++ intros u' c' [[= <- <-]|Hi]; [|now apply H3].
              right. apply H2. apply dict_get_set_eq.
           ++ intros y sy' Hy. destruct (H4 y sy' Hy) as [Hy'|[c' ?]];
                [|right; exists c'; now right].
              rewrite dict_get_set in Hy'.
              destruct (String.eqb_spec y u); subst;
                [right; exists c; now left | now left].
        -- intros Hr. destruct (IH _ Hr) as (Hd & H2 & H3 & H4).
           split; [exact Hd|]. split; [exact H2|]. split.
           ++ intros u' c' [[= <- <-]|Hi]; [|now apply H3].
              right. destruct (H2 u s Es) as (sy' & Hs' & Hle).
              exists sy'. split; [exact Hs' | lia].
           ++ intros y sy' Hy. destruct (H4 y sy' Hy) as [?|[c' ?]];
                [now left | right; exists c'; now right].
      * destruct (dict_get v (paths st)) as [pv|]; [|discriminate].
        intros Hr. destruct (IH _ Hr) as (Hd & H2 & H3 & H4).
        cbn [dist seen] in Hd, H2, H3, H4.
        split; [exact Hd|]. split; [|split].
        -- intros y sy Hy. apply H2.
           destruct (String.eqb_spec y u); subst; [congruence|].
           now rewrite dict_get_set_ne.
        -- intros u' c' [[= <- <-]|Hi]; [|now apply H3].
           right. apply H2. apply dict_get_set_eq.
        -- intros y sy' Hy. destruct (H4 y sy' Hy) as [Hy'|[c' ?]];
             [|right; exists c'; now right].
           rewrite dict_get_set in Hy'.
           destruct (String.eqb_spec y u); subst;
             [right; exists c; now left | now left].
Qed.

(** The loop over the neighbours of a node with an optimal distance raises
    nothing: no neighbour with a final distance can be reached cheaper
    through the node. *)
Lemma relax_total G source v d pv (nbrs : dict Z) st :
  (forall u c, In (u, c) nbrs -> edge_cost G v u = Some c) ->
  (forall u du, dict_get u (dist st) = Some du ->
   forall p w, walk_from_to G source u p w -> du <= w) ->
  dict_get v (dist st) = Some d ->
  dict_get v (paths st) = Some pv ->
  walk_from_to G source v pv d ->
  exists st', relax v d nbrs st = Ok st'.
Proof.
  intros Hn J1 Hv Hpv Hwalk. revert st J1 Hv Hpv Hn.
  induction nbrs as [|[u c] nbrs IH]; intros st J1 Hv Hpv Hn; cbn [relax].
  - now exists st.
  - assert (Hn' : forall u' c', In (u', c') nbrs -> edge_cost G v u' = Some c')
      by (intros u' c' Hi; apply Hn; now right).
    assert (Huc : edge_cost G v u = Some c) by (apply Hn; now left).
    cbn [py_add PyNum_Z py_ltb].
    destruct (dict_get u (dist st)) as [du|] eqn:Eu.
    + pose proof (J1 u du Eu _ _ (walk_from_to_snoc _ _ _ _ _ _ _ Hwalk Huc))
        as Hle.
      destruct (Z.ltb_spec (d + c) du); [lia|]. now apply IH.
    + destruct (match dict_get u (seen st) with
                | Some s => d + c <? s
                | None => true
                end); [|now apply IH].
      rewrite Hpv. apply IH; cbn [dist paths]; try assumption.
      rewrite dict_get_set_ne; [exact Hpv | congruence].
Qed.

Lemma opt_inv_init G source :
  dict_get source (g_adj G) <> None ->
  opt_inv G source (dijkstra_init source).
Proof.
  intros Hs. unfold opt_inv, dijkstra_init.
  cbn [dist seen dict_get py_zero PyNum_Z].
  split; [|split; [|split; [|split]]].
  - intros _ u x. destruct (String.eqb_spec u source); [|discriminate].
    intros [= <-]. now split.
  - discriminate.
  - discriminate.
  - rewrite String.eqb_refl. discriminate.
  - intros u x. destruct (String.eqb_spec u source); [|discriminate].
    now subst.
Qed.

(** The distance a node is popped with is final and optimal. *)
Lemma settled_optimal G source st d c v rest :
  nonneg_costs G -> cost_inv G st -> opt_inv G source st ->
  heappop (fringe st) = Some ((d, c, v), rest) ->
  dict_mem v (dist st) = false ->
  forall u du, dict_get u (dist (settled st v d rest)) = Some du ->
  forall p w, walk_from_to G source u p w -> du <= w.
Proof.
  intros Hnn Hinv Hopt Ep Em u du. cbn [settled popped dist].
  rewrite dict_get_set. destruct (String.eqb_spec u v); subst.
  - intros [= <-]. eapply pop_lower_bound; eauto using dict_mem_false_get.
  - destruct Hopt as (_ & J1 & _). apply J1.
Qed.

Lemma opt_inv_relaxed G source st d c v rest nbrs st' :
  graph_wf G -> nonneg_costs G -> cost_inv G st -> opt_inv G source st ->
  heappop (fringe st) = Some ((d, c, v), rest) ->
  dict_mem v (dist st) = false ->
  dict_get v (g_adj G) = Some nbrs ->
  relax v d nbrs (settled st v d rest) = Ok st' ->
  opt_inv G source st'.
Proof.
  intros [Hok Hnd] Hnn Hinv Hopt Ep Em Eg Er.
  pose proof (settled_optimal G source st d c v rest Hnn Hinv Hopt Ep Em)
    as J1'.
  destruct (relax_seen _ _ _ _ _ Er) as (Hd & H2 & H3 & H4).
  cbn [settled popped dist seen] in Hd, H2, H3, H4, J1'.
  pose proof (dict_mem_false_get _ _ Em) as Hdv.
  destruct (pop_least G st d c v rest Hinv Ep Hdv) as [Hseen _].
  destruct Hopt as (J0 & J1 & J2 & J4 & J3).
  unfold opt_inv. rewrite Hd.
  split; [|split; [|split; [|split]]].
  - intros Hs. rewrite dict_get_set in Hs.
    destruct (String.eqb_spec source v); [discriminate|].
    destruct (J0 Hs v d Hseen) as [-> _]. congruence.
  - exact J1'.
  - intros x dx Hx y c' Hc. rewrite dict_get_set in Hx.
    destruct (String.eqb_spec x v); subst.
    + injection Hx as <-. apply H3.
      unfold edge_cost, neighbors, adj_nbrs in Hc. rewrite Eg in Hc.
      now apply dict_get_In.
    + destruct (J2 x dx Hx y c' Hc) as [Hy|(sy & Hsy & Hle)].
      * left. rewrite dict_get_set.
        destruct (String.eqb y v); [discriminate | exact Hy].
      * right. destruct (H2 y sy Hsy) as (sy' & Hs' & Hle').
        exists sy'. split; [exact Hs' | lia].
  - destruct (dict_get source (seen st)) as [s|] eqn:Es; [|congruence].
    destruct (H2 source s Es) as (sy' & Hs' & _). congruence.
  - intros u x Hu. destruct (H4 u x Hu) as [Hu'|[c' Hin]];
      [eapply J3; eassumption|].
    pose proof (wf_entry_edge_cost G v nbrs u c' Hnd
                  (dict_get_In _ _ _ Eg) Hin) as Hc.
    destruct Hok as [_ Hsym]. rewrite Hsym in Hc.
    unfold edge_cost, neighbors, adj_nbrs in Hc.
    destruct (dict_get u (g_adj G)); discriminate.
Qed.

Lemma head_opt_inv G source target st :
  graph_wf G -> nonneg_costs G -> dict_get source (g_adj G) <> None ->
  loop_head (g_adj G) source target st -> opt_inv G source st.
Proof.
  intros Hwf Hnn Hs.
  induction 1 as [|st d c v rest Hh IH Ep Em
                  |st d c v rest nbrs st' Hh IH Ep Em Hne Eg Er].
  - now apply opt_inv_init.
  - exact IH.
  - eapply opt_inv_relaxed; try eassumption.
    eapply head_cost_inv; [apply Hwf | exact Hh].
Qed.

Lemma dijkstra_init_fuel (G_succ : dict (dict Z)) source :
  (List.length (fringe (dijkstra_init source))
   + pending G_succ (dist (dijkstra_init source))
   <= dijkstra_fuel G_succ)%nat.
Proof. unfold dijkstra_fuel. simpl. lia. Qed.

(** Every final distance of the search is the cost of a walk from the
    source, and no walk from the source is cheaper. *)
Lemma dijkstra_dist_optimal G source target st u du :
  graph_wf G -> nonneg_costs G -> dict_get source (g_adj G) <> None ->
  _dijkstra_multisource G source target = Ok st ->
  dict_get u (dist st) = Some du ->
  forall p w, walk_from_to G source u p w -> du <= w.
Proof.
  unfold _dijkstra_multisource. intros Hwf Hnn Hs Hrun.
  destruct (dijkstra_loop_outcome _ _ source _ _ _
              (head_init (g_adj G) source target)
              (dijkstra_init_fuel _ _) Hrun)
    as [[Hh _]|(st0 & d & c & rest & Hh & Ep & Em & ->)].
  - destruct (head_opt_inv G source target st Hwf Hnn Hs Hh) as (_ & J1 & _).
    apply J1.
  - eapply settled_optimal; try eassumption.
    + eapply head_cost_inv; [apply Hwf | exact Hh].
    + eapply head_opt_inv; eassumption.
Qed.

(** The search raises nothing. *)
Lemma dijkstra_loop_total fuel G source target st :
  graph_wf G -> nonneg_costs G -> dict_get source (g_adj G) <> None ->
  loop_head (g_adj G) source target st ->
  exists st', dijkstra_loop fuel (g_adj G) target st = Ok st'.
Proof.
  intros Hwf Hnn Hs. revert st. induction fuel as [|fuel IH]; intros st Hh.
  - now exists st.
  - rewrite dijkstra_loop_unfold.
    destruct (heappop (fringe st)) as [[[[d c] v] rest]|] eqn:Ep;
      [|now exists st].
    cbv zeta. cbn [dist fringe seen paths counter].
    destruct (dict_mem v (dist st)) eqn:Em.
    + apply (IH (popped st rest)). eapply head_stale; eassumption.
    + destruct (String.eqb_spec v target); [eauto|].
      pose proof (head_cost_inv G source target st (proj2 Hwf) Hh) as Hinv.
      pose proof (head_opt_inv G source target st Hwf Hnn Hs Hh) as Hopt.
      pose proof (head_paths_ok G source target st Hh) as Hpaths.
      destruct (pop_least G st d c v rest Hinv Ep (dict_mem_false_get _ _ Em))
        as [Hseen _].
      destruct (dict_get v (g_adj G)) as [nbrs|] eqn:Eg.
      2:{ destruct Hopt as (_ & _ & _ & _ & J3).
          now destruct (J3 v d Hseen). }
      destruct Hinv as (I1 & I3 & I4 & I5).
      destruct (I1 v d Hseen) as (pv & Hpv & Hw & Hq).
      destruct (Hpaths v pv Hpv) as (_ & _ & Hq').
      destruct (relax_total G source v d pv nbrs (settled st v d rest))
        as [st3 Er].
      * intros u cu Hi.
        apply (wf_entry_edge_cost G v nbrs u cu (proj2 Hwf)); [|exact Hi].
        now apply dict_get_In.
      * eapply settled_optimal; try eassumption.
        now split; [|split; [|split]].
      * cbn [settled dist]. apply dict_get_set_eq.
      * exact Hpv.
      * now split; [|split].
      * change {| dist := dict_set v d (dist st); seen := seen st;
                  paths := paths st; fringe := rest;
                  counter := counter st |} with (settled st v d rest).
        rewrite Er. apply IH. eapply head_relaxed; try eassumption.
        now apply String.eqb_neq.
Qed.

(** Once the fringe is empty every node that a walk from the source reaches
    has its final distance. *)
Lemma empty_fringe_reached G source target st :
  graph_wf G -> nonneg_costs G -> dict_get source (g_adj G) <> None ->
  loop_head (g_adj G) source target st -> fringe st = [] ->
  forall u p w, walk_from_to G source u p w -> dict_get u (dist st) <> None.
Proof.
  intros Hwf Hnn Hs Hh Hf.
  destruct (head_cost_inv G source target st (proj2 Hwf) Hh)
    as (I1 & I3 & I4 & I5).
  destruct (head_opt_inv G source target st Hwf Hnn Hs Hh)
    as (J0 & J1 & J2 & J4 & J3).
  assert (Hall : forall u s, dict_get u (seen st) = Some s ->
                 dict_get u (dist st) <> None).
  { intros u s Hu Hd. destruct (I3 u s Hu Hd) as [c Hc].
    rewrite Hf in Hc. destruct Hc. }
  apply (walk_from_source_ind G source
           (fun u _ => dict_get u (dist st) <> None)).
  - destruct (dict_get source (seen st)) as [s|] eqn:Es; [|congruence].
    now apply (Hall source s).
  - intros x u w c p _ IH Hc.
    destruct (dict_get x (dist st)) as [dx|] eqn:Ex; [|congruence].
    destruct (J2 x dx Ex u c Hc) as [Hy|(sy & Hsy & _)]; [exact Hy|].
    now apply (Hall u sy).
Qed.

(** [dijkstra_path] and [dijkstra_path_length] over non-negative integer
    costs: they return a cheapest walk from the source to the target and its
    cost, or both raise [NetworkXNoPath], which they do exactly when no walk
    leads to the target. *)
Lemma dijkstra_spec G source target :
  graph_wf G -> nonneg_costs G -> nodes_have_adj G ->
  has_node G source = true ->
  (exists p d,
     dijkstra_path G source target = Ok p /\
     dijkstra_path_length G source target = Ok d /\
     walk_from_to G source target p d /\
     forall p' w, walk_from_to G source target p' w -> d <= w) \/
  (dijkstra_path G source target = Raised NetworkXNoPath /\
   dijkstra_path_length G source target = Raised NetworkXNoPath /\
   forall p w, ~ walk_from_to G source target p w).
Proof.
  intros Hwf Hnn Hadj Hn.
  assert (Hs : dict_get source (g_adj G) <> None).
  { apply Hadj. now apply dict_mem_true_get. }
  unfold dijkstra_path, dijkstra_path_length, single_source_dijkstra.
  rewrite Hn. cbn [negb]. rewrite (String.eqb_sym source target).
  destruct (String.eqb_spec target source); subst.
  - left. exists [source], 0. cbn [py_zero PyNum_Z].
    split; [reflexivity|]. split; [reflexivity|]. split.
    + split; [now exists []|]. split; [now exists []|]. reflexivity.
    + intros p' w (_ & _ & Hw). eapply walk_cost_nonneg; eassumption.
  - destruct (dijkstra_loop_total (dijkstra_fuel (g_adj G)) G source target
                (dijkstra_init source) Hwf Hnn Hs
                (head_init (g_adj G) source target)) as [st Hrun].
    fold (_dijkstra_multisource G source target) in Hrun. rewrite Hrun.
    pose proof Hrun as Hout. unfold _dijkstra_multisource in Hout.
    apply (dijkstra_loop_outcome _ _ source) in Hout;
      [|apply head_init | apply dijkstra_init_fuel].
    assert (Hinv : cost_inv G st /\ paths_ok G source st).
    { split.
      - eapply dijkstra_loop_cost_inv; [apply Hwf | apply cost_inv_init|].
        exact Hrun.
      - eapply dijkstra_loop_paths_ok; [apply paths_ok_init | exact Hrun]. }
    destruct Hinv as [(I1 & I3 & I4 & I5) Hpaths].
    destruct (dict_get target (dist st)) as [d|] eqn:Ed.
    + left. destruct (I1 target d (I5 target d Ed)) as (p & Hp & Hw & Hq).
      rewrite Hp. exists p, d.
      split; [reflexivity|]. split; [reflexivity|]. split.
      * destruct (Hpaths target p Hp) as (_ & _ & Hq'). now split; [|split].
      * eapply dijkstra_dist_optimal; eassumption.
    + right. split; [reflexivity|]. split; [reflexivity|].
      intros p w Hwalk.
      destruct Hout as [[Hh Hf]|(st0 & d & c & rest & _ & _ & _ & ->)].
      * now apply (empty_fringe_reached G source target st Hwf Hnn Hs Hh Hf
                     target p w Hwalk).
      * cbn [settled dist] in Ed. now rewrite dict_get_set_eq in Ed.
Qed.

End ShortestWalks.

(** ** Adjacency dictionaries of the nodes *)

Section AdjacencyFacts.
Context {Cost : Type}.
Implicit Types (G : Graph Cost).

Lemma nodes_have_adj_empty : nodes_have_adj (@empty_graph Cost).
Proof. intros n Hn. now destruct Hn. Qed.

Lemma touch_node_adj G n : nodes_have_adj G -> nodes_have_adj (touch_node G n).
Proof.
  intros Hg. unfold touch_node. destruct (dict_mem n (g_node G)); [exact Hg|].
  intros m. cbn [g_node g_adj]. rewrite !dict_get_set.
  destruct (String.eqb m n); [discriminate | apply Hg].
Qed.

Lemma add_node_adj G n a : nodes_have_adj G -> nodes_have_adj (add_node G n a).
Proof.
  intros Hg m. unfold add_node. cbn [g_node g_adj]. rewrite dict_get_set.
  destruct (String.eqb_spec m n); subst.
  - intros _. apply (touch_node_adj G n Hg). apply dict_mem_true_get.
    fold (has_node (touch_node G n) n).
    now rewrite touch_node_has_node, String.eqb_refl.
  - apply (touch_node_adj G n Hg).
Qed.

Lemma set_adj_keeps (adj : dict (dict Cost)) u v c m :
  dict_get m adj <> None -> dict_get m (set_adj adj u v c) <> None.
Proof.
  unfold set_adj. rewrite dict_get_set.
  destruct (String.eqb m u); [discriminate | auto].
Qed.

Lemma del_adj_keeps (adj : dict (dict Cost)) u v m :
  dict_get m adj <> None -> dict_get m (del_adj adj u v) <> None.
Proof.
  unfold del_adj. destruct (dict_get u adj); [|auto].
  rewrite dict_get_set. destruct (String.eqb m u); [discriminate | auto].
Qed.

Lemma add_edge_adj G x y (c : Cost) :
  nodes_have_adj G -> nodes_have_adj (add_edge G x y c).
Proof.
  intros Hg m Hm. unfold add_edge in *. cbn [g_node g_adj] in *.
  apply set_adj_keeps, set_adj_keeps.
  now apply (touch_node_adj _ y (touch_node_adj G x Hg)).
Qed.

Lemma remove_edge_adj G e :
  nodes_have_adj G -> nodes_have_adj (remove_edge G e).
Proof.
  intros Hg. destruct e as [x y]. unfold remove_edge.
  destruct (dict_get x (g_adj G)); [|exact Hg].
  destruct (dict_mem y d); [|exact Hg].
  intros m Hm. cbn [g_node g_adj] in *.
  destruct (String.eqb x y);
    [apply del_adj_keeps | apply del_adj_keeps, del_adj_keeps];
    now apply Hg.
Qed.

Lemma remove_edges_from_adj G es :
  nodes_have_adj G -> nodes_have_adj (remove_edges_from G es).
Proof.
  revert G. induction es as [|e es IH]; intros G Hg; [exact Hg|].
  rewrite remove_edges_from_cons. apply IH. now apply remove_edge_adj.
Qed.

Lemma add_links_adj G s (lk : dict Cost) :
  nodes_have_adj G -> nodes_have_adj (add_links G s lk).
Proof.
  revert G. induction lk as [|[n c] lk IH]; intros G Hg; [exact Hg|].
  rewrite add_links_cons. apply IH. now apply add_edge_adj.
Qed.

Lemma copy_nodes_adj (nodes : dict (option Z)) G :
  nodes_have_adj G -> nodes_have_adj (copy_nodes nodes G).
Proof.
  revert G. induction nodes as [|[n a] nodes IH]; intros G Hg; [exact Hg|].
  apply IH. now apply add_node_adj.
Qed.

Lemma copy_edges_of_adj u (nbrs : dict Cost) G :
  nodes_have_adj G -> nodes_have_adj (copy_edges_of u nbrs G).
Proof.
  revert G. induction nbrs as [|[n c] nbrs IH]; intros G Hg; [exact Hg|].
  apply IH. now apply add_edge_adj.
Qed.

Lemma copy_edges_adj (adj : dict (dict Cost)) G :
  nodes_have_adj G -> nodes_have_adj (copy_edges adj G).
Proof.
  revert G. induction adj as [|[u nb] adj IH]; intros G Hg; [exact Hg|].
  apply IH. now apply copy_edges_of_adj.
Qed.

(** In a copy every node has its adjacency dictionary. *)
Lemma copy_adj G : nodes_have_adj (copy G).
Proof. apply copy_edges_adj, copy_nodes_adj, nodes_have_adj_empty. Qed.

Lemma copy_nodes_has_node (nodes : dict (option Z)) G m :
  has_node (copy_nodes nodes G) m = dict_mem m nodes || has_node G m.
Proof.
  revert G. induction nodes as [|[n a] nodes IH]; intros G; [reflexivity|].
  change (copy_nodes ((n, a) :: nodes) G)
    with (copy_nodes nodes (add_node G n a)).
  rewrite IH, add_node_has_node. unfold dict_mem. cbn [dict_get].
  destruct (String.eqb m n); [|reflexivity].
  now destruct (dict_get m nodes).
Qed.

Lemma copy_edges_of_has_node u (nbrs : dict Cost) G m :
  has_node G m = true -> has_node (copy_edges_of u nbrs G) m = true.
Proof.
  revert G. induction nbrs as [|[n c] nbrs IH]; intros G Hg; [exact Hg|].
  apply IH. rewrite add_edge_has_node, Hg. apply Bool.orb_true_r.
Qed.

Lemma copy_edges_has_node (adj : dict (dict Cost)) G m :
  has_node G m = true -> has_node (copy_edges adj G) m = true.
Proof.
  revert G. induction adj as [|[u nb] adj IH]; intros G Hg; [exact Hg|].
  apply IH. now apply copy_edges_of_has_node.
Qed.

(** A copy has the nodes of the graph. *)
Lemma copy_has_node G m : has_node G m = true -> has_node (copy G) m = true.
Proof.
  intros Hm. apply copy_edges_has_node. rewrite copy_nodes_has_node.
  unfold has_node in Hm. now rewrite Hm.
Qed.

Lemma nodes_have_adjb_sound G : nodes_have_adjb G = true -> nodes_have_adj G.
Proof.
  unfold nodes_have_adjb. rewrite forallb_forall. intros Hb n Hn.
  destruct (dict_get n (g_node G)) as [a|] eqn:E; [|congruence].
  apply dict_mem_true_get. apply (Hb (n, a)). now apply dict_get_In.
Qed.

End AdjacencyFacts.

(** ** Cheapest routes *)

Section CheapestRoutes.
Context {Time : Type} `{PyClock Time}.
Implicit Types (G T : Graph Z) (r : Router (Cost := Z) (Time := Time)).
Local Open Scope Z_scope.

Lemma nonneg_costsb_sound G : nonneg_costsb G = true -> nonneg_costs G.
Proof.
  unfold nonneg_costsb. rewrite forallb_forall. intros Hb u v c Hc.
  destruct (edge_cost_entry G u v c Hc) as (nbrs & Hu & Hv).
  specialize (Hb (u, nbrs) Hu). cbn [snd] in Hb.
  rewrite forallb_forall in Hb. specialize (Hb (v, c) Hv).
  now apply Z.leb_le in Hb.
Qed.

(** A walk in a graph that lost some edges is a walk of the graph that
    avoids those edges. *)
Lemma walk_cost_filtered G G' (f : string -> string -> bool) p :
  (forall a b, edge_cost G' a b = if f a b then None else edge_cost G a b) ->
  forall w, walk_cost G' p = Some w <->
            walk_cost G p = Some w /\
            forall a b, In (a, b) (path_edges p) -> f a b = false.
Proof.
  intros Hf. induction p as [|a [|b l] IH]; intros w.
  - cbn. split; [intros ->; split; [reflexivity | tauto] | tauto].
  - cbn. split; [intros ->; split; [reflexivity | tauto] | tauto].
  - rewrite !walk_cost_cons, Hf.
    change (path_edges (a :: b :: l)) with ((a, b) :: path_edges (b :: l)).
    destruct (f a b) eqn:Ef.
    + split; [discriminate|]. intros [_ Hav].
      specialize (Hav a b (or_introl eq_refl)). congruence.
    + destruct (edge_cost G a b) as [c|];
        [|split; [discriminate | intros [? _]; discriminate]].
      split.
      * intros Hw.
        destruct (walk_cost G' (b :: l)) as [s'|] eqn:E'; [|discriminate].
        injection Hw as <-. destruct (proj1 (IH s') eq_refl) as [Hs Hav].
        rewrite Hs. split; [reflexivity|].
        intros x y [[= <- <-]|Hi]; auto.
      * intros [Hw Hav].
        destruct (walk_cost G (b :: l)) as [s|] eqn:E; [|discriminate].
        rewrite (proj2 (IH s)); [exact Hw|]. split; [reflexivity|].
        intros x y Hi. apply Hav. now right.
Qed.

(** The graph in which the backup path is searched. *)
Lemma detour_graph T s es :
  graph_wf T -> nonneg_costs T -> has_node T s = true ->
  let tc := remove_edges_from (copy T) es in
  graph_wf tc /\ nonneg_costs tc /\ nodes_have_adj tc /\
  has_node tc s = true /\
  forall a b p w,
    walk_from_to tc a b p w <->
    walk_from_to T a b p w /\
    forall x y, In (x, y) (path_edges p) -> existsb (same_edge x y) es = false.
Proof.
  intros Hwf Hnn Hs tc.
  assert (Hc : forall a b, edge_cost tc a b =
               if existsb (same_edge a b) es then None else edge_cost T a b).
  { intros a b. unfold tc.
    rewrite remove_edges_from_edge_cost by apply copy_ok.
    now rewrite copy_edge_cost. }
  split; [|split; [|split; [|split]]].
  - split.
    + apply remove_edges_from_ok, copy_ok.
    + apply remove_edges_from_nodup, copy_wf.
  - intros u v c. rewrite Hc.
    destruct (existsb _ _); [discriminate | apply Hnn].
  - apply remove_edges_from_adj, copy_adj.
  - unfold tc. rewrite remove_edges_from_has_node. now apply copy_has_node.
  - intros a b p w. unfold walk_from_to.
    rewrite (walk_cost_filtered T tc (fun x y => existsb (same_edge x y) es) p
               Hc w).
    tauto.
Qed.

Lemma walk_two_nodes G s target p d :
  walk_from_to G s target p d -> target <> s ->
  exists hop rest, p = s :: hop :: rest.
Proof.
  intros ([q ->] & [q2 H2] & _) Hne. destruct q as [|hop rest]; [|eauto].
  destruct q2 as [|a [|b q2]]; simpl in H2;
    [congruence | discriminate | discriminate].
Qed.

Lemma walk_end_is_node G s target p w :
  graph_ok G -> walk_from_to G s target p w -> target <> s ->
  In target (dict_keys (g_node G)).
Proof.
  intros [Hnode Hsym] Hwalk Hne.
  assert (Hor : target = s \/ In target (dict_keys (g_node G))).
  { revert Hwalk.
    apply (walk_from_source_ind G s
             (fun u _ => u = s \/ In u (dict_keys (g_node G)))); [now left|].
    intros x u w' c p' _ _ Hc. right.
    destruct (dict_get u (g_node G)) as [a|] eqn:E.
    - apply dict_get_In in E. apply (in_map fst) in E. exact E.
    - apply Hnode in E. rewrite Hsym in Hc.
      unfold edge_cost, neighbors, adj_nbrs in Hc. rewrite E in Hc.
      discriminate. }
  destruct Hor; [contradiction | assumption].
Qed.

(** What the body of the loop of [calculate_routes] makes of a
    destination: an entry with a cheapest walk and a cheapest walk among
    those that avoid its links, or [NetworkXNoPath] when no walk leads to the
    destination. *)
Lemma route_entry_spec T s target :
  graph_wf T -> nonneg_costs T -> nodes_have_adj T -> has_node T s = true ->
  target <> s ->
  (exists e, route_entry T s target = Ok e /\
     walk_from_to T s target (path e) (total_cost e) /\
     (forall p w, walk_from_to T s target p w -> total_cost e <= w) /\
     ((exists bp bc, backup_path e = Some bp /\
         backup_cost e = (if py_truthy bc then Some bc else None) /\
         walk_from_to T s target bp bc /\ avoids_links bp (path e) /\
         forall p w, walk_from_to T s target p w ->
                     avoids_links p (path e) -> bc <= w) \/
      (backup_path e = None /\ backup_cost e = None /\
       forall p w, walk_from_to T s target p w ->
                   ~ avoids_links p (path e)))) \/
  (route_entry T s target = Raised NetworkXNoPath /\
   forall p w, ~ walk_from_to T s target p w).
Proof.
  intros Hwf Hnn Hadj Hs Hne. unfold route_entry. cbv zeta.
  destruct (dijkstra_spec T s target Hwf Hnn Hadj Hs)
    as [(p & d & Hp & Hd & Hwalk & Hopt)|(Hp & Hd & Hno)].
  2:{ right. rewrite Hp. split; [reflexivity | exact Hno]. }
  left. rewrite Hp, Hd.
  destruct (walk_two_nodes T s target p d Hwalk Hne) as (hop & rest & ->).
  destruct (detour_graph T s (path_edges (s :: hop :: rest)) Hwf Hnn Hs)
    as (Hwf' & Hnn' & Hadj' & Hs' & Hiff).
  destruct (dijkstra_spec _ s target Hwf' Hnn' Hadj' Hs')
    as [(bp & bc & Hbp & Hbc & Hbw & Hbo)|(Hbp & Hbc & Hbno)].
  - rewrite Hbp, Hbc. eexists. split; [reflexivity|].
    cbn [path total_cost backup_path backup_cost py_round2 PyNum_Z].
    split; [exact Hwalk|]. split; [exact Hopt|]. left. exists bp, bc.
    apply Hiff in Hbw. destruct Hbw as [Hbw Hav].
    split; [reflexivity|]. split; [reflexivity|]. split; [exact Hbw|].
    split; [exact Hav|]. intros p w Hw Ha. apply (Hbo p w).
    apply Hiff. now split.
  - rewrite Hbp. eexists. split; [reflexivity|].
    cbn [path total_cost backup_path backup_cost py_round2 PyNum_Z].
    split; [exact Hwalk|]. split; [exact Hopt|]. right.
    split; [reflexivity|]. split; [reflexivity|].
    intros p w Hw Ha. apply (Hbno p w). apply Hiff. now split.
Qed.

(** When the body raises nothing but [NetworkXNoPath], the loop raises
    nothing and leaves an entry for every destination with one. *)
Lemma routes_loop_complete {Cost} `{PyNum Cost} (topo : Graph Cost) self_id
  targets table table' ex :
  (forall t, In t targets -> t <> self_id ->
     (exists e, route_entry topo self_id t = Ok e) \/
     route_entry topo self_id t = Raised NetworkXNoPath) ->
  routes_loop topo self_id targets table = (table', ex) ->
  ex = None /\
  forall target e, target <> self_id ->
    route_entry topo self_id target = Ok e ->
    dict_get target table = Some e \/ In target targets ->
    dict_get target table' = Some e.
Proof.
  revert table. induction targets as [|t targets IH]; intros table Hall;
    cbn [routes_loop].
  - intros [= <- <-]. split; [reflexivity|].
    intros target e _ _ [Ht|[]]. exact Ht.
  - assert (Hall' : forall t', In t' targets -> t' <> self_id ->
              (exists e, route_entry topo self_id t' = Ok e) \/
              route_entry topo self_id t' = Raised NetworkXNoPath)
      by (intros t' Hi; apply Hall; now right).
    destruct (String.eqb_spec t self_id).
    + intros Hl. destruct (IH table Hall' Hl) as [-> Hk].
      split; [reflexivity|]. intros target e' Hne He [Ht|[->|Hin]];
        [apply Hk; auto | contradiction | apply Hk; auto].
    + destruct (Hall t (or_introl eq_refl) n) as [[e0 He0]|He0];
        rewrite He0; intros Hl.
      * destruct (IH _ Hall' Hl) as [-> Hk]. split; [reflexivity|].
        intros target e' Hne He Hor. apply Hk; auto.
        destruct (String.eqb_spec target t); subst.
        -- left. rewrite dict_get_set_eq. congruence.
        -- destruct Hor as [Ht|[<-|Hin]];
             [left; now rewrite dict_get_set_ne | congruence | now right].
      * destruct (IH _ Hall' Hl) as [-> Hk]. split; [reflexivity|].
        intros target e' Hne He [Ht|[<-|Hin]];
          [apply Hk; auto | congruence | apply Hk; auto].
Qed.

Lemma route_entry_cases T s t :
  graph_wf T -> nonneg_costs T -> nodes_have_adj T -> has_node T s = true ->
  t <> s ->
  (exists e, route_entry T s t = Ok e) \/
  route_entry T s t = Raised NetworkXNoPath.
Proof.
  intros Hwf Hnn Hadj Hs Hne.
  destruct (route_entry_spec T s t Hwf Hnn Hadj Hs Hne)
    as [(e & He & _)|[He _]]; [left; now exists e | now right].
Qed.

Lemma calculate_routes_total r :
  graph_wf (topology r) -> nonneg_costs (topology r) ->
  nodes_have_adj (topology r) ->
  snd (calculate_routes r) = None.
Proof.
  intros Hwf Hnn Hadj. unfold calculate_routes.
  destruct (has_node (topology r) (id r)) eqn:Hs; [|reflexivity].
  cbn [negb]. destruct (routes_loop _ _ _ _) as [table ex] eqn:El.
  cbn [snd].
  refine (proj1 (routes_loop_complete _ _ _ _ _ _ _ El)).
  intros t _ Hne. now apply route_entry_cases.
Qed.

Lemma walk_gets_entry r target p w :
  graph_wf (topology r) -> nonneg_costs (topology r) ->
  nodes_have_adj (topology r) ->
  has_node (topology r) (id r) = true ->
  target <> id r ->
  walk_from_to (topology r) (id r) target p w ->
  dict_get target (routing_table (fst (calculate_routes r))) <> None.
Proof.
  intros Hwf Hnn Hadj Hs Hne Hwalk.
  destruct (route_entry_spec (topology r) (id r) target Hwf Hnn Hadj Hs Hne)
    as [(e & He & _)|[_ Hno]]; [|now destruct (Hno p w)].
  unfold calculate_routes. rewrite Hs. cbn [negb].
  destruct (routes_loop _ _ _ _) as [table ex] eqn:El.
  cbn [fst set_routing_table routing_table].
  assert (Hk := proj2 (routes_loop_complete _ _ _ _ _ _
                  (fun t _ Hne' => route_entry_cases _ _ t Hwf Hnn Hadj Hs
                                     Hne') El)).
  rewrite (Hk target e Hne He); [discriminate|]. right.
  eapply walk_end_is_node; [apply Hwf | exact Hwalk | exact Hne].
Qed.

Lemma entry_is_cheapest r target e :
  graph_wf (topology r) -> nonneg_costs (topology r) ->
  nodes_have_adj (topology r) ->
  has_node (topology r) (id r) = true ->
  dict_get target (routing_table (fst (calculate_routes r))) = Some e ->
  target <> id r /\
  walk_from_to (topology r) (id r) target (path e) (total_cost e) /\
  forall p w, walk_from_to (topology r) (id r) target p w ->
              (total_cost e <= w)%Z.
Proof.
  intros Hwf Hnn Hadj Hs Hg.
  destruct (calculate_routes_new_entries r target e Hs Hg) as (_ & Hne & He).
  destruct (route_entry_spec (topology r) (id r) target Hwf Hnn Hadj Hs Hne)
    as [(e' & He' & Hw & Hopt & _)|[He' _]]; [|congruence].
  rewrite He in He'. injection He' as <-. now split; [|split].
Qed.

(** On a well-formed database of integer costs, none of them negative,
    [calculate_routes] raises nothing, and its table has an entry for a
    destination exactly when some walk leads from the router to it. *)
Theorem routes_reach_connected_nodes r :
  graph_wf (topology r) -> nonneg_costs (topology r) ->
  nodes_have_adj (topology r) ->
  has_node (topology r) (id r) = true ->
  snd (calculate_routes r) = None /\
  forall target,
    dict_get target (routing_table (fst (calculate_routes r))) <> None <->
    target <> id r /\
    exists p w, walk_from_to (topology r) (id r) target p w.
Proof.
  intros Hwf Hnn Hadj Hs.
  split; [now apply calculate_routes_total|].
  intros target. split.
  - intros Hg.
    destruct (dict_get target _) as [e|] eqn:Eg; [|congruence].
    destruct (entry_is_cheapest r target e Hwf Hnn Hadj Hs Eg)
      as (Hne & Hw & _).
    split; [exact Hne | eauto].
  - intros (Hne & p & w & Hwalk).
    now apply (walk_gets_entry r target p w).
Qed.

(** The path of a routing table entry is a cheapest walk from the router to
    the destination in the database: the total cost of the entry is the cost
    of that path, and no walk of the database to the destination costs
    less. *)
Theorem primary_path_is_cheapest r target e :
  graph_wf (topology r) -> nonneg_costs (topology r) ->
  nodes_have_adj (topology r) ->
  has_node (topology r) (id r) = true ->
  dict_get target (routing_table (fst (calculate_routes r))) = Some e ->
  walk_from_to (topology r) (id r) target (path e) (total_cost e) /\
  forall p w, walk_from_to (topology r) (id r) target p w ->
              total_cost e <= w.
Proof.
  intros Hwf Hnn Hadj Hs Hg.
  destruct (entry_is_cheapest r target e Hwf Hnn Hadj Hs Hg)
    as (_ & Hw & Hopt).
  split; [exact Hw | exact Hopt].
Qed.

(** The backup path of an entry is a cheapest walk among the walks from the
    router to the destination that use no link of the primary path; its cost
    is the backup cost, unless that cost is 0, which the entry does not
    record.  An entry has no backup path exactly when every walk to the
    destination uses a link of the primary path. *)
Theorem backup_path_is_cheapest_detour r target e :
  graph_wf (topology r) -> nonneg_costs (topology r) ->
  nodes_have_adj (topology r) ->
  has_node (topology r) (id r) = true ->
  dict_get target (routing_table (fst (calculate_routes r))) = Some e ->
  (forall bp, backup_path e = Some bp ->
     exists c,
       walk_from_to (topology r) (id r) target bp c /\
       avoids_links bp (path e) /\
       (backup_cost e = Some c \/ (c = 0 /\ backup_cost e = None)) /\
       forall p w, walk_from_to (topology r) (id r) target p w ->
                   avoids_links p (path e) -> c <= w) /\
  (backup_path e = None ->
   forall p w, walk_from_to (topology r) (id r) target p w ->
               ~ avoids_links p (path e)).
Proof.
  intros Hwf Hnn Hadj Hs Hg.
  destruct (calculate_routes_new_entries r target e Hs Hg) as (_ & Hne & He).
  destruct (route_entry_spec (topology r) (id r) target Hwf Hnn Hadj Hs Hne)
    as [(e' & He' & _ & _ & Hb)|[He' _]]; [|congruence].
  rewrite He in He'. injection He' as <-.
  destruct Hb as [(bp & bc & Hbp & Hbc & Hbw & Hav & Hbo)|(Hbp & _ & Hno)].
  - split; [|congruence]. intros bp' Hbp'. rewrite Hbp in Hbp'.
    injection Hbp' as <-. exists bc. split; [exact Hbw|].
    split; [exact Hav|]. split; [|exact Hbo].
    rewrite Hbc. unfold py_truthy. cbn [py_eqb py_zero PyNum_Z].
    destruct (Z.eqb_spec bc 0); [right; now split | now left].
  - split; [congruence|]. intros _. exact Hno.
Qed.

End CheapestRoutes.

(** ** The database along a run *)

Section RoutableRuns.
Context {Time : Type} `{PyClock Time}.
Variable PUBLIC_KEYS : dict string.
Variable py_hash : string -> Z.
Variable py_str : LsuData (Cost := Z) -> string.
Implicit Types (G : Graph Z) (r : Router (Cost := Z) (Time := Time)).
Local Open Scope Z_scope.

Lemma add_node_nonneg G n a :
  graph_ok G -> nonneg_costs G -> nonneg_costs (add_node G n a).
Proof.
  intros HG Hnn u v c. rewrite add_node_edge_cost by assumption. apply Hnn.
Qed.

Lemma add_edge_nonneg G x y c :
  graph_ok G -> nonneg_costs G -> 0 <= c -> nonneg_costs (add_edge G x y c).
Proof.
  intros HG Hnn Hc u v c'. rewrite add_edge_edge_cost by assumption.
  destruct (_ || _); [now intros [= <-] | apply Hnn].
Qed.

Lemma add_links_nonneg G s (lk : dict Z) :
  graph_ok G -> nonneg_costs G ->
  (forall n c, In (n, c) lk -> 0 <= c) ->
  nonneg_costs (add_links G s lk).
Proof.
  revert G. induction lk as [|[n c] lk IH]; intros G HG Hnn Hlk; [exact Hnn|].
  rewrite add_links_cons. apply IH.
  - now apply add_edge_ok.
  - apply add_edge_nonneg; try assumption. apply (Hlk n c). now left.
  - intros n' c' Hi. apply (Hlk n' c'). now right.
Qed.

Lemma remove_edges_from_nonneg G es :
  graph_ok G -> nonneg_costs G -> nonneg_costs (remove_edges_from G es).
Proof.
  intros HG Hnn u v c. rewrite remove_edges_from_edge_cost by assumption.
  destruct (existsb _ _); [discriminate | apply Hnn].
Qed.

Lemma call_routable r c :
  graph_ok (topology r) ->
  nonneg_costs (topology r) /\ nodes_have_adj (topology r) ->
  (forall t lsu n x, c = CallProcessLsu t lsu ->
     In (n, x) (links (data lsu)) -> 0 <= x) ->
  nonneg_costs (topology (call PUBLIC_KEYS py_hash py_str r c)) /\
  nodes_have_adj (topology (call PUBLIC_KEYS py_hash py_str r c)).
Proof.
  intros HG [Hnn Hadj] Hc. destruct c as [now lsu| |lk]; cbn [call].
  - destruct (outcome_accepted_dec
                (snd (process_lsu PUBLIC_KEYS py_hash py_str r now lsu)))
      as [Ha|Hn].
    + assert (E : process_lsu PUBLIC_KEYS py_hash py_str r now lsu
                  = (fst (process_lsu PUBLIC_KEYS py_hash py_str r now lsu),
                     Ok Accepted)).
      { rewrite <- Ha.
        now destruct (process_lsu PUBLIC_KEYS py_hash py_str r now lsu). }
      destruct (process_lsu_accepted _ _ _ r now lsu _ E) as (Ht & _).
      cbv zeta in Ht. rewrite Ht. split.
      * apply add_links_nonneg.
        -- apply remove_edges_from_ok, add_node_ok, HG.
        -- apply remove_edges_from_nonneg; [now apply add_node_ok|].
           now apply add_node_nonneg.
        -- intros n x. now apply (Hc now lsu).
      * apply add_links_adj, remove_edges_from_adj, add_node_adj, Hadj.
    + rewrite process_lsu_not_accepted by assumption. now split.
  - destruct (calculate_routes_frame r) as (_ & _ & -> & _). now split.
  - destruct (create_lsu_sequence PUBLIC_KEYS py_hash py_str r lk)
      as (_ & _ & -> & _). now split.
Qed.

Lemma run_routable r calls :
  graph_ok (topology r) ->
  nonneg_costs (topology r) /\ nodes_have_adj (topology r) ->
  calls_nonneg calls ->
  nonneg_costs (topology (run PUBLIC_KEYS py_hash py_str r calls)) /\
  nodes_have_adj (topology (run PUBLIC_KEYS py_hash py_str r calls)).
Proof.
  revert r. induction calls as [|c calls IH]; intros r HG Hr Hc; [exact Hr|].
  change (run PUBLIC_KEYS py_hash py_str r (c :: calls))
    with (run PUBLIC_KEYS py_hash py_str
            (call PUBLIC_KEYS py_hash py_str r c) calls).
  apply IH.
  - now apply call_graph_ok.
  - apply call_routable; try assumption.
    intros t lsu n x -> Hi. apply (Hc t lsu n x); [now left | exact Hi].
  - intros t lsu n x Hi. apply (Hc t lsu n x). now right.
Qed.

(** A router that starts with an empty database and is fed advertisements
    of integer costs, none of them negative, keeps a well-formed database
    without negative cost in which every node has its adjacency dictionary,
    whatever the calls and their order; on such a database
    [calculate_routes] raises nothing. *)
Theorem fed_router_stays_routable router_id calls :
  calls_nonneg calls ->
  let r := run PUBLIC_KEYS py_hash py_str
             (new_router (Time := Time) router_id) calls in
  graph_wf (topology r) /\ nonneg_costs (topology r) /\
  nodes_have_adj (topology r) /\
  snd (calculate_routes r) = None.
Proof.
  intros Hc r.
  assert (Hwf : graph_wf (topology r)).
  { apply run_graph_wf. apply graph_wf_empty. }
  destruct (run_routable (new_router router_id) calls) as [Hnn Hadj].
  - apply graph_ok_empty.
  - split; [intros u v c; discriminate | apply nodes_have_adj_empty].
  - exact Hc.
  - split; [exact Hwf|]. split; [exact Hnn|]. split; [exact Hadj|].
    now apply calculate_routes_total.
Qed.

End RoutableRuns.

(** ** The convergence phase of the simulation *)

Section NodeSeqFacts.
Context {Cost : Type}.
Implicit Types (G : Graph Cost).

Lemma touch_node_node_seq G n m : node_seq (touch_node G n) m = node_seq G m.
Proof.
  unfold touch_node. destruct (dict_mem n (g_node G)) eqn:E; [reflexivity|].
  unfold node_seq. cbn [g_node]. rewrite dict_get_set.
  destruct (String.eqb_spec m n); subst; [|reflexivity].
  now rewrite (dict_mem_false_get _ _ E).
Qed.

Lemma add_edge_node_seq G x y (c : Cost) m :
  node_seq (add_edge G x y c) m = node_seq G m.
Proof.
  unfold add_edge, node_seq. cbn [g_node].
  fold (node_seq (touch_node (touch_node G x) y) m).
  now rewrite !touch_node_node_seq.
Qed.

Lemma add_links_node_seq_any G s (lk : dict Cost) m :
  node_seq (add_links G s lk) m = node_seq G m.
Proof.
  revert G. induction lk as [|[n c] lk IH]; intros G; [reflexivity|].
  now rewrite add_links_cons, IH, add_edge_node_seq.
Qed.

Lemma add_node_node_seq_ne G n a m :
  m <> n -> node_seq (add_node G n a) m = node_seq G m.
Proof.
  intros Hne. unfold node_seq. now rewrite add_node_g_node_get_ne.
Qed.

Lemma remove_edges_from_node_seq G es m :
  node_seq (remove_edges_from G es) m = node_seq G m.
Proof. unfold node_seq. now rewrite remove_edges_from_g_node. Qed.

End NodeSeqFacts.

Section SimulationFacts.
Context {Data : Type} {Time : Type} `{PyClock Time}.
Variable PUBLIC_KEYS : dict string.
Variable py_hash : string -> Z.
Variable py_str : LsuData (Cost := Z) -> string.
Variable cost_of : string -> Data -> result Z.
Variable clock : nat -> Time.

(** The graph of the simulation: well formed, each node with its adjacency
    dictionary and its key, and each link with a cost that is the same from
    both ends and not negative. *)
Variable sim_graph : Graph Data.
Hypothesis sim_wf : graph_wf sim_graph.
Hypothesis sim_adj : nodes_have_adj sim_graph.
Hypothesis sim_cost : forall u v d, edge_cost sim_graph u v = Some d ->
  exists c, cost_of v d = Ok c /\ cost_of u d = Ok c /\ (0 <= c)%Z.
Hypothesis sim_keys : forall n, has_node sim_graph n = true ->
  dict_get n PUBLIC_KEYS <> None.

Implicit Types (r : Router (Cost := Z) (Time := Time))
  (lsu : Lsu (Cost := Z)).
Local Abbreviation cost := (link_cost_in cost_of sim_graph).
Local Abbreviation knows := (learned cost_of sim_graph).
Local Abbreviation process := (process_lsu PUBLIC_KEYS py_hash py_str).
Local Abbreviation inb x l := (existsb (String.eqb x) l).

Lemma link_cost_sym u v : cost u v = cost v u.
Proof.
  unfold link_cost_in. destruct sim_wf as [[_ Hsym] _]. rewrite (Hsym v u).
  destruct (edge_cost sim_graph u v) as [d|] eqn:E; [|reflexivity].
  now destruct (sim_cost u v d E) as (c & -> & -> & _).
Qed.

Lemma link_cost_nonneg u v c : cost u v = Some c -> (0 <= c)%Z.
Proof.
  unfold link_cost_in.
  destruct (edge_cost sim_graph u v) as [d|] eqn:E; [|discriminate].
  destruct (sim_cost u v d E) as (c' & -> & _ & Hc). now intros [= <-].
Qed.

Lemma link_cost_node u v c : cost u v = Some c -> has_node sim_graph u = true.
Proof.
  unfold link_cost_in.
  destruct (edge_cost sim_graph u v) eqn:E; [|discriminate]. intros _.
  unfold edge_cost, neighbors, adj_nbrs in E.
  destruct (dict_get u (g_adj sim_graph)) eqn:Ea; [|discriminate].
  destruct sim_wf as [[Hnode _] _]. unfold has_node, dict_mem.
  destruct (dict_get u (g_node sim_graph)) eqn:En; [reflexivity|].
  apply Hnode in En. congruence.
Qed.

Lemma table_current_calc r : table_current (fst (calculate_routes r)).
Proof.
  unfold table_current, calculate_routes.
  destruct (has_node (topology r) (id r)) eqn:Hn; cbn [negb].
  - destruct (routes_loop _ _ _ _) as [table ex] eqn:El.
    cbn [fst set_routing_table topology id]. rewrite Hn. cbn [negb].
    rewrite El. reflexivity.
  - cbn [fst]. now rewrite Hn.
Qed.

Lemma table_current_frame r r' :
  topology r' = topology r -> id r' = id r ->
  routing_table r' = routing_table r ->
  table_current r -> table_current r'.
Proof.
  unfold table_current, calculate_routes. intros -> -> Ht.
  destruct (negb _); [cbn [fst]; auto|].
  destruct (routes_loop _ _ _ _) as [table ex].
  cbn [fst set_routing_table routing_table]. intros ->. now symmetry.
Qed.

Lemma learned_frame P r r' :
  topology r' = topology r -> id r' = id r ->
  routing_table r' = routing_table r ->
  lsu_rate_limit r' = lsu_rate_limit r ->
  knows P r -> knows P r'.
Proof.
  intros Ht Hi Hr Hl (H1 & H2 & H3 & H4 & H5 & H6 & H7 & H8).
  unfold learned. rewrite Ht, Hl.
  split; [exact H1|]. split; [exact H2|]. split; [exact H3|].
  split; [exact H4|]. split; [exact H5|]. split; [exact H6|].
  split; [|exact H8]. now apply (table_current_frame r).
Qed.

Lemma learned_ext P P' r :
  (forall x, inb x P = inb x P') -> knows P r -> knows P' r.
Proof.
  intros He (H1 & H2 & H3 & H4 & H5 & H6 & H7 & H8). unfold learned.
  split; [exact H1|]. split; [exact H2|]. split; [exact H3|].
  split; [|split; [|split; [|split; [exact H7 | exact H8]]]].
  - intros u v. rewrite <- !He. apply H4.
  - intros s. rewrite <- He. apply H5.
  - intros s. rewrite <- He. apply H6.
Qed.

Lemma learned_init n : knows [] (new_router n).
Proof.
  unfold learned. cbn [new_router topology lsu_rate_limit existsb].
  split; [apply graph_wf_empty|].
  split; [intros u v c; discriminate|].
  split; [apply nodes_have_adj_empty|].
  split; [reflexivity|]. split; [reflexivity|]. split; [discriminate|].
  split; reflexivity.
Qed.

(** The three ways [process_lsu] takes on a correctly signed
    advertisement. *)
Lemma process_outcomes r t lsu :
  verify_signature PUBLIC_KEYS py_hash py_str (data lsu) (signature lsu)
    (source_id (data lsu)) = Ok true ->
  snd (process r t lsu) = Ok Accepted \/
  (snd (process r t lsu) = Ok RateLimited /\
   lsu_rate_limit r <= List.length (evict r t)) \/
  (snd (process r t lsu) = Ok Stale /\
   has_node (topology r) (source_id (data lsu))
   && (data_sequence_number (data lsu)
       <=? node_seq (topology r) (source_id (data lsu)))%Z = true).
Proof.
  intros Hv. unfold process_lsu.
  cbn [lsu_rate_limit lsu_timestamps set_lsu_timestamps topology].
  destruct (Nat.leb_spec (lsu_rate_limit r) (List.length (evict r t)));
    [right; left; now split|].
  rewrite Hv.
  destruct (has_node (topology r) (source_id (data lsu))
            && (data_sequence_number (data lsu)
                <=? node_seq (topology r) (source_id (data lsu)))%Z) eqn:E.
  - right. right. now split.
  - now left.
Qed.

Lemma calculate_routes_limit r :
  lsu_rate_limit (fst (calculate_routes r)) = lsu_rate_limit r.
Proof.
  unfold calculate_routes. destruct (negb _); [reflexivity|].
  now destruct (routes_loop _ _ _ _).
Qed.

(** One advertisement delivered to a router of the simulation. *)
Lemma deliver_step P r tick lsu rest s :
  knows P r -> lsu_of PUBLIC_KEYS py_hash py_str cost_of sim_graph s lsu ->
  inb s P = true \/ List.length (lsu_timestamps r) < 10 ->
  exists r',
    deliver PUBLIC_KEYS py_hash py_str clock r tick (lsu :: rest)
    = deliver PUBLIC_KEYS py_hash py_str clock r' (S tick) rest /\
    knows (s :: P) r' /\ id r' = id r /\
    sequence_number r' = sequence_number r /\
    List.length (lsu_timestamps r') <= S (List.length (lsu_timestamps r)).
Proof.
  intros Hk (Hsrc & Hver & Hseq & Hnd & Hlinks) Hor.
  assert (Hk' := Hk).
  destruct Hk' as (Hwf & Hnn & Hadj & Hedges & Hfresh & Hnodes & Hcur & Hlim).
  assert (Hext : inb s P = true -> forall x, inb x P = inb x (s :: P)).
  { intros Hs x. cbn [existsb].
    destruct (String.eqb_spec x s) as [->|Hxs];
      [now rewrite Hs | reflexivity]. }
  pose proof (process_lsu_timestamps PUBLIC_KEYS py_hash py_str r
                (clock tick) lsu) as Hts.
  cbv zeta in Hts. destruct Hts as (Hl' & _ & Hts).
  pose proof (evict_length r (clock tick)) as Hev.
  destruct (process_lsu_frame PUBLIC_KEYS py_hash py_str r (clock tick) lsu)
    as (Hid & Hsq & Hrt).
  cbn [deliver].
  destruct (process_outcomes r (clock tick) lsu) as [Ha|[[Hr Hfull]|[Hst Hold]]].
  { now rewrite Hsrc. }
  - (* accepted *)
    destruct (process r (clock tick) lsu) as [r1 o] eqn:Ep.
    cbn [fst snd] in *. subst o. cbn [returned].
    destruct (process_lsu_accepted _ _ _ r (clock tick) lsu r1 Ep)
      as (Ht & _).
    cbv zeta in Ht. rewrite Hsrc in Ht.
    assert (Hwf1 : graph_wf (topology r1)).
    { split.
      - eapply accepted_graph_ok; [apply Hwf | exact Ep].
      - pose proof (process_lsu_graph_nodup PUBLIC_KEYS py_hash py_str r
                      (clock tick) lsu (proj2 Hwf)) as Hn1.
        now rewrite Ep in Hn1. }
    assert (Hr1 : nonneg_costs (topology r1) /\ nodes_have_adj (topology r1)).
    { pose proof (call_routable PUBLIC_KEYS py_hash py_str r
                    (CallProcessLsu (clock tick) lsu) (proj1 Hwf)
                    (conj Hnn Hadj)) as Hc.
      cbn [call] in Hc. rewrite Ep in Hc. apply Hc.
      intros t' lsu' n x [= _ <-] Hi.
      apply (link_cost_nonneg s n). rewrite <- Hlinks.
      now apply nodup_In_dict_get. }
    destruct Hr1 as [Hnn1 Hadj1].
    pose proof (calculate_routes_total r1 Hwf1 Hnn1 Hadj1) as Hnone.
    destruct (calculate_routes_frame r1) as (Hid2 & Hsq2 & Ht2 & Hts2).
    pose proof (calculate_routes_limit r1) as Hl2.
    pose proof (table_current_calc r1) as Hcur2.
    destruct (calculate_routes r1) as [r2 ex]. cbn [fst snd] in *. subst ex.
    exists r2. split; [reflexivity|].
    split; [|split; [congruence|split; [congruence|]]].
    + unfold learned. rewrite Ht2.
      split; [exact Hwf1|]. split; [exact Hnn1|]. split; [exact Hadj1|].
      split; [|split; [|split; [|split; [exact Hcur2 | congruence]]]].
      * intros u v.
        rewrite (accepted_edge_cost PUBLIC_KEYS py_hash py_str r (clock tick)
                   lsu r1 u v (proj1 Hwf) Hnd Ep).
        rewrite Hsrc, !Hlinks. cbn [existsb].
        destruct (String.eqb_spec u s) as [->|Hus]; [reflexivity|].
        destruct (String.eqb_spec v s) as [->|Hvs].
        -- rewrite Bool.orb_true_r. apply link_cost_sym.
        -- cbn [orb]. apply Hedges.
      * intros x. cbn [existsb]. intros Hx.
        apply Bool.orb_false_iff in Hx. destruct Hx as [Hxs HxP].
        apply String.eqb_neq in Hxs. rewrite Ht.
        rewrite add_links_node_seq_any, remove_edges_from_node_seq.
        rewrite add_node_node_seq_ne by assumption. now apply Hfresh.
      * intros x. cbn [existsb]. rewrite Ht. intros Hx. 
        apply add_links_has_node. rewrite remove_edges_from_has_node.
        rewrite add_node_has_node.
        destruct (String.eqb x s); [reflexivity|]. cbn [orb] in *.
        now apply Hnodes.
    + rewrite Hts2. destruct Hts as [(_ & _ & ->)|(Hne & _)];
        [|congruence]. rewrite length_app. cbn [List.length]. lia.
  - (* rate limited *)
    assert (Hs : inb s P = true).
    { destruct Hor as [Hs|Hlt]; [exact Hs|]. rewrite Hlim in Hfull. lia. }
    pose proof (process_lsu_not_accepted PUBLIC_KEYS py_hash py_str r
                  (clock tick) lsu) as Hna.
    destruct (process r (clock tick) lsu) as [r1 o] eqn:Ep.
    cbn [fst snd] in *. subst o. cbn [returned].
    rewrite Hna by discriminate. eexists. split; [reflexivity|].
    split; [|split; [reflexivity|split; [reflexivity|]]].
    + apply (learned_ext P); [now apply Hext|].
      now apply (learned_frame P r).
    + cbn [set_lsu_timestamps lsu_timestamps]. lia.
  - (* stale *)
    assert (Hs : inb s P = true).
    { destruct (existsb (String.eqb s) P) eqn:E; [reflexivity|].
      rewrite Hsrc in Hold. rewrite (Hfresh s E) in Hold.
      apply Bool.andb_true_iff in Hold. destruct Hold as [_ Hle].
      apply Z.leb_le in Hle. lia. }
    pose proof (process_lsu_not_accepted PUBLIC_KEYS py_hash py_str r
                  (clock tick) lsu) as Hna.
    destruct (process r (clock tick) lsu) as [r1 o] eqn:Ep.
    cbn [fst snd] in *. subst o. cbn [returned].
    rewrite Hna by discriminate. eexists. split; [reflexivity|].
    split; [|split; [reflexivity|split; [reflexivity|]]].
    + apply (learned_ext P); [now apply Hext|].
      now apply (learned_frame P r).
    + cbn [set_lsu_timestamps lsu_timestamps]. lia.
Qed.

(** A list of advertisements delivered to a router.  Each is taken in, or
    comes from a source whose links the router has already. *)
Lemma deliver_learns srcs lsus :
  Forall2 (lsu_of PUBLIC_KEYS py_hash py_str cost_of sim_graph) srcs lsus ->
  forall r P tick,
  knows P r ->
  (forall s, In s srcs -> inb s P = true) \/
  List.length (lsu_timestamps r) + List.length srcs <= 10 ->
  exists r',
    deliver PUBLIC_KEYS py_hash py_str clock r tick lsus
    = Done (r', tick + List.length lsus) /\
    knows (rev srcs ++ P) r' /\ id r' = id r /\
    sequence_number r' = sequence_number r.
Proof.
  induction 1 as [|s lsu srcs lsus Hl HF IH]; intros r P tick Hk Hor.
  - exists r. cbn. rewrite Nat.add_0_r. auto.
  - destruct (deliver_step P r tick lsu lsus s Hk Hl)
      as (r1 & Hd & Hk1 & Hi1 & Hs1 & Hlen).
    { destruct Hor as [Hall|Hlen];
        [left; apply Hall; now left | right; cbn in Hlen; lia]. }
    destruct (IH r1 (s :: P) (S tick) Hk1) as (r' & Hd' & Hk' & Hi' & Hs').
    { destruct Hor as [Hall|Hlen']; [left|right].
      - intros x Hx. cbn [existsb]. rewrite (Hall x (or_intror Hx)).
        apply Bool.orb_true_r.
      - cbn [List.length] in Hlen'. lia. }
    exists r'. rewrite Hd, Hd'.
    split; [f_equal; f_equal; cbn [List.length]; lia|].
    split; [|split; congruence]. cbn [rev]. rewrite <- app_assoc. exact Hk'.
Qed.

(** A router of the simulation creates its advertisement. *)
Lemma router_create_lsu_ok r :
  has_node sim_graph (id r) = true -> (0 <= sequence_number r)%Z ->
  exists lsu,
    router_create_lsu PUBLIC_KEYS py_hash py_str cost_of sim_graph r
    = Done (set_sequence_number r (sequence_number r + 1), lsu) /\
    lsu_of PUBLIC_KEYS py_hash py_str cost_of sim_graph (id r) lsu.
Proof.
  intros Hn Hseq. unfold router_create_lsu.
  destruct (dict_get (id r) (g_adj sim_graph)) as [nbrs|] eqn:Ea.
  2:{ exfalso. apply (sim_adj (id r)); [now apply dict_mem_true_get|].
      exact Ea. }
  assert (Hedge : forall v, edge_cost sim_graph (id r) v = dict_get v nbrs).
  { intros v. unfold edge_cost, neighbors, adj_nbrs. now rewrite Ea. }
  assert (Hndn : NoDup (dict_keys nbrs)).
  { destruct sim_wf as [_ [_ H2]]. apply (H2 (id r)). now apply dict_get_In. }
  destruct (collect_links_total cost_of nbrs []) as [lk Hlk].
  { intros n d Hi.
    assert (He : edge_cost sim_graph (id r) n = Some d).
    { rewrite Hedge. now apply nodup_In_dict_get. }
    destruct (sim_cost _ _ _ He) as (c & Hc & _). now exists c. }
  rewrite Hlk.
  destruct (collect_links_spec cost_of nbrs [] lk) as [Hkeys Hget];
    [exact Hndn | exact Hlk|].
  unfold create_lsu, sign_message.
  cbn [id set_sequence_number sequence_number].
  destruct (dict_get (id r) PUBLIC_KEYS) as [key|] eqn:Ek;
    [|now destruct (sim_keys (id r) Hn)].
  eexists. split; [reflexivity|]. unfold lsu_of.
  cbn [data signature source_id data_sequence_number links].
  split; [reflexivity|]. split.
  - unfold verify_signature, sign_message. cbn [source_id]. rewrite Ek.
    now rewrite Z.eqb_refl.
  - split; [lia|]. split; [rewrite Hkeys; exact Hndn|].
    intros v. rewrite Hget. unfold link_cost_in. rewrite Hedge.
    now destruct (dict_get v nbrs).
Qed.

Lemma create_all_ok routers :
  Forall (fun i => has_node sim_graph i = true) (map id routers) ->
  Forall (fun n => (0 <= n)%Z) (map sequence_number routers) ->
  exists lsus,
    create_all PUBLIC_KEYS py_hash py_str cost_of sim_graph routers
    = Done (map (fun r => set_sequence_number r (sequence_number r + 1))
              routers, lsus) /\
    Forall2 (lsu_of PUBLIC_KEYS py_hash py_str cost_of sim_graph)
      (map id routers) lsus.
Proof.
  induction routers as [|r routers IH]; cbn [create_all map];
    intros Hn Hs.
  - exists []. split; [reflexivity | constructor].
  - inversion Hn as [|? ? Hn1 Hn2]; subst.
    inversion Hs as [|? ? Hs1 Hs2]; subst.
    destruct (router_create_lsu_ok r Hn1 Hs1) as (lsu & -> & Hl).
    destruct (IH Hn2 Hs2) as (lsus & -> & HF2).
    exists (lsu :: lsus). split; [reflexivity | now constructor].
Qed.

Lemma deliver_all_ok srcs lsus P routers tick :
  Forall2 (lsu_of PUBLIC_KEYS py_hash py_str cost_of sim_graph) srcs lsus ->
  Forall (knows P) routers ->
  (forall s, In s srcs -> inb s P = true) \/
  Forall (fun r => List.length (lsu_timestamps r) + List.length srcs <= 10)
    routers ->
  exists routers' tick',
    deliver_all PUBLIC_KEYS py_hash py_str clock routers tick lsus
    = Done (routers', tick') /\
    Forall (knows (rev srcs ++ P)) routers' /\
    map id routers' = map id routers /\
    map sequence_number routers' = map sequence_number routers.
Proof.
  intros HF2 Hk. revert tick.
  induction Hk as [|r routers Hr Hrest IH]; intros tick Hor;
    cbn [deliver_all].
  - exists [], tick. repeat split; constructor.
  - destruct (deliver_learns srcs lsus HF2 r P tick Hr)
      as (r' & -> & Hk' & Hi & Hs).
    { destruct Hor as [?|HF]; [now left | right; now inversion HF]. }
    destruct (IH (tick + List.length lsus)) as (rs & tick' & -> & Hks & His & Hss).
    { destruct Hor as [?|HF]; [now left | right; now inversion HF]. }
    eexists _, _. split; [reflexivity|].
    split; [now constructor|]. cbn [map]. split; congruence.
Qed.

Lemma inb_In x (l : list string) : inb x l = true <-> In x l.
Proof.
  rewrite existsb_exists. split.
  - intros (y & Hy & He). apply String.eqb_eq in He. now subst.
  - intros Hx. exists x. split; [exact Hx | apply String.eqb_refl].
Qed.

Lemma inb_absorb x (N P : list string) :
  (forall s, In s N -> inb s P = true) -> inb x (rev N ++ P) = inb x P.
Proof.
  intros Hall. rewrite existsb_app.
  destruct (existsb (String.eqb x) (rev N)) eqn:E; [|reflexivity].
  apply inb_In in E. apply in_rev in E. cbn [orb]. symmetry. now apply Hall.
Qed.

(** One round: every router creates its advertisement and every router
    takes in, or has already, the links of every router. *)
Lemma convergence_round_ok P routers tick :
  Forall (knows P) routers ->
  Forall (fun i => has_node sim_graph i = true) (map id routers) ->
  Forall (fun n => (0 <= n)%Z) (map sequence_number routers) ->
  (forall s, In s (map id routers) -> inb s P = true) \/
  Forall (fun r => List.length (lsu_timestamps r) + List.length routers <= 10)
    routers ->
  exists routers' tick',
    convergence_round PUBLIC_KEYS py_hash py_str cost_of clock sim_graph
      (routers, tick) = Done (routers', tick') /\
    Forall (knows (rev (map id routers) ++ P)) routers' /\
    map id routers' = map id routers /\
    Forall (fun n => (0 <= n)%Z) (map sequence_number routers').
Proof.
  intros Hk Hn Hs Hor. unfold convergence_round. cbn [fst snd].
  destruct (create_all_ok routers Hn Hs) as (lsus & -> & HF2).
  set (bump := fun r : Router (Cost := Z) (Time := Time) =>
                 set_sequence_number r (sequence_number r + 1)).
  assert (Hid : map id (map bump routers) = map id routers).
  { rewrite map_map. now apply map_ext. }
  destruct (deliver_all_ok (map id routers) lsus P (map bump routers) tick HF2)
    as (routers' & tick' & -> & Hk' & Hi' & Hs').
  - apply (proj2 (Forall_map _ _ _)). eapply Forall_impl; [|exact Hk].
    intros r Hr. now apply (learned_frame P r).
  - destruct Hor as [Hall|HF]; [now left | right].
    apply (proj2 (Forall_map _ _ _)). eapply Forall_impl; [|exact HF].
    intros r Hr. cbn [bump set_sequence_number lsu_timestamps].
    now rewrite length_map.
  - exists routers', tick'. split; [reflexivity|]. split; [exact Hk'|].
    split; [congruence|]. rewrite Hs', map_map.
    apply (proj2 (Forall_map _ _ _)).
    apply (proj1 (Forall_map _ _ _)) in Hs.
    eapply Forall_impl; [|exact Hs].
    intros r Hr. unfold bump. cbv beta in Hr |- *.
    cbn [set_sequence_number sequence_number]. lia.
Qed.

Lemma convergence_rounds_ok k : forall P routers tick,
  Forall (knows P) routers ->
  Forall (fun i => has_node sim_graph i = true) (map id routers) ->
  Forall (fun n => (0 <= n)%Z) (map sequence_number routers) ->
  (forall s, In s (map id routers) -> inb s P = true) ->
  exists routers' tick',
    convergence_rounds PUBLIC_KEYS py_hash py_str cost_of clock k sim_graph
      (routers, tick) = Done (routers', tick') /\
    Forall (knows P) routers' /\ map id routers' = map id routers.
Proof.
  induction k as [|k IH]; intros P routers tick Hk Hn Hs Hall;
    cbn [convergence_rounds].
  - now exists routers, tick.
  - destruct (convergence_round_ok P routers tick Hk Hn Hs (or_introl Hall))
      as (r1 & t1 & -> & Hk1 & Hi1 & Hs1).
    destruct (IH P r1 t1) as (r2 & t2 & -> & Hk2 & Hi2).
    + eapply Forall_impl; [|exact Hk1]. intros r.
      apply learned_ext. intros x. now apply inb_absorb.
    + now rewrite Hi1.
    + exact Hs1.
    + now rewrite Hi1.
    + exists r2, t2. split; [reflexivity|]. split; [exact Hk2 | congruence].
Qed.

(** The rounds of the initial convergence, for at most ten routers: every
    advertisement of the first round is taken in by every router. *)
Lemma initial_rounds_ok nodes :
  (forall n, In n nodes -> has_node sim_graph n = true) ->
  List.length nodes <= 10 ->
  exists routers tick,
    convergence_rounds PUBLIC_KEYS py_hash py_str cost_of clock
      (List.length nodes) sim_graph (map new_router nodes, 0)
    = Done (routers, tick) /\
    map id routers = nodes /\ Forall (knows nodes) routers.
Proof.
  intros Hn Hlen.
  assert (Hid : map id (map (new_router (Cost := Z) (Time := Time)) nodes)
                = nodes).
  { rewrite map_map. cbn [new_router id]. apply map_id. }
  destruct nodes as [|n0 nodes'] eqn:En.
  - exists [], 0. cbn. repeat split; constructor.
  - rewrite <- En in *. clear En n0 nodes'.
    destruct (List.length nodes) as [|k] eqn:Ek.
    { destruct nodes; [|discriminate]. exists [], 0.
      cbn. repeat split; constructor. }
    cbn [convergence_rounds].
    destruct (convergence_round_ok [] (map new_router nodes) 0)
      as (r1 & t1 & -> & Hk1 & Hi1 & Hs1).
    + apply (proj2 (Forall_map _ _ _)). apply Forall_forall. intros n _. apply learned_init.
    + rewrite Hid. now apply Forall_forall.
    + rewrite map_map. cbn [new_router sequence_number].
      apply (proj2 (Forall_map _ _ _)). apply Forall_forall. intros; lia.
    + right. apply (proj2 (Forall_map _ _ _)). apply Forall_forall. intros n _.
      cbn [new_router lsu_timestamps List.length]. rewrite length_map. lia.
    + rewrite Hid in *.
      destruct (convergence_rounds_ok k (rev nodes ++ []) r1 t1)
        as (r2 & t2 & -> & Hk2 & Hi2).
      * exact Hk1.
      * rewrite Hi1. now apply Forall_forall.
      * exact Hs1.
      * rewrite Hi1. intros s Hs. rewrite app_nil_r.
        apply inb_In. now apply in_rev in Hs.
      * exists r2, t2. split; [reflexivity|]. split; [congruence|].
        eapply Forall_impl; [|exact Hk2]. intros r. apply learned_ext.
        intros x. rewrite app_nil_r.
        destruct (existsb (String.eqb x) nodes) eqn:E.
        -- apply inb_In. apply in_rev. rewrite rev_involutive.
           now apply inb_In.
        -- destruct (existsb (String.eqb x) (rev nodes)) eqn:E';
             [|reflexivity].
           apply inb_In in E'. apply in_rev in E'. apply inb_In in E'.
           congruence.
Qed.

(** A router that has the advertisements of all nodes has every link of the
    graph at its cost, and no other. *)
Lemma learned_all_edges r nodes :
  (forall n, has_node sim_graph n = true -> In n nodes) ->
  knows nodes r ->
  forall u v, edge_cost (topology r) u v = cost u v.
Proof.
  intros Hall (_ & _ & _ & H4 & _) u v. rewrite H4.
  destruct (existsb (String.eqb u) nodes) eqn:Eu; [reflexivity|].
  destruct (existsb (String.eqb v) nodes) eqn:Ev; [reflexivity|].
  cbn [orb]. destruct (link_cost_in cost_of sim_graph u v) as [c|] eqn:Ec;
    [|reflexivity].
  apply link_cost_node, Hall, inb_In in Ec. congruence.
Qed.

End SimulationFacts.

(** ** The simulation of the static protocol *)

Section OspfSimulation.
Context {Time : Type} `{PyClock Time}.
Variable PUBLIC_KEYS : dict string.
Variable py_hash : string -> Z.
Variable py_str : LsuData (Cost := Z) -> string.
Variable clock : nat -> Time.
Implicit Types (graph : Graph LinkCost.LinkData)
  (r : Router (Cost := Z) (Time := Time)).

Lemma ospf_sim_cost graph :
  graph_wf graph ->
  (forall u v d, edge_cost graph u v = Some d ->
     LinkCost.static_cost_defined d = true) ->
  forall u v d, edge_cost (copy graph) u v = Some d ->
  exists c, ospf_cost_of v d = Ok c /\ ospf_cost_of u d = Ok c /\ (0 <= c)%Z.
Proof.
  intros Hwf Hb u v d. rewrite copy_edge_cost by assumption. intros He.
  destruct (LinkCostFacts.static_cost_at_least_one d (Hb u v d He))
    as (c & Hc & Hle).
  exists c. unfold ospf_cost_of. split; [exact Hc|]. split; [exact Hc | lia].
Qed.

Lemma ospf_link_cost_copy graph u v :
  graph_wf graph ->
  link_cost_in ospf_cost_of (copy graph) u v
  = link_cost_in ospf_cost_of graph u v.
Proof. intros Hwf. unfold link_cost_in. now rewrite copy_edge_cost. Qed.

(** The initial convergence of [run_protocol_simulation] with the class
    [OSPFRouter], for at most ten routers that all have a key, on a
    well-formed graph each link of which has a static cost (a bandwidth
    other than 0 for which 1000 / bandwidth is finite): no exception is
    raised whatever the clock, there is one router per node, and in the end
    the database of every router holds exactly the links of the physical
    graph, each at its static cost, in a form on which the routes are
    computed without exception; the routing table of every router is the one
    [calculate_routes] computes from that database. *)
Theorem ospf_convergence_learns_topology graph :
  graph_wf graph ->
  (forall n, In n (dict_keys (g_node (copy graph))) ->
     dict_get n PUBLIC_KEYS <> None) ->
  List.length (dict_keys (g_node (copy graph))) <= 10 ->
  (forall u v d, edge_cost graph u v = Some d ->
     LinkCost.static_cost_defined d = true) ->
  exists routers tick,
    initial_convergence PUBLIC_KEYS py_hash py_str ospf_cost_of clock graph
    = Done (routers, tick) /\
    map id routers = dict_keys (g_node (copy graph)) /\
    forall r, In r routers ->
      (forall u v, edge_cost (topology r) u v
                   = link_cost_in ospf_cost_of graph u v) /\
      has_node (topology r) (id r) = true /\
      graph_wf (topology r) /\ nonneg_costs (topology r) /\
      nodes_have_adj (topology r) /\ table_current r.
Proof.
  intros Hwf Hkeys Hlen Hb. unfold initial_convergence. cbv zeta.
  rewrite length_map.
  assert (Hnode : forall n, has_node (copy graph) n = true <->
                            In n (dict_keys (g_node (copy graph)))).
  { intros n. split; [|apply In_keys_dict_mem].
    unfold has_node, dict_mem. intros Hn.
    destruct (dict_get n (g_node (copy graph))) as [a|] eqn:E;
      [|discriminate].
    apply dict_get_In in E. now apply (in_map fst) in E. }
  destruct (initial_rounds_ok PUBLIC_KEYS py_hash py_str ospf_cost_of clock
              (copy graph) (copy_wf graph) (copy_adj graph)
              (ospf_sim_cost graph Hwf Hb)
              (fun n Hn => Hkeys n (proj1 (Hnode n) Hn))
              (dict_keys (g_node (copy graph)))
              (fun n Hn => proj2 (Hnode n) Hn) Hlen)
    as (routers & tick & Hrun & Hid & Hk).
  exists routers, tick. split; [exact Hrun|]. split; [exact Hid|].
  intros r Hr. rewrite Forall_forall in Hk. specialize (Hk r Hr).
  pose proof (learned_all_edges ospf_cost_of (copy graph) (copy_wf graph)
                r _ (fun n Hn => proj1 (Hnode n) Hn) Hk) as Hedges.
  destruct Hk as (H1 & H2 & H3 & _ & _ & H6 & H7 & _).
  split.
  - intros u v. rewrite Hedges. now apply ospf_link_cost_copy.
  - split; [|exact (conj H1 (conj H2 (conj H3 H7)))].
    apply H6. rewrite existsb_exists.
    exists (id r). split; [|apply String.eqb_refl].
    rewrite <- Hid. now apply in_map.
Qed.

Lemma find_router (routers : list (Router (Cost := Z) (Time := Time))) n :
  In n (map id routers) ->
  exists r0, find (fun r => String.eqb (id r) n) routers = Some r0 /\
             In r0 routers /\ id r0 = n.
Proof.
  induction routers as [|r routers IH]; [intros []|]. cbn [map find].
  destruct (String.eqb_spec (id r) n) as [E|E].
  - intros _. exists r. split; [reflexivity|]. split; [now left | exact E].
  - intros [E'|Hin]; [contradiction|].
    destruct (IH Hin) as (r0 & Hf & Hi & Hid).
    exists r0. split; [exact Hf|]. split; [now right | exact Hid].
Qed.

Lemma ospf_rounds graph :
  graph_wf graph ->
  (forall n, In n (dict_keys (g_node (copy graph))) ->
     dict_get n PUBLIC_KEYS <> None) ->
  List.length (dict_keys (g_node (copy graph))) <= 10 ->
  (forall u v d, edge_cost graph u v = Some d ->
     LinkCost.static_cost_defined d = true) ->
  exists routers tick,
    initial_convergence PUBLIC_KEYS py_hash py_str ospf_cost_of clock graph
    = Done (routers, tick) /\
    map id routers = dict_keys (g_node (copy graph)) /\
    forall r, In r routers ->
      (forall u v, edge_cost (topology r) u v
                   = link_cost_in ospf_cost_of graph u v) /\
      learned ospf_cost_of (copy graph) (dict_keys (g_node (copy graph))) r.
Proof.
  intros Hwf Hkeys Hlen Hb. unfold initial_convergence. cbv zeta.
  rewrite length_map.
  assert (Hnode : forall n, has_node (copy graph) n = true <->
                            In n (dict_keys (g_node (copy graph)))).
  { intros n. split; [|apply In_keys_dict_mem].
    unfold has_node, dict_mem. intros Hn.
    destruct (dict_get n (g_node (copy graph))) as [a|] eqn:E;
      [|discriminate].
    apply dict_get_In in E. now apply (in_map fst) in E. }
  destruct (initial_rounds_ok PUBLIC_KEYS py_hash py_str ospf_cost_of clock
              (copy graph) (copy_wf graph) (copy_adj graph)
              (ospf_sim_cost graph Hwf Hb)
              (fun n Hn => Hkeys n (proj1 (Hnode n) Hn))
              (dict_keys (g_node (copy graph)))
              (fun n Hn => proj2 (Hnode n) Hn) Hlen)
    as (routers & tick & Hrun & Hid & Hk).
  exists routers, tick. split; [exact Hrun|]. split; [exact Hid|].
  intros r Hr. rewrite Forall_forall in Hk. specialize (Hk r Hr).
  split; [|exact Hk]. intros u v.
  rewrite (learned_all_edges ospf_cost_of (copy graph) (copy_wf graph)
             r _ (fun n Hn => proj1 (Hnode n) Hn) Hk).
  now apply ospf_link_cost_copy.
Qed.

(** What [run_protocol_simulation(OSPFRouter, graph)] returns as
    ['initial_path_cost'], under the same conditions and with a router
    named R0: the cost of a cheapest walk from R0 to R5 in the database of
    R0, whose links are those of the physical graph at their static cost;
    and [inf] exactly when no walk leads from R0 to R5. *)
Theorem ospf_simulation_returns_cheapest_cost graph :
  graph_wf graph ->
  (forall n, In n (dict_keys (g_node (copy graph))) ->
     dict_get n PUBLIC_KEYS <> None) ->
  List.length (dict_keys (g_node (copy graph))) <= 10 ->
  (forall u v d, edge_cost graph u v = Some d ->
     LinkCost.static_cost_defined d = true) ->
  In "R0" (dict_keys (g_node (copy graph))) ->
  exists routers tick r0 c,
    initial_convergence PUBLIC_KEYS py_hash py_str ospf_cost_of clock graph
    = Done (routers, tick) /\
    In r0 routers /\ id r0 = "R0" /\
    (forall u v, edge_cost (topology r0) u v
                 = link_cost_in ospf_cost_of graph u v) /\
    run_protocol_simulation PUBLIC_KEYS py_hash py_str ospf_cost_of clock
      graph = Done c /\
    match c with
    | Some w =>
        (exists p, walk_from_to (topology r0) "R0" "R5" p w) /\
        forall p w', walk_from_to (topology r0) "R0" "R5" p w' ->
                     (w <= w')%Z
    | None => forall p w, ~ walk_from_to (topology r0) "R0" "R5" p w
    end.
Proof.
  intros Hwf Hkeys Hlen Hb H0.
  destruct (ospf_rounds graph Hwf Hkeys Hlen Hb)
    as (routers & tick & Hrun & Hid & Hall).
  rewrite <- Hid in H0.
  destruct (find_router routers "R0" H0) as (r0 & Hfind & Hin & Hr0).
  destruct (Hall r0 Hin)
    as (Hedges & H1 & H2 & H3 & _ & _ & H6 & Hcur & _).
  assert (Hs : has_node (topology r0) (id r0) = true).
  { apply H6. rewrite existsb_exists. exists (id r0).
    split; [|apply String.eqb_refl]. rewrite <- Hid. now apply in_map. }
  unfold run_protocol_simulation. rewrite Hrun. unfold path_cost_R0_R5.
  rewrite Hfind. unfold table_current in Hcur. rewrite <- Hcur.
  eexists routers, tick, r0, _.
  split; [reflexivity|]. split; [exact Hin|]. split; [exact Hr0|].
  split; [exact Hedges|]. split; [reflexivity|].
  destruct (dict_get "R5" (routing_table (fst (calculate_routes r0))))
    as [e|] eqn:Eg.
  - destruct (entry_is_cheapest r0 "R5" e H1 H2 H3 Hs Eg) as (_ & Hw & Hopt).
    rewrite Hr0 in Hw, Hopt. split; [now exists (path e) | exact Hopt].
  - intros p w Hwalk. rewrite <- Hr0 in Hwalk.
    apply (walk_gets_entry r0 "R5" p w H1 H2 H3 Hs) in Hwalk;
      [congruence|].
    rewrite Hr0. discriminate.
Qed.

End OspfSimulation.

(** ** The rate limiter during the simulation *)

Section NodeKeys.
Context {Cost : Type}.
Implicit Types (G : Graph Cost).

Lemma touch_node_keys_nodup G n :
  NoDup (dict_keys (g_node G)) -> NoDup (dict_keys (g_node (touch_node G n))).
Proof.
  intros Hnd. unfold touch_node. destruct (dict_mem n (g_node G)); [exact Hnd|].
  cbn [g_node]. now apply dict_set_nodup.
Qed.

Lemma add_node_keys_nodup G n a :
  NoDup (dict_keys (g_node G)) -> NoDup (dict_keys (g_node (add_node G n a))).
Proof.
  intros Hnd. unfold add_node. cbn [g_node].
  now apply dict_set_nodup, touch_node_keys_nodup.
Qed.

Lemma add_edge_keys_nodup G x y (c : Cost) :
  NoDup (dict_keys (g_node G)) ->
  NoDup (dict_keys (g_node (add_edge G x y c))).
Proof.
  intros Hnd. unfold add_edge. cbn [g_node].
  now apply touch_node_keys_nodup, touch_node_keys_nodup.
Qed.

Lemma copy_nodes_keys_nodup (nodes : dict (option Z)) G :
  NoDup (dict_keys (g_node G)) ->
  NoDup (dict_keys (g_node (copy_nodes nodes G))).
Proof.
  revert G. induction nodes as [|[n a] nodes IH]; intros G Hnd; [exact Hnd|].
  apply IH. now apply add_node_keys_nodup.
Qed.

Lemma copy_edges_of_keys_nodup u (nbrs : dict Cost) G :
  NoDup (dict_keys (g_node G)) ->
  NoDup (dict_keys (g_node (copy_edges_of u nbrs G))).
Proof.
  revert G. induction nbrs as [|[n c] nbrs IH]; intros G Hnd; [exact Hnd|].
  apply IH. now apply add_edge_keys_nodup.
Qed.

Lemma copy_edges_keys_nodup (adj : dict (dict Cost)) G :
  NoDup (dict_keys (g_node G)) ->
  NoDup (dict_keys (g_node (copy_edges adj G))).
Proof.
  revert G. induction adj as [|[u nb] adj IH]; intros G Hnd; [exact Hnd|].
  apply IH. now apply copy_edges_of_keys_nodup.
Qed.

(** The nodes of a copy differ from each other. *)
Lemma copy_keys_nodup G : NoDup (dict_keys (g_node (copy G))).
Proof.
  apply copy_edges_keys_nodup, copy_nodes_keys_nodup. constructor.
Qed.

End NodeKeys.

Section SaturationFacts.
Context {Data : Type} {Time : Type} `{PyClock Time}.
Variable PUBLIC_KEYS : dict string.
Variable py_hash : string -> Z.
Variable py_str : LsuData (Cost := Z) -> string.
Variable cost_of : string -> Data -> result Z.
Variable clock : nat -> Time.
Hypothesis clock_fast : fast_clock clock.

Implicit Types (r : Router (Cost := Z) (Time := Time))
  (lsu : Lsu (Cost := Z)).
Local Abbreviation process := (process_lsu PUBLIC_KEYS py_hash py_str).
Local Abbreviation verify := (verify_signature PUBLIC_KEYS py_hash py_str).
Local Abbreviation bump :=
  (fun r : Router (Cost := Z) (Time := Time) =>
     set_sequence_number r (sequence_number r + 1)).

Local Abbreviation lsu_seq := (lsu_at PUBLIC_KEYS py_hash py_str).

Lemma router_create_lsu_done (graph : Graph Data) r r1 lsu :
  router_create_lsu PUBLIC_KEYS py_hash py_str cost_of graph r
  = Done (r1, lsu) ->
  r1 = bump r /\ lsu_seq (sequence_number r + 1)%Z (id r) lsu.
Proof.
  unfold router_create_lsu.
  destruct (dict_get (id r) (g_adj graph)) as [nbrs|]; [|discriminate].
  destruct (collect_links cost_of nbrs []) as [lk|]; [|discriminate].
  unfold create_lsu.
  destruct (sign_message _ _ _ _ _) as [s|] eqn:Es; [|discriminate].
  intros [= <- <-]. unfold lsu_at.
  cbn [data signature source_id data_sequence_number].
  split; [reflexivity|]. split; [reflexivity|]. split; [reflexivity|].
  now apply verify_own_signature.
Qed.

Lemma create_all_done (graph : Graph Data) routers rs lsus :
  create_all PUBLIC_KEYS py_hash py_str cost_of graph routers
  = Done (rs, lsus) ->
  rs = map bump routers /\
  Forall2 (fun r lsu => lsu_seq (sequence_number r + 1)%Z (id r) lsu)
    routers lsus.
Proof.
  revert rs lsus. induction routers as [|r routers IH]; intros rs lsus;
    cbn [create_all map].
  - intros [= <- <-]. split; [reflexivity | constructor].
  - destruct (router_create_lsu _ _ _ _ _ r) as [[r1 lsu]| |] eqn:Er;
      try discriminate.
    destruct (create_all _ _ _ _ _ routers) as [[rs' lsus']| |];
      try discriminate.
    intros [= <- <-]. destruct (IH _ _ eq_refl) as [-> HF].
    destruct (router_create_lsu_done _ _ _ _ Er) as [-> Hl].
    split; [reflexivity | now constructor].
Qed.

Lemma filter_all {A} (f : A -> bool) (l : list A) :
  (forall x, In x l -> f x = true) -> filter f l = l.
Proof.
  induction l as [|a l IH]; intros Hall; [reflexivity|]. cbn [filter].
  rewrite (Hall a (or_introl eq_refl)). f_equal. apply IH.
  intros x Hx. apply Hall. now right.
Qed.

Lemma limiter_after_mono tick tick' m r :
  tick <= tick' -> limiter_after clock tick m r ->
  limiter_after clock tick' m r.
Proof.
  intros Hle (H1 & H2 & H3 & H4). split; [exact H1|]. split; [exact H2|].
  split; [|exact H4]. intros t Ht. destruct (H3 t Ht) as (j & Hj & ->).
  exists j. split; [lia | reflexivity].
Qed.

Lemma limiter_evict tick m r :
  limiter_after clock tick m r -> evict r (clock tick) = lsu_timestamps r.
Proof.
  intros (_ & Hw & Hts & _). unfold evict. apply filter_all.
  intros t Ht. destruct (Hts t Ht) as (j & Hj & ->). rewrite Hw.
  apply clock_fast. lia.
Qed.

Lemma accepted_node_seq_other r now lsu r' s :
  process r now lsu = (r', Ok Accepted) ->
  s <> source_id (data lsu) ->
  node_seq (topology r') s = node_seq (topology r) s.
Proof.
  intros Ep Hne.
  destruct (process_lsu_accepted _ _ _ r now lsu r' Ep) as (Ht & _).
  cbv zeta in Ht. rewrite Ht.
  rewrite add_links_node_seq_any, remove_edges_from_node_seq.
  now apply add_node_node_seq_ne.
Qed.

(** One advertisement that is newer than what the router has stored: it is
    taken in unless the limiter is full. *)
Lemma process_saturates r tick m lsu k s :
  limiter_after clock tick m r ->
  lsu_seq k s lsu ->
  (node_seq (topology r) s < k)%Z ->
  exists r1 o,
    process r (clock tick) lsu = (r1, Ok o) /\
    limiter_after clock (S tick) (S m) r1 /\
    id r1 = id r /\ sequence_number r1 = sequence_number r /\
    forall x, (node_seq (topology r1) x
               <= if String.eqb x s then k else node_seq (topology r) x)%Z.
Proof.
  intros Hlim (Hsrc & Hseq & Hver) Hfresh.
  pose proof (limiter_evict tick m r Hlim) as Hev.
  destruct Hlim as (Hl & Hw & Hts & Hlen).
  destruct (process_lsu_frame PUBLIC_KEYS py_hash py_str r (clock tick) lsu)
    as (Hid & Hsq & _).
  pose proof (process_lsu_timestamps PUBLIC_KEYS py_hash py_str r
                (clock tick) lsu) as Hpt.
  cbv zeta in Hpt. destruct Hpt as (Hl' & Hw' & _).
  destruct (Nat.lt_ge_cases (List.length (lsu_timestamps r)) 10) as [Hlt|Hge].
  - (* room in the limiter *)
    destruct (process_lsu_fresh_valid PUBLIC_KEYS py_hash py_str r
                (clock tick) lsu) as (Ha & Hts' & _ & Hns).
    { rewrite Hev, Hl. exact Hlt. }
    { now rewrite Hsrc. }
    { right. rewrite Hsrc, Hseq. exact Hfresh. }
    destruct (process r (clock tick) lsu) as [r1 o] eqn:Ep.
    cbn [fst snd] in *. subst o. exists r1, Accepted.
    split; [reflexivity|]. split; [|split; [exact Hid|split; [exact Hsq|]]].
    + split; [congruence|]. split; [congruence|]. split.
      * intros t. rewrite Hts', Hev, in_app_iff.
        intros [Ht|[<-|[]]].
        -- destruct (Hts t Ht) as (j & Hj & ->). exists j. split; [lia|auto].
        -- exists tick. split; [lia | reflexivity].
      * rewrite Hts', Hev, length_app. cbn [List.length]. lia.
    + intros x. destruct (String.eqb_spec x s) as [->|Hne].
      * rewrite <- Hsrc at 1. rewrite Hns, Hseq. lia.
      * rewrite (accepted_node_seq_other r (clock tick) lsu r1 x Ep);
          [lia | now rewrite Hsrc].
  - (* the limiter is full *)
    pose proof (process_lsu_rate_limited PUBLIC_KEYS py_hash py_str r
                  (clock tick) lsu) as Hrl.
    rewrite Hev, Hl in Hrl. specialize (Hrl Hge).
    exists (set_lsu_timestamps r (lsu_timestamps r)), RateLimited.
    split; [exact Hrl|].
    cbn [set_lsu_timestamps id sequence_number topology].
    split; [|split; [reflexivity|split; [reflexivity|]]].
    + split; [exact Hl|]. split; [exact Hw|].
      cbn [set_lsu_timestamps lsu_timestamps]. split.
      * intros t Ht. destruct (Hts t Ht) as (j & Hj & ->).
        exists j. split; [lia | reflexivity].
      * lia.
    + intros x. destruct (String.eqb_spec x s) as [->|Hne]; lia.
Qed.

Lemma calculate_routes_window r :
  lsu_window (fst (calculate_routes r)) = lsu_window r.
Proof.
  unfold calculate_routes. destruct (negb _); [reflexivity|].
  now destruct (routes_loop _ _ _ _).
Qed.

Lemma limiter_after_frame tick m r r' :
  lsu_rate_limit r' = lsu_rate_limit r -> lsu_window r' = lsu_window r ->
  lsu_timestamps r' = lsu_timestamps r ->
  limiter_after clock tick m r -> limiter_after clock tick m r'.
Proof.
  intros H1 H2 H3 Hlim. unfold limiter_after. now rewrite H1, H2, H3.
Qed.

(** The advertisements of one round delivered to a router. *)
Lemma deliver_saturates k srcs lsus :
  Forall2 (lsu_seq k) srcs lsus -> NoDup srcs ->
  forall r tick m r' tick',
  limiter_after clock tick m r ->
  (forall x, (node_seq (topology r) x <= k)%Z) ->
  (forall s, In s srcs -> (node_seq (topology r) s < k)%Z) ->
  deliver PUBLIC_KEYS py_hash py_str clock r tick lsus = Done (r', tick') ->
  tick' = tick + List.length lsus /\
  limiter_after clock tick' (m + List.length lsus) r' /\
  (forall x, (node_seq (topology r') x <= k)%Z) /\
  id r' = id r /\ sequence_number r' = sequence_number r.
Proof.
  induction 1 as [|s lsu srcs lsus Hl HF IH];
    intros Hnd r tick m r' tick' Hlim Hle Hlt; cbn [deliver].
  - intros [= <- <-]. rewrite !Nat.add_0_r. auto.
  - inversion Hnd as [|? ? Hnin Hnd']; subst.
    destruct (process_saturates r tick m lsu k s Hlim Hl
                (Hlt s (or_introl eq_refl)))
      as (r1 & o & -> & Hlim1 & Hid1 & Hsq1 & Hns1).
    assert (Hle1 : forall x, (node_seq (topology r1) x <= k)%Z).
    { intros x. specialize (Hns1 x).
      destruct (String.eqb x s); [exact Hns1|]. specialize (Hle x). lia. }
    assert (Hlt1 : forall s', In s' srcs ->
                   (node_seq (topology r1) s' < k)%Z).
    { intros s' Hs'. specialize (Hns1 s').
      destruct (String.eqb_spec s' s) as [E|Hne];
        [rewrite E in Hs'; contradiction|].
      specialize (Hlt s' (or_intror Hs')). lia. }
    assert (Hgoal : forall r2,
              lsu_rate_limit r2 = lsu_rate_limit r1 ->
              lsu_window r2 = lsu_window r1 ->
              lsu_timestamps r2 = lsu_timestamps r1 ->
              topology r2 = topology r1 -> id r2 = id r1 ->
              sequence_number r2 = sequence_number r1 ->
              deliver PUBLIC_KEYS py_hash py_str clock r2 (S tick) lsus
              = Done (r', tick') ->
              tick' = tick + List.length (lsu :: lsus) /\
              limiter_after clock tick' (m + List.length (lsu :: lsus)) r' /\
              (forall x, (node_seq (topology r') x <= k)%Z) /\
              id r' = id r /\ sequence_number r' = sequence_number r).
    { intros r2 E1 E2 E3 E4 E5 E6 Hd.
      destruct (IH Hnd' r2 (S tick) (S m) r' tick')
        as (-> & Hlim' & Hle' & Hid' & Hsq').
      - now apply (limiter_after_frame (S tick) (S m) r1).
      - intros x. rewrite E4. apply Hle1.
      - intros s' Hs'. rewrite E4. now apply Hlt1.
      - exact Hd.
      - cbn [List.length]. split; [lia|].
        split; [now replace (m + S (List.length lsus))
                  with (S m + List.length lsus) by lia|].
        split; [exact Hle'|]. split; congruence. }
    destruct (returned o).
    + destruct (calculate_routes r1) as [r2 [e|]] eqn:Ec; [discriminate|].
      assert (E2 : r2 = fst (calculate_routes r1)) by now rewrite Ec.
      destruct (calculate_routes_frame r1) as (Hid2 & Hsq2 & Ht2 & Hts2).
      pose proof (calculate_routes_limit r1) as Hl2.
      pose proof (calculate_routes_window r1) as Hw2.
      rewrite <- E2 in *. now apply Hgoal.
    + now apply Hgoal.
Qed.

Lemma deliver_all_saturates k srcs lsus :
  Forall2 (lsu_seq k) srcs lsus -> NoDup srcs ->
  forall routers tick m routers' tick',
  Forall (fun r => limiter_after clock tick m r /\
                   forall x, (node_seq (topology r) x < k)%Z) routers ->
  deliver_all PUBLIC_KEYS py_hash py_str clock routers tick lsus
  = Done (routers', tick') ->
  tick <= tick' /\
  Forall (fun r => limiter_after clock tick' (m + List.length lsus) r /\
                   forall x, (node_seq (topology r) x <= k)%Z) routers' /\
  map id routers' = map id routers /\
  map sequence_number routers' = map sequence_number routers.
Proof.
  intros HF2 Hnd. induction routers as [|r routers IH];
    intros tick m routers' tick' Hall; cbn [deliver_all].
  - intros [= <- <-]. split; [lia|]. repeat split; constructor.
  - inversion Hall as [|? ? [Hlim Hlt] Hrest]; subst.
    destruct (deliver _ _ _ _ r tick lsus) as [[r1 t1]| |] eqn:Ed;
      try discriminate.
    destruct (deliver_all _ _ _ _ routers t1 lsus) as [[rs t2]| |] eqn:Eda;
      try discriminate.
    intros [= <- <-].
    destruct (deliver_saturates k srcs lsus HF2 Hnd r tick m r1 t1 Hlim
                (fun x => Z.lt_le_incl _ _ (Hlt x)) (fun s _ => Hlt s) Ed)
      as (-> & Hlim1 & Hle1 & Hid1 & Hsq1).
    destruct (IH (tick + List.length lsus) m rs t2) as (Hle & Hrs & Hids & Hsqs);
      [|exact Eda|].
    { eapply Forall_impl; [|exact Hrest]. intros r0 [Hl0 Hn0].
      split; [|exact Hn0]. eapply limiter_after_mono; [|exact Hl0]. lia. }
    split; [lia|]. split.
    + constructor; [|exact Hrs]. split; [|exact Hle1].
      eapply limiter_after_mono; [|exact Hlim1]. exact Hle.
    + cbn [map]. split; congruence.
Qed.

Lemma lsus_of_round k routers lsus :
  Forall2 (fun r lsu => lsu_seq (sequence_number r + 1)%Z (id r) lsu)
    routers lsus ->
  Forall (fun r => sequence_number r = k) routers ->
  Forall2 (lsu_seq (k + 1)%Z) (map id routers) lsus.
Proof.
  induction 1 as [|r lsu routers lsus Hl HF IH]; intros Hall; cbn [map];
    constructor; inversion Hall as [|? ? Hk Hrest]; subst.
  - exact Hl.
  - now apply IH.
Qed.

(** One round of the simulation on a fast clock. *)
Lemma round_saturates (graph : Graph Data) k routers tick m routers' tick' :
  NoDup (map id routers) ->
  Forall (fun r => sequence_number r = k /\ limiter_after clock tick m r /\
                   forall x, (node_seq (topology r) x <= k)%Z) routers ->
  convergence_round PUBLIC_KEYS py_hash py_str cost_of clock graph
    (routers, tick) = Done (routers', tick') ->
  tick <= tick' /\ map id routers' = map id routers /\
  Forall (fun r => sequence_number r = (k + 1)%Z /\
                   limiter_after clock tick' (m + List.length routers) r /\
                   forall x, (node_seq (topology r) x <= k + 1)%Z) routers'.
Proof.
  intros Hnd Hall. unfold convergence_round. cbn [fst snd].
  destruct (create_all _ _ _ _ graph routers) as [[rs lsus]| |] eqn:Ec;
    try discriminate.
  destruct (create_all_done graph routers rs lsus Ec) as [-> HF2].
  assert (Hseq : Forall (fun r => sequence_number r = k) routers).
  { eapply Forall_impl; [|exact Hall]. now intros r [Hk _]. }
  pose proof (lsus_of_round k routers lsus HF2 Hseq) as HF2'.
  pose proof (Forall2_length HF2') as Hlen. rewrite length_map in Hlen.
  intros Hd.
  destruct (deliver_all_saturates (k + 1)%Z (map id routers) lsus HF2' Hnd
              (map bump routers) tick m routers' tick')
    as (Hle & Hrs & Hids & Hsqs); [|exact Hd|].
  { apply (proj2 (Forall_map _ _ _)). eapply Forall_impl; [|exact Hall].
    intros r (_ & Hl & Hn). cbv beta.
    split; [now apply (limiter_after_frame tick m r)|].
    intros x. cbn [set_sequence_number topology]. specialize (Hn x). lia. }
  rewrite map_map in Hids, Hsqs. cbn [set_sequence_number id] in Hids.
  cbn [set_sequence_number sequence_number] in Hsqs.
  split; [exact Hle|]. split; [exact Hids|].
  apply Forall_forall. intros r Hr. rewrite Forall_forall in Hrs.
  destruct (Hrs r Hr) as [Hl Hn]. rewrite <- Hlen in Hl.
  split; [|split; [exact Hl | exact Hn]].
  assert (Hin : In (sequence_number r) (map sequence_number routers'))
    by now apply in_map.
  rewrite Hsqs in Hin. apply in_map_iff in Hin.
  destruct Hin as (r0 & <- & Hr0). rewrite Forall_forall in Hseq.
  now rewrite (Hseq r0 Hr0).
Qed.

Lemma rounds_saturates (graph : Graph Data) j :
  forall k routers tick m routers' tick',
  NoDup (map id routers) ->
  Forall (fun r => sequence_number r = k /\ limiter_after clock tick m r /\
                   forall x, (node_seq (topology r) x <= k)%Z) routers ->
  convergence_rounds PUBLIC_KEYS py_hash py_str cost_of clock j graph
    (routers, tick) = Done (routers', tick') ->
  tick <= tick' /\
  Forall (limiter_after clock tick' (m + j * List.length routers)) routers'.
Proof.
  induction j as [|j IH]; intros k routers tick m routers' tick' Hnd Hall;
    cbn [convergence_rounds].
  - intros [= <- <-]. split; [lia|]. rewrite Nat.add_0_r.
    eapply Forall_impl; [|exact Hall]. now intros r (_ & Hl & _).
  - destruct (convergence_round _ _ _ _ _ graph (routers, tick))
      as [[r1 t1]| |] eqn:Er; try discriminate.
    destruct (round_saturates graph k routers tick m r1 t1 Hnd Hall Er)
      as (Hle & Hids & Hall1).
    intros Hd.
    destruct (IH (k + 1)%Z r1 t1 (m + List.length routers) routers' tick')
      as (Hle' & Hfin); [now rewrite Hids | exact Hall1 | exact Hd|].
    split; [lia|].
    assert (Hlen : List.length r1 = List.length routers).
    { rewrite <- (length_map id r1), Hids. apply length_map. }
    rewrite Hlen in Hfin.
    now replace (m + S j * List.length routers)
      with (m + List.length routers + j * List.length routers) by lia.
Qed.

End SaturationFacts.

Section FastClock.
Context {Data : Type} {Time : Type} `{PyClock Time}.
Variable PUBLIC_KEYS : dict string.
Variable py_hash : string -> Z.
Variable py_str : LsuData (Cost := Z) -> string.
Variable cost_of : string -> Data -> result Z.
Variable clock : nat -> Time.

(** For a protocol class whose link cost is an integer computed from the
    neighbour and the data of the link, as that of [OSPFRouter] is: on a
    clock that does not leave one window of the rate limiter during the
    run, the initial convergence of the simulation with four routers or
    more fills the rate limiter of every router: when the rounds end without
    exception each router holds ten timestamps, and as long as the clock
    stays in the window [process_lsu] answers every advertisement, whatever
    its source, its sequence number and its tag, with "rate limit exceeded"
    and leaves the router as it is. *)
Theorem fast_clock_fills_rate_limiter (graph : Graph Data) routers tick :
  fast_clock clock ->
  4 <= List.length (dict_keys (g_node (copy graph))) ->
  initial_convergence PUBLIC_KEYS py_hash py_str cost_of clock graph
  = Done (routers, tick) ->
  forall r, In r routers ->
    List.length (lsu_timestamps r) = 10 /\
    forall t lsu,
      (forall j, j < tick -> age_le t (clock j) one_second = true) ->
      process_lsu PUBLIC_KEYS py_hash py_str r t lsu = (r, Ok RateLimited).
Proof.
  intros Hfast Hn. unfold initial_convergence. cbv zeta.
  rewrite length_map. intros Hrun r Hr.
  set (nodes := dict_keys (g_node (copy graph))) in *.
  destruct (rounds_saturates PUBLIC_KEYS py_hash py_str cost_of clock Hfast
              (copy graph) (List.length nodes) 0%Z (map new_router nodes)
              0 0 routers tick) as (_ & Hall); [| |exact Hrun|].
  { rewrite map_map. cbn [new_router id]. rewrite map_id.
    apply copy_keys_nodup. }
  { apply (proj2 (Forall_map _ _ _)). apply Forall_forall. intros n _.
    cbv beta. cbn [new_router sequence_number topology].
    split; [reflexivity|]. split; [|intros x; reflexivity].
    unfold limiter_after. cbn [new_router lsu_rate_limit lsu_window
                                 lsu_timestamps List.length].
    split; [reflexivity|]. split; [reflexivity|].
    split; [intros t []|reflexivity]. }
  rewrite Forall_forall in Hall.
  destruct (Hall r Hr) as (Hl & Hw & Hts & Hlen).
  rewrite length_map in Hlen.
  assert (H10 : List.length (lsu_timestamps r) = 10).
  { rewrite Hlen. apply Nat.min_l. cbn [Nat.add]. nia. }
  split; [exact H10|]. intros t lsu Ht.
  assert (Hev : evict r t = lsu_timestamps r).
  { unfold evict. apply filter_all. intros t0 Ht0.
    destruct (Hts t0 Ht0) as (j & Hj & ->). rewrite Hw. now apply Ht. }
  rewrite (process_lsu_rate_limited PUBLIC_KEYS py_hash py_str r t lsu)
    by (rewrite Hev, Hl, H10; lia).
  rewrite Hev. now destruct r.
Qed.

End FastClock.

Module ExtraRuns.
Import Scenario Runs.
Local Open Scope Z_scope.

Lemma create_lsu_sequence_increases_witness :
  snd (originate (new_router "R1") [("R0", 1)]) = Ok lsu_first /\
  snd (originate r1_after_two []) = Ok lsu_third /\
  data_sequence_number (data lsu_first)
  < data_sequence_number (data lsu_third).
Proof.
  assert (H1 : snd (originate (new_router "R1") [("R0", 1)]) = Ok lsu_first)
    by (vm_compute; reflexivity).
  assert (H2 : snd (originate r1_after_two []) = Ok lsu_third)
    by (vm_compute; reflexivity).
  refine (conj H1 (conj H2 _)).
  exact (create_lsu_sequence_increases keys hash_of str_of
           (new_router "R1") [("R0", 1)] [CallCreateLsu []] []
           lsu_first lsu_third H1 H2).
Defined.

Lemma rejected_lsu_only_evicts_witness :
  snd (receive routerA 5 lsu_forged) <> Ok Accepted /\
  fst (receive routerA 5 lsu_forged)
  = set_lsu_timestamps routerA (evict routerA 5).
Proof.
  assert (H1 : snd (receive routerA 5 lsu_forged) <> Ok Accepted)
    by (vm_compute; discriminate).
  refine (conj H1 _).
  exact (proj1 (rejected_lsu_only_evicts keys hash_of str_of routerA 5
                  lsu_forged H1)).
Defined.

Lemma altered_tag_rejected_witness :
  verify_signature keys hash_of str_of (data lsuA_R2) (signature lsuA_R2)
    (source_id (data lsuA_R2)) = Ok true /\
  signature lsuA_R2 + 1 <> signature lsuA_R2 /\
  (List.length (evict (new_router (Cost := Z) (Time := Z) "R0") 0%Z)
   < lsu_rate_limit (new_router (Cost := Z) (Time := Z) "R0"))%nat /\
  snd (receive (new_router "R0") 0 lsu_forged) = Ok InvalidTag.
Proof.
  assert (H1 : verify_signature keys hash_of str_of (data lsuA_R2)
                 (signature lsuA_R2) (source_id (data lsuA_R2)) = Ok true)
    by reflexivity.
  assert (H2 : signature lsuA_R2 + 1 <> signature lsuA_R2) by lia.
  assert (H3 : (List.length
                  (evict (new_router (Cost := Z) (Time := Z) "R0") 0%Z)
                < lsu_rate_limit
                    (new_router (Cost := Z) (Time := Z) "R0"))%nat)
    by (vm_compute; lia).
  refine (conj H1 (conj H2 (conj H3 _))).
  change (receive (new_router "R0") 0 lsu_forged)
    with (process_lsu keys hash_of str_of (new_router "R0") 0
            {| data := data lsuA_R2; signature := signature lsuA_R2 + 1 |}).
  now rewrite (altered_tag_rejected keys hash_of str_of (new_router "R0") 0
                 (data lsuA_R2) (signature lsuA_R2) (signature lsuA_R2 + 1)
                 H1 H2 H3).
Defined.

Lemma unknown_source_key_error_witness :
  dict_get (source_id (data lsu_stranger)) keys = None /\
  (List.length (evict routerA 5%Z) < lsu_rate_limit routerA)%nat /\
  receive routerA 5 lsu_stranger
  = (set_lsu_timestamps routerA (evict routerA 5), Raised KeyError).
Proof.
  assert (H1 : dict_get (source_id (data lsu_stranger)) keys = None)
    by reflexivity.
  assert (H2 : (List.length (evict routerA 5%Z)
                < lsu_rate_limit routerA)%nat) by (vm_compute; lia).
  refine (conj H1 (conj H2 _)).
  exact (unknown_source_key_error keys hash_of str_of routerA 5
           lsu_stranger H1 H2).
Defined.

Lemma fresh_valid_lsu_accepted_witness :
  (List.length (evict routerA 5%Z) < lsu_rate_limit routerA)%nat /\
  verify_signature keys hash_of str_of (data lsuB_R3) (signature lsuB_R3)
    (source_id (data lsuB_R3)) = Ok true /\
  has_node (topology routerA) (source_id (data lsuB_R3)) = false /\
  snd (receive routerA 5 lsuB_R3) = Ok Accepted.
Proof.
  assert (H1 : (List.length (evict routerA 5%Z)
                < lsu_rate_limit routerA)%nat) by (vm_compute; lia).
  assert (H2 : verify_signature keys hash_of str_of (data lsuB_R3)
                 (signature lsuB_R3) (source_id (data lsuB_R3)) = Ok true)
    by reflexivity.
  assert (H3 : has_node (topology routerA) (source_id (data lsuB_R3))
               = false) by reflexivity.
  refine (conj H1 (conj H2 (conj H3 _))).
  exact (proj1 (fresh_valid_lsu_accepted keys hash_of str_of routerA 5
                  lsuB_R3 H1 H2 (or_introl H3))).
Defined.

Lemma stored_sequence_never_decreases_witness :
  has_node (topology routerS1) "R1" = true /\
  has_node
    (topology (run keys hash_of str_of routerS1
                 [CallProcessLsu 1 lsuS_v2; CallCalculateRoutes])) "R1"
  = true /\
  node_seq (topology routerS1) "R1"
  <= node_seq
       (topology (run keys hash_of str_of routerS1
                    [CallProcessLsu 1 lsuS_v2; CallCalculateRoutes])) "R1".
Proof.
  assert (H1 : has_node (topology routerS1) "R1" = true) by reflexivity.
  refine (conj H1 _).
  exact (stored_sequence_never_decreases keys hash_of str_of routerS1
           [CallProcessLsu 1 lsuS_v2; CallCalculateRoutes] "R1" H1).
Defined.

Lemma accepted_lsu_not_accepted_again_witness :
  receive (new_router "R0") 0 lsuS_v1 = (routerS1, Ok Accepted) /\
  snd (receive
         (run keys hash_of str_of routerS1 [CallCalculateRoutes]) 7 lsuS_v1)
  <> Ok Accepted.
Proof.
  assert (H1 : receive (new_router "R0") 0 lsuS_v1 = (routerS1, Ok Accepted))
    by (vm_compute; reflexivity).
  refine (conj H1 _).
  exact (accepted_lsu_not_accepted_again keys hash_of str_of
           (new_router "R0") 0 lsuS_v1 routerS1 [CallCalculateRoutes] 7 H1).
Defined.

Lemma originated_lsu_installs_links_witness :
  snd (originate (new_router "R1") [("R0", 1)]) = Ok lsu_first /\
  NoDup (dict_keys [("R0", 1)]) /\
  graph_ok (topology (new_router (Cost := Z) (Time := Z) "R0")) /\
  (List.length (evict (new_router (Cost := Z) (Time := Z) "R0") 0%Z)
   < lsu_rate_limit (new_router (Cost := Z) (Time := Z) "R0"))%nat /\
  has_node (topology (new_router (Cost := Z) (Time := Z) "R0"))
    (id (new_router (Cost := Z) (Time := Z) "R1")) = false /\
  snd (receive (new_router "R0") 0 lsu_first) = Ok Accepted.
Proof.
  assert (H1 : snd (originate (new_router "R1") [("R0", 1)]) = Ok lsu_first)
    by (vm_compute; reflexivity).
  assert (H2 : NoDup (dict_keys [("R0", 1)])).
  { repeat constructor. intros []. }
  assert (H3 : graph_ok (topology (new_router (Cost := Z) (Time := Z) "R0")))
    by apply graph_ok_empty.
  assert (H4 : (List.length
                  (evict (new_router (Cost := Z) (Time := Z) "R0") 0%Z)
                < lsu_rate_limit
                    (new_router (Cost := Z) (Time := Z) "R0"))%nat)
    by (vm_compute; lia).
  assert (H5 : has_node (topology (new_router (Cost := Z) (Time := Z) "R0"))
                 (id (new_router (Cost := Z) (Time := Z) "R1")) = false)
    by reflexivity.
  refine (conj H1 (conj H2 (conj H3 (conj H4 (conj H5 _))))).
  exact (proj1 (originated_lsu_installs_links keys hash_of str_of
                  (new_router "R1") [("R0", 1)] lsu_first (new_router "R0") 0
                  H1 H2 H3 H4 (or_introl H5))).
Defined.

Lemma topology_B_wf : graph_wf (topology routerB).
Proof.
  change routerB
    with (run keys hash_of str_of (new_router "R0") callsB).
  apply run_graph_wf. apply graph_wf_empty.
Qed.

Lemma database_stays_well_formed_witness :
  graph_wf (topology (new_router (Cost := Z) (Time := Z) "R0")) /\
  graph_wf
    (topology (run keys hash_of str_of (new_router "R0") callsB)).
Proof.
  assert (H1 : graph_wf
                 (topology (new_router (Cost := Z) (Time := Z) "R0")))
    by apply graph_wf_empty.
  refine (conj H1 _).
  exact (database_stays_well_formed keys hash_of str_of (new_router "R0")
           callsB H1).
Defined.

Lemma routing_table_entry_shape_witness :
  has_node (topology routerB) (id routerB) = true /\
  dict_get "R2" (routing_table (fst (calculate_routes routerB)))
    = Some {| next_hop := "R1"; total_cost := 2;
              path := ["R0"; "R1"; "R2"];
              backup_path := Some ["R0"; "R3"; "R2"];
              backup_cost := Some 4 |} /\
  NoDup ["R0"; "R1"; "R2"] /\
  has_edge (topology routerB) "R0" "R1" = true.
Proof.
  assert (H1 : has_node (topology routerB) (id routerB) = true)
    by reflexivity.
  assert (H2 : dict_get "R2" (routing_table (fst (calculate_routes routerB)))
    = Some {| next_hop := "R1"; total_cost := 2;
              path := ["R0"; "R1"; "R2"];
              backup_path := Some ["R0"; "R3"; "R2"];
              backup_cost := Some 4 |}) by (vm_compute; reflexivity).
  pose proof (routing_table_entry_shape routerB "R2" _ H1 H2)
    as (_ & _ & _ & _ & Hnd & _ & He).
  exact (conj H1 (conj H2 (conj Hnd He))).
Defined.

Lemma backup_path_shape_witness :
  graph_wf (topology routerB) /\
  has_node (topology routerB) (id routerB) = true /\
  dict_get "R2" (routing_table (fst (calculate_routes routerB)))
    = Some {| next_hop := "R1"; total_cost := 2;
              path := ["R0"; "R1"; "R2"];
              backup_path := Some ["R0"; "R3"; "R2"];
              backup_cost := Some 4 |} /\
  NoDup ["R0"; "R3"; "R2"] /\
  is_walk (topology routerB) ["R0"; "R3"; "R2"].
Proof.
  assert (H0 : graph_wf (topology routerB)) by apply topology_B_wf.
  assert (H1 : has_node (topology routerB) (id routerB) = true)
    by reflexivity.
  assert (H2 : dict_get "R2" (routing_table (fst (calculate_routes routerB)))
    = Some {| next_hop := "R1"; total_cost := 2;
              path := ["R0"; "R1"; "R2"];
              backup_path := Some ["R0"; "R3"; "R2"];
              backup_cost := Some 4 |}) by (vm_compute; reflexivity).
  pose proof (backup_path_shape routerB "R2" _ ["R0"; "R3"; "R2"]
                H0 H1 H2 eq_refl) as (_ & _ & Hnd & Hw).
  exact (conj H0 (conj H1 (conj H2 (conj Hnd Hw)))).
Defined.

Lemma no_route_without_links_witness :
  has_node (topology router_lonely) (id router_lonely) = true /\
  (forall x, has_edge (topology router_lonely) x "R3" = false) /\
  has_node (topology router_lonely) "R3" = true /\
  dict_get "R3" (routing_table (fst (calculate_routes router_lonely)))
  = None.
Proof.
  assert (H1 : has_node (topology router_lonely) (id router_lonely) = true)
    by reflexivity.
  assert (H2 : forall x, has_edge (topology router_lonely) x "R3" = false).
  { intros x. unfold has_edge, neighbors, adj_nbrs.
    change (g_adj (topology router_lonely))
      with [("R1", [("R0", 1); ("R2", 1)]); ("R0", [("R1", 1)]);
            ("R2", [("R1", 1)]); ("R3", @nil (string * Z))].
    cbn [dict_get].
    destruct (String.eqb x "R1"); [reflexivity|].
    destruct (String.eqb x "R0"); [reflexivity|].
    destruct (String.eqb x "R2"); [reflexivity|].
    destruct (String.eqb x "R3"); reflexivity. }
  refine (conj H1 (conj H2 (conj eq_refl _))).
  exact (proj1 (no_route_without_links router_lonely H1) "R3" H2).
Defined.

Lemma entry_cost_is_path_cost_witness :
  graph_wf (topology routerB) /\
  has_node (topology routerB) (id routerB) = true /\
  dict_get "R2" (routing_table (fst (calculate_routes routerB)))
    = Some {| next_hop := "R1"; total_cost := 2;
              path := ["R0"; "R1"; "R2"];
              backup_path := Some ["R0"; "R3"; "R2"];
              backup_cost := Some 4 |} /\
  walk_cost (topology routerB) ["R0"; "R1"; "R2"] = Some 2 /\
  walk_cost (topology routerB) ["R0"; "R3"; "R2"] = Some 4.
Proof.
  assert (H0 : graph_wf (topology routerB)) by apply topology_B_wf.
  assert (H1 : has_node (topology routerB) (id routerB) = true)
    by reflexivity.
  assert (H2 : dict_get "R2" (routing_table (fst (calculate_routes routerB)))
    = Some {| next_hop := "R1"; total_cost := 2;
              path := ["R0"; "R1"; "R2"];
              backup_path := Some ["R0"; "R3"; "R2"];
              backup_cost := Some 4 |}) by (vm_compute; reflexivity).
  pose proof (entry_cost_is_path_cost routerB "R2" _ H0 H1 H2) as [Hp Hb].
  exact (conj H0 (conj H1 (conj H2
           (conj Hp (Hb ["R0"; "R3"; "R2"] 4 eq_refl eq_refl))))).
Defined.

Lemma collect_links_announces_neighbors_witness :
  NoDup (dict_keys (neighbors phys "R1")) /\
  collect_links static_cost (neighbors phys "R1") []
  = Ok [("R0", 10); ("R2", 1)] /\
  dict_keys [("R0", 10); ("R2", 1)] = dict_keys (neighbors phys "R1").
Proof.
  assert (H1 : NoDup (dict_keys (neighbors phys "R1"))).
  { vm_compute. repeat constructor; simpl; intuition discriminate. }
  assert (E : collect_links static_cost (neighbors phys "R1") []
              = Ok [("R0", 10); ("R2", 1)]) by (vm_compute; reflexivity).
  pose proof (collect_links_announces_neighbors static_cost
                (neighbors phys "R1") H1) as Hthm.
  rewrite E in Hthm.
  exact (conj H1 (conj E (proj1 Hthm))).
Defined.

Lemma break_removes_sampled_links_witness :
  graph_wf phys /\
  NoDup (sample_first (all_edges phys)
           (Nat.min 1 (List.length (all_edges phys)))) /\
  incl (sample_first (all_edges phys)
          (Nat.min 1 (List.length (all_edges phys)))) (all_edges phys) /\
  exists g,
    break_n_random_links sample_first phys 1 = Some (g, [("R0", "R1")]) /\
    edge_cost g "R1" "R0" = None /\
    edge_cost g "R1" "R2" = edge_cost phys "R1" "R2".
Proof.
  assert (H0 : graph_wf phys)
    by apply build_topology_wf.
  assert (H1 : NoDup (sample_first (all_edges phys)
                        (Nat.min 1 (List.length (all_edges phys))))).
  { vm_compute. repeat constructor. intros []. }
  assert (H2 : incl (sample_first (all_edges phys)
                       (Nat.min 1 (List.length (all_edges phys))))
                 (all_edges phys)).
  { vm_compute. intros e [<-|[]]. now left. }
  refine (conj H0 (conj H1 (conj H2 _))).
  destruct (break_removes_sampled_links sample_first phys 1 H0 H1 H2)
    as (g & Hb & _ & _ & He).
  exists g. split; [exact Hb|]. split; rewrite He; reflexivity.
Defined.

(** On the float clock: ten advertisements accepted between 0.0 and 0.9
    fill the list; at 2.5 all of them are too old. *)
Lemma rate_limiter_recovers_witness :
  List.length (lsu_timestamps ClockRuns.full_router) = 10%nat /\
  (forall t, In t (lsu_timestamps ClockRuns.full_router) ->
     age_le 2.5%float t (lsu_window ClockRuns.full_router) = false) /\
  (0 < lsu_rate_limit ClockRuns.full_router)%nat /\
  verify_signature keys hash_of str_of (data lsuA_R2) (signature lsuA_R2)
    (source_id (data lsuA_R2)) = Ok true /\
  has_node (topology ClockRuns.full_router) (source_id (data lsuA_R2))
  = false /\
  snd (process_lsu keys hash_of str_of ClockRuns.full_router 2.5%float
         lsuA_R2) = Ok Accepted /\
  lsu_timestamps (fst (process_lsu keys hash_of str_of ClockRuns.full_router
                         2.5%float lsuA_R2)) = [2.5%float].
Proof.
  assert (H1 : forall t, In t (lsu_timestamps ClockRuns.full_router) ->
               age_le 2.5%float t (lsu_window ClockRuns.full_router)
               = false).
  { intros t Hin. vm_compute in Hin.
    repeat (destruct Hin as [<-|Hin]; [vm_compute; reflexivity|]).
    destruct Hin. }
  assert (H2 : (0 < lsu_rate_limit ClockRuns.full_router)%nat)
    by (vm_compute; lia).
  assert (H3 : verify_signature keys hash_of str_of (data lsuA_R2)
                 (signature lsuA_R2) (source_id (data lsuA_R2)) = Ok true)
    by reflexivity.
  assert (H4 : has_node (topology ClockRuns.full_router)
                 (source_id (data lsuA_R2)) = false)
    by (vm_compute; reflexivity).
  refine (conj _ (conj H1 (conj H2 (conj H3 (conj H4 _))))).
  - vm_compute. reflexivity.
  - exact (proj2 (rate_limiter_recovers keys hash_of str_of
                    ClockRuns.full_router 2.5%float lsuA_R2 H1 H2 H3
                    (or_introl H4))).
Defined.

Lemma topology_B_nonneg : nonneg_costs (topology routerB).
Proof. apply nonneg_costsb_sound. vm_compute. reflexivity. Qed.

Lemma topology_B_adj : nodes_have_adj (topology routerB).
Proof. apply nodes_have_adjb_sound. vm_compute. reflexivity. Qed.

Lemma routes_reach_connected_nodes_witness :
  graph_wf (topology routerB) /\
  nonneg_costs (topology routerB) /\
  nodes_have_adj (topology routerB) /\
  has_node (topology routerB) (id routerB) = true /\
  snd (calculate_routes routerB) = None /\
  (dict_get "R2" (routing_table (fst (calculate_routes routerB))) <> None <->
   "R2" <> id routerB /\
   exists p w, walk_from_to (topology routerB) (id routerB) "R2" p w).
Proof.
  assert (H0 : graph_wf (topology routerB)) by apply topology_B_wf.
  assert (Hn : nonneg_costs (topology routerB)) by apply topology_B_nonneg.
  assert (Ha : nodes_have_adj (topology routerB)) by apply topology_B_adj.
  assert (H1 : has_node (topology routerB) (id routerB) = true)
    by reflexivity.
  pose proof (routes_reach_connected_nodes routerB H0 Hn Ha H1) as [Hs Hiff].
  exact (conj H0 (conj Hn (conj Ha (conj H1 (conj Hs (Hiff "R2")))))).
Defined.

Lemma primary_path_is_cheapest_witness :
  graph_wf (topology routerB) /\
  nonneg_costs (topology routerB) /\
  nodes_have_adj (topology routerB) /\
  has_node (topology routerB) (id routerB) = true /\
  dict_get "R2" (routing_table (fst (calculate_routes routerB)))
    = Some {| next_hop := "R1"; total_cost := 2;
              path := ["R0"; "R1"; "R2"];
              backup_path := Some ["R0"; "R3"; "R2"];
              backup_cost := Some 4 |} /\
  walk_from_to (topology routerB) (id routerB) "R2" ["R0"; "R1"; "R2"] 2 /\
  forall p w, walk_from_to (topology routerB) (id routerB) "R2" p w -> 2 <= w.
Proof.
  assert (H0 : graph_wf (topology routerB)) by apply topology_B_wf.
  assert (Hn : nonneg_costs (topology routerB)) by apply topology_B_nonneg.
  assert (Ha : nodes_have_adj (topology routerB)) by apply topology_B_adj.
  assert (H1 : has_node (topology routerB) (id routerB) = true)
    by reflexivity.
  assert (H2 : dict_get "R2" (routing_table (fst (calculate_routes routerB)))
    = Some {| next_hop := "R1"; total_cost := 2;
              path := ["R0"; "R1"; "R2"];
              backup_path := Some ["R0"; "R3"; "R2"];
              backup_cost := Some 4 |}) by (vm_compute; reflexivity).
  exact (conj H0 (conj Hn (conj Ha (conj H1 (conj H2
           (primary_path_is_cheapest routerB "R2" _ H0 Hn Ha H1 H2)))))).
Defined.

Lemma backup_path_is_cheapest_detour_witness :
  graph_wf (topology routerB) /\
  nonneg_costs (topology routerB) /\
  nodes_have_adj (topology routerB) /\
  has_node (topology routerB) (id routerB) = true /\
  dict_get "R2" (routing_table (fst (calculate_routes routerB)))
    = Some {| next_hop := "R1"; total_cost := 2;
              path := ["R0"; "R1"; "R2"];
              backup_path := Some ["R0"; "R3"; "R2"];
              backup_cost := Some 4 |} /\
  exists c,
    walk_from_to (topology routerB) (id routerB) "R2" ["R0"; "R3"; "R2"] c /\
    avoids_links ["R0"; "R3"; "R2"] ["R0"; "R1"; "R2"] /\
    (Some 4 = Some c \/ (c = 0 /\ Some 4 = None)) /\
    forall p w, walk_from_to (topology routerB) (id routerB) "R2" p w ->
                avoids_links p ["R0"; "R1"; "R2"] -> c <= w.
Proof.
  assert (H0 : graph_wf (topology routerB)) by apply topology_B_wf.
  assert (Hn : nonneg_costs (topology routerB)) by apply topology_B_nonneg.
  assert (Ha : nodes_have_adj (topology routerB)) by apply topology_B_adj.
  assert (H1 : has_node (topology routerB) (id routerB) = true)
    by reflexivity.
  assert (H2 : dict_get "R2" (routing_table (fst (calculate_routes routerB)))
    = Some {| next_hop := "R1"; total_cost := 2;
              path := ["R0"; "R1"; "R2"];
              backup_path := Some ["R0"; "R3"; "R2"];
              backup_cost := Some 4 |}) by (vm_compute; reflexivity).
  pose proof (backup_path_is_cheapest_detour routerB "R2" _ H0 Hn Ha H1 H2)
    as [Hb _].
  exact (conj H0 (conj Hn (conj Ha (conj H1 (conj H2
           (Hb ["R0"; "R3"; "R2"] eq_refl)))))).
Defined.

Lemma fed_router_stays_routable_witness :
  calls_nonneg callsB /\
  graph_wf (topology (run keys hash_of str_of (new_router "R0") callsB)) /\
  nonneg_costs (topology (run keys hash_of str_of (new_router "R0") callsB)) /\
  nodes_have_adj
    (topology (run keys hash_of str_of (new_router "R0") callsB)) /\
  snd (calculate_routes (run keys hash_of str_of (new_router "R0") callsB))
  = None.
Proof.
  assert (Hc : calls_nonneg callsB).
  { intros t lsu n c [E|[E|[]]] Hl; injection E as <- <-;
      vm_compute in Hl;
      repeat (destruct Hl as [Hl|Hl]; [injection Hl as <- <-; lia|]);
      destruct Hl. }
  exact (conj Hc
           (fed_router_stays_routable keys hash_of str_of "R0" callsB Hc)).
Defined.

(** The simulation on the topology [phys], with keys for R0 to R3 and the
    clock whose call number [n] returns [n]. *)
Lemma phys_keys n :
  In n (dict_keys (g_node (copy phys))) -> dict_get n keys <> None.
Proof.
  intros Hn. vm_compute in Hn.
  destruct Hn as [<-|[<-|[<-|[]]]]; vm_compute; discriminate.
Qed.

Lemma phys_bandwidth u v d :
  edge_cost phys u v = Some d -> LinkCost.static_cost_defined d = true.
Proof.
  intros He. destruct (edge_cost_entry phys u v d He) as (nbrs & Hu & Hv).
  vm_compute in Hu.
  destruct Hu as [Hu|[Hu|[Hu|[]]]]; injection Hu as <- <-;
    vm_compute in Hv;
    repeat (destruct Hv as [Hv|Hv]; [injection Hv as <- <-; reflexivity|]);
    destruct Hv.
Qed.

Lemma mesh_keys_known n :
  In n (dict_keys (g_node (copy SimRuns.mesh))) ->
  dict_get n SimRuns.mesh_keys <> None.
Proof.
  intros Hn. vm_compute in Hn.
  repeat (destruct Hn as [<-|Hn]; [vm_compute; discriminate|]).
  destruct Hn.
Qed.

Lemma mesh_bandwidth u v d :
  edge_cost SimRuns.mesh u v = Some d ->
  LinkCost.static_cost_defined d = true.
Proof.
  intros He.
  destruct (edge_cost_entry SimRuns.mesh u v d He) as (nbrs & Hu & Hv).
  vm_compute in Hu.
  repeat (destruct Hu as [Hu|Hu];
          [injection Hu as <- <-; vm_compute in Hv;
           repeat (destruct Hv as [Hv|Hv];
                   [injection Hv as <- <-; reflexivity|]);
           destruct Hv|]).
  destruct Hu.
Qed.

Lemma ospf_convergence_learns_topology_witness :
  graph_wf phys /\
  (forall n, In n (dict_keys (g_node (copy phys))) ->
     dict_get n keys <> None) /\
  (List.length (dict_keys (g_node (copy phys))) <= 10)%nat /\
  (forall u v d, edge_cost phys u v = Some d ->
     LinkCost.static_cost_defined d = true) /\
  exists routers tick,
    initial_convergence keys hash_of str_of ospf_cost_of Z.of_nat phys
    = Done (routers, tick) /\
    map id routers = dict_keys (g_node (copy phys)) /\
    forall r, In r routers ->
      (forall u v, edge_cost (topology r) u v
                   = link_cost_in ospf_cost_of phys u v) /\
      has_node (topology r) (id r) = true /\
      graph_wf (topology r) /\ nonneg_costs (topology r) /\
      nodes_have_adj (topology r) /\ table_current r.
Proof.
  assert (H0 : graph_wf phys) by apply build_topology_wf.
  assert (H2 : (List.length (dict_keys (g_node (copy phys))) <= 10)%nat)
    by (vm_compute; lia).
  exact (conj H0 (conj phys_keys (conj H2 (conj phys_bandwidth
           (ospf_convergence_learns_topology keys hash_of str_of Z.of_nat
              phys H0 phys_keys H2 phys_bandwidth))))).
Defined.

(** The mesh of six routers on a float clock: the cheapest way from R0 to
    R5 leads over R1 and R2 and costs 1 + 4 + 2. *)
Lemma ospf_simulation_returns_cheapest_cost_witness :
  graph_wf SimRuns.mesh /\
  (forall n, In n (dict_keys (g_node (copy SimRuns.mesh))) ->
     dict_get n SimRuns.mesh_keys <> None) /\
  (List.length (dict_keys (g_node (copy SimRuns.mesh))) <= 10)%nat /\
  (forall u v d, edge_cost SimRuns.mesh u v = Some d ->
     LinkCost.static_cost_defined d = true) /\
  In "R0" (dict_keys (g_node (copy SimRuns.mesh))) /\
  run_protocol_simulation SimRuns.mesh_keys hash_of str_of ospf_cost_of
    SimRuns.quarter_clock SimRuns.mesh = Done (Some 7) /\
  exists routers tick r0 c,
    initial_convergence SimRuns.mesh_keys hash_of str_of ospf_cost_of
      SimRuns.quarter_clock SimRuns.mesh
    = Done (routers, tick) /\
    In r0 routers /\ id r0 = "R0" /\
    (forall u v, edge_cost (topology r0) u v
                 = link_cost_in ospf_cost_of SimRuns.mesh u v) /\
    run_protocol_simulation SimRuns.mesh_keys hash_of str_of ospf_cost_of
      SimRuns.quarter_clock SimRuns.mesh
    = Done c /\
    match c with
    | Some w =>
        (exists p, walk_from_to (topology r0) "R0" "R5" p w) /\
        forall p w', walk_from_to (topology r0) "R0" "R5" p w' -> w <= w'
    | None => forall p w, ~ walk_from_to (topology r0) "R0" "R5" p w
    end.
Proof.
  assert (H0 : graph_wf SimRuns.mesh) by apply build_topology_wf.
  assert (H2 : (List.length (dict_keys (g_node (copy SimRuns.mesh)))
                <= 10)%nat) by (vm_compute; lia).
  assert (H4 : In "R0" (dict_keys (g_node (copy SimRuns.mesh))))
    by (vm_compute; now left).
  assert (H5 : run_protocol_simulation SimRuns.mesh_keys hash_of str_of
                 ospf_cost_of SimRuns.quarter_clock SimRuns.mesh
               = Done (Some 7)) by (vm_compute; reflexivity).
  exact (conj H0 (conj mesh_keys_known (conj H2 (conj mesh_bandwidth
           (conj H4 (conj H5
              (ospf_simulation_returns_cheapest_cost SimRuns.mesh_keys
                 hash_of str_of SimRuns.quarter_clock SimRuns.mesh H0
                 mesh_keys_known H2 mesh_bandwidth H4))))))).
Defined.

Lemma ospf_cost_edge_cases_witness :
  (LinkCost.bandwidth LinkCost.dead_link =? 0)%float = true /\
  is_nan (LinkCost.bandwidth LinkCost.nan_link) = true /\
  (LinkCost.bandwidth LinkCost.negative_link <? 0)%float = true /\
  (LinkCost.bandwidth LinkCost.faint_negative_link <? 0)%float = true /\
  LinkCost.ospf_calculate_link_cost LinkCost.dead_link
  = Raised ZeroDivisionError /\
  LinkCost.ospf_calculate_link_cost LinkCost.nan_link = Raised ValueError /\
  LinkCost.ospf_calculate_link_cost LinkCost.negative_link = Ok 1 /\
  LinkCost.ospf_calculate_link_cost LinkCost.faint_negative_link
  = Raised OverflowError.
Proof.
  assert (H1 : (LinkCost.bandwidth LinkCost.dead_link =? 0)%float = true)
    by reflexivity.
  assert (H2 : is_nan (LinkCost.bandwidth LinkCost.nan_link) = true)
    by reflexivity.
  assert (H3 : (LinkCost.bandwidth LinkCost.negative_link <? 0)%float = true)
    by reflexivity.
  assert (H4 : (LinkCost.bandwidth LinkCost.faint_negative_link <? 0)%float
               = true) by reflexivity.
  refine (conj H1 (conj H2 (conj H3 (conj H4 (conj _ (conj _ (conj _ _))))))).
  - exact (proj1 (StaticCostExtras.ospf_cost_edge_cases LinkCost.dead_link)
             H1).
  - exact (proj1 (proj2 (StaticCostExtras.ospf_cost_edge_cases
                           LinkCost.nan_link)) H2).
  - exact (proj2 (proj2 (StaticCostExtras.ospf_cost_edge_cases
                           LinkCost.negative_link)) H3).
  - exact (proj2 (proj2 (StaticCostExtras.ospf_cost_edge_cases
                           LinkCost.faint_negative_link)) H4).
Defined.

(** The ring of four routers on a clock that stands still. *)
Lemma fast_clock_fills_rate_limiter_witness :
  fast_clock SimRuns.still_clock /\
  (4 <= List.length (dict_keys (g_node (copy SimRuns.ring))))%nat /\
  initial_convergence keys hash_of str_of ospf_cost_of SimRuns.still_clock
    SimRuns.ring
  = Done (fst SimRuns.ring_run, snd SimRuns.ring_run) /\
  forall r, In r (fst SimRuns.ring_run) ->
    List.length (lsu_timestamps r) = 10%nat /\
    forall t lsu,
      (forall j, (j < snd SimRuns.ring_run)%nat ->
         age_le t (SimRuns.still_clock j) one_second = true) ->
      process_lsu keys hash_of str_of r t lsu = (r, Ok RateLimited).
Proof.
  assert (H1 : fast_clock SimRuns.still_clock)
    by (intros i j _; reflexivity).
  assert (H2 : (4 <= List.length
                       (dict_keys (g_node (copy SimRuns.ring))))%nat)
    by (vm_compute; lia).
  assert (H3 : initial_convergence keys hash_of str_of ospf_cost_of
                 SimRuns.still_clock SimRuns.ring
               = Done (fst SimRuns.ring_run, snd SimRuns.ring_run))
    by (vm_compute; reflexivity).
  exact (conj H1 (conj H2 (conj H3
           (fast_clock_fills_rate_limiter keys hash_of str_of ospf_cost_of
              SimRuns.still_clock SimRuns.ring _ _ H1 H2 H3)))).
Defined.

End ExtraRuns.

